(** * QuantuMotion: the per-tick physics/chemistry loop

    A shallow embedding of [src/constants.ts] and of the two [useFrame]
    loops of [src/components/Scene.tsx] (the file occurs twice in the
    repository; the two copies are called the first and the second variant).

    Conventions of the embedding.
    - A JavaScript [number] is a real number ([R]): no rounding, no NaN, no
      infinities.  Comparisons are the decidable comparisons of [R]; they
      are classical, so a concrete state is evaluated by rewriting with
      the lemmas of section "Evaluation helpers" instead of by computation.
    - [Math.random()] and [uuidv4()] are oracles: a tick receives the
      infinite sequence of values the calls will return, consumes it in
      program order and hands the rest back.
    - three.js vectors are mutable objects.  Every place where the source
      relies on in-place mutation (the force accumulators, [multiplyScalar]
      applied twice to the same vector, charges written through the atom
      array) is written out as explicit state passing. *)

From Stdlib Require Import Reals Lra Lia String List.
From stdpp Require Import base option list strings gmap pretty.

#[local] Open Scope R_scope.

(** ** Numbers and oracles *)

#[global] Instance Rlt_decision (x y : R) : Decision (x < y) := Rlt_dec x y.
#[global] Instance R_eq_decision : EqDecision R := Req_dec_T.
#[global] Instance R_inhabited : Inhabited R := populate 0.

(** [a < b], [a > b], [a >= b], [a <= b], [a !== b] of JavaScript. *)
Definition ltb (a b : R) : bool := bool_decide (a < b).
Definition gtb (a b : R) : bool := bool_decide (b < a).
Definition geb (a b : R) : bool := negb (ltb a b).
Definition leb (a b : R) : bool := negb (gtb a b).
Definition neqb (a b : R) : bool := negb (bool_decide (a = b)).

(** [Math.sign]. *)
Definition sign (a : R) : R :=
  if bool_decide (0 < a) then 1 else if bool_decide (a < 0) then -1 else 0.

(** [!x] for a value that is an object or [null]. *)
Definition isNull {A} (o : option A) : bool :=
  match o with None => true | Some _ => false end.

(** An oracle is the sequence of the results of its future calls. *)
Definition oracle (A : Type) : Type := nat -> A.

Definition next {A} (o : oracle A) : A := o 0%nat.
Definition rest {A} (o : oracle A) : oracle A := fun n => o (S n).

(** ** three.js [Vector3] (the methods the loop uses) *)

Module Vector3.

Record t : Type := mk { x : R; y : R; z : R }.

Definition zero : t := mk 0 0 0.

Definition add (a b : t) : t := mk (x a + x b) (y a + y b) (z a + z b).
Definition sub (a b : t) : t := mk (x a - x b) (y a - y b) (z a - z b).
Definition negate (a : t) : t := mk (- x a) (- y a) (- z a).
Definition multiplyScalar (a : t) (s : R) : t := mk (x a * s) (y a * s) (z a * s).
Definition divideScalar (a : t) (s : R) : t := multiplyScalar a (1 / s).
Definition lengthSq (a : t) : R := x a * x a + y a * y a + z a * z a.
Definition length (a : t) : R := sqrt (lengthSq a).

(** [normalize] is [divideScalar(length() || 1)]: the zero vector stays. *)
Definition normalize (a : t) : t :=
  divideScalar a (if bool_decide (length a = 0) then 1 else length a).

Definition subVectors (a b : t) : t := sub a b.
Definition addVectors (a b : t) : t := add a b.
Definition distanceTo (a b : t) : R := length (sub a b).
Definition crossVectors (a b : t) : t :=
  mk (y a * z b - z a * y b) (z a * x b - x a * z b) (x a * y b - y a * x b).

End Vector3.

Abbreviation Vector3 := Vector3.t.

#[global] Instance Vector3_inhabited : Inhabited Vector3 := populate Vector3.zero.

(** ** Data model ([types.ts]) *)

Inductive AtomType : Type :=
  | Hydrogen | Helium | Lithium | Beryllium | Carbon | Nitrogen | Oxygen
  | Fluorine | Neon | Sodium | Phosphorus | Sulfur | Chlorine.

#[global] Instance AtomType_eq_dec : EqDecision AtomType.
Proof. solve_decision. Defined.

Inductive BondType : Type := covalent | ionic | metallic.

#[global] Instance BondType_eq_dec : EqDecision BondType.
Proof. solve_decision. Defined.

(** [order: 1 | 2 | 3]. *)
Inductive BondOrder : Type := Single | Double | Triple.

Definition orderValue (o : BondOrder) : R :=
  match o with Single => 1 | Double => 2 | Triple => 3 end.

(** [AtomData].  The fields [color] and [electrons] are read by the
    rendering layer only and are left out. *)
Record AtomData : Type := mkAtom {
  atom_id : string;
  atom_type : AtomType;
  position : Vector3;
  velocity : Vector3;
  mass : R;
  charge : R;
  atomicNumber : nat;
  valenceCount : nat;
  electronegativity : R;
  radius : R;
  meltingPoint : R;
  boilingPoint : R
}.

Record BondData : Type := mkBond {
  bond_id : string;
  atomA : string;
  atomB : string;
  strength : R;
  restLength : R;
  order : BondOrder;
  bond_type : BondType
}.

Record PhotonData : Type := mkPhoton {
  photon_id : string;
  photon_position : Vector3;
  photon_velocity : Vector3;
  energy : R
}.

Record SimulationState : Type := mkState {
  atoms : list AtomData;
  bonds : list BondData;
  photons : list PhotonData;
  temperature : R;
  isRunning : bool;
  timeScale : R;
  magneticField : Vector3;
  showFieldVectors : bool
}.

(** ** Constants ([constants.ts]) *)

Definition K_COULOMB : R := 350.0.
Definition DAMPING : R := 0.98.
Definition LJ_EPSILON : R := 5.0.
Definition LJ_SIGMA_SCALE : R := 0.85.
Definition BOND_FORM_RADIUS : R := 1.3.
Definition CONTAINER_SIZE : R := 25.0.
Definition BOND_STRENGTH_COVALENT : R := 1200.
Definition BOND_STRENGTH_IONIC : R := 800.
Definition BOND_BREAK_RATIO : R := 2.0.
Definition THERMAL_EXPANSION_COEFF : R := 0.005.

(** An entry of [ATOM_CONFIGS] (without [color] and [orbitals]). *)
Record AtomConfig : Type := mkConfig {
  cfg_mass : R;
  cfg_charge : R;
  cfg_radius : R;
  cfg_atomicNumber : nat;
  cfg_valenceCount : nat;
  cfg_electronegativity : R;
  maxBonds : nat;
  cfg_meltingPoint : R;
  cfg_boilingPoint : R
}.

Definition ATOM_CONFIGS (ty : AtomType) : AtomConfig :=
  match ty with
  | Hydrogen   => mkConfig 1 1 0.5 1 1 2.20 1 0.5 1.0
  | Helium     => mkConfig 4 0 0.4 2 2 0 0 0.1 0.2
  | Lithium    => mkConfig 7 1 1.2 3 1 0.98 1 4.5 8.0
  | Beryllium  => mkConfig 9 2 1.0 4 2 1.57 2 6.0 9.0
  | Carbon     => mkConfig 12 0 0.9 6 4 2.55 4 35.0 48.0
  | Nitrogen   => mkConfig 14 (-3) 0.85 7 5 3.04 4 0.6 0.7
  | Oxygen     => mkConfig 16 (-2) 0.8 8 6 3.44 2 0.5 0.9
  | Fluorine   => mkConfig 19 (-1) 0.7 9 7 3.98 1 0.5 0.8
  | Neon       => mkConfig 20 0 0.6 10 8 0 0 0.2 0.3
  | Sodium     => mkConfig 23 1 1.1 11 1 0.93 1 3.7 8.8
  | Phosphorus => mkConfig 31 (-3) 1.1 15 5 2.19 5 3.1 5.5
  | Sulfur     => mkConfig 32 (-2) 1.05 16 6 2.58 6 3.8 7.0
  | Chlorine   => mkConfig 35.5 (-1) 1.0 17 7 3.16 1 1.7 2.4
  end.

(** ** The force accumulator: [forces : Map<string, Vector3>] *)

Abbreviation Forces := (gmap string Vector3).

(** [atoms.forEach(a => forces.set(a.id, new Vector3(0, 0, 0)))]. *)
Definition initForces (ats : list AtomData) : Forces :=
  fold_left (fun F a => <[atom_id a := Vector3.zero]> F) ats ∅.

(** [forces.get(id)!]: every id that is looked up belongs to an atom of the
    list, hence is a key. *)
Definition getForce (F : Forces) (id : string) : Vector3 := F !!! id.

(** [forces.get(id)!.add(v)] and [forces.get(id)!.sub(v)]. *)
Definition forceAdd (id : string) (v : Vector3) (F : Forces) : Forces :=
  alter (fun f => Vector3.add f v) id F.
Definition forceSub (id : string) (v : Vector3) (F : Forces) : Forces :=
  alter (fun f => Vector3.sub f v) id F.

(** ** Force integrator (identical in both variants) *)

(** [(b.atomA === x && b.atomB === y) || (b.atomA === y && b.atomB === x)]. *)
Definition connects (b : BondData) (x y : string) : bool :=
  (bool_decide (atomA b = x) && bool_decide (atomB b = y))
  || (bool_decide (atomA b = y) && bool_decide (atomB b = x)).

Definition isBonded (bs : list BondData) (a1 a2 : AtomData) : bool :=
  existsb (fun b => connects b (atom_id a1) (atom_id a2)) bs.

Definition ljTerm (a1 a2 : AtomData) (r : R) : R :=
  let sigma := (radius a1 + radius a2) * LJ_SIGMA_SCALE in
  let sr := sigma / r in
  let sr6 := sr ^ 6 in
  let sr12 := sr6 * sr6 in
  (24 * LJ_EPSILON / r) * (2 * sr12 - sr6).

Definition coulombTerm (a1 a2 : AtomData) (r : R) : R :=
  (K_COULOMB * charge a1 * charge a2) / (r * r).

Definition cohesionTerm (r : R) : R := 15.0 / (r * r).

(** The scalar [forceMag] of one pair, as the loop body accumulates it. *)
Definition pairForceMag (bs : list BondData) (temp : R) (a1 a2 : AtomData) (r : R) : R :=
  let bonded := isBonded bs a1 a2 in
  let forceMag := 0 in
  let forceMag := if negb bonded then forceMag + ljTerm a1 a2 r else forceMag in
  let forceMag :=
    if neqb (charge a1) 0 && neqb (charge a2) 0
    then forceMag + coulombTerm a1 a2 r else forceMag in
  if negb bonded then
    let meanBP := (boilingPoint a1 + boilingPoint a2) / 2 in
    if ltb temp meanBP && ltb r 4.0 then forceMag - cohesionTerm r else forceMag
  else forceMag.

(** [fVec] of one pair; [None] is the [continue] of the singularity guard. *)
Definition pairForce (bs : list BondData) (temp : R) (a1 a2 : AtomData) : option Vector3 :=
  let dir := Vector3.subVectors (position a1) (position a2) in
  let r := Vector3.length dir in
  if ltb r 0.1 then None
  else Some (Vector3.multiplyScalar (Vector3.normalize dir) (pairForceMag bs temp a1 a2 r)).

(** [forces.get(a1.id)!.add(fVec); forces.get(a2.id)!.sub(fVec)]. *)
Definition applyPair (bs : list BondData) (temp : R) (a1 a2 : AtomData) (F : Forces) : Forces :=
  match pairForce bs temp a1 a2 with
  | None => F
  | Some fVec => forceSub (atom_id a2) fVec (forceAdd (atom_id a1) fVec F)
  end.

Definition lorentz (B_field : Vector3) (a : AtomData) (F : Forces) : Forces :=
  if gtb (Vector3.lengthSq B_field) 0 && neqb (charge a) 0 then
    let F_mag := Vector3.multiplyScalar (Vector3.crossVectors (velocity a) B_field)
                   (charge a * 2.0) in
    forceAdd (atom_id a) F_mag F
  else F.

(** [for i ... { lorentz; for j = i + 1 ... { pair } }]. *)
Fixpoint physicsLoop (bs : list BondData) (temp : R) (B_field : Vector3)
    (ats : list AtomData) (F : Forces) : Forces :=
  match ats with
  | [] => F
  | a1 :: others =>
      let F := lorentz B_field a1 F in
      let F := fold_left (fun F a2 => applyPair bs temp a1 a2 F) others F in
      physicsLoop bs temp B_field others F
  end.

(** The vortex tool of the first variant ([vortexPos] is component state). *)
Definition vortexAtom (vp : Vector3) (a : AtomData) (F : Forces) : Forces :=
  let dir := Vector3.subVectors vp (position a) in
  let dist := Vector3.length dir in
  if gtb dist 1.0 then
    let dir := Vector3.normalize dir in
    let tangent := Vector3.multiplyScalar (Vector3.mk (- Vector3.y dir) (Vector3.x dir) 0) 20.0 in
    let attraction := Vector3.multiplyScalar dir 100.0 in
    forceAdd (atom_id a) tangent (forceAdd (atom_id a) attraction F)
  else F.

Definition vortexForces (vortexPos : option Vector3) (ats : list AtomData) (F : Forces) : Forces :=
  match vortexPos with
  | Some vp => fold_left (fun F a => vortexAtom vp a F) ats F
  | None => F
  end.

(** ** Bond lifecycle *)

(** [atoms.find(a => a.id === id)]. *)
Definition findAtom (ats : list AtomData) (id : string) : option AtomData :=
  List.find (fun a => bool_decide (atom_id a = id)) ats.

Definition effectiveRestLength (temp : R) (bond : BondData) : R :=
  let expansionFactor := 1.0 + (temp * THERMAL_EXPANSION_COEFF) in
  restLength bond * expansionFactor.

(** [dist > effectiveRestLength * BOND_BREAK_RATIO]. *)
Definition snaps (temp : R) (a1 a2 : AtomData) (bond : BondData) : bool :=
  gtb (Vector3.distanceTo (position a1) (position a2))
      (effectiveRestLength temp bond * BOND_BREAK_RATIO).

(** The tail of the filter callback: the spring force on a kept bond. *)
Definition applySpring (stiffness : R) (temp : R) (a1 a2 : AtomData) (bond : BondData)
    (F : Forces) : Forces :=
  let dist := Vector3.distanceTo (position a1) (position a2) in
  let dir := Vector3.normalize (Vector3.subVectors (position a2) (position a1)) in
  let displacement := dist - effectiveRestLength temp bond in
  let springForce := Vector3.multiplyScalar dir (stiffness * displacement) in
  forceSub (atom_id a2) springForce (forceAdd (atom_id a1) springForce F).

(** A filter callback: keep or drop, with the accumulator and the random
    oracle after the call. *)
Definition BondCallback : Type :=
  R -> list AtomData -> BondData -> Forces -> oracle R -> bool * Forces * oracle R.

Module V1.

(** First variant, [Scene.tsx] lines 737-770. *)
Definition thermalProb (temp : R) (bond : BondData) : R :=
  let bondEnergy := strength bond * orderValue (order bond) in
  let thermalEnergy := temp * 150 in
  (thermalEnergy - bondEnergy * 0.8) * 0.00005.

Definition thermallyExposed (temp : R) (bond : BondData) : bool :=
  let bondEnergy := strength bond * orderValue (order bond) in
  let thermalEnergy := temp * 150 in
  gtb thermalEnergy (bondEnergy * 0.8).

Definition stiffness (bond : BondData) : R :=
  strength bond * Rpower (orderValue (order bond)) 1.2.

Definition bondCallback : BondCallback := fun temp ats bond F rnd =>
  match findAtom ats (atomA bond), findAtom ats (atomB bond) with
  | Some a1, Some a2 =>
      if snaps temp a1 a2 bond then (false, F, rnd)
      else if thermallyExposed temp bond then
        if ltb (next rnd) (thermalProb temp bond) then (false, F, rest rnd)
        else (true, applySpring (stiffness bond) temp a1 a2 bond F, rest rnd)
      else (true, applySpring (stiffness bond) temp a1 a2 bond F, rnd)
  | _, _ => (false, F, rnd)
  end.

Definition ionicRestLength (a1 a2 : AtomData) : R := (radius a1 + radius a2) * 0.75.
Definition covalentRestLength (a1 a2 : AtomData) : R := (radius a1 + radius a2) * 0.75.

End V1.

Module V2.

(** Second variant, [Scene.tsx] lines 1714-1747. *)
Definition bondCallback : BondCallback := fun temp ats bond F rnd =>
  match findAtom ats (atomA bond), findAtom ats (atomB bond) with
  | Some a1, Some a2 =>
      if snaps temp a1 a2 bond then (false, F, rnd)
      else
        let meanMP := (meltingPoint a1 + meltingPoint a2) / 2 in
        let melting := bool_decide (bond_type bond = ionic) && gtb temp (meanMP + 0.5) in
        if melting && ltb (next rnd) 0.05 then (false, F, rest rnd)
        else
          let rnd := if melting then rest rnd else rnd in
          if gtb temp 20.0 then
            if ltb (next rnd) 0.01 then (false, F, rest rnd)
            else (true, applySpring (strength bond) temp a1 a2 bond F, rest rnd)
          else (true, applySpring (strength bond) temp a1 a2 bond F, rnd)
  | _, _ => (false, F, rnd)
  end.

Definition ionicRestLength (a1 a2 : AtomData) : R := radius a1 + radius a2.
Definition covalentRestLength (a1 a2 : AtomData) : R := (radius a1 + radius a2) * 0.9.

End V2.

(** ** The per-tick loop, shared by both variants

    The two [useFrame] bodies differ in the filter callback, in the rest
    length of a newly formed bond and in the vortex tool; everything else
    is the same text.  The section abstracts these three places. *)

Record ChemState : Type := mkChem {
  chem_atoms : list AtomData;        (* [atoms], charges written in place *)
  chem_bonds : list BondData;        (* [newBonds] *)
  chem_changed : bool;               (* [structureChanged] *)
  chem_uuids : oracle string
}.

Record PhotonState : Type := mkPhotonState {
  ph_bonds : list BondData;          (* [newBonds] *)
  ph_changed : bool;                 (* [structureChanged] *)
  ph_forces : Forces;
  ph_surviving : list PhotonData     (* [survivingPhotons] *)
}.

(** The component: the React state and the refs that outlive a tick. *)
Record Component : Type := mkComponent {
  stateRef : SimulationState;
  chemistryCooldown : R
}.

Record World : Type := mkWorld {
  randoms : oracle R;
  uuids : oracle string
}.

(** [bs.filter(b => b.atomA === id || b.atomB === id).length]. *)
Definition incident (id : string) (b : BondData) : bool :=
  bool_decide (atomA b = id) || bool_decide (atomB b = id).

Definition bondCount (bs : list BondData) (id : string) : nat :=
  List.length (List.filter (incident id) bs).

Definition setCharge (q : R) (a : AtomData) : AtomData :=
  mkAtom (atom_id a) (atom_type a) (position a) (velocity a) (mass a) q
         (atomicNumber a) (valenceCount a) (electronegativity a) (radius a)
         (meltingPoint a) (boilingPoint a).

Definition setKinematics (p v : Vector3) (a : AtomData) : AtomData :=
  mkAtom (atom_id a) (atom_type a) p v (mass a) (charge a)
         (atomicNumber a) (valenceCount a) (electronegativity a) (radius a)
         (meltingPoint a) (boilingPoint a).

(** [bonds.filter(callback)], the callback threading the accumulator and
    the random oracle. *)
Fixpoint filterBonds (cb : BondCallback) (temp : R) (ats : list AtomData)
    (bs : list BondData) (F : Forces) (rnd : oracle R)
    : list BondData * Forces * oracle R :=
  match bs with
  | [] => ([], F, rnd)
  | bond :: bs' =>
      let '(keep, F, rnd) := cb temp ats bond F rnd in
      let '(kept, F, rnd) := filterBonds cb temp ats bs' F rnd in
      (if keep then bond :: kept else kept, F, rnd)
  end.

(** The index pairs [(i, j)], [i < j < n], in the order of the two nested
    [for] loops. *)
Definition indexPairs (n : nat) : list (nat * nat) :=
  flat_map (fun i => map (fun j => (i, j)) (seq (S i) (n - S i))) (seq 0 n).

Section Loop.

Variable bondCallback : BondCallback.
Variables ionicRestLength covalentRestLength : AtomData -> AtomData -> R.
Variable vortexPos : option Vector3.

(** The ionic branch: [donor.charge = 1; acceptor.charge = -1] written
    through the array, then [newBonds.push]. *)
Definition formIonic (st : ChemState) (ij : nat * nat) (a1 a2 : AtomData) : ChemState :=
  let donorIsA1 := ltb (cfg_electronegativity (ATOM_CONFIGS (atom_type a1)))
                       (cfg_electronegativity (ATOM_CONFIGS (atom_type a2))) in
  let q1 := if donorIsA1 then 1 else -1 in
  let q2 := if donorIsA1 then -1 else 1 in
  mkChem (<[ij.2 := setCharge q2 a2]> (<[ij.1 := setCharge q1 a1]> (chem_atoms st)))
         (chem_bonds st ++
            [mkBond (next (chem_uuids st)) (atom_id a1) (atom_id a2)
                    BOND_STRENGTH_IONIC (ionicRestLength a1 a2) Single ionic])
         true (rest (chem_uuids st)).

(** The covalent branch. *)
Definition formCovalent (st : ChemState) (a1 a2 : AtomData) : ChemState :=
  mkChem (chem_atoms st)
         (chem_bonds st ++
            [mkBond (next (chem_uuids st)) (atom_id a1) (atom_id a2)
                    BOND_STRENGTH_COVALENT (covalentRestLength a1 a2) Single covalent])
         true (rest (chem_uuids st)).

(** The body of the chemistry loop for the pair [(i, j)]. *)
Definition chemistryPair (temp : R) (st : ChemState) (ij : nat * nat) : ChemState :=
  match chem_atoms st !! ij.1, chem_atoms st !! ij.2 with
  | Some a1, Some a2 =>
      let configA := ATOM_CONFIGS (atom_type a1) in
      let configB := ATOM_CONFIGS (atom_type a2) in
      if Nat.eqb (maxBonds configA) 0 || Nat.eqb (maxBonds configB) 0 then st
      else
        let currentBondsA := bondCount (chem_bonds st) (atom_id a1) in
        let currentBondsB := bondCount (chem_bonds st) (atom_id a2) in
        if Nat.leb (maxBonds configA) currentBondsA
           || Nat.leb (maxBonds configB) currentBondsB then st
        else
          let existingBond :=
            List.find (fun b => connects b (atom_id a1) (atom_id a2)) (chem_bonds st) in
          let dist := Vector3.distanceTo (position a1) (position a2) in
          let formDist := (radius a1 + radius a2) * BOND_FORM_RADIUS in
          if isNull existingBond && ltb dist formDist then
            let meanMP := (meltingPoint a1 + meltingPoint a2) / 2 in
            let deltaEN := Rabs (cfg_electronegativity configA
                                 - cfg_electronegativity configB) in
            let isIonic := gtb deltaEN 1.7 in
            if isIonic && ltb temp meanMP then formIonic st ij a1 a2
            else if negb isIonic && ltb temp (meanMP * 1.5) then formCovalent st a1 a2
            else st
          else st
  | _, _ => st
  end.

(** One firing of the chemistry engine: the two nested loops. *)
Definition chemistryFire (temp : R) (st : ChemState) : ChemState :=
  fold_left (chemistryPair temp) (indexPairs (List.length (chem_atoms st))) st.

(** The [for (const bond of newBonds)] loop of one photon: the first bond
    (with both endpoints present) whose midpoint is nearer than 0.8. *)
Fixpoint firstHit (ats : list AtomData) (pos : Vector3) (bs : list BondData)
    : option (BondData * AtomData * AtomData) :=
  match bs with
  | [] => None
  | bond :: bs' =>
      match findAtom ats (atomA bond), findAtom ats (atomB bond) with
      | Some a1, Some a2 =>
          let center := Vector3.multiplyScalar
                          (Vector3.addVectors (position a1) (position a2)) 0.5 in
          if ltb (Vector3.distanceTo pos center) 0.8 then Some (bond, a1, a2)
          else firstHit ats pos bs'
      | _, _ => firstHit ats pos bs'
      end
  end.

(** [p.position.add(p.velocity.clone().multiplyScalar(dt * 15))]. *)
Definition advance (dt : R) (p : PhotonData) : PhotonData :=
  mkPhoton (photon_id p)
           (Vector3.add (photon_position p)
                        (Vector3.multiplyScalar (photon_velocity p) (dt * 15)))
           (photon_velocity p) (energy p).

(** The body of [photons.forEach].  [splitDir.multiplyScalar(energy)] is
    called twice on the same vector, which it scales in place: the second
    call yields [splitDir * energy * energy]. *)
Definition photonStep (dt : R) (ats : list AtomData) (st : PhotonState) (p : PhotonData)
    : PhotonState :=
  let p := advance dt p in
  match firstHit ats (photon_position p) (ph_bonds st) with
  | Some (bond, a1, a2) =>
      let splitDir := Vector3.normalize
                        (Vector3.subVectors (position a1) (position a2)) in
      let energy := energy p * 500 in
      let splitDir := Vector3.multiplyScalar splitDir energy in
      let F := forceAdd (atom_id a1) splitDir (ph_forces st) in
      let splitDir := Vector3.multiplyScalar splitDir energy in
      let F := forceSub (atom_id a2) splitDir F in
      mkPhotonState
        (List.filter (fun b => negb (bool_decide (bond_id b = bond_id bond))) (ph_bonds st))
        true F (ph_surviving st)
  | None =>
      if ltb (Vector3.length (photon_position p)) 60
      then mkPhotonState (ph_bonds st) (ph_changed st) (ph_forces st) (ph_surviving st ++ [p])
      else st
  end.

Definition photonLogic (dt : R) (ats : list AtomData) (st : PhotonState)
    (ps : list PhotonData) : PhotonState :=
  fold_left (photonStep dt ats) ps st.

(** The boundary test of one axis: the clamped coordinate and velocity. *)
Definition clampAxis (p v : R) : R * R :=
  if gtb (Rabs p) CONTAINER_SIZE then (sign p * CONTAINER_SIZE, v * -0.5) else (p, v).

(** The first half of the body of [atoms.forEach] of the integration step:
    position, velocity and the scaled accumulator before the boundary
    test.  The accumulator of the atom is scaled in place ([f.divideScalar],
    [accel.multiplyScalar]); three random numbers are drawn for the noise. *)
Definition integrated (temp dt : R) (atom : AtomData) (F : Forces) (rnd : oracle R)
    : Vector3 * Vector3 * Vector3 :=
  let f := getForce F (atom_id atom) in
  let '(effectiveDamping, noiseScale) :=
    if ltb temp (meltingPoint atom) then (0.90, 5)
    else if gtb temp (boilingPoint atom) then (0.99, 30)
    else (DAMPING, 15) in
  let noise := Vector3.multiplyScalar
                 (Vector3.normalize
                    (Vector3.mk (next rnd - 0.5) (next (rest rnd) - 0.5)
                                (next (rest (rest rnd)) - 0.5)))
                 (temp * noiseScale) in
  let f := Vector3.add f noise in
  let accel := Vector3.divideScalar f (mass atom) in
  let accel := Vector3.multiplyScalar accel dt in
  let vel := Vector3.multiplyScalar (Vector3.add (velocity atom) accel) effectiveDamping in
  let pos := Vector3.add (position atom) (Vector3.multiplyScalar vel dt) in
  (pos, vel, accel).

(** The whole body: the three boundary tests follow. *)
Definition integrateAtom (temp dt : R) (atom : AtomData) (F : Forces) (rnd : oracle R)
    : AtomData * Forces * oracle R :=
  let '(pos, vel, accel) := integrated temp dt atom F rnd in
  let '(px, vx) := clampAxis (Vector3.x pos) (Vector3.x vel) in
  let '(py, vy) := clampAxis (Vector3.y pos) (Vector3.y vel) in
  let '(pz, vz) := clampAxis (Vector3.z pos) (Vector3.z vel) in
  (setKinematics (Vector3.mk px py pz) (Vector3.mk vx vy vz) atom,
   <[atom_id atom := accel]> F, rest (rest (rest rnd))).

Fixpoint integrate (temp dt : R) (ats : list AtomData) (F : Forces) (rnd : oracle R)
    : list AtomData * oracle R :=
  match ats with
  | [] => ([], rnd)
  | atom :: ats' =>
      let '(atom, F, rnd) := integrateAtom temp dt atom F rnd in
      let '(ats', rnd) := integrate temp dt ats' F rnd in
      (atom :: ats', rnd)
  end.

(** Everything a tick computes before it decides whether to commit. *)
Record Tick : Type := mkTick {
  tick_cooldown : R;
  tick_activeBonds : list BondData;
  tick_newBonds : list BondData;
  tick_structureChanged : bool;
  tick_survivingPhotons : list PhotonData;
  tick_atoms : list AtomData;
  tick_world : World
}.

(** [dt = Math.min(delta, 0.05) * timeScale]. *)
Definition tickDt (c : Component) (delta : R) : R :=
  Rmin delta 0.05 * timeScale (stateRef c).

(** The accumulator after the vortex tool and the pairwise loop. *)
Definition forcePhase (s : SimulationState) : Forces :=
  physicsLoop (bonds s) (temperature s) (magneticField s) (atoms s)
    (vortexForces vortexPos (atoms s) (initForces (atoms s))).

(** [activeBonds], the accumulator with the spring forces, the oracle. *)
Definition bondPhase (s : SimulationState) (w : World)
    : list BondData * Forces * oracle R :=
  filterBonds bondCallback (temperature s) (atoms s) (bonds s) (forcePhase s) (randoms w).

(** The chemistry engine behind its cooldown gate. *)
Definition chemistryPhase (c : Component) (delta : R) (w : World) : R * ChemState :=
  let s := stateRef c in
  let cooldown := chemistryCooldown c - tickDt c delta in
  let chem0 := mkChem (atoms s) (bondPhase s w).1.1 false (uuids w) in
  if leb cooldown 0 then (0.2, chemistryFire (temperature s) chem0) else (cooldown, chem0).

(** The state the photon loop starts from. *)
Definition photonStart (c : Component) (delta : R) (w : World) : PhotonState :=
  let chem := (chemistryPhase c delta w).2 in
  mkPhotonState (chem_bonds chem) (chem_changed chem) (bondPhase (stateRef c) w).1.2 [].

Definition photonPhase (c : Component) (delta : R) (w : World) : PhotonState :=
  photonLogic (tickDt c delta) (chem_atoms (chemistryPhase c delta w).2)
    (photonStart c delta w) (photons (stateRef c)).

Definition integrationPhase (c : Component) (delta : R) (w : World)
    : list AtomData * oracle R :=
  integrate (temperature (stateRef c)) (tickDt c delta)
    (chem_atoms (chemistryPhase c delta w).2)
    (ph_forces (photonPhase c delta w)) (bondPhase (stateRef c) w).2.

Definition runTick (c : Component) (delta : R) (w : World) : Tick :=
  let chem := chemistryPhase c delta w in
  let ph := photonPhase c delta w in
  let integ := integrationPhase c delta w in
  mkTick chem.1 (bondPhase (stateRef c) w).1.1 (ph_bonds ph) (ph_changed ph)
         (ph_surviving ph) integ.1 (mkWorld integ.2 (chem_uuids chem.2)).

(** The commit at the end of the tick.  Atoms and photons are mutated in
    place, so they are new in both branches; the bond list is replaced
    only by [setSimulationState]. *)
Definition commits (s : SimulationState) (t : Tick) : bool :=
  negb (Nat.eqb (List.length (tick_activeBonds t)) (List.length (tick_newBonds t)))
  || negb (Nat.eqb (List.length (tick_survivingPhotons t)) (List.length (photons s)))
  || tick_structureChanged t.

Definition commit (s : SimulationState) (t : Tick) : SimulationState :=
  if commits s t then
    mkState (tick_atoms t) (tick_newBonds t) (tick_survivingPhotons t)
            (temperature s) (isRunning s) (timeScale s) (magneticField s)
            (showFieldVectors s)
  else
    mkState (tick_atoms t) (bonds s) (tick_survivingPhotons t)
            (temperature s) (isRunning s) (timeScale s) (magneticField s)
            (showFieldVectors s).

(** The callback of [useFrame]. *)
Definition useFrame (c : Component) (delta : R) (w : World) : Component * World :=
  if negb (isRunning (stateRef c)) then (c, w)
  else
    let t := runTick c delta w in
    (mkComponent (commit (stateRef c) t) (tick_cooldown t), tick_world t).

End Loop.

Module FirstVariant.
Definition useFrame (vortexPos : option Vector3) : Component -> R -> World -> Component * World :=
  useFrame V1.bondCallback V1.ionicRestLength V1.covalentRestLength vortexPos.
End FirstVariant.

Module SecondVariant.
Definition useFrame : Component -> R -> World -> Component * World :=
  useFrame V2.bondCallback V2.ionicRestLength V2.covalentRestLength None.
End SecondVariant.

(** ** Spawn commands ([constants.ts], [DropHandler], [App.tsx]) *)

Record TemplateBond : Type := mkTemplateBond {
  idxA : nat;
  idxB : nat;
  tb_type : BondType;
  tb_order : option BondOrder
}.

Record MoleculeTemplate : Type := mkTemplate {
  tmpl_atoms : list (AtomType * Vector3);
  tmpl_bonds : list TemplateBond
}.

(** [MOLECULE_TEMPLATES[key]]: the six presets, [None] for every other
    key.  The keys every JavaScript object inherits (constructor,
    toString, ...) are not modelled: for them the lookup of the source is
    truthy and [createMoleculeFromTemplate] throws at
    [template.atoms.forEach]; [handleDrop] catches the exception and the
    state stays as it was, as for a key that names nothing. *)
Definition MOLECULE_TEMPLATES (key : string) : option MoleculeTemplate :=
  if bool_decide (key = "water"%string) then
    Some (mkTemplate
      [ (Oxygen, Vector3.mk 0 0 0); (Hydrogen, Vector3.mk 0.6 0.4 0);
        (Hydrogen, Vector3.mk (-0.6) 0.4 0) ]
      [ mkTemplateBond 0 1 covalent (Some Single);
        mkTemplateBond 0 2 covalent (Some Single) ])
  else if bool_decide (key = "co2"%string) then
    Some (mkTemplate
      [ (Carbon, Vector3.mk 0 0 0); (Oxygen, Vector3.mk 0.9 0 0);
        (Oxygen, Vector3.mk (-0.9) 0 0) ]
      [ mkTemplateBond 0 1 covalent (Some Double);
        mkTemplateBond 0 2 covalent (Some Double) ])
  else if bool_decide (key = "methane"%string) then
    Some (mkTemplate
      [ (Carbon, Vector3.mk 0 0 0); (Hydrogen, Vector3.mk 0.6 0.6 0.6);
        (Hydrogen, Vector3.mk (-0.6) (-0.6) 0.6);
        (Hydrogen, Vector3.mk (-0.6) 0.6 (-0.6));
        (Hydrogen, Vector3.mk 0.6 (-0.6) (-0.6)) ]
      [ mkTemplateBond 0 1 covalent (Some Single);
        mkTemplateBond 0 2 covalent (Some Single);
        mkTemplateBond 0 3 covalent (Some Single);
        mkTemplateBond 0 4 covalent (Some Single) ])
  else if bool_decide (key = "ethene"%string) then
    Some (mkTemplate
      [ (Carbon, Vector3.mk (-0.4) 0 0); (Carbon, Vector3.mk 0.4 0 0);
        (Hydrogen, Vector3.mk (-0.9) 0.7 0); (Hydrogen, Vector3.mk (-0.9) (-0.7) 0);
        (Hydrogen, Vector3.mk 0.9 0.7 0); (Hydrogen, Vector3.mk 0.9 (-0.7) 0) ]
      [ mkTemplateBond 0 1 covalent (Some Double);
        mkTemplateBond 0 2 covalent (Some Single);
        mkTemplateBond 0 3 covalent (Some Single);
        mkTemplateBond 1 4 covalent (Some Single);
        mkTemplateBond 1 5 covalent (Some Single) ])
  else if bool_decide (key = "nitrogen_gas"%string) then
    Some (mkTemplate
      [ (Nitrogen, Vector3.mk (-0.35) 0 0); (Nitrogen, Vector3.mk 0.35 0 0) ]
      [ mkTemplateBond 0 1 covalent (Some Triple) ])
  else if bool_decide (key = "salt"%string) then
    Some (mkTemplate
      [ (Sodium, Vector3.mk 0 0 0); (Chlorine, Vector3.mk 1.6 0 0);
        (Sodium, Vector3.mk 0 1.6 0); (Chlorine, Vector3.mk 1.6 1.6 0);
        (Sodium, Vector3.mk 1.6 0 1.6); (Chlorine, Vector3.mk 0 0 1.6) ]
      [ mkTemplateBond 0 1 ionic (Some Single);
        mkTemplateBond 2 3 ionic (Some Single);
        mkTemplateBond 0 2 ionic (Some Single);
        mkTemplateBond 1 3 ionic (Some Single);
        mkTemplateBond 0 5 ionic (Some Single);
        mkTemplateBond 1 4 ionic (Some Single) ])
  else None.

(** The length of the [orbitals] array of [ATOM_CONFIGS]: one electron,
    hence one [uuidv4()] and four [Math.random()] calls of
    [generateElectrons], per entry. *)
Definition orbitalCount (ty : AtomType) : nat :=
  match ty with
  | Hydrogen => 1 | Helium => 2 | Lithium => 3 | Beryllium => 4 | Carbon => 6
  | Nitrogen => 7 | Oxygen => 8 | Fluorine => 9 | Neon => 10 | Sodium => 11
  | Phosphorus => 15 | Sulfur => 16 | Chlorine => 17
  end.

Definition skip {A} (n : nat) (o : oracle A) : oracle A := fun k => o (n + k)%nat.

(** [{ id, type, position, velocity, ...ATOM_CONFIGS[type], electrons }]. *)
Definition newAtom (id : string) (ty : AtomType) (pos vel : Vector3) : AtomData :=
  let cfg := ATOM_CONFIGS ty in
  mkAtom id ty pos vel (cfg_mass cfg) (cfg_charge cfg) (cfg_atomicNumber cfg)
         (cfg_valenceCount cfg) (cfg_electronegativity cfg) (cfg_radius cfg)
         (cfg_meltingPoint cfg) (cfg_boilingPoint cfg).

(** [template.atoms.forEach]: the atom takes one uuid and three random
    numbers, then [generateElectrons] takes its share of both oracles. *)
Fixpoint createAtoms (origin : Vector3) (tas : list (AtomType * Vector3)) (w : World)
    : list AtomData * World :=
  match tas with
  | [] => ([], w)
  | (ty, offset) :: tas' =>
      let id := next (uuids w) in
      let pos := Vector3.add origin offset in
      let r := randoms w in
      let vel := Vector3.mk ((next r - 0.5) * 0.2) ((next (rest r) - 0.5) * 0.2)
                            ((next (rest (rest r)) - 0.5) * 0.2) in
      let w := mkWorld (skip (3 + 4 * orbitalCount ty) r)
                       (skip (1 + orbitalCount ty) (uuids w)) in
      let '(ats, w) := createAtoms origin tas' w in
      (newAtom id ty pos vel :: ats, w)
  end.

(** The body of [template.bonds.forEach]. *)
Definition createBond (st : list AtomData * list BondData * oracle string)
    (tb : TemplateBond) : list AtomData * list BondData * oracle string :=
  let '(ats, bs, ids) := st in
  match ats !! idxA tb, ats !! idxB tb with
  | Some a1, Some a2 =>
      let salt := bool_decide (tb_type tb = ionic)
                  && bool_decide (atom_type a1 = Sodium)
                  && bool_decide (atom_type a2 = Chlorine) in
      let ats := if salt
                 then <[idxB tb := setCharge (-1) a2]> (<[idxA tb := setCharge 1 a1]> ats)
                 else ats in
      let radiusSum := radius a1 + radius a2 in
      let lengthMult :=
        match tb_order tb with
        | Some Triple => 0.60
        | Some Double => 0.65
        | _ => 0.75
        end in
      let bond := mkBond (next ids) (atom_id a1) (atom_id a2)
                    (if bool_decide (tb_type tb = ionic)
                     then BOND_STRENGTH_IONIC else BOND_STRENGTH_COVALENT)
                    (radiusSum * lengthMult)
                    (default Single (tb_order tb)) (tb_type tb) in
      (ats, bs ++ [bond], rest ids)
  | _, _ => st
  end.

Definition createMoleculeFromTemplate (key : string) (origin : Vector3) (w : World)
    : list AtomData * list BondData * World :=
  match MOLECULE_TEMPLATES key with
  | None => ([], [], w)
  | Some template =>
      let '(ats, w) := createAtoms origin (tmpl_atoms template) w in
      let '(ats, bs, ids) := fold_left createBond (tmpl_bonds template) (ats, [], uuids w) in
      (ats, bs, mkWorld (randoms w) ids)
  end.

(** [handleDrop] with [data.type === 'molecule']. *)
Definition dropMolecule (key : string) (spawnPos : Vector3) (s : SimulationState) (w : World)
    : SimulationState * World :=
  let '(ats, bs, w) := createMoleculeFromTemplate key spawnPos w in
  (mkState (atoms s ++ ats) (bonds s ++ bs) (photons s) (temperature s) (isRunning s)
           (timeScale s) (magneticField s) (showFieldVectors s), w).

Definition INITIAL_STATE : SimulationState :=
  mkState [] [] [] 3.0 true 1.0 (Vector3.mk 0 0 0) false.

(** ** The valence bound *)

Definition withinValence (bs : list BondData) (a : AtomData) : Prop :=
  (bondCount bs (atom_id a) <= maxBonds (ATOM_CONFIGS (atom_type a)))%nat.

Definition valenceOk (s : SimulationState) : Prop :=
  Forall (withinValence (bonds s)) (atoms s).

Definition uniqueIds (ats : list AtomData) : Prop := NoDup (map atom_id ats).

(** ** Axes *)

Inductive Axis : Type := AxisX | AxisY | AxisZ.

Definition component (ax : Axis) (v : Vector3) : R :=
  match ax with
  | AxisX => Vector3.x v
  | AxisY => Vector3.y v
  | AxisZ => Vector3.z v
  end.

(** ** Scenarios used by the examples below *)

(** An atom of type [ty] with the values of [ATOM_CONFIGS], at rest at
    abscissa [px], with charge [q]. *)
Definition atomAt (id : string) (ty : AtomType) (px : R) (q : R) : AtomData :=
  setCharge q (newAtom id ty (Vector3.mk px 0 0) Vector3.zero).

(** Two hydrogen ions of opposite charge, half a unit apart, no bond. *)
Definition ionA : AtomData := atomAt "a" Hydrogen 0.5 1.
Definition ionB : AtomData := atomAt "b" Hydrogen 0 (-1).

(** Two carbon atoms one unit apart joined by a single covalent bond, at
    temperature 10. *)
Definition carbonA : AtomData := atomAt "a" Carbon 0 0.
Definition carbonB : AtomData := atomAt "b" Carbon 1 0.
Definition carbonBond : BondData :=
  mkBond "k" "a" "b" BOND_STRENGTH_COVALENT 1.35 Single covalent.

(** An oracle that always answers [v]. *)
Definition always {A} (v : A) : oracle A := fun _ => v.

(** ** Vocabulary of the chemistry engine *)

(** The tests a pair passes before it is classified. *)
Definition eligible (st : ChemState) (a1 a2 : AtomData) : Prop :=
  maxBonds (ATOM_CONFIGS (atom_type a1)) <> 0%nat
  /\ maxBonds (ATOM_CONFIGS (atom_type a2)) <> 0%nat
  /\ (bondCount (chem_bonds st) (atom_id a1) < maxBonds (ATOM_CONFIGS (atom_type a1)))%nat
  /\ (bondCount (chem_bonds st) (atom_id a2) < maxBonds (ATOM_CONFIGS (atom_type a2)))%nat
  /\ List.find (fun b => connects b (atom_id a1) (atom_id a2)) (chem_bonds st) = None
  /\ Vector3.distanceTo (position a1) (position a2)
     < (radius a1 + radius a2) * BOND_FORM_RADIUS.

Definition deltaEN (a1 a2 : AtomData) : R :=
  Rabs (cfg_electronegativity (ATOM_CONFIGS (atom_type a1))
        - cfg_electronegativity (ATOM_CONFIGS (atom_type a2))).

Definition meanMP (a1 a2 : AtomData) : R := (meltingPoint a1 + meltingPoint a2) / 2.

(** What the chemistry loop never writes: everything but the charge. *)
Definition uncharged (a : AtomData) : AtomData := setCharge 0 a.

Definition chemValence (st : ChemState) : Prop :=
  Forall (withinValence (chem_bonds st)) (chem_atoms st).

(** What the valence bound reads of an atom. *)
Definition kind (a : AtomData) : string * AtomType := (atom_id a, atom_type a).

(** An oracle of pairwise different identifiers: ["u"], ["iu"], ["iiu"], ... *)
Fixpoint serialId (n : nat) : string :=
  match n with
  | O => "u"%string
  | S n' => String.append "i" (serialId n')
  end.

Definition serial : oracle string := serialId.

(** The salt preset dropped into the empty initial state. *)
Definition saltWorld : World := mkWorld (always 0.5) serial.
Definition saltState : SimulationState :=
  (dropMolecule "salt" (Vector3.mk 0 0 0) INITIAL_STATE saltWorld).1.

(** The charges the ionic branch writes: [+1] to the atom of lower
    electronegativity (the donor), [-1] to the other. *)
Definition firstCharge (a1 a2 : AtomData) : R :=
  if ltb (cfg_electronegativity (ATOM_CONFIGS (atom_type a1)))
         (cfg_electronegativity (ATOM_CONFIGS (atom_type a2)))
  then 1 else -1.

Definition secondCharge (a1 a2 : AtomData) : R :=
  if ltb (cfg_electronegativity (ATOM_CONFIGS (atom_type a1)))
         (cfg_electronegativity (ATOM_CONFIGS (atom_type a2)))
  then -1 else 1.

(** The bonds of a list that join two given atoms. *)
Definition bondsBetween (bs : list BondData) (x y : string) : list BondData :=
  List.filter (fun b => connects b x y) bs.

(** The state of the scan before it reaches the pair [(a1, a2)]: nothing
    but charges has been written and no bond joins the pair. *)
Definition unsettled (ats0 : list AtomData) (a1 a2 : AtomData) (st : ChemState) : Prop :=
  map uncharged (chem_atoms st) = map uncharged ats0
  /\ bondsBetween (chem_bonds st) (atom_id a1) (atom_id a2) = [].

(** The state of the scan after the pair [(a1, a2)] at the indices
    [(i, j)] has formed the ionic bond [b0]. *)
Definition settled (ats0 : list AtomData) (i j : nat) (a1 a2 : AtomData) (b0 : BondData)
    (st : ChemState) : Prop :=
  map uncharged (chem_atoms st) = map uncharged ats0
  /\ bondsBetween (chem_bonds st) (atom_id a1) (atom_id a2) = [b0]
  /\ charge <$> chem_atoms st !! i = Some (firstCharge a1 a2)
  /\ charge <$> chem_atoms st !! j = Some (secondCharge a1 a2)
  /\ chem_changed st = true.

(** A sodium atom between two chlorine atoms, all uncharged, one unit
    apart, no bond, at temperature 1. *)
Definition sodium : AtomData := atomAt "na" Sodium 0 0.
Definition chlorineL : AtomData := atomAt "cl1" Chlorine 1 0.
Definition chlorineR : AtomData := atomAt "cl2" Chlorine (-1) 0.
Definition crowded : ChemState := mkChem [sodium; chlorineL; chlorineR] [] false serial.

(** Sodium and chlorine alone. *)
Definition saltPair : ChemState := mkChem [sodium; chlorineL] [] false serial.

(** A hydrogen atom just inside the wall, moving outwards, at temperature 0. *)
Definition runaway : AtomData :=
  setKinematics (Vector3.mk 24.9 0 0) (Vector3.mk 10 0 0)
                (newAtom "r" Hydrogen Vector3.zero Vector3.zero).

(** Two carbon atoms ten units apart, still joined in the state by a bond
    of rest length 1.35; no photon; the chemistry engine is cooling down. *)
Definition carbonFar : AtomData := atomAt "b" Carbon 10 0.
Definition tornState : SimulationState :=
  mkState [carbonA; carbonFar] [carbonBond] [] 3.0 true 1.0 (Vector3.mk 0 0 0) false.
Definition tornComponent : Component := mkComponent tornState 1.
Definition calmWorld : World := mkWorld (always 0.5) serial.

(** ** Vocabulary of the photon loop *)

(** The midpoint of a bond whose two endpoints exist is nearer to [pos]
    than the hit radius. *)
Definition nearBond (ats : list AtomData) (pos : Vector3) (bond : BondData) : Prop :=
  exists a1 a2,
    findAtom ats (atomA bond) = Some a1 /\ findAtom ats (atomB bond) = Some a2
    /\ Vector3.distanceTo pos
         (Vector3.multiplyScalar (Vector3.addVectors (position a1) (position a2)) 0.5)
       < 0.8.

(** [newBonds.filter(b => b.id !== bond.id)]. *)
Definition withoutId (id : string) (bs : list BondData) : list BondData :=
  List.filter (fun b => negb (bool_decide (bond_id b = id))) bs.

(** Two carbon atoms joined by a bond, and two photons at rest on the
    midpoint of the bond; the chemistry engine is cooling down. *)
Definition photonOne : PhotonData :=
  mkPhoton "p1" (Vector3.mk 0.5 0 0) Vector3.zero 5.0.
Definition photonTwo : PhotonData :=
  mkPhoton "p2" (Vector3.mk 0.5 0 0) Vector3.zero 5.0.
Definition litState : SimulationState :=
  mkState [carbonA; carbonB] [carbonBond] [photonOne; photonTwo] 3.0 true 1.0
          (Vector3.mk 0 0 0) false.
Definition litComponent : Component := mkComponent litState 1.

(** The carbon bond at temperature 10 with a photon far outside the
    pruning radius; the random oracle answers 0. *)
Definition farPhoton : PhotonData :=
  mkPhoton "p" (Vector3.mk 100 0 0) Vector3.zero 5.0.
Definition hotState : SimulationState :=
  mkState [carbonA; carbonB] [carbonBond] [farPhoton] 10 true 1.0 (Vector3.mk 0 0 0) false.
Definition hotComponent : Component := mkComponent hotState 1.
Definition coldRolls : World := mkWorld (always 0) serial.

(** Sodium and chlorine one unit apart at temperature 1, and two hydrogen
    atoms 0.6 apart at temperature 0.4; the chemistry engine is due. *)
Definition saltReady : Component :=
  mkComponent
    (mkState [sodium; chlorineL] [] [] 1 true 1.0 (Vector3.mk 0 0 0) false) 0.
Definition hydrogenA : AtomData := atomAt "h1" Hydrogen 0 0.
Definition hydrogenB : AtomData := atomAt "h2" Hydrogen 0.6 0.
Definition hydrogenReady : Component :=
  mkComponent
    (mkState [hydrogenA; hydrogenB] [] [] 0.4 true 1.0 (Vector3.mk 0 0 0) false) 0.

(** [handleDrop] with [data.type === 'atom']: one uuid for the atom, then
    the share of [generateElectrons]. *)
Definition dropAtom (ty : AtomType) (spawnPos : Vector3) (s : SimulationState) (w : World)
    : SimulationState * World :=
  let atom := newAtom (next (uuids w)) ty spawnPos (Vector3.mk 0 0 0) in
  (mkState (atoms s ++ [atom]) (bonds s) (photons s) (temperature s) (isRunning s)
           (timeScale s) (magneticField s) (showFieldVectors s),
   mkWorld (skip (4 * orbitalCount ty) (randoms w))
           (skip (1 + orbitalCount ty) (uuids w))).

(** The identifiers the oracle will hand out are pairwise different and
    occur neither as an atom id nor as a bond endpoint of the state. *)
Definition freshFor (s : SimulationState) (w : World) : Prop :=
  (forall m n : nat, uuids w m = uuids w n -> m = n)
  /\ (forall n : nat, uuids w n ∉ map atom_id (atoms s))
  /\ (forall n : nat, bondCount (bonds s) (uuids w n) = 0%nat).

(** The positions in the uuid oracle of the ids [createAtoms] gives to
    the atoms of a template. *)
Fixpoint idIndices (tas : list (AtomType * Vector3)) : list nat :=
  match tas with
  | [] => []
  | (ty, _) :: tas' => 0%nat :: map (Nat.add (1 + orbitalCount ty)) (idIndices tas')
  end.

(** The number of bonds of a template at its atom [k]. *)
Definition touches (k : nat) (tb : TemplateBond) : bool :=
  Nat.eqb (idxA tb) k || Nat.eqb (idxB tb) k.

Definition degree (t : MoleculeTemplate) (k : nat) : nat :=
  List.length (List.filter (touches k) (tmpl_bonds t)).

(** Every bond of the template joins two of its atoms, and no atom has
    more bonds than the valence capacity of its type. *)
Definition templateOk (t : MoleculeTemplate) : bool :=
  forallb (fun tb => Nat.ltb (idxA tb) (List.length (tmpl_atoms t))
                     && Nat.ltb (idxB tb) (List.length (tmpl_atoms t)))
          (tmpl_bonds t)
  && forallb (fun k => match tmpl_atoms t !! k with
                       | Some (ty, _) => Nat.leb (degree t k) (maxBonds (ATOM_CONFIGS ty))
                       | None => true
                       end)
             (seq 0 (List.length (tmpl_atoms t))).

(** A template bond ends at the atom whose id is [id]. *)
Definition hits (ids : list string) (id : string) (tb : TemplateBond) : bool :=
  bool_decide (ids !! idxA tb = Some id) || bool_decide (ids !! idxB tb = Some id).

Definition inRange (n : nat) (tb : TemplateBond) : Prop :=
  (idxA tb < n)%nat /\ (idxB tb < n)%nat.

(** ** Runs of commands *)

(** The external commands that create atoms and bonds, and the frame
    (with the position of the vortex tool, if it is held down). *)
Inductive Command : Type :=
  | Frame (vortexPos : option Vector3) (delta : R)
  | DropAtom (ty : AtomType) (spawnPos : Vector3)
  | DropMolecule (key : string) (spawnPos : Vector3).

Definition runCommand
    (frame : option Vector3 -> Component -> R -> World -> Component * World)
    (cw : Component * World) (cmd : Command) : Component * World :=
  let '(c, w) := cw in
  match cmd with
  | Frame vortexPos delta => frame vortexPos c delta w
  | DropAtom ty spawnPos =>
      let '(s, w) := dropAtom ty spawnPos (stateRef c) w in
      (mkComponent s (chemistryCooldown c), w)
  | DropMolecule key spawnPos =>
      let '(s, w) := dropMolecule key spawnPos (stateRef c) w in
      (mkComponent s (chemistryCooldown c), w)
  end.

Definition run (frame : option Vector3 -> Component -> R -> World -> Component * World)
    (cmds : list Command) (c : Component) (w : World) : Component * World :=
  fold_left (runCommand frame) cmds (c, w).

Definition dropsSalt (cmd : Command) : Prop :=
  match cmd with
  | DropMolecule key _ => key = "salt"%string
  | _ => False
  end.

(** An oracle after some of its answers have been consumed. *)
Definition laterOf {A} (o' o : oracle A) : Prop :=
  exists m : nat, forall k : nat, o' k = o (m + k)%nat.

(** What a run keeps: unique ids, the valence bound, a fresh oracle. *)
Definition wellFormed (c : Component) (w : World) : Prop :=
  uniqueIds (atoms (stateRef c)) /\ valenceOk (stateRef c) /\ freshFor (stateRef c) w.

Definition runawayComponent : Component :=
  mkComponent (mkState [runaway] [] [] 0 true 1.0 (Vector3.mk 0 0 0) false) 1.

(** * The rest of the code: electrons, spawn position, tools, selection, App *)

(** ** More of three.js [Vector3] *)

Definition dot (a b : Vector3) : R :=
  Vector3.x a * Vector3.x b + Vector3.y a * Vector3.y b + Vector3.z a * Vector3.z b.

(** The sum of the entries of the force accumulator. *)
Definition totalForce (F : Forces) : Vector3 :=
  map_fold (fun _ f acc => Vector3.add f acc) Vector3.zero F.

(** The ids of a list of atoms, as a set. *)
Definition idSet (ats : list AtomData) : gset string := list_to_set (map atom_id ats).

(** ** Electron shells ([constants.ts]) *)

Inductive Subshell : Type := sub_s | sub_p.

(** [assignOrbitals(n, sub, count)]: the labels [`${n}s`] and
    [`${n}p${axes[i % 3]}`], all flagged as valence. *)
Definition assignOrbitals (n : nat) (sub : Subshell) (count : nat) : list (string * bool) :=
  let isValence := true in
  match sub with
  | sub_s => map (fun _ => (pretty n +:+ "s", isValence)) (seq 0 count)
  | sub_p =>
      let axes := ["x"; "y"; "z"] in
      map (fun i => (pretty n +:+ "p" +:+ default "" (axes !! (i mod 3)%nat), isValence))
          (seq 0 count)
  end.

(** The field [orbitals] of [ATOM_CONFIGS]. *)
Definition orbitals (ty : AtomType) : list (string * bool) :=
  match ty with
  | Hydrogen   => [("1s", true)]
  | Helium     => assignOrbitals 1 sub_s 2
  | Lithium    => assignOrbitals 1 sub_s 2 ++ assignOrbitals 2 sub_s 1
  | Beryllium  => assignOrbitals 1 sub_s 2 ++ assignOrbitals 2 sub_s 2
  | Carbon     => assignOrbitals 1 sub_s 2 ++ assignOrbitals 2 sub_s 2
                  ++ assignOrbitals 2 sub_p 2
  | Nitrogen   => assignOrbitals 1 sub_s 2 ++ assignOrbitals 2 sub_s 2
                  ++ assignOrbitals 2 sub_p 3
  | Oxygen     => assignOrbitals 1 sub_s 2 ++ assignOrbitals 2 sub_s 2
                  ++ assignOrbitals 2 sub_p 4
  | Fluorine   => assignOrbitals 1 sub_s 2 ++ assignOrbitals 2 sub_s 2
                  ++ assignOrbitals 2 sub_p 5
  | Neon       => assignOrbitals 1 sub_s 2 ++ assignOrbitals 2 sub_s 2
                  ++ assignOrbitals 2 sub_p 6
  | Sodium     => assignOrbitals 1 sub_s 2 ++ assignOrbitals 2 sub_s 2
                  ++ assignOrbitals 2 sub_p 6 ++ assignOrbitals 3 sub_s 1
  | Phosphorus => assignOrbitals 1 sub_s 2 ++ assignOrbitals 2 sub_s 2
                  ++ assignOrbitals 2 sub_p 6 ++ assignOrbitals 3 sub_s 2
                  ++ assignOrbitals 3 sub_p 3
  | Sulfur     => assignOrbitals 1 sub_s 2 ++ assignOrbitals 2 sub_s 2
                  ++ assignOrbitals 2 sub_p 6 ++ assignOrbitals 3 sub_s 2
                  ++ assignOrbitals 3 sub_p 4
  | Chlorine   => assignOrbitals 1 sub_s 2 ++ assignOrbitals 2 sub_s 2
                  ++ assignOrbitals 2 sub_p 6 ++ assignOrbitals 3 sub_s 2
                  ++ assignOrbitals 3 sub_p 5
  end.

Inductive ElectronKind : Type := core | valence.

(** [ElectronState].  [el_n] is [None] where [parseInt] yields [NaN]. *)
Record ElectronState : Type := mkElectron {
  electron_id : string;
  electron_type : ElectronKind;
  el_n : option nat;
  orbitalType : string;
  spin : Z;
  phaseOffset : R;
  axis : Vector3
}.

(** [parseInt(s.charAt(0))]: the value of a decimal digit, [NaN] otherwise. *)
Definition parseIntCharAt0 (s : string) : option nat :=
  match String.get 0 s with
  | Some c =>
      let k := Ascii.nat_of_ascii c in
      if Nat.leb 48 k && Nat.leb k 57 then Some (k - 48)%nat else None
  | None => None
  end.

(** [s.includes(sub)]. *)
Definition includes (s sub : string) : bool :=
  match String.index 0 sub s with Some _ => true | None => false end.

(** The body of [config.forEach((orb, i) => ...)] of [generateElectrons]:
    three random numbers for the axis, one uuid, one random number for the
    phase offset. *)
Definition generateElectron (atomType : AtomType) (i : nat) (orb : string * bool) (w : World)
    : ElectronState * World :=
  let r := randoms w in
  let n := parseIntCharAt0 orb.1 in
  let axis := Vector3.normalize
                (Vector3.mk (next r - 0.5) (next (rest r) - 0.5)
                            (next (rest (rest r)) - 0.5)) in
  let axis := if includes orb.1 "px" then Vector3.mk 1 0 0 else axis in
  let axis := if includes orb.1 "py" then Vector3.mk 0 1 0 else axis in
  let axis := if includes orb.1 "pz" then Vector3.mk 0 0 1 else axis in
  (mkElectron (next (uuids w))
     (if bool_decide (n = Some 1%nat) && negb (bool_decide (atomType = Hydrogen))
         && negb (bool_decide (atomType = Helium))
      then core else valence)
     n orb.1 (if Nat.eqb (i mod 2) 0 then 1 else -1)%Z
     (next (rest (rest (rest r))) * PI * 2) axis,
   mkWorld (rest (rest (rest (rest r)))) (rest (uuids w))).

Fixpoint generateElectronsFrom (atomType : AtomType) (i : nat) (orbs : list (string * bool))
    (w : World) : list ElectronState * World :=
  match orbs with
  | [] => ([], w)
  | orb :: orbs' =>
      let '(e, w) := generateElectron atomType i orb w in
      let '(es, w) := generateElectronsFrom atomType (S i) orbs' w in
      (e :: es, w)
  end.

Definition generateElectrons (atomType : AtomType) (w : World) : list ElectronState * World :=
  generateElectronsFrom atomType 0 (orbitals atomType) w.

(** ** The spawn position of a drop ([DropHandler]) *)

Definition PROXIMITY_LIMIT : R := 15.0.

(** [getCenterOfMass]: the mean of the positions (masses are not used). *)
Definition getCenterOfMass (ats : list AtomData) : Vector3 :=
  if Nat.eqb (List.length ats) 0 then Vector3.mk 0 0 0
  else
    Vector3.divideScalar
      (fold_left (fun com a => Vector3.add com (position a)) ats (Vector3.mk 0 0 0))
      (INR (List.length ats)).

(** [getClosestAtom]; [None] is the result [{ atom: null, dist: Infinity }]
    for the empty list. *)
Definition getClosestAtom (ats : list AtomData) (point : Vector3) : option (AtomData * R) :=
  match ats with
  | [] => None
  | a0 :: others =>
      Some (fold_left
              (fun cm a =>
                 let d := Vector3.distanceTo point (position a) in
                 if ltb d cm.2 then (a, d) else cm)
              others (a0, Vector3.distanceTo point (position a0)))
  end.

(** [Math.max(-CONTAINER_SIZE + 2, Math.min(CONTAINER_SIZE - 2, v))]. *)
Definition clampSpawn (v : R) : R :=
  Rmax (- CONTAINER_SIZE + 2) (Rmin (CONTAINER_SIZE - 2) v).

(** [calculateSpawnPos].  The three values read from the camera are
    arguments: [unprojected] is [new Vector3(x, y, 0.5).unproject(camera)],
    [cameraPosition] is [camera.position] and [worldDirection] is the
    result of [camera.getWorldDirection]. *)
Definition calculateSpawnPos (unprojected cameraPosition worldDirection : Vector3)
    (ats : list AtomData) : Vector3 :=
  let rayDir := Vector3.normalize (Vector3.sub unprojected cameraPosition) in
  let com := getCenterOfMass ats in
  let planeNormal := Vector3.normalize worldDirection in
  let denom := dot rayDir planeNormal in
  if ltb (Rabs denom) 0.0001 then Vector3.mk 0 0 0
  else
    let t := dot (Vector3.sub com cameraPosition) planeNormal / denom in
    let intersectPoint := Vector3.add cameraPosition (Vector3.multiplyScalar rayDir t) in
    let intersectPoint :=
      match getClosestAtom ats intersectPoint with
      | Some (atom, dist) =>
          if gtb dist PROXIMITY_LIMIT then
            let dirToAtom := Vector3.normalize (Vector3.sub intersectPoint (position atom)) in
            Vector3.add (position atom) (Vector3.multiplyScalar dirToAtom PROXIMITY_LIMIT)
          else intersectPoint
      | None => intersectPoint
      end in
    Vector3.mk (clampSpawn (Vector3.x intersectPoint)) (clampSpawn (Vector3.y intersectPoint))
               (clampSpawn (Vector3.z intersectPoint)).

(** The payload of a drop: [{ type: 'atom' | 'molecule', key }]. *)
Inductive DropData : Type :=
  | dropped_atom (key : AtomType)
  | dropped_molecule (key : string).

(** [handleDrop], after the payload has been parsed. *)
Definition handleDrop (data : DropData) (unprojected cameraPosition worldDirection : Vector3)
    (s : SimulationState) (w : World) : SimulationState * World :=
  let spawnPos := calculateSpawnPos unprojected cameraPosition worldDirection (atoms s) in
  match data with
  | dropped_atom type => dropAtom type spawnPos s w
  | dropped_molecule key => dropMolecule key spawnPos s w
  end.

(** ** The pointer tools of the first variant ([handlePointerDown]) *)

Inductive Tool : Type := cursor | lightning | blast | vortex.

#[global] Instance Tool_eq_dec : EqDecision Tool.
Proof. solve_decision. Defined.

(** The [atoms.forEach] of the lightning tool: the atoms after the loop,
    [affectedAtomIds], the random oracle.  An atom within the radius takes
    three random numbers for the kick and one for the ionisation. *)
Fixpoint lightningAtoms (point : Vector3) (ats : list AtomData) (rnd : oracle R)
    : list AtomData * gset string * oracle R :=
  match ats with
  | [] => ([], ∅, rnd)
  | a :: ats' =>
      if ltb (Vector3.distanceTo (position a) point) 8.0 then
        let kick := Vector3.multiplyScalar
                      (Vector3.normalize
                         (Vector3.mk (next rnd - 0.5) (next (rest rnd) - 0.5)
                                     (next (rest (rest rnd)) - 0.5)))
                      10 in
        let rnd := rest (rest (rest rnd)) in
        let q := if gtb (next rnd) 0.5 then charge a + 1 else charge a in
        let a := setCharge q (setKinematics (position a) (Vector3.add (velocity a) kick) a) in
        let '(ats', affected, rnd) := lightningAtoms point ats' (rest rnd) in
        (a :: ats', {[atom_id a]} ∪ affected, rnd)
      else
        let '(ats', affected, rnd) := lightningAtoms point ats' rnd in
        (a :: ats', affected, rnd)
  end.

(** The lightning tool: one uuid for the visual effect, then the state update. *)
Definition lightningStrike (point : Vector3) (s : SimulationState) (w : World)
    : SimulationState * World :=
  let '(ats, affectedAtomIds, rnd) := lightningAtoms point (atoms s) (randoms w) in
  let bs := List.filter
              (fun b => negb (bool_decide (atomA b ∈ affectedAtomIds))
                        && negb (bool_decide (atomB b ∈ affectedAtomIds)))
              (bonds s) in
  (mkState ats bs (photons s) (temperature s + 0.5) (isRunning s) (timeScale s)
           (magneticField s) (showFieldVectors s),
   mkWorld rnd (rest (uuids w))).

(** The [atoms.forEach] body of the blast tool. *)
Definition blastAtom (point : Vector3) (a : AtomData) : AtomData :=
  let radius := 15.0 in
  let dist := Vector3.distanceTo (position a) point in
  if ltb dist radius then
    let dir := Vector3.normalize (Vector3.subVectors (position a) point) in
    let force := (1.0 - dist / radius) * 40.0 in
    setKinematics (position a) (Vector3.add (velocity a) (Vector3.multiplyScalar dir force)) a
  else a.

Definition blastWave (point : Vector3) (s : SimulationState) (w : World)
    : SimulationState * World :=
  (mkState (map (blastAtom point) (atoms s)) (bonds s) (photons s) (temperature s)
           (isRunning s) (timeScale s) (magneticField s) (showFieldVectors s),
   mkWorld (randoms w) (rest (uuids w))).

(** ** Selection ([handleNucleusSelect], [handleElectronSelect]) *)

Inductive SelectionKind : Type := selected_atom | selected_electron.

Record SelectionItem : Type := mkSelection {
  sel_id : string;
  sel_type : SelectionKind;
  sel_atomType : option AtomType;
  sel_position : Vector3;
  sel_charge : R;
  sel_electronegativity : option R;
  parentAtomId : option string
}.

(** The updater passed to [setSelection], the same in both handlers. *)
Definition toggleSelection (newItem : SelectionItem) (prev : list SelectionItem)
    : list SelectionItem :=
  match List.find (fun item => bool_decide (sel_id item = sel_id newItem)) prev with
  | Some _ => List.filter (fun item => negb (bool_decide (sel_id item = sel_id newItem))) prev
  | None =>
      if Nat.leb 2 (List.length prev) then
        match prev !! 1%nat with
        | Some second => [second; newItem]
        | None => [newItem]
        end
      else prev ++ [newItem]
  end.

(** [handleNucleusSelect]; [usesCursor] is [activeTool === 'cursor'] in the
    first variant and [true] in the second, which has no tools. *)
Definition nucleusItem (atom : AtomData) : SelectionItem :=
  mkSelection (atom_id atom) selected_atom (Some (atom_type atom)) (position atom)
              (charge atom) (Some (electronegativity atom)) None.

Definition handleNucleusSelect (usesCursor : bool) (s : SimulationState) (atom : AtomData)
    (prev : list SelectionItem) : list SelectionItem :=
  if negb usesCursor then prev
  else if isRunning s then prev
  else toggleSelection (nucleusItem atom) prev.

Definition electronItem (el : ElectronState) (worldPos : Vector3) : SelectionItem :=
  mkSelection (electron_id el) selected_electron None worldPos (-1) None None.

Definition handleElectronSelect (usesCursor : bool) (s : SimulationState) (el : ElectronState)
    (worldPos : Vector3) (prev : list SelectionItem) : list SelectionItem :=
  if negb usesCursor then prev
  else if isRunning s then prev
  else toggleSelection (electronItem el worldPos) prev.

(** ** The labels of the analysis panel and of the nucleus *)

Inductive MatterState : Type := Solid | Liquid | Gas | Plasma.

(** The [phase] computed by [Nucleus]. *)
Definition phaseOf (simTemp : R) (atom : AtomData) : MatterState :=
  let phase := Liquid in
  let phase :=
    if ltb simTemp (meltingPoint atom) then Solid
    else if gtb simTemp (boilingPoint atom) then Gas
    else phase in
  if gtb simTemp 20.0 then Plasma else phase.

Inductive BondLabel : Type := label_ionic | label_polar | label_nonpolar.

(** [deltaEN] and [bondType] of [InteractionViz]; [None] stands for
    [deltaEN === null], where the label stays empty. *)
Definition interactionLabel (item1 item2 : SelectionItem) : option BondLabel :=
  match sel_electronegativity item1, sel_electronegativity item2 with
  | Some en1, Some en2 =>
      let deltaEN := Rabs (en1 - en2) in
      Some (if gtb deltaEN 1.7 then label_ionic
            else if gtb deltaEN 0.4 then label_polar else label_nonpolar)
  | _, _ => None
  end.

(** [force] of [InteractionViz]. *)
Definition interactionForce (item1 item2 : SelectionItem) : R :=
  let dist := Vector3.distanceTo (sel_position item1) (sel_position item2) in
  (K_COULOMB * Rabs (sel_charge item1 * sel_charge item2)) / (dist * dist).

(** ** [App.tsx] *)

Inductive ResetType : Type := reset_water | reset_salt | reset_dipole.

(** [resetSimulation]: the new state is [INITIAL_STATE] with the atoms and
    bonds of the preset. *)
Definition resetSimulation (type : ResetType) (w : World) : SimulationState * World :=
  let '(newAtoms, newBonds, w) :=
    match type with
    | reset_water =>
        let '(a1, b1, w) := createMoleculeFromTemplate "water" (Vector3.mk 0 0 0) w in
        let '(a2, b2, w) := createMoleculeFromTemplate "water" (Vector3.mk 2.5 1 1) w in
        let '(a3, b3, w) := createMoleculeFromTemplate "water" (Vector3.mk (-2) (-1) 0.5) w in
        (a1 ++ a2 ++ a3, b1 ++ b2 ++ b3, w)
    | reset_salt => createMoleculeFromTemplate "salt" (Vector3.mk 0 0 0) w
    | reset_dipole =>
        let p1 := newAtom (next (uuids w)) Sodium (Vector3.mk (-3) 0 0) (Vector3.mk 0 0 0) in
        let p2 := newAtom (next (rest (uuids w))) Chlorine (Vector3.mk 3 0 0)
                          (Vector3.mk 0 0 0) in
        ([setCharge 1 p1; setCharge (-1) p2], [],
         mkWorld (randoms w) (rest (rest (uuids w))))
    end in
  (mkState newAtoms newBonds (photons INITIAL_STATE) (temperature INITIAL_STATE)
           (isRunning INITIAL_STATE) (timeScale INITIAL_STATE)
           (magneticField INITIAL_STATE) (showFieldVectors INITIAL_STATE), w).

(** [handleFirePhoton]. *)
Definition handleFirePhoton (s : SimulationState) (w : World) : SimulationState * World :=
  let r := randoms w in
  let photon := mkPhoton (next (uuids w))
                  (Vector3.mk (-10) ((next r - 0.5) * 5) ((next (rest r) - 0.5) * 5))
                  (Vector3.mk 1 0 0) 5.0 in
  (mkState (atoms s) (bonds s) (photons s ++ [photon]) (temperature s) (isRunning s)
           (timeScale s) (magneticField s) (showFieldVectors s),
   mkWorld (rest (rest r)) (rest (uuids w))).

(** ** The application as a state machine *)

(** The state that outlives an event: the simulation and the cooldown, the
    position of the vortex tool, the selection. *)
Record AppState : Type := mkApp {
  app_component : Component;
  app_vortexPos : option Vector3;
  app_selection : list SelectionItem
}.

Inductive Event : Type :=
  | AnimationFrame (delta : R)
  | DropEvent (data : DropData) (unprojected cameraPosition worldDirection : Vector3)
  | PointerDown (activeTool : Tool) (point : Vector3)
  | PointerUp (activeTool : Tool)
  | PointerMove (activeTool : Tool) (point : Vector3)
  | NucleusClick (usesCursor : bool) (atom : AtomData)
  | ElectronClick (usesCursor : bool) (el : ElectronState) (worldPos : Vector3)
  | ResetClick (type : ResetType)
  | FirePhotonClick
  | TogglePlayClick
  | ToggleFieldClick
  | MagnetSlider (value : R)
  | TemperatureSlider (value : R).

Definition withState (a : AppState) (sw : SimulationState * World) : AppState * World :=
  (mkApp (mkComponent sw.1 (chemistryCooldown (app_component a)))
         (app_vortexPos a) (app_selection a), sw.2).

(** One event, for a given [useFrame] (the second variant ignores the
    position of the vortex tool). *)
Definition handleEvent
    (frame : option Vector3 -> Component -> R -> World -> Component * World)
    (aw : AppState * World) (ev : Event) : AppState * World :=
  let '(a, w) := aw in
  let s := stateRef (app_component a) in
  match ev with
  | AnimationFrame delta =>
      let '(c, w) := frame (app_vortexPos a) (app_component a) delta w in
      (mkApp c (app_vortexPos a) (app_selection a), w)
  | DropEvent data unprojected cameraPosition worldDirection =>
      withState a (handleDrop data unprojected cameraPosition worldDirection s w)
  | PointerDown activeTool point =>
      match activeTool with
      | cursor => (a, w)
      | lightning => withState a (lightningStrike point s w)
      | blast => withState a (blastWave point s w)
      | vortex => (mkApp (app_component a) (Some point) (app_selection a), w)
      end
  | PointerUp activeTool =>
      if bool_decide (activeTool = vortex)
      then (mkApp (app_component a) None (app_selection a), w) else (a, w)
  | PointerMove activeTool point =>
      if bool_decide (activeTool = vortex) && negb (isNull (app_vortexPos a))
      then (mkApp (app_component a) (Some point) (app_selection a), w) else (a, w)
  | NucleusClick usesCursor atom =>
      (mkApp (app_component a) (app_vortexPos a)
             (handleNucleusSelect usesCursor s atom (app_selection a)), w)
  | ElectronClick usesCursor el worldPos =>
      (mkApp (app_component a) (app_vortexPos a)
             (handleElectronSelect usesCursor s el worldPos (app_selection a)), w)
  | ResetClick type =>
      let '(s', w) := resetSimulation type w in
      (mkApp (mkComponent s' (chemistryCooldown (app_component a))) (app_vortexPos a) [], w)
  | FirePhotonClick => withState a (handleFirePhoton s w)
  | TogglePlayClick =>
      let newState := negb (isRunning s) in
      (mkApp (mkComponent
                (mkState (atoms s) (bonds s) (photons s) (temperature s) newState
                         (timeScale s) (magneticField s) (showFieldVectors s))
                (chemistryCooldown (app_component a)))
             (app_vortexPos a)
             (if newState then [] else app_selection a), w)
  | ToggleFieldClick =>
      (mkApp (mkComponent
                (mkState (atoms s) (bonds s) (photons s) (temperature s) (isRunning s)
                         (timeScale s) (magneticField s) (negb (showFieldVectors s)))
                (chemistryCooldown (app_component a)))
             (app_vortexPos a) (app_selection a), w)
  | MagnetSlider value =>
      (mkApp (mkComponent
                (mkState (atoms s) (bonds s) (photons s) (temperature s) (isRunning s)
                         (timeScale s) (Vector3.mk 0 0 value) (showFieldVectors s))
                (chemistryCooldown (app_component a)))
             (app_vortexPos a) (app_selection a), w)
  | TemperatureSlider value =>
      (mkApp (mkComponent
                (mkState (atoms s) (bonds s) (photons s) value (isRunning s)
                         (timeScale s) (magneticField s) (showFieldVectors s))
                (chemistryCooldown (app_component a)))
             (app_vortexPos a) (app_selection a), w)
  end.

Definition handleEvents
    (frame : option Vector3 -> Component -> R -> World -> Component * World)
    (evs : list Event) (a : AppState) (w : World) : AppState * World :=
  fold_left (handleEvent frame) evs (a, w).

(** The application when it is mounted. *)
Definition initialApp : AppState := mkApp (mkComponent INITIAL_STATE 0) None [].

(** ** Vocabulary of the properties *)

(** Every coordinate lies in [[-bound, bound]]. *)
Definition withinBox (bound : R) (v : Vector3) : Prop :=
  Rabs (Vector3.x v) <= bound /\ Rabs (Vector3.y v) <= bound /\ Rabs (Vector3.z v) <= bound.

(** A bond joins two different atoms of the list. *)
Definition joinsAtoms (ats : list AtomData) (b : BondData) : Prop :=
  atomA b ∈ map atom_id ats /\ atomB b ∈ map atom_id ats /\ atomA b <> atomB b.

(** What no tick and no tool writes: everything but position, velocity
    and charge. *)
Definition identityOf (a : AtomData) : AtomData :=
  setCharge 0 (setKinematics Vector3.zero Vector3.zero a).

(** What both filter callbacks do to the accumulator: they keep its keys. *)
Definition steady (cb : BondCallback) : Prop :=
  forall (temp : R) (ats : list AtomData) (bond : BondData) (F : Forces) (rnd : oracle R),
    dom (cb temp ats bond F rnd).1.2 = dom F.

(** The test of the chemistry engine, after [chemistryCooldown.current -= dt]. *)
Definition engineDue (c : Component) (delta : R) : bool :=
  leb (chemistryCooldown c - tickDt c delta) 0.

(** Both endpoints of the bond exist and the bond is not stretched beyond
    the break ratio: the tests of the filter that use no random number. *)
Definition intact (temp : R) (ats : list AtomData) (bond : BondData) : bool :=
  match findAtom ats (atomA bond), findAtom ats (atomB bond) with
  | Some a1, Some a2 => negb (snaps temp a1 a2 bond)
  | _, _ => false
  end.

Definition bondEnergy (bond : BondData) : R := strength bond * orderValue (order bond).

(** A bond as the chemistry engine creates it: single, with the strength
    of its type, from the atom at an index [i] to the atom at a later
    index [j] of the list of ids. *)
Definition formedBetween (ids : list string) (b : BondData) : Prop :=
  order b = Single
  /\ ((bond_type b = ionic /\ strength b = BOND_STRENGTH_IONIC)
      \/ (bond_type b = covalent /\ strength b = BOND_STRENGTH_COVALENT))
  /\ exists i j : nat, (i < j)%nat /\ ids !! i = Some (atomA b) /\ ids !! j = Some (atomB b).

(** [lengthMult] of [createMoleculeFromTemplate]. *)
Definition lengthMult (o : option BondOrder) : R :=
  match o with
  | Some Triple => 0.60
  | Some Double => 0.65
  | _ => 0.75
  end.

(** The bond [createMoleculeFromTemplate] pushes for a template bond
    between the atoms [a1] and [a2]. *)
Definition templateBond (id : string) (a1 a2 : AtomData) (tb : TemplateBond) : BondData :=
  mkBond id (atom_id a1) (atom_id a2)
         (if bool_decide (tb_type tb = ionic) then BOND_STRENGTH_IONIC
          else BOND_STRENGTH_COVALENT)
         ((radius a1 + radius a2) * lengthMult (tb_order tb))
         (default Single (tb_order tb)) (tb_type tb).

(** Every bond of the template joins two different atoms of the template. *)
Definition templateSound (t : MoleculeTemplate) : bool :=
  forallb (fun tb => Nat.ltb (idxA tb) (List.length (tmpl_atoms t))
                     && Nat.ltb (idxB tb) (List.length (tmpl_atoms t))
                     && negb (Nat.eqb (idxA tb) (idxB tb)))
          (tmpl_bonds t).

(** The atom carries the charge [ATOM_CONFIGS] gives to its type. *)
Definition configured (a : AtomData) : Prop :=
  charge a = cfg_charge (ATOM_CONFIGS (atom_type a)).

(** The atom is within the radius of the lightning tool. *)
Definition struck (point : Vector3) (a : AtomData) : Prop :=
  Vector3.distanceTo (position a) point < 8.0.

(** What the lightning tool does to one atom: nothing outside the
    radius; inside, a kick of length at most 10 and possibly one more
    unit of charge. *)
Definition lightningEffect (point : Vector3) (a a' : AtomData) : Prop :=
  position a' = position a /\ identityOf a' = identityOf a
  /\ (~ struck point a -> a' = a)
  /\ (struck point a ->
      (charge a' = charge a \/ charge a' = charge a + 1)
      /\ Vector3.length (Vector3.sub (velocity a') (velocity a)) <= 10).

(** What the blast tool does to one atom: nothing at distance 15 or more
    (and nothing to an atom exactly at the point); otherwise an impulse
    of size [(1 - dist / 15) * 40] along the line from the point to the
    atom. *)
Definition blastEffect (point : Vector3) (a a' : AtomData) : Prop :=
  let dist := Vector3.distanceTo (position a) point in
  let dv := Vector3.sub (velocity a') (velocity a) in
  position a' = position a /\ charge a' = charge a /\ identityOf a' = identityOf a
  /\ (15 <= dist \/ dist = 0 -> a' = a)
  /\ (0 < dist < 15 ->
      Vector3.length dv = (1 - dist / 15) * 40
      /\ dv = Vector3.multiplyScalar (Vector3.sub (position a) point)
                ((1 - dist / 15) * 40 / dist)).

(** ** Invariants of the application *)

(** Every atom of the state lies in the container. *)
Definition contained (s : SimulationState) : Prop :=
  Forall (fun a => withinBox CONTAINER_SIZE (position a)) (atoms s).

(** Atom ids are pairwise different, every bond joins two different
    atoms of the list, and the uuids still to come are pairwise
    different and name no atom. *)
Definition intactLists (ats : list AtomData) (bs : list BondData) (ids : oracle string)
    : Prop :=
  NoDup (map atom_id ats)
  /\ Forall (joinsAtoms ats) bs
  /\ (forall m n : nat, ids m = ids n -> m = n)
  /\ (forall n : nat, ids n ∉ map atom_id ats).

Definition intactState (s : SimulationState) (w : World) : Prop :=
  intactLists (atoms s) (bonds s) (uuids w).

(** Nothing is selected while the simulation runs; at most two items
    are selected, with different ids. *)
Definition selectionOk (a : AppState) : Prop :=
  (isRunning (stateRef (app_component a)) = true -> app_selection a = [])
  /\ (List.length (app_selection a) <= 2)%nat
  /\ NoDup (map sel_id (app_selection a)).

(** The order of the phases along the temperature axis. *)
Definition phaseRank (p : MatterState) : nat :=
  match p with Solid => 0 | Liquid => 1 | Gas => 2 | Plasma => 3 end.

(** * Properties *)

(** ** Evaluation helpers *)

Lemma ltb_true (a b : R) : a < b -> ltb a b = true.
Proof. intros H. unfold ltb. by rewrite bool_decide_eq_true_2. Qed.

Lemma ltb_false (a b : R) : b <= a -> ltb a b = false.
Proof. intros H. unfold ltb. rewrite bool_decide_eq_false_2; [done | lra]. Qed.

Lemma gtb_true (a b : R) : b < a -> gtb a b = true.
Proof. intros H. unfold gtb. by rewrite bool_decide_eq_true_2. Qed.

Lemma gtb_false (a b : R) : a <= b -> gtb a b = false.
Proof. intros H. unfold gtb. rewrite bool_decide_eq_false_2; [done | lra]. Qed.

Lemma leb_true (a b : R) : a <= b -> leb a b = true.
Proof. intros H. unfold leb. by rewrite gtb_false. Qed.

Lemma leb_false (a b : R) : b < a -> leb a b = false.
Proof. intros H. unfold leb. by rewrite gtb_true. Qed.

Lemma neqb_true (a b : R) : a <> b -> neqb a b = true.
Proof. intros H. unfold neqb. by rewrite bool_decide_eq_false_2. Qed.

Lemma neqb_false (a : R) : neqb a a = false.
Proof. unfold neqb. by rewrite bool_decide_eq_true_2. Qed.

Lemma ltb_spec (a b : R) : ltb a b = true <-> a < b.
Proof. unfold ltb. apply bool_decide_eq_true. Qed.

Lemma gtb_spec (a b : R) : gtb a b = true <-> b < a.
Proof. unfold gtb. apply bool_decide_eq_true. Qed.

Lemma sign_pos (a : R) : 0 < a -> sign a = 1.
Proof. intros H. unfold sign. by rewrite bool_decide_eq_true_2. Qed.

Lemma sign_neg (a : R) : a < 0 -> sign a = -1.
Proof.
  intros H. unfold sign.
  rewrite bool_decide_eq_false_2 by lra. by rewrite bool_decide_eq_true_2.
Qed.

(** Along the first axis the distance is the absolute difference. *)
Lemma distanceTo_along_x (x1 x2 y z : R) :
  Vector3.distanceTo (Vector3.mk x1 y z) (Vector3.mk x2 y z) = Rabs (x1 - x2).
Proof.
  unfold Vector3.distanceTo, Vector3.length, Vector3.lengthSq, Vector3.sub. simpl.
  replace ((x1 - x2) * (x1 - x2) + (y - y) * (y - y) + (z - z) * (z - z))
    with (Rsqr (x1 - x2)) by (unfold Rsqr; ring).
  apply sqrt_Rsqr_abs.
Qed.

Lemma length_along_x (x : R) : Vector3.length (Vector3.mk x 0 0) = Rabs x.
Proof.
  unfold Vector3.length, Vector3.lengthSq. simpl.
  replace (x * x + 0 * 0 + 0 * 0) with (Rsqr x) by (unfold Rsqr; ring).
  apply sqrt_Rsqr_abs.
Qed.

(** ** Frame of the tick *)

Section LoopFacts.

Variable bondCallback : BondCallback.
Variables ionicRestLength covalentRestLength : AtomData -> AtomData -> R.
Variable vortexPos : option Vector3.

#[local] Abbreviation frame := (useFrame bondCallback ionicRestLength covalentRestLength vortexPos).

Lemma commit_frame (s : SimulationState) (t : Tick) :
  temperature (commit s t) = temperature s
  /\ magneticField (commit s t) = magneticField s
  /\ timeScale (commit s t) = timeScale s
  /\ isRunning (commit s t) = isRunning s
  /\ showFieldVectors (commit s t) = showFieldVectors s.
Proof. unfold commit. by destruct (commits s t). Qed.

Lemma useFrame_frame (c : Component) (delta : R) (w : World) :
  let s := stateRef c in
  let s' := stateRef (frame c delta w).1 in
  temperature s' = temperature s
  /\ magneticField s' = magneticField s
  /\ timeScale s' = timeScale s
  /\ isRunning s' = isRunning s
  /\ showFieldVectors s' = showFieldVectors s.
Proof.
  unfold useFrame. destruct (negb (isRunning (stateRef c))); simpl.
  - done.
  - apply commit_frame.
Qed.

End LoopFacts.

(** C10.  In both variants a tick leaves the temperature, the magnetic
    field, the time scale, the run flag and the field-vector flag of the
    state as they were, for every input state, frame time and oracle: only
    the atom, bond and photon collections can differ. *)
Theorem C10_tick_frame (vortexPos : option Vector3) (c : Component) (delta : R) (w : World) :
  let s := stateRef c in
  let s1 := stateRef (FirstVariant.useFrame vortexPos c delta w).1 in
  let s2 := stateRef (SecondVariant.useFrame c delta w).1 in
  (temperature s1 = temperature s /\ magneticField s1 = magneticField s
   /\ timeScale s1 = timeScale s /\ isRunning s1 = isRunning s
   /\ showFieldVectors s1 = showFieldVectors s)
  /\ (temperature s2 = temperature s /\ magneticField s2 = magneticField s
      /\ timeScale s2 = timeScale s /\ isRunning s2 = isRunning s
      /\ showFieldVectors s2 = showFieldVectors s).
Proof. split; apply useFrame_frame. Qed.

(** ** Integration and boundary reflection *)

Lemma clampAxis_outside (p v : R) :
  CONTAINER_SIZE < Rabs p ->
  clampAxis p v = ((if bool_decide (0 < p) then CONTAINER_SIZE else - CONTAINER_SIZE), -0.5 * v).
Proof.
  intros H. unfold clampAxis. rewrite gtb_true by done.
  assert (0 < CONTAINER_SIZE) by (unfold CONTAINER_SIZE; lra).
  f_equal; [| lra].
  case_bool_decide as Hp.
  - rewrite sign_pos by done. lra.
  - rewrite sign_neg; [lra |].
    destruct (Rcase_abs p) as [Hn | Hn]; [done |].
    rewrite Rabs_right in H by done. lra.
Qed.

Lemma clampAxis_inside (p v : R) :
  Rabs p <= CONTAINER_SIZE -> clampAxis p v = (p, v).
Proof. intros H. unfold clampAxis. by rewrite gtb_false. Qed.

(** The output atom of [integrateAtom], axis by axis. *)
Lemma integrateAtom_component (temp dt : R) (atom : AtomData) (F : Forces)
    (rnd : oracle R) (ax : Axis) :
  let pos := (integrated temp dt atom F rnd).1.1 in
  let vel := (integrated temp dt atom F rnd).1.2 in
  let atom' := (integrateAtom temp dt atom F rnd).1.1 in
  (component ax (position atom'), component ax (velocity atom'))
  = clampAxis (component ax pos) (component ax vel).
Proof.
  unfold integrateAtom.
  destruct (integrated temp dt atom F rnd) as [[pos vel] accel]. simpl.
  destruct (clampAxis (Vector3.x pos) (Vector3.x vel)) as [px vx] eqn:Ex.
  destruct (clampAxis (Vector3.y pos) (Vector3.y vel)) as [py vy] eqn:Ey.
  destruct (clampAxis (Vector3.z pos) (Vector3.z vel)) as [pz vz] eqn:Ez.
  destruct ax; simpl; congruence.
Qed.

(** Every atom the integration loop returns is the image of an atom of
    the input list under [integrateAtom]. *)
Lemma integrate_elem (temp dt : R) (ats : list AtomData) :
  forall (F : Forces) (rnd : oracle R) (atom' : AtomData),
  In atom' (integrate temp dt ats F rnd).1 ->
  exists atom F0 rnd0,
    In atom ats /\ atom' = (integrateAtom temp dt atom F0 rnd0).1.1.
Proof.
  induction ats as [| a ats IH]; intros F rnd atom' Hin; simpl in Hin.
  - destruct Hin.
  - destruct (integrateAtom temp dt a F rnd) as [[a1 F1] rnd1] eqn:Ea.
    destruct (integrate temp dt ats F1 rnd1) as [ats1 rnd2] eqn:Er.
    simpl in Hin. destruct Hin as [<- | Hin].
    + exists a, F, rnd. split; [by left |]. by rewrite Ea.
    + destruct (IH F1 rnd1 atom') as (b & F0 & rnd0 & Hb & ->).
      * by rewrite Er.
      * exists b, F0, rnd0. split; [by right | done].
Qed.

Lemma integrate_length (temp dt : R) (ats : list AtomData) :
  forall (F : Forces) (rnd : oracle R),
  List.length (integrate temp dt ats F rnd).1 = List.length ats.
Proof.
  induction ats as [| a ats IH]; intros F rnd; simpl; [done |].
  destruct (integrateAtom temp dt a F rnd) as [[a1 F1] rnd1].
  specialize (IH F1 rnd1).
  destruct (integrate temp dt ats F1 rnd1) as [ats1 rnd2]. simpl in *. lia.
Qed.

(** What the integration loop returns: every atom comes from an atom of
    the input list, and on each axis on which the integrated position
    component is beyond the wall the atom sits on the wall, its velocity
    component reversed and halved. *)
Lemma integrate_reflects (temp dt : R) (ats : list AtomData) (F : Forces)
    (rnd : oracle R) (atom' : AtomData) :
  In atom' (integrate temp dt ats F rnd).1 ->
  exists atom F0 rnd0,
    In atom ats
    /\ atom' = (integrateAtom temp dt atom F0 rnd0).1.1
    /\ forall ax : Axis,
         let p := component ax (integrated temp dt atom F0 rnd0).1.1 in
         let v := component ax (integrated temp dt atom F0 rnd0).1.2 in
         Rabs p > CONTAINER_SIZE ->
         component ax (position atom')
           = (if bool_decide (0 < p) then CONTAINER_SIZE else - CONTAINER_SIZE)
         /\ Rabs (component ax (position atom')) = CONTAINER_SIZE
         /\ component ax (velocity atom') = -0.5 * v.
Proof.
  intros Hin.
  destruct (integrate_elem temp dt ats F rnd atom' Hin) as (atom & F0 & rnd0 & Hat & ->).
  exists atom, F0, rnd0. split; [done |]. split; [done |].
  intros ax p v Hout.
  pose proof (integrateAtom_component temp dt atom F0 rnd0 ax) as Hc.
  simpl in Hc. fold p v in Hc.
  rewrite clampAxis_outside in Hc by done.
  injection Hc as Hp Hv. rewrite Hp, Hv.
  split; [done |]. split; [| done].
  assert (0 < CONTAINER_SIZE) by (unfold CONTAINER_SIZE; lra).
  case_bool_decide.
  - apply Rabs_right. lra.
  - rewrite Rabs_left by lra. lra.
Qed.

(** The runaway atom is integrated to abscissa 25.35, beyond the wall at
    25, with velocity 9: it leaves the tick at 25 with velocity −4.5. *)
Lemma runaway_reflected :
  let atom' := (integrateAtom 0 0.05 runaway ∅ (always 0.5)).1.1 in
  Vector3.x (position atom') = 25 /\ Vector3.x (velocity atom') = -4.5.
Proof.
  intros atom'.
  pose proof (integrateAtom_component 0 0.05 runaway ∅ (always 0.5) AxisX) as H.
  simpl in H. fold atom' in H.
  assert (Hi : integrated 0 0.05 runaway ∅ (always 0.5)
               = (Vector3.mk 25.35 0 0, Vector3.mk 9 0 0, Vector3.zero)).
  { unfold integrated, getForce. rewrite lookup_total_empty. simpl.
    rewrite ltb_true by lra.
    unfold Vector3.add, Vector3.multiplyScalar, Vector3.divideScalar, Vector3.normalize,
      Vector3.divideScalar, Vector3.multiplyScalar, Vector3.zero, next, rest, always. simpl.
    f_equal; [f_equal |]; f_equal; lra. }
  rewrite Hi in H. simpl in H.
  rewrite clampAxis_outside in H by (unfold CONTAINER_SIZE; rewrite Rabs_right; lra).
  rewrite bool_decide_eq_true_2 in H by lra.
  injection H as Hp Hv. unfold CONTAINER_SIZE in Hp. split; lra.
Qed.

(** ** Pairwise forces *)

Lemma getForce_forceAdd (F : Forces) (id : string) (v : Vector3) :
  is_Some (F !! id) -> getForce (forceAdd id v F) id = Vector3.add (getForce F id) v.
Proof.
  intros [f Hf]. unfold getForce, forceAdd.
  rewrite lookup_total_alter_eq, lookup_total_alt, Hf. done.
Qed.

Lemma getForce_forceSub (F : Forces) (id : string) (v : Vector3) :
  is_Some (F !! id) ->
  getForce (forceSub id v F) id = Vector3.add (getForce F id) (Vector3.negate v).
Proof.
  intros [f Hf]. unfold getForce, forceSub.
  rewrite lookup_total_alter_eq, lookup_total_alt, Hf. simpl.
  unfold Vector3.sub, Vector3.add, Vector3.negate. simpl. f_equal; lra.
Qed.

Lemma getForce_forceAdd_ne (F : Forces) (id id' : string) (v : Vector3) :
  id <> id' -> getForce (forceAdd id v F) id' = getForce F id'.
Proof. intros H. unfold getForce, forceAdd. by rewrite lookup_total_alter_ne. Qed.

Lemma getForce_forceSub_ne (F : Forces) (id id' : string) (v : Vector3) :
  id <> id' -> getForce (forceSub id v F) id' = getForce F id'.
Proof. intros H. unfold getForce, forceSub. by rewrite lookup_total_alter_ne. Qed.

Lemma lookup_forceAdd_is_Some (F : Forces) (id id' : string) (v : Vector3) :
  is_Some (forceAdd id v F !! id') <-> is_Some (F !! id').
Proof.
  unfold forceAdd. destruct (decide (id = id')) as [<- | Hne].
  - rewrite lookup_alter_eq. by rewrite fmap_is_Some.
  - by rewrite lookup_alter_ne.
Qed.

Lemma lookup_forceSub_is_Some (F : Forces) (id id' : string) (v : Vector3) :
  is_Some (forceSub id v F !! id') <-> is_Some (F !! id').
Proof.
  unfold forceSub. destruct (decide (id = id')) as [<- | Hne].
  - rewrite lookup_alter_eq. by rewrite fmap_is_Some.
  - by rewrite lookup_alter_ne.
Qed.

(** What [forces.get(a1.id)!.add(v); forces.get(a2.id)!.sub(v)] does to
    the accumulators of two different atoms. *)
Lemma equal_and_opposite (F : Forces) (id1 id2 : string) (v : Vector3) :
  id1 <> id2 -> is_Some (F !! id1) -> is_Some (F !! id2) ->
  let F' := forceSub id2 v (forceAdd id1 v F) in
  getForce F' id1 = Vector3.add (getForce F id1) v
  /\ getForce F' id2 = Vector3.add (getForce F id2) (Vector3.negate v)
  /\ forall id, id <> id1 -> id <> id2 -> getForce F' id = getForce F id.
Proof.
  intros Hne H1 H2 F'. unfold F'. repeat split.
  - rewrite getForce_forceSub_ne by done. by apply getForce_forceAdd.
  - rewrite getForce_forceSub by (by apply lookup_forceAdd_is_Some).
    by rewrite getForce_forceAdd_ne.
  - intros id Hn1 Hn2.
    rewrite getForce_forceSub_ne by done. by rewrite getForce_forceAdd_ne.
Qed.

(** C6.  Every pairwise term of a tick -- the pair force, whose magnitude
    is the sum of the Lennard-Jones, Coulomb and intermolecular terms
    along one direction, and the spring force of a kept bond -- adds a
    vector to the accumulator of the first atom and the negation of the
    same vector to the accumulator of the second atom, and touches no
    other accumulator. *)
Theorem C6_newton_third_law (bs : list BondData) (temp stiffness : R)
    (a1 a2 : AtomData) (bond : BondData) (F : Forces) :
  atom_id a1 <> atom_id a2 ->
  is_Some (F !! atom_id a1) -> is_Some (F !! atom_id a2) ->
  (forall fVec : Vector3,
     pairForce bs temp a1 a2 = Some fVec ->
     let F' := applyPair bs temp a1 a2 F in
     getForce F' (atom_id a1) = Vector3.add (getForce F (atom_id a1)) fVec
     /\ getForce F' (atom_id a2) = Vector3.add (getForce F (atom_id a2)) (Vector3.negate fVec)
     /\ forall id, id <> atom_id a1 -> id <> atom_id a2 -> getForce F' id = getForce F id)
  /\ (exists springForce : Vector3,
        let F' := applySpring stiffness temp a1 a2 bond F in
        getForce F' (atom_id a1) = Vector3.add (getForce F (atom_id a1)) springForce
        /\ getForce F' (atom_id a2)
           = Vector3.add (getForce F (atom_id a2)) (Vector3.negate springForce)
        /\ forall id, id <> atom_id a1 -> id <> atom_id a2 -> getForce F' id = getForce F id).
Proof.
  intros Hne H1 H2. split.
  - intros fVec Hf F'. unfold F', applyPair. rewrite Hf.
    by apply equal_and_opposite.
  - eexists. unfold applySpring. by apply equal_and_opposite.
Qed.

Lemma C6_newton_third_law_witness :
  let F : Forces := initForces [ionA; ionB] in
  exists springForce : Vector3,
    let F' := applySpring 1 0 ionA ionB (mkBond "k" "a" "b" 1 1 Single covalent) F in
    getForce F' "a" = Vector3.add (getForce F "a") springForce
    /\ getForce F' "b" = Vector3.add (getForce F "b") (Vector3.negate springForce).
Proof.
  intros F.
  destruct (C6_newton_third_law [] 0 1 ionA ionB
              (mkBond "k" "a" "b" 1 1 Single covalent) F) as [_ [v (Ha & Hb & _)]].
  - simpl. discriminate.
  - by eexists.
  - by eexists.
  - exists v. by split.
Defined.

Arguments ltb : simpl never.
Arguments gtb : simpl never.
Arguments leb : simpl never.
Arguments geb : simpl never.
Arguments neqb : simpl never.
Arguments sign : simpl never.

(** Decides the comparisons of a goal about concrete numbers. *)
Ltac eval_R :=
  repeat first
    [ rewrite distanceTo_along_x
    | rewrite length_along_x
    | rewrite Rabs_right by lra
    | rewrite Rabs_left by lra
    | rewrite ltb_true by lra
    | rewrite ltb_false by lra
    | rewrite gtb_true by lra
    | rewrite gtb_false by lra
    | rewrite leb_true by lra
    | rewrite leb_false by lra
    | rewrite neqb_true by lra
    | rewrite neqb_false
    | rewrite bool_decide_eq_true_2 by lra
    | rewrite bool_decide_eq_false_2 by lra ].

(** The scalar of a pair, by cases on the bond test. *)
Lemma pairForceMag_unbonded (bs : list BondData) (temp : R) (a1 a2 : AtomData) (r : R) :
  isBonded bs a1 a2 = false -> charge a1 <> 0 -> charge a2 <> 0 ->
  pairForceMag bs temp a1 a2 r
  = ljTerm a1 a2 r + coulombTerm a1 a2 r
    - (if ltb temp ((boilingPoint a1 + boilingPoint a2) / 2) && ltb r 4.0
       then cohesionTerm r else 0).
Proof.
  intros Hb H1 H2. unfold pairForceMag. rewrite Hb. simpl.
  rewrite !neqb_true by done. simpl.
  destruct (ltb temp _ && ltb r 4.0); lra.
Qed.

Lemma pairForceMag_bonded (bs : list BondData) (temp : R) (a1 a2 : AtomData) (r : R) :
  isBonded bs a1 a2 = true -> charge a1 <> 0 -> charge a2 <> 0 ->
  pairForceMag bs temp a1 a2 r = coulombTerm a1 a2 r.
Proof.
  intros Hb H1 H2. unfold pairForceMag. rewrite Hb. simpl.
  rewrite !neqb_true by done. simpl. lra.
Qed.

(** Two unbonded ions of opposite unit charge half a unit apart repel:
    the Lennard-Jones term outweighs the Coulomb term. *)
Lemma C7_counterexample :
  charge ionA = 1 /\ charge ionB = -1 /\ isBonded [] ionA ionB = false
  /\ Vector3.distanceTo (position ionA) (position ionB) = 0.5
  /\ exists m : R,
       pairForce [] 3 ionA ionB = Some (Vector3.mk m 0 0)
       /\ 0 < m
       /\ Vector3.length (Vector3.mk m 0 0) <> K_COULOMB * 1 * 1 / (0.5 * 0.5).
Proof.
  assert (Hd : Vector3.length (Vector3.subVectors (position ionA) (position ionB)) = 0.5).
  { simpl. unfold Vector3.subVectors. fold (Vector3.distanceTo (Vector3.mk 0.5 0 0) (Vector3.mk 0 0 0)).
    eval_R. lra. }
  split; [done |]. split; [done |]. split; [done |].
  split; [exact Hd |].
  eexists. split; [| split].
  - unfold pairForce, Vector3.normalize. rewrite Hd. eval_R.
    rewrite pairForceMag_unbonded by (simpl; done || lra).
    simpl. eval_R. simpl.
    unfold Vector3.divideScalar, Vector3.multiplyScalar, Vector3.subVectors, Vector3.sub. simpl.
    f_equal. f_equal; lra.
  - unfold ljTerm, coulombTerm, LJ_EPSILON, LJ_SIGMA_SCALE, K_COULOMB. simpl. lra.
  - rewrite length_along_x.
    unfold ljTerm, coulombTerm, LJ_EPSILON, LJ_SIGMA_SCALE, K_COULOMB. simpl.
    rewrite Rabs_right by lra. lra.
Qed.

Lemma length_nonneg (v : Vector3) : 0 <= Vector3.length v.
Proof. unfold Vector3.length. apply sqrt_pos. Qed.

(** C7 (amended).  For two atoms of charges +1 and −1 at separation
    [r >= 0.1] the Coulomb term of the pair is [−K × 1 × 1 / r²]
    (attractive).  The force of the pair is the unit vector from the
    second atom to the first scaled by the sum of the terms: for an
    unbonded pair the Lennard-Jones term plus the Coulomb term minus the
    intermolecular attraction [15 / r²] (the latter only below the mean
    boiling point and for [r < 4]); for a bonded pair the Coulomb term
    alone. *)
Theorem C7_coulomb_term (bs : list BondData) (temp : R) (a1 a2 : AtomData) :
  (charge a1 = 1 /\ charge a2 = -1) \/ (charge a1 = -1 /\ charge a2 = 1) ->
  let dir := Vector3.subVectors (position a1) (position a2) in
  let r := Vector3.length dir in
  0.1 <= r ->
  coulombTerm a1 a2 r = - (K_COULOMB * 1 * 1 / (r * r))
  /\ coulombTerm a1 a2 r < 0
  /\ pairForce bs temp a1 a2
     = Some (Vector3.multiplyScalar (Vector3.normalize dir) (pairForceMag bs temp a1 a2 r))
  /\ (isBonded bs a1 a2 = false ->
      pairForceMag bs temp a1 a2 r
      = ljTerm a1 a2 r + - (K_COULOMB * 1 * 1 / (r * r))
        - (if ltb temp ((boilingPoint a1 + boilingPoint a2) / 2) && ltb r 4.0
           then 15.0 / (r * r) else 0))
  /\ (isBonded bs a1 a2 = true ->
      pairForceMag bs temp a1 a2 r = - (K_COULOMB * 1 * 1 / (r * r))).
Proof.
  intros Hq dir r Hr.
  assert (Hc : coulombTerm a1 a2 r = - (K_COULOMB * 1 * 1 / (r * r))).
  { unfold coulombTerm. destruct Hq as [[-> ->] | [-> ->]]; field; lra. }
  assert (H1 : charge a1 <> 0) by (destruct Hq as [[-> _] | [-> _]]; lra).
  assert (H2 : charge a2 <> 0) by (destruct Hq as [[_ ->] | [_ ->]]; lra).
  split; [done |]. split.
  - rewrite Hc. unfold K_COULOMB.
    assert (0 < r * r) by nra.
    assert (0 < 350.0 * 1 * 1 / (r * r)); [| lra].
    apply Rdiv_lt_0_compat; lra.
  - split.
    + unfold pairForce. fold dir. fold r. by rewrite ltb_false.
    + split; intros Hb.
      * rewrite pairForceMag_unbonded by done. by rewrite Hc.
      * rewrite pairForceMag_bonded by done. by rewrite Hc.
Qed.

Lemma C7_coulomb_term_witness :
  coulombTerm ionA ionB (Vector3.length (Vector3.subVectors (position ionA) (position ionB)))
  < 0.
Proof.
  apply (C7_coulomb_term [] 3 ionA ionB).
  - left. simpl. split; reflexivity.
  - simpl. unfold Vector3.subVectors, Vector3.sub. simpl.
    replace (0.5 - 0) with 0.5 by lra. replace (0 - 0) with 0 by lra.
    rewrite length_along_x. rewrite Rabs_right by lra. lra.
Defined.

(** ** The filter callbacks *)

Lemma V1_callback_snap (temp : R) (ats : list AtomData) (bond : BondData) (F : Forces)
    (rnd : oracle R) (a1 a2 : AtomData) :
  findAtom ats (atomA bond) = Some a1 -> findAtom ats (atomB bond) = Some a2 ->
  snaps temp a1 a2 bond = true ->
  V1.bondCallback temp ats bond F rnd = (false, F, rnd).
Proof. intros H1 H2 Hs. unfold V1.bondCallback. by rewrite H1, H2, Hs. Qed.

Lemma V2_callback_snap (temp : R) (ats : list AtomData) (bond : BondData) (F : Forces)
    (rnd : oracle R) (a1 a2 : AtomData) :
  findAtom ats (atomA bond) = Some a1 -> findAtom ats (atomB bond) = Some a2 ->
  snaps temp a1 a2 bond = true ->
  V2.bondCallback temp ats bond F rnd = (false, F, rnd).
Proof. intros H1 H2 Hs. unfold V2.bondCallback. by rewrite H1, H2, Hs. Qed.

Lemma V1_callback_stale (temp : R) (ats : list AtomData) (bond : BondData) (F : Forces)
    (rnd : oracle R) :
  findAtom ats (atomA bond) = None \/ findAtom ats (atomB bond) = None ->
  V1.bondCallback temp ats bond F rnd = (false, F, rnd).
Proof.
  intros [H | H]; unfold V1.bondCallback; rewrite H; [done |].
  by destruct (findAtom ats (atomA bond)).
Qed.

(** The verdict of the first callback on a bond that passes the
    mechanical test. *)
Lemma V1_callback_thermal (temp : R) (ats : list AtomData) (bond : BondData) (F : Forces)
    (rnd : oracle R) (a1 a2 : AtomData) :
  findAtom ats (atomA bond) = Some a1 -> findAtom ats (atomB bond) = Some a2 ->
  snaps temp a1 a2 bond = false ->
  V1.bondCallback temp ats bond F rnd
  = if V1.thermallyExposed temp bond then
      if ltb (next rnd) (V1.thermalProb temp bond) then (false, F, rest rnd)
      else (true, applySpring (V1.stiffness bond) temp a1 a2 bond F, rest rnd)
    else (true, applySpring (V1.stiffness bond) temp a1 a2 bond F, rnd).
Proof. intros H1 H2 Hs. unfold V1.bondCallback. by rewrite H1, H2, Hs. Qed.

(** The verdict of the second callback on a covalent bond at or below the
    plasma threshold: kept, without a roll. *)
Lemma V2_callback_covalent_cool (temp : R) (ats : list AtomData) (bond : BondData)
    (F : Forces) (rnd : oracle R) (a1 a2 : AtomData) :
  findAtom ats (atomA bond) = Some a1 -> findAtom ats (atomB bond) = Some a2 ->
  snaps temp a1 a2 bond = false ->
  bond_type bond <> ionic -> temp <= 20 ->
  V2.bondCallback temp ats bond F rnd
  = (true, applySpring (strength bond) temp a1 a2 bond F, rnd).
Proof.
  intros H1 H2 Hs Hty Ht. unfold V2.bondCallback. rewrite H1, H2, Hs.
  rewrite bool_decide_eq_false_2 by done. simpl.
  by rewrite gtb_false by lra.
Qed.

Lemma carbon_not_snapped : snaps 10 carbonA carbonB carbonBond = false.
Proof.
  unfold snaps, effectiveRestLength, THERMAL_EXPANSION_COEFF, BOND_BREAK_RATIO. simpl.
  eval_R. reflexivity.
Qed.

(** At temperature 10 the thermal energy (1500) of the carbon bond exceeds
    0.8 times its bond energy (960) and a roll of 0 is below the removal
    probability of the claim (0.027), yet the second variant keeps the
    bond and draws no random number. *)
Lemma C3_counterexample :
  findAtom [carbonA; carbonB] (atomA carbonBond) = Some carbonA
  /\ findAtom [carbonA; carbonB] (atomB carbonBond) = Some carbonB
  /\ snaps 10 carbonA carbonB carbonBond = false
  /\ 10 * 150 > 0.8 * (strength carbonBond * orderValue (order carbonBond))
  /\ next (always 0)
     < (10 * 150 - 0.8 * (strength carbonBond * orderValue (order carbonBond))) * 0.00005
  /\ (V2.bondCallback 10 [carbonA; carbonB] carbonBond
        (initForces [carbonA; carbonB]) (always 0)).1.1 = true
  /\ (V2.bondCallback 10 [carbonA; carbonB] carbonBond
        (initForces [carbonA; carbonB]) (always 0)).2 = always 0.
Proof.
  split; [done |]. split; [done |]. split; [apply carbon_not_snapped |].
  split; [simpl; unfold BOND_STRENGTH_COVALENT; lra |].
  split; [simpl; unfold next, always, BOND_STRENGTH_COVALENT; lra |].
  rewrite (V2_callback_covalent_cool 10 _ _ _ _ carbonA carbonB);
    [done | done | done | apply carbon_not_snapped | done | lra].
Qed.

(** The filter visits the bonds in list order: the callback sees a bond
    with the accumulator and the random oracle the bonds before it have
    left, and [activeBonds] is what was kept before the bond, the bond if
    the callback keeps it, and what is kept after it. *)
Lemma filterBonds_turn (cb : BondCallback) (temp : R) (ats : list AtomData)
    (pre post : list BondData) (bond : BondData) :
  forall (F : Forces) (rnd : oracle R),
  let before := filterBonds cb temp ats pre F rnd in
  let verdict := cb temp ats bond before.1.2 before.2 in
  let after := filterBonds cb temp ats post verdict.1.2 verdict.2 in
  filterBonds cb temp ats (pre ++ bond :: post) F rnd
  = (before.1.1 ++ (if verdict.1.1 then [bond] else []) ++ after.1.1, after.1.2, after.2).
Proof.
  induction pre as [| b pre IH]; intros F rnd; cbn [filterBonds app fst snd].
  - destruct (cb temp ats bond F rnd) as [[keep F1] rnd1]. cbn [fst snd].
    destruct (filterBonds cb temp ats post F1 rnd1) as [[kept F2] rnd2]. cbn [fst snd].
    by destruct keep.
  - destruct (cb temp ats b F rnd) as [[keep F1] rnd1].
    rewrite (IH F1 rnd1).
    destruct (filterBonds cb temp ats pre F1 rnd1) as [[kept F2] rnd2]. cbn [fst snd].
    by destruct keep.
Qed.

(** The first callback on a bond that passes the mechanical test: the
    roll and the verdict. *)
Lemma V1_callback_rule (temp : R) (ats : list AtomData) (bond : BondData)
    (F : Forces) (rnd : oracle R) (a1 a2 : AtomData) :
  findAtom ats (atomA bond) = Some a1 -> findAtom ats (atomB bond) = Some a2 ->
  snaps temp a1 a2 bond = false ->
  let bondEnergy := strength bond * orderValue (order bond) in
  let thermalEnergy := temp * 150 in
  let prob := (thermalEnergy - 0.8 * bondEnergy) * 0.00005 in
  let result := V1.bondCallback temp ats bond F rnd in
  (result.1.1 = false <-> thermalEnergy > 0.8 * bondEnergy /\ next rnd < prob)
  /\ (thermalEnergy > 0.8 * bondEnergy -> result.2 = rest rnd)
  /\ (~ thermalEnergy > 0.8 * bondEnergy -> result.2 = rnd).
Proof.
  intros H1 H2 Hs bondEnergy thermalEnergy prob result.
  unfold result. rewrite (V1_callback_thermal _ _ _ _ _ a1 a2) by done.
  assert (He : V1.thermallyExposed temp bond = true <-> thermalEnergy > 0.8 * bondEnergy).
  { unfold V1.thermallyExposed. rewrite gtb_spec. unfold thermalEnergy, bondEnergy. lra. }
  assert (Hp : V1.thermalProb temp bond = prob).
  { unfold V1.thermalProb, prob, thermalEnergy, bondEnergy. lra. }
  rewrite Hp.
  destruct (V1.thermallyExposed temp bond) eqn:Ex.
  - assert (Hgt : thermalEnergy > 0.8 * bondEnergy) by (by apply He).
    destruct (ltb (next rnd) prob) eqn:El; simpl.
    + apply ltb_spec in El. repeat split; done.
    + assert (~ next rnd < prob) by (rewrite <- ltb_spec; congruence).
      repeat split; try done. intros [_ ?]. done.
  - assert (Hle : ~ thermalEnergy > 0.8 * bondEnergy).
    { intros Hgt. apply He in Hgt. discriminate. }
    simpl. repeat split; try done. intros [? _]. done.
Qed.

(** The second callback on a bond that passes the mechanical test: up to
    two rolls, the first against 0.05 for a melting ionic bond, the other
    against 0.01 above temperature 20. *)
Lemma V2_callback_rule (temp : R) (ats : list AtomData) (bond : BondData)
    (F : Forces) (rnd : oracle R) (a1 a2 : AtomData) :
  findAtom ats (atomA bond) = Some a1 -> findAtom ats (atomB bond) = Some a2 ->
  snaps temp a1 a2 bond = false ->
  let melting := bond_type bond = ionic /\ temp > meanMP a1 a2 + 0.5 in
  let result := V2.bondCallback temp ats bond F rnd in
  (melting ->
     (result.1.1 = false <-> next rnd < 0.05 \/ (temp > 20 /\ next (rest rnd) < 0.01))
     /\ (next rnd < 0.05 \/ ~ temp > 20 -> result.2 = rest rnd)
     /\ (~ next rnd < 0.05 -> temp > 20 -> result.2 = rest (rest rnd)))
  /\ (~ melting ->
      (result.1.1 = false <-> temp > 20 /\ next rnd < 0.01)
      /\ (temp > 20 -> result.2 = rest rnd)
      /\ (~ temp > 20 -> result.2 = rnd)).
Proof.
  intros H1 H2 Hs melting result. unfold result, V2.bondCallback.
  rewrite H1, H2, Hs. fold (meanMP a1 a2).
  assert (Hm : bool_decide (bond_type bond = ionic) && gtb temp (meanMP a1 a2 + 0.5) = true
               <-> melting).
  { unfold melting. rewrite andb_true_iff, bool_decide_eq_true, gtb_spec. done. }
  destruct (bool_decide (bond_type bond = ionic) && gtb temp (meanMP a1 a2 + 0.5)) eqn:Em.
  - assert (Hmelt : melting) by (by apply Hm).
    split; [intros _ | done].
    destruct (ltb (next rnd) 0.05) eqn:E1; simpl.
    + apply ltb_spec in E1. split; [split; [by left | done] |]. split; [done |].
      intros Hn. done.
    + assert (Hn1 : ~ next rnd < 0.05) by (rewrite <- ltb_spec; congruence).
      destruct (gtb temp 20.0) eqn:E2.
      * assert (Hhot : temp > 20) by (apply gtb_spec in E2; lra).
        destruct (ltb (next (rest rnd)) 0.01) eqn:E3; simpl.
        -- apply ltb_spec in E3. split; [split; [by right | done] |].
           split; [intros [? | ?]; done | done].
        -- assert (Hn3 : ~ next (rest rnd) < 0.01) by (rewrite <- ltb_spec; congruence).
           split; [split; [done | intros [? | [_ ?]]; done] |].
           split; [intros [? | ?]; done | done].
      * assert (Hcool : ~ temp > 20).
        { intros Hgt. assert (Hg : 20.0 < temp) by lra. apply gtb_spec in Hg. congruence. }
        simpl. split; [split; [done | intros [? | [? _]]; done] |].
        split; [done | intros _ ?; done].
  - assert (Hmelt : ~ melting) by (intros Hc; apply Hm in Hc; discriminate).
    split; [done | intros _]. simpl.
    destruct (gtb temp 20.0) eqn:E2.
    + assert (Hhot : temp > 20) by (apply gtb_spec in E2; lra).
      destruct (ltb (next rnd) 0.01) eqn:E3; simpl.
      * apply ltb_spec in E3. split; [split; [done | done] |]. split; [done | done].
      * assert (Hn3 : ~ next rnd < 0.01) by (rewrite <- ltb_spec; congruence).
        split; [split; [done | intros [_ ?]; done] |]. split; [done | done].
    + assert (Hcool : ~ temp > 20).
      { intros Hgt. assert (Hg : 20.0 < temp) by lra. apply gtb_spec in Hg. congruence. }
      simpl. split; [split; [done | intros [? _]; done] |]. split; [done | done].
Qed.

(** C3 (amended).  The bond filter of a tick visits the bonds of the
    state in list order; [roll] is the random oracle when it reaches
    [bond], after the bonds [pre] before it.  [activeBonds], the result
    of the filter, is what the filter keeps of [pre], then [bond] unless
    the callback rejects it, then what it keeps of the bonds [post]
    after it.  For a bond whose endpoints exist and which passes the
    mechanical test:

    - first variant, with bond energy = strength × order and thermal
      energy = temperature × 150: a random number is drawn exactly when
      thermal energy > 0.8 × bond energy, and the callback rejects the
      bond exactly when, in addition, the number drawn is below
      (thermal energy − 0.8 × bond energy) × 0.00005;

    - second variant: an ionic bond above the mean melting point of its
      atoms plus 0.5 draws a number and is rejected when it is below
      0.05; a bond not rejected so draws a (further) number above
      temperature 20 and is rejected when that number is below 0.01; the
      callback rejects the bond in no other case and draws no other
      number. *)
Theorem C3_thermal_dissociation (vortexPos : option Vector3) (s : SimulationState) (w : World)
    (pre post : list BondData) (bond : BondData) (a1 a2 : AtomData) :
  bonds s = pre ++ bond :: post ->
  findAtom (atoms s) (atomA bond) = Some a1 -> findAtom (atoms s) (atomB bond) = Some a2 ->
  snaps (temperature s) a1 a2 bond = false ->
  let temp := temperature s in
  let bondEnergy := strength bond * orderValue (order bond) in
  let thermalEnergy := temp * 150 in
  let prob := (thermalEnergy - 0.8 * bondEnergy) * 0.00005 in
  let melting := bond_type bond = ionic /\ temp > meanMP a1 a2 + 0.5 in
  (let before := filterBonds V1.bondCallback temp (atoms s) pre
                   (forcePhase vortexPos s) (randoms w) in
   let roll := before.2 in
   let verdict := V1.bondCallback temp (atoms s) bond before.1.2 roll in
   let after := filterBonds V1.bondCallback temp (atoms s) post verdict.1.2 verdict.2 in
   (bondPhase V1.bondCallback vortexPos s w).1.1
   = before.1.1 ++ (if verdict.1.1 then [bond] else []) ++ after.1.1
   /\ (verdict.1.1 = false <-> thermalEnergy > 0.8 * bondEnergy /\ next roll < prob)
   /\ (thermalEnergy > 0.8 * bondEnergy -> verdict.2 = rest roll)
   /\ (~ thermalEnergy > 0.8 * bondEnergy -> verdict.2 = roll))
  /\ (let before := filterBonds V2.bondCallback temp (atoms s) pre
                      (forcePhase None s) (randoms w) in
      let roll := before.2 in
      let verdict := V2.bondCallback temp (atoms s) bond before.1.2 roll in
      let after := filterBonds V2.bondCallback temp (atoms s) post verdict.1.2 verdict.2 in
      (bondPhase V2.bondCallback None s w).1.1
      = before.1.1 ++ (if verdict.1.1 then [bond] else []) ++ after.1.1
      /\ (melting ->
          (verdict.1.1 = false
           <-> next roll < 0.05 \/ (temp > 20 /\ next (rest roll) < 0.01))
          /\ (next roll < 0.05 \/ ~ temp > 20 -> verdict.2 = rest roll)
          /\ (~ next roll < 0.05 -> temp > 20 -> verdict.2 = rest (rest roll)))
      /\ (~ melting ->
          (verdict.1.1 = false <-> temp > 20 /\ next roll < 0.01)
          /\ (temp > 20 -> verdict.2 = rest roll)
          /\ (~ temp > 20 -> verdict.2 = roll))).
Proof.
  intros Hbs H1 H2 Hs temp bondEnergy thermalEnergy prob melting. split.
  - intros before roll verdict after. split.
    + unfold bondPhase. rewrite Hbs. fold temp.
      by rewrite (filterBonds_turn V1.bondCallback temp (atoms s) pre post bond).
    + apply (V1_callback_rule temp (atoms s) bond before.1.2 roll a1 a2 H1 H2 Hs).
  - intros before roll verdict after. split.
    + unfold bondPhase. rewrite Hbs. fold temp.
      by rewrite (filterBonds_turn V2.bondCallback temp (atoms s) pre post bond).
    + apply (V2_callback_rule temp (atoms s) bond before.1.2 roll a1 a2 H1 H2 Hs).
Qed.

(** The carbon bond at temperature 10 with rolls of 0: the first variant
    rejects it (thermal energy 1500 exceeds 960 and 0 is below 0.027),
    the second keeps it. *)
Lemma C3_thermal_dissociation_witness :
  (bondPhase V1.bondCallback None hotState coldRolls).1.1 = []
  /\ (bondPhase V2.bondCallback None hotState coldRolls).1.1 = [carbonBond].
Proof.
  destruct (C3_thermal_dissociation None hotState coldRolls [] [] carbonBond carbonA carbonB)
    as [(Hactive1 & Hdrop1 & _) (Hactive2 & _ & Hcool2)].
  - reflexivity.
  - reflexivity.
  - reflexivity.
  - apply carbon_not_snapped.
  - cbn [filterBonds fst snd app] in *. split.
    + rewrite Hactive1.
      replace (V1.bondCallback (temperature hotState) (atoms hotState) carbonBond
                 (forcePhase None hotState) (randoms coldRolls)).1.1 with false; [done |].
      symmetry. apply Hdrop1. simpl. unfold next, always, BOND_STRENGTH_COVALENT. lra.
    + rewrite Hactive2.
      destruct Hcool2 as (Hkeep2 & _).
      { intros [Hty _]. discriminate. }
      destruct (V2.bondCallback (temperature hotState) (atoms hotState) carbonBond
                  (forcePhase None hotState) (randoms coldRolls)).1.1; [done |].
      exfalso. destruct Hkeep2 as [Hkeep2 _]. destruct (Hkeep2 eq_refl) as [Hhot _].
      simpl in Hhot. lra.
Defined.

(** ** Counting bonds *)

Lemma bondCount_app (bs bs' : list BondData) (id : string) :
  bondCount (bs ++ bs') id = (bondCount bs id + bondCount bs' id)%nat.
Proof. unfold bondCount. by rewrite List.filter_app, length_app. Qed.

Lemma bondCount_single (b : BondData) (id : string) :
  bondCount [b] id = if incident id b then 1%nat else 0%nat.
Proof. unfold bondCount. simpl. by destruct (incident id b). Qed.

Lemma bondCount_sublist (bs bs' : list BondData) (id : string) :
  sublist bs bs' -> (bondCount bs id <= bondCount bs' id)%nat.
Proof.
  unfold bondCount. induction 1 as [| b l1 l2 _ IH | b l1 l2 _ IH]; simpl.
  - done.
  - destruct (incident id b); simpl; lia.
  - destruct (incident id b); simpl; lia.
Qed.

Lemma incident_spec (id : string) (b : BondData) :
  incident id b = true <-> atomA b = id \/ atomB b = id.
Proof.
  unfold incident. rewrite orb_true_iff, !bool_decide_eq_true. done.
Qed.

Lemma connects_spec (b : BondData) (x y : string) :
  connects b x y = true
  <-> (atomA b = x /\ atomB b = y) \/ (atomA b = y /\ atomB b = x).
Proof.
  unfold connects. rewrite orb_true_iff, !andb_true_iff, !bool_decide_eq_true. done.
Qed.

Lemma filter_sublist (f : BondData -> bool) (bs : list BondData) :
  sublist (List.filter f bs) bs.
Proof.
  induction bs as [| b bs IH]; simpl; [constructor |].
  destruct (f b); by constructor.
Qed.

(** ** The bond filter *)

Lemma filterBonds_sublist (cb : BondCallback) (temp : R) (ats : list AtomData)
    (bs : list BondData) :
  forall (F : Forces) (rnd : oracle R),
  sublist (filterBonds cb temp ats bs F rnd).1.1 bs.
Proof.
  induction bs as [| b bs IH]; intros F rnd; simpl; [constructor |].
  destruct (cb temp ats b F rnd) as [[keep F1] rnd1].
  specialize (IH F1 rnd1).
  destruct (filterBonds cb temp ats bs F1 rnd1) as [[kept F2] rnd2]. simpl in *.
  destruct keep; by constructor.
Qed.

(** A bond the callback rejects for every accumulator and every oracle
    is not in the filtered list, provided no other entry of the list is
    the same record. *)
Lemma filterBonds_rejected (cb : BondCallback) (temp : R) (ats : list AtomData)
    (bond : BondData) (bs : list BondData) :
  (forall F rnd, (cb temp ats bond F rnd).1.1 = false) ->
  forall (F : Forces) (rnd : oracle R),
  ~ In bond (filterBonds cb temp ats bs F rnd).1.1.
Proof.
  intros Hrej. induction bs as [| b bs IH]; intros F rnd; simpl; [tauto |].
  destruct (cb temp ats b F rnd) as [[keep F1] rnd1] eqn:Ecb.
  specialize (IH F1 rnd1).
  destruct (filterBonds cb temp ats bs F1 rnd1) as [[kept F2] rnd2]. simpl in *.
  destruct keep; [| done].
  intros [-> | Hin]; [| done].
  specialize (Hrej F rnd). rewrite Ecb in Hrej. done.
Qed.

(** ** The chemistry engine *)

Section ChemistryFacts.

Variables ionicRestLength covalentRestLength : AtomData -> AtomData -> R.

#[local] Abbreviation pairStep := (chemistryPair ionicRestLength covalentRestLength).
#[local] Abbreviation fire := (chemistryFire ionicRestLength covalentRestLength).
#[local] Abbreviation ionicResult := (formIonic ionicRestLength).
#[local] Abbreviation covalentResult := (formCovalent covalentRestLength).

Lemma chemistryPair_ionic (temp : R) (st : ChemState) (i j : nat) (a1 a2 : AtomData) :
  chem_atoms st !! i = Some a1 -> chem_atoms st !! j = Some a2 ->
  eligible st a1 a2 -> deltaEN a1 a2 > 1.7 -> temp < meanMP a1 a2 ->
  pairStep temp st (i, j) = ionicResult st (i, j) a1 a2.
Proof.
  intros H1 H2 (Hm1 & Hm2 & Hc1 & Hc2 & Hf & Hd) HEN Ht.
  unfold chemistryPair. simpl. rewrite H1, H2.
  apply Nat.eqb_neq in Hm1, Hm2. rewrite Hm1, Hm2. simpl.
  apply Nat.leb_gt in Hc1, Hc2. rewrite Hc1, Hc2. simpl.
  rewrite Hf. simpl. rewrite ltb_true by done. simpl.
  fold (deltaEN a1 a2). fold (meanMP a1 a2).
  rewrite gtb_true by done. rewrite ltb_true by done. done.
Qed.

Lemma chemistryPair_covalent (temp : R) (st : ChemState) (i j : nat) (a1 a2 : AtomData) :
  chem_atoms st !! i = Some a1 -> chem_atoms st !! j = Some a2 ->
  eligible st a1 a2 -> deltaEN a1 a2 <= 1.7 -> temp < meanMP a1 a2 * 1.5 ->
  pairStep temp st (i, j) = covalentResult st a1 a2.
Proof.
  intros H1 H2 (Hm1 & Hm2 & Hc1 & Hc2 & Hf & Hd) HEN Ht.
  unfold chemistryPair. simpl. rewrite H1, H2.
  apply Nat.eqb_neq in Hm1, Hm2. rewrite Hm1, Hm2. simpl.
  apply Nat.leb_gt in Hc1, Hc2. rewrite Hc1, Hc2. simpl.
  rewrite Hf. simpl. rewrite ltb_true by done. simpl.
  fold (deltaEN a1 a2). fold (meanMP a1 a2).
  rewrite gtb_false by done. simpl. rewrite ltb_true by done. done.
Qed.

Lemma chemistryPair_saturated (temp : R) (st : ChemState) (i j : nat) (a1 a2 : AtomData) :
  chem_atoms st !! i = Some a1 -> chem_atoms st !! j = Some a2 ->
  (maxBonds (ATOM_CONFIGS (atom_type a1)) <= bondCount (chem_bonds st) (atom_id a1))%nat
  \/ (maxBonds (ATOM_CONFIGS (atom_type a2)) <= bondCount (chem_bonds st) (atom_id a2))%nat ->
  pairStep temp st (i, j) = st.
Proof.
  intros H1 H2 Hs. unfold chemistryPair. simpl. rewrite H1, H2.
  destruct (Nat.eqb _ 0 || Nat.eqb _ 0); [done |].
  destruct Hs as [Hs | Hs]; apply Nat.leb_le in Hs; rewrite Hs; [done |].
  by rewrite orb_true_r.
Qed.

(** The three outcomes of the loop body. *)
Lemma chemistryPair_cases (temp : R) (st : ChemState) (ij : nat * nat) :
  pairStep temp st ij = st
  \/ exists a1 a2,
       chem_atoms st !! ij.1 = Some a1 /\ chem_atoms st !! ij.2 = Some a2
       /\ eligible st a1 a2
       /\ ((deltaEN a1 a2 > 1.7 /\ temp < meanMP a1 a2
            /\ pairStep temp st ij = ionicResult st ij a1 a2)
           \/ (deltaEN a1 a2 <= 1.7 /\ temp < meanMP a1 a2 * 1.5
               /\ pairStep temp st ij = covalentResult st a1 a2)).
Proof.
  unfold chemistryPair.
  destruct (chem_atoms st !! ij.1) as [a1 |] eqn:H1; [| by left].
  destruct (chem_atoms st !! ij.2) as [a2 |] eqn:H2; [| by left].
  destruct (Nat.eqb (maxBonds (ATOM_CONFIGS (atom_type a1))) 0) eqn:Hm1; [by left |].
  destruct (Nat.eqb (maxBonds (ATOM_CONFIGS (atom_type a2))) 0) eqn:Hm2; [by left |].
  simpl.
  destruct (Nat.leb (maxBonds (ATOM_CONFIGS (atom_type a1))) _) eqn:Hc1; [by left |].
  destruct (Nat.leb (maxBonds (ATOM_CONFIGS (atom_type a2))) _) eqn:Hc2; [by left |].
  simpl.
  destruct (List.find _ (chem_bonds st)) as [b |] eqn:Hf; [by left |].
  simpl.
  destruct (ltb (Vector3.distanceTo _ _) _) eqn:Hd; [| by left].
  simpl. fold (deltaEN a1 a2). fold (meanMP a1 a2).
  apply Nat.eqb_neq in Hm1, Hm2. apply Nat.leb_gt in Hc1, Hc2. apply ltb_spec in Hd.
  assert (Hel : eligible st a1 a2) by (unfold eligible; done).
  destruct (gtb (deltaEN a1 a2) 1.7) eqn:HEN; simpl.
  - apply gtb_spec in HEN.
    destruct (ltb temp (meanMP a1 a2)) eqn:Ht; [| by left].
    apply ltb_spec in Ht. right. exists a1, a2. repeat split; try done.
    left. repeat split; done.
  - assert (deltaEN a1 a2 <= 1.7).
    { destruct (Rle_or_lt (deltaEN a1 a2) 1.7) as [? | Hlt]; [done |].
      apply gtb_spec in Hlt. congruence. }
    destruct (ltb temp (meanMP a1 a2 * 1.5)) eqn:Ht; [| by left].
    apply ltb_spec in Ht. right. exists a1, a2. repeat split; try done.
    right. repeat split; done.
Qed.

End ChemistryFacts.

(** ** The valence bound is an invariant of the chemistry engine *)

Lemma uncharged_setCharge (q : R) (a : AtomData) : uncharged (setCharge q a) = uncharged a.
Proof. by destruct a. Qed.

Lemma kind_uncharged (a : AtomData) : kind (uncharged a) = kind a.
Proof. by destruct a. Qed.

Lemma kind_setKinematics (p v : Vector3) (a : AtomData) : kind (setKinematics p v a) = kind a.
Proof. by destruct a. Qed.

Lemma map_kind_uncharged (ats ats' : list AtomData) :
  map uncharged ats = map uncharged ats' -> map kind ats = map kind ats'.
Proof.
  intros H.
  assert (Hk : forall l, map kind l = map kind (map uncharged l)).
  { intros l. rewrite map_map. apply map_ext. intros a. by rewrite kind_uncharged. }
  by rewrite (Hk ats), (Hk ats'), H.
Qed.

Lemma map_id_kind (ats ats' : list AtomData) :
  map kind ats = map kind ats' -> map atom_id ats = map atom_id ats'.
Proof.
  intros H.
  assert (Hk : forall l, map atom_id l = map fst (map kind l)).
  { intros l. rewrite map_map. by apply map_ext. }
  by rewrite (Hk ats), (Hk ats'), H.
Qed.

Lemma withinValence_kind (bs : list BondData) (ats ats' : list AtomData) :
  map kind ats = map kind ats' ->
  Forall (withinValence bs) ats -> Forall (withinValence bs) ats'.
Proof.
  revert ats'. induction ats as [| a ats IH]; intros [| a' ats'] Hk Hv;
    simpl in Hk; try discriminate; [constructor |].
  injection Hk as Hid Hty Hk. inversion Hv as [| ? ? Hva Hvs]; subst.
  constructor; [| by apply IH].
  unfold withinValence in *. by rewrite <- Hid, <- Hty.
Qed.

Lemma withinValence_sublist (bs bs' : list BondData) (ats : list AtomData) :
  sublist bs bs' ->
  Forall (withinValence bs') ats -> Forall (withinValence bs) ats.
Proof.
  intros Hs Hv. eapply Forall_impl; [exact Hv |].
  intros a Ha. unfold withinValence in *.
  pose proof (bondCount_sublist bs bs' (atom_id a) Hs). lia.
Qed.

(** In a list with unique ids an id names one atom. *)
Lemma uniqueIds_lookup (ats : list AtomData) (i j : nat) (a b : AtomData) :
  uniqueIds ats -> ats !! i = Some a -> ats !! j = Some b ->
  atom_id a = atom_id b -> i = j.
Proof.
  intros Hu Hi Hj Hid. unfold uniqueIds in Hu.
  apply (proj1 (NoDup_alt (map atom_id ats)) Hu i j (atom_id a)).
  - change (map atom_id ats) with (atom_id <$> ats). by rewrite list_lookup_fmap, Hi.
  - change (map atom_id ats) with (atom_id <$> ats). rewrite list_lookup_fmap, Hj.
    simpl. by rewrite Hid.
Qed.

Lemma indexPairs_lt (n i j : nat) :
  In (i, j) (indexPairs n) -> (i < j < n)%nat.
Proof.
  unfold indexPairs. rewrite in_flat_map. intros (i' & Hi' & Hin).
  apply in_map_iff in Hin as (j' & Heq & Hj').
  simpl in Heq. injection Heq as -> ->. apply in_seq in Hi', Hj'. lia.
Qed.

Section ValenceFacts.

Variables ionicRestLength covalentRestLength : AtomData -> AtomData -> R.

#[local] Abbreviation pairStep := (chemistryPair ionicRestLength covalentRestLength).
#[local] Abbreviation fire := (chemistryFire ionicRestLength covalentRestLength).

Lemma formIonic_uncharged (st : ChemState) (ij : nat * nat) (a1 a2 : AtomData) :
  chem_atoms st !! ij.1 = Some a1 -> chem_atoms st !! ij.2 = Some a2 ->
  map uncharged (chem_atoms (formIonic ionicRestLength st ij a1 a2))
  = map uncharged (chem_atoms st).
Proof.
  intros H1 H2. unfold formIonic. simpl.
  change (map uncharged) with (fmap (M := list) uncharged).
  rewrite !list_fmap_insert, !uncharged_setCharge.
  rewrite (list_insert_id (uncharged <$> chem_atoms st) ij.1).
  - apply list_insert_id. by rewrite list_lookup_fmap, H2.
  - by rewrite list_lookup_fmap, H1.
Qed.

(** The loop body writes nothing but charges. *)
Lemma chemistryPair_uncharged (temp : R) (st : ChemState) (ij : nat * nat) :
  map uncharged (chem_atoms (pairStep temp st ij)) = map uncharged (chem_atoms st).
Proof.
  destruct (chemistryPair_cases ionicRestLength covalentRestLength temp st ij)
    as [-> | (a1 & a2 & H1 & H2 & _ & [(_ & _ & ->) | (_ & _ & ->)])].
  - done.
  - by apply formIonic_uncharged.
  - done.
Qed.

(** It only appends to [newBonds]. *)
Lemma chemistryPair_bonds (temp : R) (st : ChemState) (ij : nat * nat) :
  chem_bonds (pairStep temp st ij) = chem_bonds st
  \/ exists a1 a2 b,
       chem_atoms st !! ij.1 = Some a1 /\ chem_atoms st !! ij.2 = Some a2
       /\ eligible st a1 a2
       /\ atomA b = atom_id a1 /\ atomB b = atom_id a2
       /\ chem_bonds (pairStep temp st ij) = chem_bonds st ++ [b].
Proof.
  destruct (chemistryPair_cases ionicRestLength covalentRestLength temp st ij)
    as [-> | (a1 & a2 & H1 & H2 & Hel & [(_ & _ & ->) | (_ & _ & ->)])].
  - by left.
  - right. exists a1, a2.
    exists (mkBond (next (chem_uuids st)) (atom_id a1) (atom_id a2)
              BOND_STRENGTH_IONIC (ionicRestLength a1 a2) Single ionic).
    split; [done |]. split; [done |]. split; [done |]. by simpl.
  - right. exists a1, a2.
    exists (mkBond (next (chem_uuids st)) (atom_id a1) (atom_id a2)
              BOND_STRENGTH_COVALENT (covalentRestLength a1 a2) Single covalent).
    split; [done |]. split; [done |]. split; [done |]. by simpl.
Qed.

Lemma chemistryPair_valence (temp : R) (st : ChemState) (ij : nat * nat) :
  uniqueIds (chem_atoms st) -> chemValence st -> chemValence (pairStep temp st ij).
Proof.
  intros Hu Hv. unfold chemValence.
  apply (withinValence_kind _ (chem_atoms st)).
  { apply map_kind_uncharged. symmetry. apply chemistryPair_uncharged. }
  destruct (chemistryPair_bonds temp st ij)
    as [-> | (a1 & a2 & b & H1 & H2 & Hel & HA & HB & ->)]; [done |].
  destruct Hel as (_ & _ & Hc1 & Hc2 & _).
  apply Forall_lookup. intros k a Hk.
  pose proof (proj1 (Forall_lookup _ _) Hv k a Hk) as Hva.
  unfold withinValence in *.
  rewrite bondCount_app, bondCount_single.
  destruct (incident (atom_id a) b) eqn:Einc; [| lia].
  apply incident_spec in Einc. rewrite HA, HB in Einc.
  destruct Einc as [Hid | Hid].
  - assert (ij.1 = k) by (by eapply uniqueIds_lookup).
    subst k. rewrite H1 in Hk. injection Hk as <-. lia.
  - assert (ij.2 = k) by (by eapply uniqueIds_lookup).
    subst k. rewrite H2 in Hk. injection Hk as <-. lia.
Qed.

Lemma fold_chemistryPair_uncharged (temp : R) (ps : list (nat * nat)) :
  forall st : ChemState,
  map uncharged (chem_atoms (fold_left (pairStep temp) ps st))
  = map uncharged (chem_atoms st).
Proof.
  induction ps as [| ij ps IH]; intros st; simpl; [done |].
  rewrite IH. apply chemistryPair_uncharged.
Qed.

Lemma uniqueIds_uncharged (ats ats' : list AtomData) :
  map uncharged ats = map uncharged ats' -> uniqueIds ats -> uniqueIds ats'.
Proof.
  intros H. unfold uniqueIds.
  by rewrite (map_id_kind ats ats' (map_kind_uncharged _ _ H)).
Qed.

Lemma fold_chemistryPair_valence (temp : R) (ps : list (nat * nat)) :
  forall st : ChemState,
  uniqueIds (chem_atoms st) -> chemValence st ->
  chemValence (fold_left (pairStep temp) ps st).
Proof.
  induction ps as [| ij ps IH]; intros st Hu Hv; simpl; [done |].
  apply IH.
  - apply (uniqueIds_uncharged (chem_atoms st)); [| done].
    symmetry. apply chemistryPair_uncharged.
  - by apply chemistryPair_valence.
Qed.

Lemma chemistryFire_valence (temp : R) (st : ChemState) :
  uniqueIds (chem_atoms st) -> chemValence st -> chemValence (fire temp st).
Proof. apply fold_chemistryPair_valence. Qed.

Lemma chemistryFire_uncharged (temp : R) (st : ChemState) :
  map uncharged (chem_atoms (fire temp st)) = map uncharged (chem_atoms st).
Proof. apply fold_chemistryPair_uncharged. Qed.

End ValenceFacts.

(** ** The photon loop only removes bonds *)

Lemma photonStep_sublist (dt : R) (ats : list AtomData) (st : PhotonState) (p : PhotonData) :
  sublist (ph_bonds (photonStep dt ats st p)) (ph_bonds st).
Proof.
  unfold photonStep.
  destruct (firstHit ats _ (ph_bonds st)) as [[[bond a1] a2] |]; simpl.
  - apply filter_sublist.
  - by destruct (ltb _ 60).
Qed.

Lemma photonLogic_sublist (dt : R) (ats : list AtomData) (ps : list PhotonData) :
  forall st : PhotonState, sublist (ph_bonds (photonLogic dt ats st ps)) (ph_bonds st).
Proof.
  unfold photonLogic. induction ps as [| p ps IH]; intros st; simpl; [done |].
  etrans; [apply IH | apply photonStep_sublist].
Qed.

(** ** Integration keeps identities *)

Lemma integrateAtom_kind (temp dt : R) (atom : AtomData) (F : Forces) (rnd : oracle R) :
  kind (integrateAtom temp dt atom F rnd).1.1 = kind atom.
Proof.
  unfold integrateAtom.
  destruct (integrated temp dt atom F rnd) as [[pos vel] accel].
  destruct (clampAxis (Vector3.x pos) _), (clampAxis (Vector3.y pos) _),
    (clampAxis (Vector3.z pos) _). simpl. apply kind_setKinematics.
Qed.

Lemma integrate_kind (temp dt : R) (ats : list AtomData) :
  forall (F : Forces) (rnd : oracle R),
  map kind (integrate temp dt ats F rnd).1 = map kind ats.
Proof.
  induction ats as [| a ats IH]; intros F rnd; simpl; [done |].
  pose proof (integrateAtom_kind temp dt a F rnd) as Ha.
  destruct (integrateAtom temp dt a F rnd) as [[a1 F1] rnd1].
  specialize (IH F1 rnd1).
  destruct (integrate temp dt ats F1 rnd1) as [ats1 rnd2]. simpl in *. congruence.
Qed.

(** ** The valence bound is an invariant of the tick *)

Section TickFacts.

Variable bondCallback : BondCallback.
Variables ionicRestLength covalentRestLength : AtomData -> AtomData -> R.
Variable vortexPos : option Vector3.

#[local] Abbreviation frame := (useFrame bondCallback ionicRestLength covalentRestLength vortexPos).
#[local] Abbreviation chemistry :=
  (chemistryPhase bondCallback ionicRestLength covalentRestLength vortexPos).
#[local] Abbreviation photonsDone :=
  (photonPhase bondCallback ionicRestLength covalentRestLength vortexPos).
#[local] Abbreviation integration :=
  (integrationPhase bondCallback ionicRestLength covalentRestLength vortexPos).
#[local] Abbreviation filtered := (bondPhase bondCallback vortexPos).
#[local] Abbreviation tick := (runTick bondCallback ionicRestLength covalentRestLength vortexPos).

Lemma useFrame_running (c : Component) (delta : R) (w : World) :
  isRunning (stateRef c) = true ->
  frame c delta w
  = (mkComponent (commit (stateRef c) (tick c delta w)) (tick_cooldown (tick c delta w)),
     tick_world (tick c delta w)).
Proof. intros H. unfold useFrame. by rewrite H. Qed.

Lemma useFrame_paused (c : Component) (delta : R) (w : World) :
  isRunning (stateRef c) = false -> frame c delta w = (c, w).
Proof. intros H. unfold useFrame. by rewrite H. Qed.

Lemma bondPhase_sublist (s : SimulationState) (w : World) :
  sublist (filtered s w).1.1 (bonds s).
Proof. apply filterBonds_sublist. Qed.

Lemma chemistryPhase_uncharged (c : Component) (delta : R) (w : World) :
  map uncharged (chem_atoms (chemistry c delta w).2) = map uncharged (atoms (stateRef c)).
Proof.
  unfold chemistryPhase. destruct (leb _ 0); simpl; [| done].
  by rewrite chemistryFire_uncharged.
Qed.

Lemma chemistryPhase_valence (c : Component) (delta : R) (w : World) :
  uniqueIds (atoms (stateRef c)) -> valenceOk (stateRef c) ->
  chemValence (chemistry c delta w).2.
Proof.
  intros Hu Hv.
  assert (H0 : chemValence (mkChem (atoms (stateRef c)) (filtered (stateRef c) w).1.1
                              false (uuids w))).
  { unfold chemValence. simpl.
    eapply withinValence_sublist; [apply bondPhase_sublist | exact Hv]. }
  unfold chemistryPhase. destruct (leb _ 0); simpl; [| done].
  by apply chemistryFire_valence.
Qed.

Lemma tick_atoms_kind (c : Component) (delta : R) (w : World) :
  map kind (tick_atoms (tick c delta w)) = map kind (atoms (stateRef c)).
Proof.
  unfold runTick, integrationPhase. simpl. rewrite integrate_kind.
  apply map_kind_uncharged, chemistryPhase_uncharged.
Qed.

Lemma tick_newBonds_sublist (c : Component) (delta : R) (w : World) :
  sublist (tick_newBonds (tick c delta w)) (chem_bonds (chemistry c delta w).2).
Proof. unfold runTick, photonPhase. simpl. apply photonLogic_sublist. Qed.

(** One frame keeps unique ids and the valence bound. *)
Lemma useFrame_valence (c : Component) (delta : R) (w : World) :
  uniqueIds (atoms (stateRef c)) -> valenceOk (stateRef c) ->
  uniqueIds (atoms (stateRef (frame c delta w).1))
  /\ valenceOk (stateRef (frame c delta w).1).
Proof.
  intros Hu Hv.
  destruct (isRunning (stateRef c)) eqn:Erun.
  2: { by rewrite useFrame_paused. }
  rewrite useFrame_running by done. simpl.
  pose proof (tick_atoms_kind c delta w) as Hk.
  assert (Hats : atoms (commit (stateRef c) (tick c delta w)) = tick_atoms (tick c delta w)).
  { unfold commit. by destruct (commits _ _). }
  split.
  - unfold uniqueIds. rewrite Hats, (map_id_kind _ _ Hk). exact Hu.
  - unfold valenceOk. rewrite Hats.
    apply (withinValence_kind _ (atoms (stateRef c))); [done |].
    unfold commit. destruct (commits _ _); simpl; [| exact Hv].
    eapply withinValence_sublist; [apply tick_newBonds_sublist |].
    apply (withinValence_kind _ (chem_atoms (chemistry c delta w).2)).
    + apply map_kind_uncharged, chemistryPhase_uncharged.
    + by apply chemistryPhase_valence.
Qed.

End TickFacts.

(** ** Spawning the salt preset *)

(** The first sodium atom of the salt lattice carries three bonds, its
    valence capacity is one. *)
Lemma C1_counterexample :
  valenceOk INITIAL_STATE
  /\ uniqueIds (atoms saltState)
  /\ exists a : AtomData,
       atoms saltState !! 0%nat = Some a
       /\ atom_type a = Sodium
       /\ maxBonds (ATOM_CONFIGS (atom_type a)) = 1%nat
       /\ bondCount (bonds saltState) (atom_id a) = 3%nat
       /\ ~ valenceOk saltState.
Proof.
  split; [constructor |]. split.
  - unfold uniqueIds.
    apply (bool_decide_unpack (NoDup (map atom_id (atoms saltState)))). by vm_compute.
  - eexists. split; [reflexivity |]. split; [reflexivity |]. split; [reflexivity |].
    split; [by vm_compute |].
    intros Hv. unfold valenceOk in Hv.
    pose proof (proj1 (Forall_lookup _ _) Hv 0%nat _ eq_refl) as H0.
    unfold withinValence in H0. vm_compute in H0. lia.
Qed.

(** ** Ionic formation *)

Lemma indexPairs_NoDup (n : nat) : NoDup (indexPairs n).
Proof.
  unfold indexPairs.
  assert (Hb : forall (f : nat -> list (nat * nat)) l, flat_map f l = l ≫= f).
  { intros f l. induction l as [| x l IH]; simpl; [done |]. by rewrite IH. }
  rewrite Hb. apply NoDup_bind.
  - intros x1 x2 [a b] _ _ H1 H2.
    apply list_elem_of_In, in_map_iff in H1 as (j1 & E1 & _).
    apply list_elem_of_In, in_map_iff in H2 as (j2 & E2 & _).
    simpl in *. congruence.
  - intros x _. change (map (fun j => (x, j))) with (fmap (M := list) (fun j : nat => (x, j))).
    apply NoDup_fmap_2; [| apply NoDup_seq].
    intros j1 j2 E. congruence.
  - apply NoDup_seq.
Qed.

(** The pairs scanned before and after a given pair are other pairs. *)
Lemma indexPairs_split (n i j : nat) (pre post : list (nat * nat)) :
  indexPairs n = pre ++ (i, j) :: post ->
  (i < j < n)%nat
  /\ Forall (fun p => (p.1 < p.2)%nat /\ p <> (i, j)) pre
  /\ Forall (fun p => (p.1 < p.2)%nat /\ p <> (i, j)) post.
Proof.
  intros Hsplit.
  pose proof (indexPairs_NoDup n) as Hnd. rewrite Hsplit in Hnd.
  apply NoDup_app in Hnd as (_ & Hpre & Hnd).
  apply NoDup_cons in Hnd as (Hpost & _).
  assert (Hlt : forall p, In p (indexPairs n) -> (p.1 < p.2 < n)%nat).
  { intros [a b]. apply indexPairs_lt. }
  split; [| split].
  - apply (Hlt (i, j)). rewrite Hsplit. apply in_or_app. right. by left.
  - apply Forall_forall. intros p Hp. split.
    + apply Hlt. rewrite Hsplit. apply in_or_app. left. by apply list_elem_of_In.
    + intros ->. apply (Hpre (i, j)); [done | left].
  - apply Forall_forall. intros p Hp. split.
    + apply Hlt. rewrite Hsplit. apply in_or_app. right. right. by apply list_elem_of_In.
    + intros ->. done.
Qed.

(** Electronegativities of the atom types that can bond at all. *)
Lemma bondable_electronegativity (ty : AtomType) :
  maxBonds (ATOM_CONFIGS ty) <> 0%nat ->
  0.93 <= cfg_electronegativity (ATOM_CONFIGS ty) <= 3.98.
Proof. destruct ty; simpl; intros H; try lra; done. Qed.

Lemma deltaEN_gap (a b : AtomData) :
  deltaEN a b > 1.7 ->
  cfg_electronegativity (ATOM_CONFIGS (atom_type a)) + 1.7
    < cfg_electronegativity (ATOM_CONFIGS (atom_type b))
  \/ cfg_electronegativity (ATOM_CONFIGS (atom_type b)) + 1.7
       < cfg_electronegativity (ATOM_CONFIGS (atom_type a)).
Proof.
  unfold deltaEN, Rabs. destruct (Rcase_abs _); intros H; lra.
Qed.

(** The charge read at index [k] after the ionic branch wrote the indices
    [p.1] and [p.2]. *)
Lemma charge_after_ionic (l : list AtomData) (p : nat * nat) (b1 b2 : AtomData)
    (q1 q2 : R) (k : nat) :
  l !! p.1 = Some b1 -> l !! p.2 = Some b2 -> p.1 <> p.2 ->
  charge <$> (<[p.2 := setCharge q2 b2]> (<[p.1 := setCharge q1 b1]> l)) !! k
  = if decide (k = p.2) then Some q2
    else if decide (k = p.1) then Some q1
    else charge <$> l !! k.
Proof.
  intros H1 H2 Hne.
  destruct (decide (k = p.2)) as [-> | Hk2].
  - rewrite list_lookup_insert_eq; [by destruct b2 |].
    rewrite length_insert. by eapply lookup_lt_Some.
  - rewrite list_lookup_insert_ne by done.
    destruct (decide (k = p.1)) as [-> | Hk1].
    + rewrite list_lookup_insert_eq; [by destruct b1 |]. by eapply lookup_lt_Some.
    + by rewrite list_lookup_insert_ne.
Qed.

(** An atom is the donor in all its ionic pairings or in none: the
    electronegativities of the types that can bond span less than twice
    the ionic threshold. *)
Lemma charges_agree (e1 e2 e : R) :
  0.93 <= e1 <= 3.98 -> 0.93 <= e2 <= 3.98 -> 0.93 <= e <= 3.98 ->
  Rabs (e1 - e2) > 1.7 ->
  (Rabs (e1 - e) > 1.7 ->
   (if ltb e1 e then 1 else -1) = (if ltb e1 e2 then 1 else -1))
  /\ (Rabs (e - e1) > 1.7 ->
      (if ltb e e1 then -1 else 1) = (if ltb e1 e2 then 1 else -1))
  /\ (Rabs (e2 - e) > 1.7 ->
      (if ltb e2 e then 1 else -1) = (if ltb e1 e2 then -1 else 1))
  /\ (Rabs (e - e2) > 1.7 ->
      (if ltb e e2 then -1 else 1) = (if ltb e1 e2 then -1 else 1)).
Proof.
  intros B1 B2 B H12. unfold ltb.
  repeat split; intros H; revert H12 H; unfold Rabs;
    repeat destruct (Rcase_abs _); repeat case_bool_decide; lra.
Qed.

Lemma uncharged_fields (a b : AtomData) :
  uncharged a = uncharged b ->
  atom_id a = atom_id b /\ atom_type a = atom_type b /\ position a = position b
  /\ radius a = radius b /\ meltingPoint a = meltingPoint b.
Proof. destruct a, b. unfold uncharged, setCharge. simpl. intros H. by injection H. Qed.

Lemma same_slot (ats ats0 : list AtomData) (k : nat) (b : AtomData) :
  map uncharged ats = map uncharged ats0 -> ats !! k = Some b ->
  exists a, ats0 !! k = Some a /\ uncharged b = uncharged a.
Proof.
  intros Hu Hk.
  assert (H : (uncharged <$> ats0) !! k = Some (uncharged b)).
  { change (fmap uncharged ats0) with (map uncharged ats0).
    rewrite <- Hu. change (map uncharged ats) with (uncharged <$> ats).
    by rewrite list_lookup_fmap, Hk. }
  rewrite list_lookup_fmap in H.
  destruct (ats0 !! k) as [a |]; [| done].
  exists a. split; [done |]. simpl in H. congruence.
Qed.

Lemma bondsBetween_app (bs bs' : list BondData) (x y : string) :
  bondsBetween (bs ++ bs') x y = bondsBetween bs x y ++ bondsBetween bs' x y.
Proof. unfold bondsBetween. apply List.filter_app. Qed.

Lemma bondsBetween_nil_find (bs : list BondData) (x y : string) :
  bondsBetween bs x y = [] <-> List.find (fun b => connects b x y) bs = None.
Proof.
  unfold bondsBetween. induction bs as [| b bs IH]; simpl; [done |].
  destruct (connects b x y); [split; discriminate | done].
Qed.

Section IonicFacts.

Variables ionicRestLength covalentRestLength : AtomData -> AtomData -> R.
Variable temp : R.
Variable ats0 : list AtomData.
Variables (i j : nat) (a1 a2 : AtomData).

Hypothesis Hunique : uniqueIds ats0.
Hypothesis Hi : ats0 !! i = Some a1.
Hypothesis Hj : ats0 !! j = Some a2.
Hypothesis Hij : (i < j)%nat.

#[local] Abbreviation pairStep := (chemistryPair ionicRestLength covalentRestLength).

(** A bond formed by another index pair does not join [a1] and [a2]. *)
Lemma other_pair_elsewhere (st : ChemState) (p : nat * nat) (b1 b2 : AtomData)
    (b : BondData) :
  map uncharged (chem_atoms st) = map uncharged ats0 ->
  (p.1 < p.2)%nat -> p <> (i, j) ->
  chem_atoms st !! p.1 = Some b1 -> chem_atoms st !! p.2 = Some b2 ->
  atomA b = atom_id b1 -> atomB b = atom_id b2 ->
  connects b (atom_id a1) (atom_id a2) = false.
Proof.
  intros Hu Hlt Hne H1 H2 HA HB.
  destruct (same_slot _ _ _ _ Hu H1) as (c1 & Hc1 & E1).
  destruct (same_slot _ _ _ _ Hu H2) as (c2 & Hc2 & E2).
  apply uncharged_fields in E1 as (E1 & _). apply uncharged_fields in E2 as (E2 & _).
  apply not_true_is_false. intros Hc. apply connects_spec in Hc.
  rewrite HA, HB, E1, E2 in Hc.
  destruct Hc as [[Hx Hy] | [Hx Hy]].
  - assert (p.1 = i) by (by eapply (uniqueIds_lookup ats0)).
    assert (p.2 = j) by (by eapply (uniqueIds_lookup ats0)).
    destruct p. simpl in *. congruence.
  - assert (p.1 = j) by (by eapply (uniqueIds_lookup ats0)).
    assert (p.2 = i) by (by eapply (uniqueIds_lookup ats0)).
    lia.
Qed.

Lemma other_pair_bondsBetween (st : ChemState) (p : nat * nat) :
  map uncharged (chem_atoms st) = map uncharged ats0 ->
  (p.1 < p.2)%nat -> p <> (i, j) ->
  bondsBetween (chem_bonds (pairStep temp st p)) (atom_id a1) (atom_id a2)
  = bondsBetween (chem_bonds st) (atom_id a1) (atom_id a2).
Proof.
  intros Hu Hlt Hne.
  destruct (chemistryPair_bonds ionicRestLength covalentRestLength temp st p)
    as [-> | (b1 & b2 & b & H1 & H2 & _ & HA & HB & ->)]; [done |].
  rewrite bondsBetween_app. unfold bondsBetween at 2. simpl.
  rewrite (other_pair_elsewhere st p b1 b2 b) by done.
  by rewrite app_nil_r.
Qed.

(** The scan before the pair keeps it unbonded. *)
Lemma unsettled_fold (ps : list (nat * nat)) :
  Forall (fun p => (p.1 < p.2)%nat /\ p <> (i, j)) ps ->
  forall st : ChemState,
  unsettled ats0 a1 a2 st -> unsettled ats0 a1 a2 (fold_left (pairStep temp) ps st).
Proof.
  induction 1 as [| p ps [Hlt Hne] _ IH]; intros st [Hu Hb]; simpl; [done |].
  apply IH. split.
  - by rewrite chemistryPair_uncharged.
  - by rewrite other_pair_bondsBetween.
Qed.

Hypothesis Hbondable1 : maxBonds (ATOM_CONFIGS (atom_type a1)) <> 0%nat.
Hypothesis Hbondable2 : maxBonds (ATOM_CONFIGS (atom_type a2)) <> 0%nat.
Hypothesis Hionic : deltaEN a1 a2 > 1.7.

(** The atom that sits at an index of [ats0] sits there, up to its
    charge, in every state of the scan. *)
Lemma current_slot (st : ChemState) (k : nat) (a : AtomData) :
  map uncharged (chem_atoms st) = map uncharged ats0 -> ats0 !! k = Some a ->
  exists c, chem_atoms st !! k = Some c /\ uncharged c = uncharged a.
Proof.
  intros Hu Hk. symmetry in Hu.
  destruct (same_slot _ _ _ _ Hu Hk) as (c & Hc & E). by exists c.
Qed.

(** The charges of [a1] and [a2] survive the ionic branch of any other
    pair. *)
Lemma settled_charges (st : ChemState) (p : nat * nat) (b1 b2 : AtomData) :
  map uncharged (chem_atoms st) = map uncharged ats0 ->
  (p.1 < p.2)%nat ->
  chem_atoms st !! p.1 = Some b1 -> chem_atoms st !! p.2 = Some b2 ->
  eligible st b1 b2 -> deltaEN b1 b2 > 1.7 ->
  charge <$> chem_atoms st !! i = Some (firstCharge a1 a2) ->
  charge <$> chem_atoms st !! j = Some (secondCharge a1 a2) ->
  let ats := chem_atoms (formIonic ionicRestLength st p b1 b2) in
  charge <$> ats !! i = Some (firstCharge a1 a2)
  /\ charge <$> ats !! j = Some (secondCharge a1 a2).
Proof.
  intros Hu Hlt H1 H2 (Hm1 & Hm2 & _) HEN Hci Hcj ats.
  destruct (same_slot _ _ _ _ Hu H1) as (c1 & Hc1 & E1).
  destruct (same_slot _ _ _ _ Hu H2) as (c2 & Hc2 & E2).
  apply uncharged_fields in E1 as (_ & T1 & _).
  apply uncharged_fields in E2 as (_ & T2 & _).
  pose proof (bondable_electronegativity _ Hbondable1) as B1.
  pose proof (bondable_electronegativity _ Hbondable2) as B2.
  pose proof (bondable_electronegativity _ Hm1) as Bb1.
  pose proof (bondable_electronegativity _ Hm2) as Bb2.
  unfold ats, formIonic. simpl.
  rewrite !(charge_after_ionic _ p b1 b2) by (done || lia).
  unfold deltaEN in *.
  split.
  - destruct (decide (i = p.2)) as [-> | ?]; [| destruct (decide (i = p.1)) as [-> | ?]];
      [| | done]; f_equal; unfold firstCharge, secondCharge.
    + rewrite Hc2 in Hi. injection Hi as ->.
      rewrite T2 in *. by apply (charges_agree _ _ _ B1 B2 Bb1 Hionic).
    + rewrite Hc1 in Hi. injection Hi as ->.
      rewrite T1 in *. by apply (charges_agree _ _ _ B1 B2 Bb2 Hionic).
  - destruct (decide (j = p.2)) as [-> | ?]; [| destruct (decide (j = p.1)) as [-> | ?]];
      [| | done]; f_equal; unfold firstCharge, secondCharge.
    + rewrite Hc2 in Hj. injection Hj as ->.
      rewrite T2 in *. by apply (charges_agree _ _ _ B1 B2 Bb1 Hionic).
    + rewrite Hc1 in Hj. injection Hj as ->.
      rewrite T1 in *. by apply (charges_agree _ _ _ B1 B2 Bb2 Hionic).
Qed.

Lemma settled_step (st : ChemState) (p : nat * nat) (b0 : BondData) :
  (p.1 < p.2)%nat -> p <> (i, j) ->
  settled ats0 i j a1 a2 b0 st -> settled ats0 i j a1 a2 b0 (pairStep temp st p).
Proof.
  intros Hlt Hne (Hu & Hb & Hci & Hcj & Hch).
  unfold settled.
  rewrite chemistryPair_uncharged, other_pair_bondsBetween by done.
  split; [done |]. split; [done |].
  destruct (chemistryPair_cases ionicRestLength covalentRestLength temp st p)
    as [-> | (b1 & b2 & H1 & H2 & Hel & [(HEN & _ & ->) | (_ & _ & ->)])].
  - done.
  - destruct (settled_charges st p b1 b2) as [? ?]; [done .. |]. by repeat split.
  - done.
Qed.

Lemma settled_fold (ps : list (nat * nat)) (b0 : BondData) :
  Forall (fun p => (p.1 < p.2)%nat /\ p <> (i, j)) ps ->
  forall st : ChemState,
  settled ats0 i j a1 a2 b0 st ->
  settled ats0 i j a1 a2 b0 (fold_left (pairStep temp) ps st).
Proof.
  induction 1 as [| p ps [Hlt Hne] _ IH]; intros st Hs; simpl; [done |].
  apply IH. by apply settled_step.
Qed.

(** The step of the pair itself. *)
Lemma formation_step (st : ChemState) :
  unsettled ats0 a1 a2 st ->
  (bondCount (chem_bonds st) (atom_id a1) < maxBonds (ATOM_CONFIGS (atom_type a1)))%nat ->
  (bondCount (chem_bonds st) (atom_id a2) < maxBonds (ATOM_CONFIGS (atom_type a2)))%nat ->
  Vector3.distanceTo (position a1) (position a2) < (radius a1 + radius a2) * BOND_FORM_RADIUS ->
  temp < meanMP a1 a2 ->
  exists b0,
    settled ats0 i j a1 a2 b0 (pairStep temp st (i, j))
    /\ bond_type b0 = ionic /\ order b0 = Single /\ strength b0 = BOND_STRENGTH_IONIC
    /\ atomA b0 = atom_id a1 /\ atomB b0 = atom_id a2.
Proof.
  intros [Hu Hb] Hn1 Hn2 Hd Ht.
  destruct (current_slot st i a1 Hu Hi) as (c1 & Hc1 & E1).
  destruct (current_slot st j a2 Hu Hj) as (c2 & Hc2 & E2).
  apply uncharged_fields in E1 as (I1 & T1 & P1 & R1 & M1).
  apply uncharged_fields in E2 as (I2 & T2 & P2 & R2 & M2).
  assert (Hel : eligible st c1 c2).
  { unfold eligible. rewrite I1, I2, T1, T2, P1, P2, R1, R2.
    repeat split; try done. by apply bondsBetween_nil_find. }
  assert (HEN : deltaEN c1 c2 > 1.7) by (unfold deltaEN in *; by rewrite T1, T2).
  assert (HMP : temp < meanMP c1 c2) by (unfold meanMP in *; by rewrite M1, M2).
  rewrite (chemistryPair_ionic _ _ temp st i j c1 c2) by done.
  exists (mkBond (next (chem_uuids st)) (atom_id c1) (atom_id c2)
            BOND_STRENGTH_IONIC (ionicRestLength c1 c2) Single ionic).
  split; [| by simpl].
  unfold settled.
  rewrite (formIonic_uncharged _ st (i, j) c1 c2) by done.
  split; [done |]. split.
  - unfold formIonic. simpl. rewrite bondsBetween_app, Hb. unfold bondsBetween. simpl.
    rewrite <- I1, <- I2. unfold connects. simpl.
    rewrite (bool_decide_eq_true_2 (atom_id c1 = atom_id c1)) by done.
    by rewrite (bool_decide_eq_true_2 (atom_id c2 = atom_id c2)) by done.
  - unfold formIonic. simpl.
    rewrite !(charge_after_ionic _ (i, j) c1 c2) by (done || simpl; lia). simpl.
    rewrite decide_False by lia. rewrite decide_True by done.
    rewrite decide_True by done.
    unfold firstCharge, secondCharge. by rewrite T1, T2.
Qed.

End IonicFacts.

(** C5 (amended).  One firing of the chemistry engine, in either variant
    (any rest-length rule), on atoms with unique ids.  Take a pair of
    atoms that is unbonded when the firing starts, lies within the
    formation radius, has valence capacities different from zero, an
    electronegativity difference above 1.7 and a mean melting point
    above the temperature, and whose two atoms still have free valence
    when the scan reaches the pair (the bonds formed earlier in the same
    scan count).  After the firing exactly one bond joins the pair; it is
    ionic of order 1; the atom of lower electronegativity has charge +1
    and the other atom has charge −1. *)
Theorem C5_ionic_formation
    (ionicRestLength covalentRestLength : AtomData -> AtomData -> R)
    (temp : R) (st : ChemState) (i j : nat) (a1 a2 : AtomData)
    (pre post : list (nat * nat)) :
  uniqueIds (chem_atoms st) ->
  indexPairs (List.length (chem_atoms st)) = pre ++ (i, j) :: post ->
  chem_atoms st !! i = Some a1 -> chem_atoms st !! j = Some a2 ->
  bondsBetween (chem_bonds st) (atom_id a1) (atom_id a2) = [] ->
  Vector3.distanceTo (position a1) (position a2) < (radius a1 + radius a2) * BOND_FORM_RADIUS ->
  Rabs (cfg_electronegativity (ATOM_CONFIGS (atom_type a1))
        - cfg_electronegativity (ATOM_CONFIGS (atom_type a2))) > 1.7 ->
  temp < (meltingPoint a1 + meltingPoint a2) / 2 ->
  maxBonds (ATOM_CONFIGS (atom_type a1)) <> 0%nat ->
  maxBonds (ATOM_CONFIGS (atom_type a2)) <> 0%nat ->
  let reached := fold_left (chemistryPair ionicRestLength covalentRestLength temp) pre st in
  (bondCount (chem_bonds reached) (atom_id a1) < maxBonds (ATOM_CONFIGS (atom_type a1)))%nat ->
  (bondCount (chem_bonds reached) (atom_id a2) < maxBonds (ATOM_CONFIGS (atom_type a2)))%nat ->
  let final := chemistryFire ionicRestLength covalentRestLength temp st in
  exists b c1 c2,
    bondsBetween (chem_bonds final) (atom_id a1) (atom_id a2) = [b]
    /\ bond_type b = ionic /\ order b = Single
    /\ chem_atoms final !! i = Some c1 /\ chem_atoms final !! j = Some c2
    /\ (cfg_electronegativity (ATOM_CONFIGS (atom_type a1))
        < cfg_electronegativity (ATOM_CONFIGS (atom_type a2)) ->
        charge c1 = 1 /\ charge c2 = -1)
    /\ (cfg_electronegativity (ATOM_CONFIGS (atom_type a2))
        < cfg_electronegativity (ATOM_CONFIGS (atom_type a1)) ->
        charge c1 = -1 /\ charge c2 = 1)
    /\ chem_changed final = true.
Proof.
  intros Hu Hsplit Hi Hj Hb Hd HEN Ht Hm1 Hm2 reached Hn1 Hn2 final.
  destruct (indexPairs_split _ _ _ _ _ Hsplit) as ([Hij _] & Hpre & Hpost).
  assert (Hreached : unsettled (chem_atoms st) a1 a2 reached).
  { apply (unsettled_fold ionicRestLength covalentRestLength temp (chem_atoms st) i j a1 a2);
      done. }
  edestruct (formation_step ionicRestLength covalentRestLength temp (chem_atoms st)
               i j a1 a2) as (b0 & Hs & Hty & Hor & _);
    [exact Hi | exact Hj | exact Hij | exact Hm1 | exact Hm2 | exact HEN
    | exact Hreached | exact Hn1 | exact Hn2 | exact Hd | exact Ht |].
  assert (Hfinal : settled (chem_atoms st) i j a1 a2 b0 final).
  { unfold final, chemistryFire. rewrite Hsplit, fold_left_app. simpl.
    by apply (settled_fold ionicRestLength covalentRestLength temp (chem_atoms st)). }
  destruct Hfinal as (_ & Hbs & Hc1 & Hc2 & Hch).
  destruct (chem_atoms final !! i) as [c1 |] eqn:E1; [| done].
  destruct (chem_atoms final !! j) as [c2 |] eqn:E2; [| done].
  simpl in Hc1, Hc2. injection Hc1 as Hc1. injection Hc2 as Hc2.
  exists b0, c1, c2. repeat split; try done.
  - rewrite Hc1. unfold firstCharge. by rewrite ltb_true.
  - rewrite Hc2. unfold secondCharge. by rewrite ltb_true.
  - rewrite Hc1. unfold firstCharge. rewrite ltb_false; [done | lra].
  - rewrite Hc2. unfold secondCharge. rewrite ltb_false; [done | lra].
Qed.

Lemma C5_ionic_formation_witness :
  exists b c1 c2,
    bondsBetween
      (chem_bonds (chemistryFire V1.ionicRestLength V1.covalentRestLength 1 saltPair))
      "na" "cl1" = [b]
    /\ bond_type b = ionic /\ order b = Single
    /\ chem_atoms (chemistryFire V1.ionicRestLength V1.covalentRestLength 1 saltPair) !! 0%nat
       = Some c1
    /\ chem_atoms (chemistryFire V1.ionicRestLength V1.covalentRestLength 1 saltPair) !! 1%nat
       = Some c2
    /\ charge c1 = 1 /\ charge c2 = -1.
Proof.
  destruct (C5_ionic_formation V1.ionicRestLength V1.covalentRestLength 1 saltPair
              0 1 sodium chlorineL [] [])
    as (b & c1 & c2 & Hb & Hty & Hor & H1 & H2 & Hq & _).
  - unfold uniqueIds. apply (bool_decide_unpack (NoDup (map atom_id (chem_atoms saltPair)))).
    by vm_compute.
  - reflexivity.
  - reflexivity.
  - reflexivity.
  - reflexivity.
  - simpl. unfold BOND_FORM_RADIUS. eval_R. lra.
  - simpl. eval_R. lra.
  - simpl. lra.
  - simpl. lia.
  - simpl. lia.
  - simpl. unfold bondCount. simpl. lia.
  - simpl. unfold bondCount. simpl. lia.
  - exists b, c1, c2. repeat split; try done; apply Hq; simpl; lra.
Defined.

(** Sodium has one free valence and two chlorine neighbours: the scan
    bonds it to the first, and the second pair, eligible when the firing
    starts, stays unbonded and uncharged. *)
Lemma C5_counterexample :
  let final := chemistryFire V1.ionicRestLength V1.covalentRestLength 1 crowded in
  uniqueIds (chem_atoms crowded)
  /\ chem_atoms crowded !! 0%nat = Some sodium
  /\ chem_atoms crowded !! 2%nat = Some chlorineR
  /\ bondsBetween (chem_bonds crowded) (atom_id sodium) (atom_id chlorineR) = []
  /\ Vector3.distanceTo (position sodium) (position chlorineR)
     < (radius sodium + radius chlorineR) * BOND_FORM_RADIUS
  /\ Rabs (cfg_electronegativity (ATOM_CONFIGS (atom_type sodium))
           - cfg_electronegativity (ATOM_CONFIGS (atom_type chlorineR))) > 1.7
  /\ 1 < (meltingPoint sodium + meltingPoint chlorineR) / 2
  /\ (bondCount (chem_bonds crowded) (atom_id sodium)
      < maxBonds (ATOM_CONFIGS (atom_type sodium)))%nat
  /\ (bondCount (chem_bonds crowded) (atom_id chlorineR)
      < maxBonds (ATOM_CONFIGS (atom_type chlorineR)))%nat
  /\ bondsBetween (chem_bonds final) (atom_id sodium) (atom_id chlorineR) = []
  /\ charge <$> chem_atoms final !! 2%nat = Some 0.
Proof.
  assert (Hform : formIonic V1.ionicRestLength crowded (0%nat, 1%nat) sodium chlorineL
                  = mkChem [setCharge 1 sodium; setCharge (-1) chlorineL; chlorineR]
                      [mkBond (serial 0%nat) "na" "cl1" BOND_STRENGTH_IONIC
                              (V1.ionicRestLength sodium chlorineL) Single ionic]
                      true (rest serial)).
  { unfold formIonic. simpl. by rewrite ltb_true by lra. }
  assert (Hfinal : chemistryFire V1.ionicRestLength V1.covalentRestLength 1 crowded
                   = formIonic V1.ionicRestLength crowded (0%nat, 1%nat) sodium chlorineL).
  { unfold chemistryFire.
    change (indexPairs _) with [(0, 1); (0, 2); (1, 2)]%nat.
    unfold fold_left.
    rewrite (chemistryPair_ionic _ _ 1 crowded 0 1 sodium chlorineL).
    - rewrite Hform.
      rewrite (chemistryPair_saturated _ _ 1 _ 0 2 (setCharge 1 sodium) chlorineR);
        [| reflexivity | reflexivity | left; by vm_compute].
      by rewrite (chemistryPair_saturated _ _ 1 _ 1 2 (setCharge (-1) chlorineL) chlorineR);
        [| reflexivity | reflexivity | left; by vm_compute].
    - reflexivity.
    - reflexivity.
    - unfold eligible. simpl. unfold bondCount, BOND_FORM_RADIUS. simpl.
      repeat split; try lia; try done. eval_R. lra.
    - unfold deltaEN. simpl. eval_R. lra.
    - unfold meanMP. simpl. lra. }
  rewrite Hform in Hfinal. clear Hform.
  intros final. unfold final. rewrite Hfinal. clear Hfinal.
  split.
  { unfold uniqueIds. apply (bool_decide_unpack (NoDup (map atom_id (chem_atoms crowded)))).
    by vm_compute. }
  repeat split; try done.
  - simpl. unfold BOND_FORM_RADIUS. eval_R. lra.
  - simpl. eval_R. lra.
  - simpl. lra.
  - simpl. unfold bondCount. simpl. lia.
  - simpl. unfold bondCount. simpl. lia.
Qed.

(** ** Boundary reflection in the tick *)

Section ReflectionFacts.

Variable bondCallback : BondCallback.
Variables ionicRestLength covalentRestLength : AtomData -> AtomData -> R.
Variable vortexPos : option Vector3.

(** The atoms of the state after a running frame are the atoms the
    integration loop returns: each is an atom of the input state, up to
    the charge the chemistry engine wrote, integrated and reflected. *)
Lemma useFrame_reflects (c : Component) (delta : R) (w : World) (atom' : AtomData) :
  isRunning (stateRef c) = true ->
  In atom' (atoms (stateRef (useFrame bondCallback ionicRestLength covalentRestLength
                               vortexPos c delta w).1)) ->
  let temp := temperature (stateRef c) in
  let dt := tickDt c delta in
  exists atom0 atom F0 rnd0,
    In atom0 (atoms (stateRef c)) /\ uncharged atom = uncharged atom0
    /\ atom' = (integrateAtom temp dt atom F0 rnd0).1.1
    /\ forall ax : Axis,
         let p := component ax (integrated temp dt atom F0 rnd0).1.1 in
         let v := component ax (integrated temp dt atom F0 rnd0).1.2 in
         Rabs p > CONTAINER_SIZE ->
         component ax (position atom')
           = (if bool_decide (0 < p) then CONTAINER_SIZE else - CONTAINER_SIZE)
         /\ Rabs (component ax (position atom')) = CONTAINER_SIZE
         /\ component ax (velocity atom') = -0.5 * v.
Proof.
  intros Hrun Hin temp dt.
  rewrite useFrame_running in Hin by done. simpl in Hin.
  assert (Hats : atoms (commit (stateRef c)
                          (runTick bondCallback ionicRestLength covalentRestLength
                             vortexPos c delta w))
                 = (integrationPhase bondCallback ionicRestLength covalentRestLength
                      vortexPos c delta w).1).
  { unfold commit. by destruct (commits _ _). }
  rewrite Hats in Hin. unfold integrationPhase in Hin. fold temp dt in Hin.
  destruct (integrate_reflects _ _ _ _ _ _ Hin) as (atom & F0 & rnd0 & Hatom & -> & Hax).
  apply list_elem_of_In, list_elem_of_lookup in Hatom as [k Hk].
  destruct (same_slot _ _ _ _
              (chemistryPhase_uncharged bondCallback ionicRestLength covalentRestLength
                 vortexPos c delta w) Hk) as (atom0 & Hk0 & Hu).
  exists atom0, atom, F0, rnd0. split.
  - apply list_elem_of_In, list_elem_of_lookup. by exists k.
  - done.
Qed.

End ReflectionFacts.

(** C9.  Every atom of the state after a running frame of either variant
    is an atom of the input state (up to the charge the chemistry engine
    wrote) after integration, and on each axis on which the integrated
    position component exceeds the container half-extent in absolute
    value, its position component is exactly the half-extent with the
    sign of the integrated component and its velocity component is −0.5
    times the integrated (pre-clamp) velocity component. *)
Theorem C9_boundary_reflection (vortexPos : option Vector3) (c : Component) (delta : R)
    (w : World) (atom' : AtomData) :
  isRunning (stateRef c) = true ->
  In atom' (atoms (stateRef (FirstVariant.useFrame vortexPos c delta w).1))
  \/ In atom' (atoms (stateRef (SecondVariant.useFrame c delta w).1)) ->
  let temp := temperature (stateRef c) in
  let dt := tickDt c delta in
  exists atom0 atom F0 rnd0,
    In atom0 (atoms (stateRef c)) /\ uncharged atom = uncharged atom0
    /\ atom' = (integrateAtom temp dt atom F0 rnd0).1.1
    /\ forall ax : Axis,
         let p := component ax (integrated temp dt atom F0 rnd0).1.1 in
         let v := component ax (integrated temp dt atom F0 rnd0).1.2 in
         Rabs p > CONTAINER_SIZE ->
         component ax (position atom')
           = (if bool_decide (0 < p) then CONTAINER_SIZE else - CONTAINER_SIZE)
         /\ Rabs (component ax (position atom')) = CONTAINER_SIZE
         /\ component ax (velocity atom') = -0.5 * v.
Proof.
  intros Hrun [Hin | Hin]; by eapply useFrame_reflects.
Qed.

Lemma C9_boundary_reflection_witness :
  exists atom' atom0 atom F0 rnd0,
    In atom' (atoms (stateRef (FirstVariant.useFrame None runawayComponent 0.05
                                 calmWorld).1))
    /\ In atom0 (atoms (stateRef runawayComponent)) /\ uncharged atom = uncharged atom0
    /\ atom' = (integrateAtom (temperature (stateRef runawayComponent))
                  (tickDt runawayComponent 0.05) atom F0 rnd0).1.1.
Proof.
  pose proof (tick_atoms_kind V1.bondCallback V1.ionicRestLength V1.covalentRestLength None
                runawayComponent 0.05 calmWorld) as Hk.
  assert (Hats : atoms (stateRef (FirstVariant.useFrame None runawayComponent 0.05
                                    calmWorld).1)
                 = tick_atoms (runTick V1.bondCallback V1.ionicRestLength
                                 V1.covalentRestLength None runawayComponent 0.05 calmWorld)).
  { unfold FirstVariant.useFrame. rewrite useFrame_running by done. simpl.
    unfold commit. by destruct (commits _ _). }
  rewrite <- Hats in Hk.
  destruct (atoms (stateRef (FirstVariant.useFrame None runawayComponent 0.05 calmWorld).1))
    as [| atom' rest'] eqn:E; [discriminate |].
  destruct (C9_boundary_reflection None runawayComponent 0.05 calmWorld atom')
    as (atom0 & atom & F0 & rnd0 & H0 & Hu & Ha & _).
  - reflexivity.
  - left. rewrite E. by left.
  - exists atom', atom0, atom, F0, rnd0. split; [by left |]. done.
Defined.

(** ** What a tick commits *)

Section CommitFacts.

Variable bondCallback : BondCallback.
Variables ionicRestLength covalentRestLength : AtomData -> AtomData -> R.
Variable vortexPos : option Vector3.

#[local] Abbreviation frame := (useFrame bondCallback ionicRestLength covalentRestLength vortexPos).
#[local] Abbreviation chemistry :=
  (chemistryPhase bondCallback ionicRestLength covalentRestLength vortexPos).
#[local] Abbreviation photonsDone :=
  (photonPhase bondCallback ionicRestLength covalentRestLength vortexPos).
#[local] Abbreviation photonsStart :=
  (photonStart bondCallback ionicRestLength covalentRestLength vortexPos).
#[local] Abbreviation filtered := (bondPhase bondCallback vortexPos).
#[local] Abbreviation tick := (runTick bondCallback ionicRestLength covalentRestLength vortexPos).

(** The bond and photon lists of the state after a frame. *)
Lemma useFrame_output (c : Component) (delta : R) (w : World) :
  isRunning (stateRef c) = true ->
  let s := stateRef c in
  let s' := stateRef (frame c delta w).1 in
  let ph := photonsDone c delta w in
  photons s' = ph_surviving ph
  /\ bonds s'
     = if negb (Nat.eqb (List.length (filtered s w).1.1) (List.length (ph_bonds ph)))
          || negb (Nat.eqb (List.length (ph_surviving ph)) (List.length (photons s)))
          || ph_changed ph
       then ph_bonds ph else bonds s.
Proof.
  intros Hrun s s' ph. unfold s'. rewrite useFrame_running by done. simpl.
  unfold commit, commits, runTick. simpl. fold s. fold ph.
  destruct (negb _ || negb _ || ph_changed ph); by simpl.
Qed.

Lemma chemistryPhase_idle (c : Component) (delta : R) (w : World) :
  0 < chemistryCooldown c - tickDt c delta ->
  chemistry c delta w
  = (chemistryCooldown c - tickDt c delta,
     mkChem (atoms (stateRef c)) (filtered (stateRef c) w).1.1 false (uuids w)).
Proof. intros H. unfold chemistryPhase. by rewrite leb_false. Qed.

Lemma chemistryPhase_fire (c : Component) (delta : R) (w : World) :
  chemistryCooldown c - tickDt c delta <= 0 ->
  chemistry c delta w
  = (0.2,
     chemistryFire ionicRestLength covalentRestLength (temperature (stateRef c))
       (mkChem (atoms (stateRef c)) (filtered (stateRef c) w).1.1 false (uuids w))).
Proof. intros H. unfold chemistryPhase. by rewrite leb_true. Qed.

(** Without a photon and with the chemistry engine cooling down, the
    state keeps its bond list, whatever the filter dropped. *)
Lemma quiet_tick_keeps_bonds (c : Component) (delta : R) (w : World) :
  isRunning (stateRef c) = true ->
  photons (stateRef c) = [] ->
  0 < chemistryCooldown c - tickDt c delta ->
  bonds (stateRef (frame c delta w).1) = bonds (stateRef c).
Proof.
  intros Hrun Hph Hcool.
  destruct (useFrame_output c delta w Hrun) as [_ ->].
  unfold photonPhase, photonStart. rewrite chemistryPhase_idle by done.
  rewrite Hph. simpl. by rewrite Nat.eqb_refl.
Qed.

End CommitFacts.

(** ** Mechanical snap *)

(** Both callbacks reject an overstretched bond, whatever the accumulator
    and the random numbers. *)
Lemma snapped_bond_filtered (temp : R) (ats : list AtomData) (bond : BondData)
    (bs : list BondData) (a1 a2 : AtomData) (F : Forces) (rnd : oracle R) :
  findAtom ats (atomA bond) = Some a1 -> findAtom ats (atomB bond) = Some a2 ->
  Vector3.distanceTo (position a1) (position a2)
  > restLength bond * (1 + temp * THERMAL_EXPANSION_COEFF) * BOND_BREAK_RATIO ->
  ~ In bond (filterBonds V1.bondCallback temp ats bs F rnd).1.1
  /\ ~ In bond (filterBonds V2.bondCallback temp ats bs F rnd).1.1.
Proof.
  intros H1 H2 Hd.
  assert (Hs : snaps temp a1 a2 bond = true).
  { unfold snaps, effectiveRestLength. apply gtb_true. lra. }
  split; apply filterBonds_rejected; intros F' rnd'.
  - by rewrite (V1_callback_snap _ _ _ _ _ a1 a2).
  - by rewrite (V2_callback_snap _ _ _ _ _ a1 a2).
Qed.

Lemma tickDt_torn : tickDt tornComponent 0.016 = 0.016.
Proof. unfold tickDt. simpl. rewrite Rmin_left by lra. lra. Qed.

(** C2 fails on the committed state.  The bond of [tornState] is
    stretched to 10, beyond 1.35 × (1 + 3 × 0.005) × 2; both filters drop
    it, for every oracle; yet the state after the frame still lists it,
    because nothing else changed and the tick does not commit. *)
Theorem C2_snapped_bond_stays_in_state (w : World) :
  findAtom (atoms tornState) (atomA carbonBond) = Some carbonA
  /\ findAtom (atoms tornState) (atomB carbonBond) = Some carbonFar
  /\ Vector3.distanceTo (position carbonA) (position carbonFar)
     > restLength carbonBond * (1 + temperature tornState * THERMAL_EXPANSION_COEFF)
       * BOND_BREAK_RATIO
  /\ (bondPhase V1.bondCallback None tornState w).1.1 = []
  /\ (bondPhase V2.bondCallback None tornState w).1.1 = []
  /\ bonds (stateRef (FirstVariant.useFrame None tornComponent 0.016 w).1) = [carbonBond]
  /\ bonds (stateRef (SecondVariant.useFrame tornComponent 0.016 w).1) = [carbonBond].
Proof.
  assert (Hd : Vector3.distanceTo (position carbonA) (position carbonFar)
               > restLength carbonBond * (1 + temperature tornState * THERMAL_EXPANSION_COEFF)
                 * BOND_BREAK_RATIO).
  { simpl. unfold THERMAL_EXPANSION_COEFF, BOND_BREAK_RATIO. eval_R. lra. }
  assert (Hs : snaps 3.0 carbonA carbonFar carbonBond = true).
  { unfold snaps, effectiveRestLength. apply gtb_true. simpl in *. lra. }
  split; [done |]. split; [done |]. split; [exact Hd |].
  split; [| split].
  - unfold bondPhase. simpl.
    by rewrite (V1_callback_snap _ _ _ _ _ carbonA carbonFar).
  - unfold bondPhase. simpl.
    by rewrite (V2_callback_snap _ _ _ _ _ carbonA carbonFar).
  - split.
    + apply quiet_tick_keeps_bonds; [done | done |]. rewrite tickDt_torn. simpl. lra.
    + apply quiet_tick_keeps_bonds; [done | done |]. rewrite tickDt_torn. simpl. lra.
Qed.

(** ** The photon loop *)

Lemma firstHit_Some (ats : list AtomData) (pos : Vector3) (bs : list BondData)
    (bond : BondData) (a1 a2 : AtomData) :
  firstHit ats pos bs = Some (bond, a1, a2) ->
  In bond bs /\ nearBond ats pos bond.
Proof.
  induction bs as [| b bs IH]; simpl; [done |].
  destruct (findAtom ats (atomA b)) as [b1 |] eqn:E1.
  2: { intros H. destruct (IH H). split; [by right | done]. }
  destruct (findAtom ats (atomB b)) as [b2 |] eqn:E2.
  2: { intros H. destruct (IH H). split; [by right | done]. }
  destruct (ltb _ 0.8) eqn:El.
  - intros H. injection H as <- <- <-. split; [by left |].
    exists b1, b2. apply ltb_spec in El. done.
  - intros H. destruct (IH H). split; [by right | done].
Qed.

Lemma firstHit_None (ats : list AtomData) (pos : Vector3) (bs : list BondData) :
  firstHit ats pos bs = None <-> forall b, In b bs -> ~ nearBond ats pos b.
Proof.
  induction bs as [| b bs IH]; simpl; [split; [intros _ b [] | done] |].
  destruct (findAtom ats (atomA b)) as [b1 |] eqn:E1.
  2: { rewrite IH. split.
       - intros H b' [<- | Hb']; [| by apply H].
         intros (a1 & a2 & H1 & _). congruence.
       - intros H b' Hb'. apply H. by right. }
  destruct (findAtom ats (atomB b)) as [b2 |] eqn:E2.
  2: { rewrite IH. split.
       - intros H b' [<- | Hb']; [| by apply H].
         intros (a1 & a2 & _ & H2 & _). congruence.
       - intros H b' Hb'. apply H. by right. }
  destruct (ltb _ 0.8) eqn:El.
  - split; [done |]. intros H. exfalso. apply (H b); [by left |].
    exists b1, b2. apply ltb_spec in El. done.
  - rewrite IH. split.
    + intros H b' [<- | Hb']; [| by apply H].
      intros (a1 & a2 & H1 & H2 & Hd).
      assert (a1 = b1) by congruence. assert (a2 = b2) by congruence. subst.
      apply ltb_spec in Hd. congruence.
    + intros H b' Hb'. apply H. by right.
Qed.

(** The bond the loop of one photon returns is the first near bond in
    list order: no bond before it is near. *)
Lemma firstHit_first (ats : list AtomData) (pos : Vector3) (bs : list BondData)
    (bond : BondData) (a1 a2 : AtomData) :
  firstHit ats pos bs = Some (bond, a1, a2) ->
  exists earlier later,
    bs = earlier ++ bond :: later
    /\ Forall (fun b => ~ nearBond ats pos b) earlier.
Proof.
  induction bs as [| b bs IH]; simpl; [done |].
  assert (Hskip : ~ nearBond ats pos b -> firstHit ats pos bs = Some (bond, a1, a2) ->
                  exists earlier later,
                    b :: bs = earlier ++ bond :: later
                    /\ Forall (fun b => ~ nearBond ats pos b) earlier).
  { intros Hfar H. destruct (IH H) as (earlier & later & -> & Hfa).
    exists (b :: earlier), later. split; [done |]. by constructor. }
  destruct (findAtom ats (atomA b)) as [b1 |] eqn:E1.
  2: { apply Hskip. intros (c1 & c2 & H1 & _). congruence. }
  destruct (findAtom ats (atomB b)) as [b2 |] eqn:E2.
  2: { apply Hskip. intros (c1 & c2 & _ & H2 & _). congruence. }
  destruct (ltb _ 0.8) eqn:El.
  - intros H. injection H as <- <- <-. exists [], bs. split; [done | constructor].
  - apply Hskip. intros (c1 & c2 & H1 & H2 & Hd).
    rewrite E1 in H1. rewrite E2 in H2. injection H1 as <-. injection H2 as <-.
    apply ltb_spec in Hd. congruence.
Qed.

Lemma photonStep_hit (dt : R) (ats : list AtomData) (st : PhotonState) (p : PhotonData)
    (bond : BondData) (a1 a2 : AtomData) :
  firstHit ats (photon_position (advance dt p)) (ph_bonds st) = Some (bond, a1, a2) ->
  ph_bonds (photonStep dt ats st p) = withoutId (bond_id bond) (ph_bonds st)
  /\ ph_surviving (photonStep dt ats st p) = ph_surviving st
  /\ ph_changed (photonStep dt ats st p) = true.
Proof. intros H. unfold photonStep. by rewrite H. Qed.

Lemma photonStep_miss (dt : R) (ats : list AtomData) (st : PhotonState) (p : PhotonData) :
  firstHit ats (photon_position (advance dt p)) (ph_bonds st) = None ->
  ph_bonds (photonStep dt ats st p) = ph_bonds st
  /\ ph_changed (photonStep dt ats st p) = ph_changed st
  /\ ph_surviving (photonStep dt ats st p)
     = if ltb (Vector3.length (photon_position (advance dt p))) 60
       then ph_surviving st ++ [advance dt p] else ph_surviving st.
Proof. intros H. unfold photonStep. rewrite H. by destruct (ltb _ 60). Qed.

Lemma photonStep_changed (dt : R) (ats : list AtomData) (st : PhotonState) (p : PhotonData) :
  ph_changed st = true -> ph_changed (photonStep dt ats st p) = true.
Proof.
  intros H. unfold photonStep.
  destruct (firstHit _ _ _) as [[[b a1] a2] |]; [done |]. by destruct (ltb _ 60).
Qed.

Lemma photonLogic_changed (dt : R) (ats : list AtomData) (ps : list PhotonData) :
  forall st, ph_changed st = true -> ph_changed (photonLogic dt ats st ps) = true.
Proof.
  unfold photonLogic. induction ps as [| p ps IH]; intros st H; simpl; [done |].
  apply IH. by apply photonStep_changed.
Qed.

(** The photons a run of the loop adds to [survivingPhotons] carry ids of
    the photons it processed. *)
Lemma photonStep_surviving (dt : R) (ats : list AtomData) (st : PhotonState) (p q : PhotonData) :
  In q (ph_surviving (photonStep dt ats st p)) ->
  In q (ph_surviving st) \/ photon_id q = photon_id p.
Proof.
  unfold photonStep.
  destruct (firstHit _ _ _) as [[[b a1] a2] |]; simpl; [by left |].
  destruct (ltb _ 60); simpl; [| by left].
  intros H. apply in_app_or in H as [H | [<- | []]]; [by left | by right].
Qed.

Lemma photonLogic_surviving (dt : R) (ats : list AtomData) (ps : list PhotonData)
    (q : PhotonData) :
  forall st,
  In q (ph_surviving (photonLogic dt ats st ps)) ->
  In q (ph_surviving st) \/ In (photon_id q) (map photon_id ps).
Proof.
  unfold photonLogic. induction ps as [| p ps IH]; intros st H; simpl in *; [by left |].
  destruct (IH _ H) as [Hq | Hq]; [| by right; right].
  destruct (photonStep_surviving _ _ _ _ _ Hq) as [? | Heq]; [by left |].
  right. left. done.
Qed.

Lemma withoutId_absent (id : string) (bs : list BondData) (b : BondData) :
  In b (withoutId id bs) -> bond_id b <> id.
Proof.
  unfold withoutId. rewrite List.filter_In. intros [_ H].
  apply negb_true_iff, bool_decide_eq_false in H. done.
Qed.

Lemma withoutId_fresh (id : string) (bs : list BondData) :
  id ∉ map bond_id bs -> withoutId id bs = bs.
Proof.
  unfold withoutId. induction bs as [| b bs IH]; simpl; [done |].
  intros H. apply not_elem_of_cons in H as [Hne H].
  rewrite bool_decide_eq_false_2 by congruence.
  simpl. f_equal. by apply IH.
Qed.

Lemma withoutId_length (bond : BondData) (bs : list BondData) :
  NoDup (map bond_id bs) -> In bond bs ->
  List.length bs = S (List.length (withoutId (bond_id bond) bs)).
Proof.
  induction bs as [| b bs IH]; simpl; [done |].
  intros Hnd Hin. inversion Hnd as [| ? ? Hb Hnd']; subst.
  destruct Hin as [-> | Hin].
  - unfold withoutId. simpl. rewrite bool_decide_eq_true_2 by done. simpl.
    fold (withoutId (bond_id bond) bs). by rewrite withoutId_fresh.
  - unfold withoutId. simpl. rewrite bool_decide_eq_false_2.
    + simpl. fold (withoutId (bond_id bond) bs). f_equal. by apply IH.
    + intros E. apply Hb. rewrite E.
      change (map bond_id bs) with (bond_id <$> bs).
      apply list_elem_of_fmap. exists bond. split; [done | by apply list_elem_of_In].
Qed.

Lemma findAtom_map_uncharged (ats : list AtomData) (id : string) :
  findAtom (map uncharged ats) id = uncharged <$> findAtom ats id.
Proof.
  unfold findAtom. induction ats as [| a ats IH]; simpl; [done |].
  replace (atom_id (uncharged a)) with (atom_id a) by (by destruct a).
  by destruct (bool_decide (atom_id a = id)).
Qed.

Lemma findAtom_uncharged (ats ats' : list AtomData) (id : string) (a : AtomData) :
  map uncharged ats = map uncharged ats' -> findAtom ats id = Some a ->
  exists a', findAtom ats' id = Some a' /\ position a' = position a.
Proof.
  intros Hu Ha.
  pose proof (findAtom_map_uncharged ats id) as H1.
  pose proof (findAtom_map_uncharged ats' id) as H2.
  rewrite Hu, H2, Ha in H1.
  destruct (findAtom ats' id) as [a' |]; [| done].
  exists a'. split; [done |]. simpl in H1.
  assert (E : uncharged a' = uncharged a) by congruence.
  by apply uncharged_fields in E as (_ & _ & ? & _).
Qed.

Lemma nearBond_uncharged (ats ats' : list AtomData) (pos : Vector3) (b : BondData) :
  map uncharged ats = map uncharged ats' -> nearBond ats pos b -> nearBond ats' pos b.
Proof.
  intros Hu (a1 & a2 & H1 & H2 & Hd).
  destruct (findAtom_uncharged _ _ _ _ Hu H1) as (a1' & H1' & P1).
  destruct (findAtom_uncharged _ _ _ _ Hu H2) as (a2' & H2' & P2).
  exists a1', a2'. by rewrite P1, P2.
Qed.

(** C8 (amended).  A running tick of either variant on photons with
    unique ids.  When photon [p] is processed, [reached] is the state of
    the photon loop: its bond list holds the bonds that survived the bond
    lifecycle and the chemistry engine and were not struck by an earlier
    photon of the same tick.  If the advanced position of [p] is nearer
    than 0.8 to the midpoint of some bond of that list, then [p] is absent
    from the output, the first such bond in list order is struck (no bond
    before it in the list is near), no bond with its id is in the output,
    and the strike removes nothing but the bonds with that id (exactly
    one bond when bond ids are unique).  If it is near no bond
    of that list, [p] removes no bond, and it is absent from the output
    when its distance from the origin is at least 60. *)
Theorem C8_photon_consumption (bondCallback : BondCallback)
    (ionicRestLength covalentRestLength : AtomData -> AtomData -> R)
    (vortexPos : option Vector3) (c : Component) (delta : R) (w : World)
    (ps1 ps2 : list PhotonData) (p : PhotonData) :
  isRunning (stateRef c) = true ->
  photons (stateRef c) = ps1 ++ p :: ps2 ->
  NoDup (map photon_id (photons (stateRef c))) ->
  let dt := tickDt c delta in
  let ats := atoms (stateRef c) in
  let loopAtoms :=
    chem_atoms (chemistryPhase bondCallback ionicRestLength covalentRestLength
                  vortexPos c delta w).2 in
  let reached :=
    photonLogic dt loopAtoms
      (photonStart bondCallback ionicRestLength covalentRestLength vortexPos c delta w)
      ps1 in
  let after := photonStep dt loopAtoms reached p in
  let pos := photon_position (advance dt p) in
  let s' := stateRef (useFrame bondCallback ionicRestLength covalentRestLength
                        vortexPos c delta w).1 in
  ((exists b, In b (ph_bonds reached) /\ nearBond ats pos b) ->
   (forall q, In q (photons s') -> photon_id q <> photon_id p)
   /\ exists struck,
        In struck (ph_bonds reached) /\ nearBond ats pos struck
        /\ (exists earlier later,
              ph_bonds reached = earlier ++ struck :: later
              /\ Forall (fun b => ~ nearBond ats pos b) earlier)
        /\ (forall b, In b (bonds s') -> bond_id b <> bond_id struck)
        /\ ph_bonds after = withoutId (bond_id struck) (ph_bonds reached)
        /\ (NoDup (map bond_id (ph_bonds reached)) ->
            List.length (ph_bonds reached) = S (List.length (ph_bonds after))))
  /\ ((forall b, In b (ph_bonds reached) -> ~ nearBond ats pos b) ->
      ph_bonds after = ph_bonds reached
      /\ (60 <= Vector3.length pos ->
          forall q, In q (photons s') -> photon_id q <> photon_id p)).
Proof.
  intros Hrun Hsplit Hnd dt ats loopAtoms reached after pos s'.
  assert (Hu : map uncharged loopAtoms = map uncharged ats)
    by apply chemistryPhase_uncharged.
  destruct (useFrame_output bondCallback ionicRestLength covalentRestLength vortexPos
              c delta w Hrun) as [Hph Hbs].
  fold s' in Hph, Hbs.
  set (final := photonPhase bondCallback ionicRestLength covalentRestLength vortexPos
                  c delta w) in *.
  assert (Hfinal : final = photonLogic dt loopAtoms after ps2).
  { unfold final, photonPhase. fold dt loopAtoms. rewrite Hsplit.
    unfold photonLogic. by rewrite fold_left_app. }
  (* the ids of the other photons *)
  rewrite Hsplit, map_app in Hnd. simpl in Hnd.
  apply NoDup_app in Hnd as (_ & Hpre & Hnd).
  apply NoDup_cons in Hnd as (Hpost & _).
  assert (Habsent : ph_surviving after = ph_surviving reached ->
                    forall q, In q (photons s') -> photon_id q <> photon_id p).
  { intros Hsame q Hq Heq. rewrite Hph, Hfinal in Hq.
    apply photonLogic_surviving in Hq as [Hq | Hq].
    - rewrite Hsame in Hq. unfold reached in Hq.
      apply photonLogic_surviving in Hq as [Hq | Hq]; [done |].
      apply (Hpre (photon_id p)); [| left]. rewrite <- Heq. by apply list_elem_of_In.
    - apply Hpost. rewrite <- Heq. by apply list_elem_of_In. }
  split.
  - intros (b & Hb & Hnear).
    destruct (firstHit loopAtoms pos (ph_bonds reached)) as [[[struck a1] a2] |] eqn:Ehit.
    2: { exfalso. apply (proj1 (firstHit_None _ _ _) Ehit b Hb).
         by apply (nearBond_uncharged ats). }
    destruct (photonStep_hit dt loopAtoms reached p struck a1 a2 Ehit) as (Hb' & Hs' & Hc').
    fold after in Hb', Hs', Hc'.
    destruct (firstHit_Some _ _ _ _ _ _ Ehit) as [Hin Hn].
    split; [by apply Habsent |].
    exists struck. split; [done |]. split; [by apply (nearBond_uncharged loopAtoms) |].
    split.
    { destruct (firstHit_first _ _ _ _ _ _ Ehit) as (earlier & later & Heq & Hfar).
      exists earlier, later. split; [done |].
      eapply Forall_impl; [exact Hfar |]. intros b0 Hb0 Hnear0. apply Hb0.
      by apply (nearBond_uncharged ats). }
    split; [| split; [done |]].
    + assert (Hch : ph_changed final = true).
      { rewrite Hfinal. by apply photonLogic_changed. }
      rewrite Hch, orb_true_r in Hbs. rewrite Hbs, Hfinal.
      intros b' Hb''. apply (withoutId_absent _ (ph_bonds reached)).
      rewrite <- Hb'.
      apply list_elem_of_In.
      eapply elem_of_sublist; [by apply list_elem_of_In | apply photonLogic_sublist].
    + intros Hids. rewrite Hb'. by apply withoutId_length.
  - intros Hfar.
    assert (Ehit : firstHit loopAtoms pos (ph_bonds reached) = None).
    { apply firstHit_None. intros b Hb Hn. apply (Hfar b Hb).
      by apply (nearBond_uncharged loopAtoms). }
    destruct (photonStep_miss dt loopAtoms reached p Ehit) as (Hb' & _ & Hs').
    fold after pos in Hb', Hs'.
    split; [done |]. intros Hout. apply Habsent.
    rewrite Hs'. by rewrite ltb_false.
Qed.

Lemma distanceTo_same_yz (a b : Vector3) :
  Vector3.y a = Vector3.y b -> Vector3.z a = Vector3.z b ->
  Vector3.distanceTo a b = Rabs (Vector3.x a - Vector3.x b).
Proof.
  destruct a as [ax ay az], b as [bx by' bz]. simpl. intros -> ->.
  apply distanceTo_along_x.
Qed.

Lemma length_on_x (v : Vector3) :
  Vector3.y v = 0 -> Vector3.z v = 0 -> Vector3.length v = Rabs (Vector3.x v).
Proof.
  destruct v as [vx vy vz]. simpl. intros -> ->. apply length_along_x.
Qed.

(** The first filter keeps the carbon bond at temperature 3. *)
Lemma lit_bond_kept (vortexPos : option Vector3) (w : World) :
  (bondPhase V1.bondCallback vortexPos litState w).1.1 = [carbonBond].
Proof.
  unfold bondPhase. simpl.
  rewrite (V1_callback_thermal _ _ _ _ _ carbonA carbonB); [| done | done |].
  - unfold V1.thermallyExposed. simpl. unfold BOND_STRENGTH_COVALENT.
    by rewrite gtb_false by lra.
  - unfold snaps, effectiveRestLength, THERMAL_EXPANSION_COEFF, BOND_BREAK_RATIO. simpl.
    eval_R. reflexivity.
Qed.

Lemma lit_midpoint (dt : R) (p : PhotonData) :
  photon_position p = Vector3.mk 0.5 0 0 -> photon_velocity p = Vector3.zero ->
  Vector3.distanceTo (photon_position (advance dt p))
    (Vector3.multiplyScalar (Vector3.addVectors (position carbonA) (position carbonB)) 0.5)
  = 0
  /\ Vector3.length (photon_position (advance dt p)) = 0.5.
Proof.
  intros Hp Hv. unfold advance. simpl. rewrite Hp, Hv. split.
  - rewrite distanceTo_same_yz by (simpl; lra). simpl.
    replace (0.5 + 0 * (dt * 15) - (0 + 1) * 0.5) with 0 by lra. apply Rabs_R0.
  - rewrite length_on_x by (simpl; lra). simpl.
    rewrite Rabs_right; lra.
Qed.

(** The bond list and the survivors after the photon loop of [litState]:
    the first photon strikes the bond, the second finds none. *)
Lemma lit_photon_loop (dt : R) (F : Forces) :
  let final := photonLogic dt [carbonA; carbonB]
                 (mkPhotonState [carbonBond] false F []) [photonOne; photonTwo] in
  ph_bonds final = [] /\ ph_surviving final = [advance dt photonTwo]
  /\ ph_changed final = true.
Proof.
  destruct (lit_midpoint dt photonOne eq_refl eq_refl) as [Hd1 _].
  destruct (lit_midpoint dt photonTwo eq_refl eq_refl) as [_ Hl2].
  unfold photonLogic, fold_left.
  set (st0 := mkPhotonState [carbonBond] false F []).
  assert (Hhit : firstHit [carbonA; carbonB] (photon_position (advance dt photonOne))
                   (ph_bonds st0) = Some (carbonBond, carbonA, carbonB)).
  { simpl. change (findAtom [carbonA; carbonB] "a") with (Some carbonA).
    change (findAtom [carbonA; carbonB] "b") with (Some carbonB).
    simpl in Hd1. rewrite Hd1. by rewrite ltb_true by lra. }
  destruct (photonStep_hit dt _ st0 photonOne _ _ _ Hhit) as (Hb1 & Hs1 & Hc1).
  set (st1 := photonStep dt [carbonA; carbonB] st0 photonOne) in *.
  assert (Hb1' : ph_bonds st1 = []) by (rewrite Hb1; reflexivity).
  assert (Hmiss : firstHit [carbonA; carbonB] (photon_position (advance dt photonTwo))
                    (ph_bonds st1) = None) by (by rewrite Hb1').
  destruct (photonStep_miss dt _ st1 photonTwo Hmiss) as (Hb2 & Hc2 & Hs2).
  rewrite Hb2, Hc2, Hs2, Hb1', Hc1, Hs1, Hl2. simpl.
  by rewrite ltb_true by lra.
Qed.

(** The second photon of [litState] rests on the midpoint of a bond that
    survived the bond lifecycle, and it is in the output of the tick: the
    bond was consumed by the first photon. *)
Lemma C8_counterexample :
  let s' := stateRef (FirstVariant.useFrame None litComponent 0.016 calmWorld).1 in
  let dt := tickDt litComponent 0.016 in
  In carbonBond (bondPhase V1.bondCallback None litState calmWorld).1.1
  /\ nearBond (atoms litState) (photon_position (advance dt photonTwo)) carbonBond
  /\ In (advance dt photonTwo) (photons s')
  /\ bonds s' = [].
Proof.
  intros s' dt.
  destruct (lit_midpoint dt photonTwo eq_refl eq_refl) as [Hd2 _].
  split; [rewrite lit_bond_kept; by left |].
  split.
  { exists carbonA, carbonB. split; [done |]. split; [done |]. rewrite Hd2. lra. }
  destruct (useFrame_output V1.bondCallback V1.ionicRestLength V1.covalentRestLength None
              litComponent 0.016 calmWorld eq_refl) as [Hph Hbs].
  fold s' in Hph, Hbs.
  assert (Hidle : 0 < chemistryCooldown litComponent - tickDt litComponent 0.016).
  { unfold tickDt. simpl. rewrite Rmin_left by lra. lra. }
  unfold photonPhase, photonStart in Hph, Hbs.
  rewrite chemistryPhase_idle in Hph, Hbs by done.
  simpl in Hph, Hbs. rewrite lit_bond_kept in Hph, Hbs. fold dt in Hph, Hbs.
  destruct (lit_photon_loop dt (bondPhase V1.bondCallback None litState calmWorld).1.2)
    as (Hb & Hs & Hc).
  simpl in Hb, Hs, Hc. rewrite Hb, Hs, Hc in Hbs. rewrite Hs in Hph.
  split; [| exact Hbs].
  match type of Hph with ?l = _ => change (photons s') with l end.
  rewrite Hph. by left.
Qed.

Lemma C8_photon_consumption_witness :
  Forall (fun q => photon_id q <> photon_id photonOne)
    (photons (stateRef (FirstVariant.useFrame None litComponent 0.016 calmWorld).1)).
Proof.
  apply Forall_forall. intros q Hq. apply list_elem_of_In in Hq. revert q Hq.
  assert (Hidle : 0 < chemistryCooldown litComponent - tickDt litComponent 0.016).
  { unfold tickDt. simpl. rewrite Rmin_left by lra. lra. }
  destruct (C8_photon_consumption V1.bondCallback V1.ionicRestLength V1.covalentRestLength
              None litComponent 0.016 calmWorld [] [photonTwo] photonOne)
    as [Hstrike _].
  - reflexivity.
  - reflexivity.
  - apply (bool_decide_unpack (NoDup (map photon_id (photons (stateRef litComponent))))).
    by vm_compute.
  - apply Hstrike. exists carbonBond. split.
    + unfold photonLogic, photonStart. rewrite chemistryPhase_idle by done. simpl.
      rewrite lit_bond_kept. by left.
    + destruct (lit_midpoint (tickDt litComponent 0.016) photonOne eq_refl eq_refl) as [Hd _].
      exists carbonA, carbonB. split; [done |]. split; [done |]. rewrite Hd. lra.
Defined.

(** ** The two variants disagree *)

Section PhotonlessTicks.

Variable bondCallback : BondCallback.
Variables ionicRestLength covalentRestLength : AtomData -> AtomData -> R.
Variable vortexPos : option Vector3.

(** A tick without photons whose chemistry engine fires and forms a bond
    commits the bond list of the engine. *)
Lemma firing_tick_bonds (c : Component) (delta : R) (w : World) :
  isRunning (stateRef c) = true ->
  photons (stateRef c) = [] ->
  bonds (stateRef c) = [] ->
  chemistryCooldown c - tickDt c delta <= 0 ->
  let fired := chemistryFire ionicRestLength covalentRestLength (temperature (stateRef c))
                 (mkChem (atoms (stateRef c)) [] false (uuids w)) in
  chem_changed fired = true ->
  bonds (stateRef (useFrame bondCallback ionicRestLength covalentRestLength vortexPos
                     c delta w).1)
  = chem_bonds fired.
Proof.
  intros Hrun Hph Hbs Hdue fired Hch.
  destruct (useFrame_output bondCallback ionicRestLength covalentRestLength vortexPos
              c delta w Hrun) as [_ ->].
  unfold photonPhase, photonStart. rewrite chemistryPhase_fire by done.
  unfold bondPhase. rewrite Hph, Hbs. simpl. fold fired. rewrite Hch.
  by rewrite orb_true_r.
Qed.

End PhotonlessTicks.

Lemma salt_fire (ionicRestLength covalentRestLength : AtomData -> AtomData -> R) :
  chemistryFire ionicRestLength covalentRestLength 1 saltPair
  = mkChem [setCharge 1 sodium; setCharge (-1) chlorineL]
      [mkBond (serial 0%nat) "na" "cl1" BOND_STRENGTH_IONIC
              (ionicRestLength sodium chlorineL) Single ionic]
      true (rest serial).
Proof.
  unfold chemistryFire. change (indexPairs _) with [(0, 1)]%nat. unfold fold_left.
  rewrite (chemistryPair_ionic _ _ 1 saltPair 0 1 sodium chlorineL).
  - unfold formIonic. simpl. by rewrite ltb_true by lra.
  - reflexivity.
  - reflexivity.
  - unfold eligible. simpl. unfold bondCount, BOND_FORM_RADIUS. simpl.
    repeat split; try lia; try done. eval_R. lra.
  - unfold deltaEN. simpl. eval_R. lra.
  - unfold meanMP. simpl. lra.
Qed.

Lemma hydrogen_fire (ionicRestLength covalentRestLength : AtomData -> AtomData -> R) :
  chemistryFire ionicRestLength covalentRestLength 0.4
    (mkChem [hydrogenA; hydrogenB] [] false serial)
  = mkChem [hydrogenA; hydrogenB]
      [mkBond (serial 0%nat) "h1" "h2" BOND_STRENGTH_COVALENT
              (covalentRestLength hydrogenA hydrogenB) Single covalent]
      true (rest serial).
Proof.
  unfold chemistryFire. change (indexPairs _) with [(0, 1)]%nat. unfold fold_left.
  rewrite (chemistryPair_covalent _ _ 0.4 _ 0 1 hydrogenA hydrogenB).
  - reflexivity.
  - reflexivity.
  - reflexivity.
  - unfold eligible. simpl. unfold bondCount, BOND_FORM_RADIUS. simpl.
    repeat split; try lia; try done. eval_R. lra.
  - unfold deltaEN. simpl. replace (2.20 - 2.20) with 0 by lra. rewrite Rabs_R0. lra.
  - unfold meanMP. simpl. lra.
Qed.

Lemma hot_bond_broken_V1 (vortexPos : option Vector3) :
  (bondPhase V1.bondCallback vortexPos hotState coldRolls).1.1 = [].
Proof.
  unfold bondPhase. simpl.
  rewrite (V1_callback_thermal _ _ _ _ _ carbonA carbonB);
    [| done | done | apply carbon_not_snapped].
  unfold V1.thermallyExposed, V1.thermalProb, next, always. simpl.
  unfold BOND_STRENGTH_COVALENT. rewrite gtb_true by lra. by rewrite ltb_true by lra.
Qed.

Lemma hot_bond_kept_V2 (vortexPos : option Vector3) :
  (bondPhase V2.bondCallback vortexPos hotState coldRolls).1.1 = [carbonBond].
Proof.
  unfold bondPhase. simpl.
  by rewrite (V2_callback_covalent_cool _ _ _ _ _ carbonA carbonB);
    [| done | done | apply carbon_not_snapped | done | lra].
Qed.

(** The far photon strikes nothing and is pruned, whatever the bonds. *)
Lemma far_photon_loop (dt : R) (F : Forces) (bs : list BondData) :
  (forall b, In b bs -> b = carbonBond) ->
  let final := photonLogic dt [carbonA; carbonB] (mkPhotonState bs false F []) [farPhoton] in
  ph_bonds final = bs /\ ph_surviving final = [].
Proof.
  intros Hbs. unfold photonLogic, fold_left.
  assert (Hmiss : firstHit [carbonA; carbonB] (photon_position (advance dt farPhoton)) bs
                  = None).
  { apply firstHit_None. intros b Hb (a1 & a2 & H1 & H2 & Hd).
    rewrite (Hbs b Hb) in H1, H2.
    assert (a1 = carbonA) by (simpl in H1; congruence).
    assert (a2 = carbonB) by (simpl in H2; congruence). subst.
    rewrite distanceTo_same_yz in Hd by (simpl; lra). simpl in Hd.
    rewrite Rabs_right in Hd by lra. lra. }
  destruct (photonStep_miss dt _ (mkPhotonState bs false F []) farPhoton Hmiss)
    as (Hb & _ & Hs).
  simpl in Hb, Hs. rewrite length_on_x in Hs by (simpl; lra). simpl in Hs.
  rewrite Rabs_right in Hs by lra. rewrite ltb_false in Hs by lra. done.
Qed.

Lemma hot_tick (cb : BondCallback) (ionicR covalentR : AtomData -> AtomData -> R)
    (kept : list BondData) :
  (bondPhase cb None hotState coldRolls).1.1 = kept ->
  (forall b, In b kept -> b = carbonBond) ->
  bonds (stateRef (useFrame cb ionicR covalentR None hotComponent 0.016 coldRolls).1) = kept.
Proof.
  intros Hkept Hbs.
  destruct (useFrame_output cb ionicR covalentR None hotComponent 0.016 coldRolls eq_refl)
    as [_ ->].
  assert (Hidle : 0 < chemistryCooldown hotComponent - tickDt hotComponent 0.016).
  { unfold tickDt. simpl. rewrite Rmin_left by lra. lra. }
  unfold photonPhase, photonStart. rewrite chemistryPhase_idle by done.
  change (stateRef hotComponent) with hotState. rewrite Hkept.
  change (photons hotState) with [farPhoton]. change (atoms hotState) with [carbonA; carbonB].
  destruct (far_photon_loop (tickDt hotComponent 0.016)
              (bondPhase cb None hotState coldRolls).1.2 kept Hbs) as [Hb Hs].
  simpl in Hb, Hs. simpl. rewrite Hb, Hs. simpl.
  by rewrite orb_true_r.
Qed.

(** C4.  There are states on which the two loops produce different
    results.  Thermal dissociation: at temperature 10 and a roll of 0
    the first variant removes the carbon bond (thermal energy 1500 above
    0.8 × 1200, probability 0.027), the second keeps it for every roll,
    and the committed bond lists differ.  Rest length of a new bond: for
    the sodium-chlorine pair the first variant commits an ionic bond of
    rest length 0.75 × the radius sum, the second of 1.0 × the radius
    sum; for the hydrogen pair the covalent bond has rest length 0.75 ×
    against 0.9 × the radius sum. *)
Theorem C4_variants_disagree :
  ((V1.bondCallback 10 [carbonA; carbonB] carbonBond ∅ (always 0)).1.1 = false
   /\ V1.thermalProb 10 carbonBond = 0.027
   /\ (forall rnd, (V2.bondCallback 10 [carbonA; carbonB] carbonBond ∅ rnd).1.1 = true)
   /\ bonds (stateRef (FirstVariant.useFrame None hotComponent 0.016 coldRolls).1) = []
   /\ bonds (stateRef (SecondVariant.useFrame hotComponent 0.016 coldRolls).1) = [carbonBond])
  /\ (exists b1 b2,
        bonds (stateRef (FirstVariant.useFrame None saltReady 0.016 calmWorld).1) = [b1]
        /\ bonds (stateRef (SecondVariant.useFrame saltReady 0.016 calmWorld).1) = [b2]
        /\ bond_type b1 = ionic /\ bond_type b2 = ionic
        /\ restLength b1 = 0.75 * (radius sodium + radius chlorineL)
        /\ restLength b2 = 1.0 * (radius sodium + radius chlorineL)
        /\ restLength b1 <> restLength b2)
  /\ (exists b1 b2,
        bonds (stateRef (FirstVariant.useFrame None hydrogenReady 0.016 calmWorld).1) = [b1]
        /\ bonds (stateRef (SecondVariant.useFrame hydrogenReady 0.016 calmWorld).1) = [b2]
        /\ bond_type b1 = covalent /\ bond_type b2 = covalent
        /\ restLength b1 = 0.75 * (radius hydrogenA + radius hydrogenB)
        /\ restLength b2 = 0.9 * (radius hydrogenA + radius hydrogenB)
        /\ restLength b1 <> restLength b2).
Proof.
  split; [| split].
  - split; [| split; [| split; [| split]]].
    + rewrite (V1_callback_thermal _ _ _ _ _ carbonA carbonB);
        [| done | done | apply carbon_not_snapped].
      unfold V1.thermallyExposed, V1.thermalProb, next, always. simpl.
      unfold BOND_STRENGTH_COVALENT. rewrite gtb_true by lra. by rewrite ltb_true by lra.
    + unfold V1.thermalProb. simpl. unfold BOND_STRENGTH_COVALENT. lra.
    + intros rnd.
      by rewrite (V2_callback_covalent_cool _ _ _ _ _ carbonA carbonB);
        [| done | done | apply carbon_not_snapped | done | lra].
    + apply hot_tick; [apply hot_bond_broken_V1 | by intros b []].
    + apply hot_tick; [apply hot_bond_kept_V2 |]. by intros b [<- | []].
  - assert (Hdue : chemistryCooldown saltReady - tickDt saltReady 0.016 <= 0).
    { unfold tickDt. simpl. rewrite Rmin_left by lra. lra. }
    eexists. eexists. split; [| split].
    + unfold FirstVariant.useFrame. rewrite firing_tick_bonds; try done.
      * simpl. fold saltPair. by rewrite salt_fire.
      * simpl. fold saltPair. by rewrite salt_fire.
    + unfold SecondVariant.useFrame. rewrite firing_tick_bonds; try done.
      * simpl. fold saltPair. by rewrite salt_fire.
      * simpl. fold saltPair. by rewrite salt_fire.
    + simpl. unfold V1.ionicRestLength, V2.ionicRestLength. simpl.
      repeat split; lra.
  - assert (Hdue : chemistryCooldown hydrogenReady - tickDt hydrogenReady 0.016 <= 0).
    { unfold tickDt. simpl. rewrite Rmin_left by lra. lra. }
    eexists. eexists. split; [| split].
    + unfold FirstVariant.useFrame. rewrite firing_tick_bonds; try done.
      * simpl. by rewrite hydrogen_fire.
      * simpl. by rewrite hydrogen_fire.
    + unfold SecondVariant.useFrame. rewrite firing_tick_bonds; try done.
      * simpl. by rewrite hydrogen_fire.
      * simpl. by rewrite hydrogen_fire.
    + simpl. unfold V1.covalentRestLength, V2.covalentRestLength. simpl.
      repeat split; lra.
Qed.

(** ** Spawn commands and the valence bound *)

Lemma createAtoms_ids (origin : Vector3) (tas : list (AtomType * Vector3)) :
  forall w : World,
  map atom_id (createAtoms origin tas w).1 = map (uuids w) (idIndices tas).
Proof.
  induction tas as [| [ty offset] tas IH]; intros w; simpl; [done |].
  specialize (IH (mkWorld (skip (3 + 4 * orbitalCount ty) (randoms w))
                          (skip (1 + orbitalCount ty) (uuids w)))).
  destruct (createAtoms origin tas _) as [ats w']. simpl in *.
  f_equal. rewrite IH, map_map. done.
Qed.

Lemma createAtoms_types (origin : Vector3) (tas : list (AtomType * Vector3)) :
  forall w : World,
  map atom_type (createAtoms origin tas w).1 = map fst tas.
Proof.
  induction tas as [| [ty offset] tas IH]; intros w; simpl; [done |].
  specialize (IH (mkWorld (skip (3 + 4 * orbitalCount ty) (randoms w))
                          (skip (1 + orbitalCount ty) (uuids w)))).
  destruct (createAtoms origin tas _) as [ats w']. simpl in *. by f_equal.
Qed.

Lemma idIndices_NoDup (tas : list (AtomType * Vector3)) : NoDup (idIndices tas).
Proof.
  induction tas as [| [ty offset] tas IH]; simpl; [constructor |].
  apply NoDup_cons. split.
  - intros H. change (map ?f ?l) with (f <$> l) in H.
    apply list_elem_of_fmap in H as (n & Hn & _). lia.
  - change (map ?f ?l) with (f <$> l). apply NoDup_fmap_2; [| done].
    intros m n. lia.
Qed.

(** The atoms of a template get pairwise different ids, all drawn from
    the oracle. *)
Lemma createAtoms_fresh (origin : Vector3) (tas : list (AtomType * Vector3)) (w : World) :
  (forall m n : nat, uuids w m = uuids w n -> m = n) ->
  NoDup (map atom_id (createAtoms origin tas w).1)
  /\ forall id, id ∈ map atom_id (createAtoms origin tas w).1 -> exists n, id = uuids w n.
Proof.
  intros Hinj. rewrite createAtoms_ids. split.
  - change (map ?f ?l) with (f <$> l). apply NoDup_fmap_2; [| apply idIndices_NoDup].
    intros m n. apply Hinj.
  - intros id Hid. change (map ?f ?l) with (f <$> l) in Hid.
    apply list_elem_of_fmap in Hid as (n & -> & _). by exists n.
Qed.

Lemma lookup_atom_id (ats : list AtomData) (k : nat) (a : AtomData) :
  ats !! k = Some a -> map atom_id ats !! k = Some (atom_id a).
Proof.
  intros H. change (map atom_id ats) with (atom_id <$> ats).
  by rewrite list_lookup_fmap, H.
Qed.

(** The loop body of [template.bonds.forEach] for a bond in range. *)
Lemma createBond_step (ats : list AtomData) (bs : list BondData) (ids : oracle string)
    (tb : TemplateBond) :
  inRange (List.length ats) tb ->
  exists ats' a1 a2 b,
    createBond (ats, bs, ids) tb = (ats', bs ++ [b], rest ids)
    /\ ats !! idxA tb = Some a1 /\ ats !! idxB tb = Some a2
    /\ atomA b = atom_id a1 /\ atomB b = atom_id a2
    /\ map uncharged ats' = map uncharged ats.
Proof.
  intros [HA HB].
  destruct (lookup_lt_is_Some_2 ats (idxA tb) HA) as [a1 H1].
  destruct (lookup_lt_is_Some_2 ats (idxB tb) HB) as [a2 H2].
  unfold createBond. rewrite H1, H2.
  eexists _, a1, a2, _. split; [reflexivity |].
  split; [done |]. split; [done |]. split; [done |]. split; [done |].
  destruct (bool_decide (tb_type tb = ionic) && bool_decide (atom_type a1 = Sodium)
            && bool_decide (atom_type a2 = Chlorine)); [| done].
  change (map uncharged) with (fmap (M := list) uncharged).
  rewrite !list_fmap_insert, !uncharged_setCharge.
  rewrite (list_insert_id (uncharged <$> ats) (idxA tb)).
  - apply list_insert_id. by rewrite list_lookup_fmap, H2.
  - by rewrite list_lookup_fmap, H1.
Qed.

(** The bonds the loop creates, counted at an id. *)
Lemma fold_createBond (tbs : list TemplateBond) (id : string) :
  forall (ats : list AtomData) (bs : list BondData) (ids : oracle string),
  Forall (inRange (List.length ats)) tbs ->
  let result := fold_left createBond tbs (ats, bs, ids) in
  map uncharged result.1.1 = map uncharged ats
  /\ bondCount result.1.2 id
     = (bondCount bs id + List.length (List.filter (hits (map atom_id ats) id) tbs))%nat.
Proof.
  induction tbs as [| tb tbs IH]; intros ats bs ids Hr; [simpl; split; [done | lia] |].
  inversion Hr as [| ? ? Htb Hr']; subst.
  cbn [fold_left List.filter].
  destruct (createBond_step ats bs ids tb Htb)
    as (ats' & a1 & a2 & b & -> & H1 & H2 & HA & HB & Hu).
  assert (Hlen : List.length ats' = List.length ats).
  { rewrite <- (length_map uncharged ats'), Hu. apply length_map. }
  assert (Hids : map atom_id ats' = map atom_id ats).
  { by apply map_id_kind, map_kind_uncharged. }
  destruct (IH ats' (bs ++ [b]) (rest ids)) as [Hu' Hc]; [by rewrite Hlen |].
  split; [by rewrite Hu' |].
  rewrite Hc, Hids, bondCount_app, bondCount_single.
  assert (Hinc : incident id b = hits (map atom_id ats) id tb).
  { unfold incident, hits.
    rewrite (lookup_atom_id _ _ _ H1), (lookup_atom_id _ _ _ H2), HA, HB.
    f_equal; apply bool_decide_ext; split; congruence. }
  rewrite Hinc. destruct (hits (map atom_id ats) id tb); simpl; lia.
Qed.

Lemma hits_touches (ids : list string) (k : nat) (id : string) (tbs : list TemplateBond) :
  NoDup ids -> ids !! k = Some id ->
  List.filter (hits ids id) tbs = List.filter (touches k) tbs.
Proof.
  intros Hnd Hk. apply List.filter_ext. intros tb. unfold hits, touches.
  f_equal.
  - destruct (Nat.eqb_spec (idxA tb) k) as [-> | Hne].
    + by rewrite bool_decide_eq_true_2.
    + rewrite bool_decide_eq_false_2; [done |].
      intros H. apply Hne. by eapply (NoDup_lookup ids).
  - destruct (Nat.eqb_spec (idxB tb) k) as [-> | Hne].
    + by rewrite bool_decide_eq_true_2.
    + rewrite bool_decide_eq_false_2; [done |].
      intros H. apply Hne. by eapply (NoDup_lookup ids).
Qed.

Lemma hits_nowhere (ids : list string) (id : string) (tbs : list TemplateBond) :
  id ∉ ids -> List.filter (hits ids id) tbs = [].
Proof.
  intros Hid. induction tbs as [| tb tbs IH]; simpl; [done |].
  unfold hits at 1.
  rewrite !bool_decide_eq_false_2; [done | |];
    intros H; apply Hid; by eapply list_elem_of_lookup_2.
Qed.

Lemma templateOk_spec (t : MoleculeTemplate) :
  templateOk t = true ->
  Forall (inRange (List.length (tmpl_atoms t))) (tmpl_bonds t)
  /\ forall k ty offset,
       tmpl_atoms t !! k = Some (ty, offset) ->
       (degree t k <= maxBonds (ATOM_CONFIGS ty))%nat.
Proof.
  unfold templateOk. rewrite andb_true_iff, !forallb_forall. intros [Hr Hd]. split.
  - apply Forall_forall. intros tb Htb. apply list_elem_of_In in Htb.
    specialize (Hr tb Htb). apply andb_true_iff in Hr as [HA HB].
    apply Nat.ltb_lt in HA, HB. by split.
  - intros k ty offset Hk.
    assert (Hin : In k (seq 0 (List.length (tmpl_atoms t)))).
    { apply in_seq. apply lookup_lt_Some in Hk. lia. }
    specialize (Hd k Hin). rewrite Hk in Hd. by apply Nat.leb_le.
Qed.

(** The presets other than the salt lattice respect the valence
    capacities. *)
Lemma templates_ok (key : string) (t : MoleculeTemplate) :
  MOLECULE_TEMPLATES key = Some t -> key <> "salt"%string -> templateOk t = true.
Proof.
  unfold MOLECULE_TEMPLATES. intros H Hkey.
  repeat case_bool_decide; try done; injection H as <-; reflexivity.
Qed.

(** The molecule [createMoleculeFromTemplate] returns for a template that
    respects the valence capacities. *)
Lemma createMolecule_valence (key : string) (t : MoleculeTemplate) (origin : Vector3)
    (w : World) :
  MOLECULE_TEMPLATES key = Some t -> templateOk t = true ->
  (forall m n : nat, uuids w m = uuids w n -> m = n) ->
  let ats := (createMoleculeFromTemplate key origin w).1.1 in
  let bs := (createMoleculeFromTemplate key origin w).1.2 in
  NoDup (map atom_id ats)
  /\ (forall id, id ∈ map atom_id ats -> exists n, id = uuids w n)
  /\ (forall id, id ∉ map atom_id ats -> bondCount bs id = 0%nat)
  /\ Forall (withinValence bs) ats.
Proof.
  intros Ht Hok Hinj. unfold createMoleculeFromTemplate. rewrite Ht.
  destruct (templateOk_spec t Hok) as [Hrange Hdeg].
  destruct (createAtoms_fresh origin (tmpl_atoms t) w Hinj) as [Hnd Hfrom].
  pose proof (createAtoms_types origin (tmpl_atoms t) w) as Hty.
  destruct (createAtoms origin (tmpl_atoms t) w) as [ats0 w1]. simpl in Hnd, Hfrom, Hty.
  assert (Hlen : List.length ats0 = List.length (tmpl_atoms t)).
  { rewrite <- (length_map atom_type ats0), Hty. apply length_map. }
  assert (Hfold : forall id,
            map uncharged (fold_left createBond (tmpl_bonds t) (ats0, [], uuids w1)).1.1
            = map uncharged ats0
            /\ bondCount (fold_left createBond (tmpl_bonds t) (ats0, [], uuids w1)).1.2 id
               = List.length (List.filter (hits (map atom_id ats0) id) (tmpl_bonds t))).
  { intros id. destruct (fold_createBond (tmpl_bonds t) id ats0 [] (uuids w1)) as [Hu Hc].
    - by rewrite Hlen.
    - split; [done |]. rewrite Hc. unfold bondCount. simpl. lia. }
  destruct (fold_left createBond (tmpl_bonds t) (ats0, [], uuids w1)) as [[ats bs] ids].
  simpl in *.
  assert (Hu : map uncharged ats = map uncharged ats0) by apply (Hfold ""%string).
  assert (Hk : map kind ats = map kind ats0) by (by apply map_kind_uncharged).
  assert (Hids : map atom_id ats = map atom_id ats0) by (by apply map_id_kind).
  rewrite Hids. split; [done |]. split; [done |]. split.
  - intros id Hid. destruct (Hfold id) as [_ ->]. by rewrite hits_nowhere.
  - apply (withinValence_kind _ ats0); [done |].
    apply Forall_lookup. intros k a Hka. unfold withinValence.
    destruct (Hfold (atom_id a)) as [_ ->].
    rewrite (hits_touches _ k) by (done || by apply lookup_atom_id).
    assert (Hk' : tmpl_atoms t !! k = Some (atom_type a, (default (atom_type a, origin)
                                                        (tmpl_atoms t !! k)).2)).
    { assert (H : map fst (tmpl_atoms t) !! k = Some (atom_type a)).
      { rewrite <- Hty. change (map atom_type ats0) with (atom_type <$> ats0).
        by rewrite list_lookup_fmap, Hka. }
      change (map fst (tmpl_atoms t)) with (fst <$> tmpl_atoms t) in H.
      rewrite list_lookup_fmap in H.
      destruct (tmpl_atoms t !! k) as [[ty off] |]; [| done].
      simpl in *. congruence. }
    by apply (Hdeg k _ _ Hk').
Qed.

(** Dropping a preset other than the salt lattice keeps the ids unique
    and the valence bound. *)
Lemma dropMolecule_valence (key : string) (spawnPos : Vector3) (s : SimulationState)
    (w : World) :
  key <> "salt"%string ->
  uniqueIds (atoms s) -> valenceOk s -> freshFor s w ->
  let s' := (dropMolecule key spawnPos s w).1 in
  uniqueIds (atoms s') /\ valenceOk s'.
Proof.
  intros Hkey Hu Hv (Hinj & Hfa & Hfb). unfold dropMolecule.
  destruct (MOLECULE_TEMPLATES key) as [t |] eqn:Ht.
  2: { unfold createMoleculeFromTemplate. rewrite Ht. simpl.
       unfold uniqueIds, valenceOk. simpl. by rewrite !app_nil_r. }
  destruct (createMolecule_valence key t spawnPos w Ht (templates_ok key t Ht Hkey) Hinj)
    as (Hnd & Hfrom & Hzero & Hval).
  destruct (createMoleculeFromTemplate key spawnPos w) as [[ats bs] w']. simpl in *.
  split.
  - unfold uniqueIds. rewrite map_app. apply NoDup_app. split; [done |]. split; [| done].
    intros id Hold Hnew. destruct (Hfrom id Hnew) as [n ->]. by apply (Hfa n).
  - unfold valenceOk. simpl. apply Forall_app. split.
    + apply Forall_lookup. intros k a Hka.
      pose proof (proj1 (Forall_lookup _ _) Hv k a Hka) as Ha.
      unfold withinValence in *. rewrite bondCount_app.
      rewrite Hzero; [lia |].
      intros Hin. destruct (Hfrom _ Hin) as [n Hn]. apply (Hfa n). rewrite <- Hn.
      apply list_elem_of_lookup_2 with k. by apply lookup_atom_id.
    + apply Forall_lookup. intros k a Hka.
      pose proof (proj1 (Forall_lookup _ _) Hval k a Hka) as Ha.
      unfold withinValence in *. rewrite bondCount_app.
      destruct (Hfrom (atom_id a)) as [n Hn].
      { apply list_elem_of_lookup_2 with k. by apply lookup_atom_id. }
      rewrite Hn at 1. rewrite Hfb. lia.
Qed.

(** Dropping a single atom keeps the ids unique and the valence bound. *)
Lemma dropAtom_valence (ty : AtomType) (spawnPos : Vector3) (s : SimulationState)
    (w : World) :
  uniqueIds (atoms s) -> valenceOk s -> freshFor s w ->
  let s' := (dropAtom ty spawnPos s w).1 in
  uniqueIds (atoms s') /\ valenceOk s'.
Proof.
  intros Hu Hv (Hinj & Hfa & Hfb). unfold dropAtom. simpl. split.
  - unfold uniqueIds. rewrite map_app. simpl. apply NoDup_app.
    split; [done |]. split; [| apply NoDup_singleton].
    intros id Hold Hnew. apply list_elem_of_singleton in Hnew as ->. by apply (Hfa 0%nat).
  - unfold valenceOk. simpl. apply Forall_app. split; [done |].
    apply Forall_singleton. unfold withinValence. simpl.
    unfold next. rewrite Hfb. lia.
Qed.

Lemma serial_inj (m n : nat) : serial m = serial n -> m = n.
Proof.
  unfold serial. revert n. induction m as [| m IH]; intros [| n]; simpl; try done.
  intros H. injection H as H. f_equal. by apply IH.
Qed.

Lemma initial_fresh (rnd : oracle R) : freshFor INITIAL_STATE (mkWorld rnd serial).
Proof.
  split; [| split]; simpl.
  - apply serial_inj.
  - intros n. apply not_elem_of_nil.
  - done.
Qed.

(** ** The uuid oracle stays fresh *)

Lemma laterOf_refl {A} (o : oracle A) : laterOf o o.
Proof. by exists 0%nat. Qed.

Lemma laterOf_rest {A} (o' o : oracle A) : laterOf o' o -> laterOf (rest o') o.
Proof.
  intros [m H]. exists (S m). intros k. unfold rest. rewrite H. f_equal. lia.
Qed.

Lemma laterOf_skip {A} (n : nat) (o' o : oracle A) : laterOf o' o -> laterOf (skip n o') o.
Proof.
  intros [m H]. exists (m + n)%nat. intros k. unfold skip. rewrite H. f_equal. lia.
Qed.

Lemma bondCount_zero (bs : list BondData) (id : string) :
  bondCount bs id = 0%nat <-> forall b, In b bs -> incident id b = false.
Proof.
  unfold bondCount. induction bs as [| b bs IH]; simpl; [by split |].
  destruct (incident id b) eqn:E; simpl.
  - split; [done |]. intros H. specialize (H b (or_introl eq_refl)). congruence.
  - rewrite IH. split.
    + intros H b' [<- | Hb']; [done | by apply H].
    + intros H b' Hb'. apply H. by right.
Qed.

(** Freshness reads the ids of the atoms, the endpoints of the bonds and
    the uuid oracle; it survives the consumption of uuids. *)
Lemma freshFor_later (s s' : SimulationState) (w w' : World) :
  freshFor s w -> laterOf (uuids w') (uuids w) ->
  map atom_id (atoms s') = map atom_id (atoms s) ->
  (forall b, In b (bonds s') ->
     In b (bonds s)
     \/ (atomA b ∈ map atom_id (atoms s) /\ atomB b ∈ map atom_id (atoms s))) ->
  freshFor s' w'.
Proof.
  intros (Hinj & Hfa & Hfb) [m Hm] Hids Hbs. split; [| split].
  - intros a b. rewrite !Hm. intros H. apply Hinj in H. lia.
  - intros n. rewrite Hm, Hids. apply Hfa.
  - intros n. rewrite Hm. apply bondCount_zero. intros b Hb.
    destruct (Hbs b Hb) as [Hold | [HA HB]].
    + by apply (proj1 (bondCount_zero _ _) (Hfb (m + n)%nat)).
    + apply not_true_is_false. intros Hinc. apply incident_spec in Hinc.
      destruct Hinc as [E | E]; apply (Hfa (m + n)%nat); by rewrite <- E.
Qed.

Section FreshFacts.

Variable bondCallback : BondCallback.
Variables ionicRestLength covalentRestLength : AtomData -> AtomData -> R.
Variable vortexPos : option Vector3.

#[local] Abbreviation pairStep := (chemistryPair ionicRestLength covalentRestLength).
#[local] Abbreviation frame := (useFrame bondCallback ionicRestLength covalentRestLength vortexPos).
#[local] Abbreviation chemistry :=
  (chemistryPhase bondCallback ionicRestLength covalentRestLength vortexPos).
#[local] Abbreviation tick := (runTick bondCallback ionicRestLength covalentRestLength vortexPos).

Lemma chemistryPair_uuids (temp : R) (st : ChemState) (ij : nat * nat) :
  laterOf (chem_uuids (pairStep temp st ij)) (chem_uuids st).
Proof.
  destruct (chemistryPair_cases ionicRestLength covalentRestLength temp st ij)
    as [-> | (a1 & a2 & _ & _ & _ & [(_ & _ & ->) | (_ & _ & ->)])].
  - apply laterOf_refl.
  - simpl. apply laterOf_rest, laterOf_refl.
  - simpl. apply laterOf_rest, laterOf_refl.
Qed.

Lemma laterOf_trans {A} (o1 o2 o3 : oracle A) :
  laterOf o1 o2 -> laterOf o2 o3 -> laterOf o1 o3.
Proof.
  intros [m H1] [n H2]. exists (n + m)%nat. intros k. rewrite H1, H2. f_equal. lia.
Qed.

(** The bonds the engine adds end at atoms of the list. *)
Lemma fold_chemistryPair_endpoints (temp : R) (ps : list (nat * nat)) :
  forall st : ChemState,
  laterOf (chem_uuids (fold_left (pairStep temp) ps st)) (chem_uuids st)
  /\ forall b, In b (chem_bonds (fold_left (pairStep temp) ps st)) ->
       In b (chem_bonds st)
       \/ (atomA b ∈ map atom_id (chem_atoms st) /\ atomB b ∈ map atom_id (chem_atoms st)).
Proof.
  induction ps as [| p ps IH]; intros st; simpl.
  - split; [apply laterOf_refl | by left].
  - destruct (IH (pairStep temp st p)) as [Hl Hb]. split.
    + eapply laterOf_trans; [exact Hl | apply chemistryPair_uuids].
    + intros b Hin.
      assert (Hids : map atom_id (chem_atoms (pairStep temp st p))
                     = map atom_id (chem_atoms st)).
      { apply map_id_kind, map_kind_uncharged, chemistryPair_uncharged. }
      rewrite Hids in Hb.
      destruct (Hb b Hin) as [Hold | Hnew]; [| by right].
      destruct (chemistryPair_bonds ionicRestLength covalentRestLength temp st p)
        as [E | (a1 & a2 & b' & H1 & H2 & _ & HA & HB & E)]; rewrite E in Hold.
      * by left.
      * apply in_app_or in Hold as [Hold | [<- | []]]; [by left |].
        right. rewrite HA, HB. split.
        -- apply list_elem_of_lookup_2 with p.1. by apply lookup_atom_id.
        -- apply list_elem_of_lookup_2 with p.2. by apply lookup_atom_id.
Qed.

(** A frame keeps the uuid oracle fresh. *)
Lemma useFrame_fresh (c : Component) (delta : R) (w : World) :
  freshFor (stateRef c) w ->
  freshFor (stateRef (frame c delta w).1) (frame c delta w).2.
Proof.
  intros Hf.
  destruct (isRunning (stateRef c)) eqn:Erun.
  2: { by rewrite useFrame_paused. }
  rewrite useFrame_running by done. simpl.
  assert (Hchem : laterOf (chem_uuids (chemistry c delta w).2) (uuids w)
            /\ forall b, In b (chem_bonds (chemistry c delta w).2) ->
                 In b (bonds (stateRef c))
                 \/ (atomA b ∈ map atom_id (atoms (stateRef c))
                     /\ atomB b ∈ map atom_id (atoms (stateRef c)))).
  { assert (Hsub : forall b, In b (bondPhase bondCallback vortexPos (stateRef c) w).1.1 ->
                     In b (bonds (stateRef c))).
    { intros b Hb. apply list_elem_of_In.
      eapply elem_of_sublist; [by apply list_elem_of_In | apply bondPhase_sublist]. }
    unfold chemistryPhase. destruct (leb _ 0); simpl.
    - destruct (fold_chemistryPair_endpoints (temperature (stateRef c))
                  (indexPairs (List.length (atoms (stateRef c))))
                  (mkChem (atoms (stateRef c))
                     (bondPhase bondCallback vortexPos (stateRef c) w).1.1 false (uuids w)))
        as [Hl Hb].
      split; [exact Hl |]. intros b Hin.
      destruct (Hb b Hin) as [Hold | Hnew]; [left; by apply Hsub | by right].
    - split; [apply laterOf_refl |]. intros b Hin. left. by apply Hsub. }
  destruct Hchem as [Hl Hb].
  apply (freshFor_later (stateRef c) _ w); [done | exact Hl | |].
  - assert (Hats : atoms (commit (stateRef c) (tick c delta w)) = tick_atoms (tick c delta w)).
    { unfold commit. by destruct (commits _ _). }
    rewrite Hats. apply map_id_kind, tick_atoms_kind.
  - intros b. unfold commit. destruct (commits _ _); simpl; [| by left].
    intros Hin. apply Hb. apply list_elem_of_In.
    eapply elem_of_sublist; [by apply list_elem_of_In |].
    apply (tick_newBonds_sublist bondCallback ionicRestLength covalentRestLength vortexPos).
Qed.

End FreshFacts.

(** Freshness after a spawn: the new atoms took answers the oracle has
    consumed, the new bonds end at the new atoms. *)
Lemma freshFor_extend (s s' : SimulationState) (w w' : World) (m : nat)
    (news : list AtomData) (nb : list BondData) :
  freshFor s w ->
  (forall k, uuids w' k = uuids w (m + k)%nat) ->
  atoms s' = atoms s ++ news -> bonds s' = bonds s ++ nb ->
  (forall id, id ∈ map atom_id news -> exists i, (i < m)%nat /\ id = uuids w i) ->
  (forall id, id ∉ map atom_id news -> bondCount nb id = 0%nat) ->
  freshFor s' w'.
Proof.
  intros (Hinj & Hfa & Hfb) Hm Hats Hbs Hnews Hzero.
  assert (Hout : forall k, uuids w (m + k)%nat ∉ map atom_id news).
  { intros k Hin. destruct (Hnews _ Hin) as (i & Hi & E). apply Hinj in E. lia. }
  split; [| split].
  - intros a b. rewrite !Hm. intros H. apply Hinj in H. lia.
  - intros n. rewrite Hm, Hats, map_app. intros Hin.
    apply elem_of_app in Hin as [Hin | Hin]; [by apply (Hfa (m + n)%nat) | by apply (Hout n)].
  - intros n. rewrite Hm, Hbs, bondCount_app, Hfb, Hzero; [done | apply Hout].
Qed.

Lemma dropAtom_fresh (ty : AtomType) (spawnPos : Vector3) (s : SimulationState) (w : World) :
  freshFor s w ->
  freshFor (dropAtom ty spawnPos s w).1 (dropAtom ty spawnPos s w).2.
Proof.
  intros Hf. unfold dropAtom. simpl.
  apply (freshFor_extend s _ w _ (1 + orbitalCount ty)
           [newAtom (next (uuids w)) ty spawnPos (Vector3.mk 0 0 0)] []); try done.
  - simpl. by rewrite app_nil_r.
  - simpl. intros id Hid. apply list_elem_of_singleton in Hid as ->.
    exists 0%nat. split; [lia | done].
Qed.

Lemma createAtoms_world (origin : Vector3) (tas : list (AtomType * Vector3)) :
  forall w : World,
  exists M : nat,
    (forall k, uuids (createAtoms origin tas w).2 k = uuids w (M + k)%nat)
    /\ Forall (fun i => (i < M)%nat) (idIndices tas).
Proof.
  induction tas as [| [ty offset] tas IH]; intros w; simpl.
  - exists 0%nat. split; [done | constructor].
  - destruct (IH (mkWorld (skip (3 + 4 * orbitalCount ty) (randoms w))
                          (skip (1 + orbitalCount ty) (uuids w)))) as (M & HM & Hidx).
    destruct (createAtoms origin tas _) as [ats w']. simpl in *.
    exists (1 + orbitalCount ty + M)%nat. split.
    + intros k. rewrite HM. unfold skip. f_equal. lia.
    + constructor; [lia |].
      apply Forall_forall. intros i Hi. change (map ?f ?l) with (f <$> l) in Hi.
      apply list_elem_of_fmap in Hi as (i' & -> & Hi').
      pose proof (proj1 (Forall_forall _ _) Hidx i' Hi') as Hlt. simpl in Hlt. lia.
Qed.

Lemma fold_createBond_uuids (tbs : list TemplateBond) :
  forall st : list AtomData * list BondData * oracle string,
  laterOf (fold_left createBond tbs st).2 st.2.
Proof.
  induction tbs as [| tb tbs IH]; intros st; cbn [fold_left]; [apply laterOf_refl |].
  eapply laterOf_trans; [apply IH |].
  destruct st as [[ats bs] ids]. unfold createBond.
  destruct (ats !! idxA tb); [| apply laterOf_refl].
  destruct (ats !! idxB tb); [| apply laterOf_refl].
  simpl. apply laterOf_rest, laterOf_refl.
Qed.

(** The world after [createMoleculeFromTemplate]: the ids of the new
    atoms are answers the uuid oracle has consumed. *)
Lemma createMolecule_world (key : string) (origin : Vector3) (w : World) :
  let ats := (createMoleculeFromTemplate key origin w).1.1 in
  let w' := (createMoleculeFromTemplate key origin w).2 in
  exists m : nat,
    (forall k, uuids w' k = uuids w (m + k)%nat)
    /\ forall id, id ∈ map atom_id ats -> exists i, (i < m)%nat /\ id = uuids w i.
Proof.
  unfold createMoleculeFromTemplate.
  destruct (MOLECULE_TEMPLATES key) as [t |]; simpl.
  2: { exists 0%nat. split; [done |]. intros id Hid. by apply elem_of_nil in Hid. }
  destruct (createAtoms_world origin (tmpl_atoms t) w) as (M & HM & Hidx).
  pose proof (createAtoms_ids origin (tmpl_atoms t) w) as Hids.
  destruct (createAtoms origin (tmpl_atoms t) w) as [ats0 w1]. simpl in HM, Hids.
  destruct (fold_createBond_uuids (tmpl_bonds t) (ats0, [], uuids w1)) as [m2 Hm2].
  assert (Hu : map atom_id (fold_left createBond (tmpl_bonds t) (ats0, [], uuids w1)).1.1
               = map atom_id ats0).
  { clear. generalize (uuids w1) as ids. generalize (@nil BondData) as bs.
    revert ats0. induction (tmpl_bonds t) as [| tb tbs IH]; intros ats bs ids;
      cbn [fold_left]; [done |].
    destruct (ats !! idxA tb) as [a1 |] eqn:H1;
      [destruct (ats !! idxB tb) as [a2 |] eqn:H2 |].
    - destruct (createBond_step ats bs ids tb) as (ats' & ? & ? & b & -> & _ & _ & _ & _ & Hu).
      { split; by eapply lookup_lt_Some. }
      rewrite IH. by apply map_id_kind, map_kind_uncharged.
    - unfold createBond. rewrite H1, H2. apply IH.
    - unfold createBond. rewrite H1. apply IH. }
  destruct (fold_left createBond (tmpl_bonds t) (ats0, [], uuids w1)) as [[ats bs] ids].
  simpl in *. exists (M + m2)%nat. split.
  - intros k. rewrite Hm2, HM. f_equal. lia.
  - intros id Hid. rewrite Hu, Hids in Hid. change (map ?f ?l) with (f <$> l) in Hid.
    apply list_elem_of_fmap in Hid as (i & -> & Hi).
    exists i. split; [| done].
    pose proof (proj1 (Forall_forall _ _) Hidx i Hi) as Hlt. simpl in Hlt. lia.
Qed.

Lemma dropMolecule_fresh (key : string) (spawnPos : Vector3) (s : SimulationState)
    (w : World) :
  key <> "salt"%string -> freshFor s w ->
  freshFor (dropMolecule key spawnPos s w).1 (dropMolecule key spawnPos s w).2.
Proof.
  intros Hkey Hf.
  destruct (createMolecule_world key spawnPos w) as (m & Hm & Hfrom).
  assert (Hzero : forall id,
            id ∉ map atom_id (createMoleculeFromTemplate key spawnPos w).1.1 ->
            bondCount (createMoleculeFromTemplate key spawnPos w).1.2 id = 0%nat).
  { destruct (MOLECULE_TEMPLATES key) as [t |] eqn:Ht.
    - destruct Hf as (Hinj & _).
      by destruct (createMolecule_valence key t spawnPos w Ht (templates_ok key t Ht Hkey)
                     Hinj) as (_ & _ & Hzero & _).
    - unfold createMoleculeFromTemplate. rewrite Ht. done. }
  unfold dropMolecule.
  destruct (createMoleculeFromTemplate key spawnPos w) as [[ats bs] w']. simpl in *.
  by apply (freshFor_extend s _ w w' m ats bs).
Qed.

(** ** A snapped bond never reaches [newBonds] *)

Section SnapFacts.

Variables ionicRestLength covalentRestLength : AtomData -> AtomData -> R.

#[local] Abbreviation pairStep := (chemistryPair ionicRestLength covalentRestLength).

(** The bonds the engine adds carry answers of the uuid oracle as ids. *)
Lemma fold_chemistryPair_ids (temp : R) (ps : list (nat * nat)) :
  forall (st : ChemState) (b : BondData),
  In b (chem_bonds (fold_left (pairStep temp) ps st)) ->
  In b (chem_bonds st) \/ exists n, bond_id b = chem_uuids st n.
Proof.
  induction ps as [| p ps IH]; intros st b Hin; simpl in Hin; [by left |].
  destruct (IH _ _ Hin) as [Hold | [n Hn]].
  - destruct (chemistryPair_cases ionicRestLength covalentRestLength temp st p)
      as [E | (a1 & a2 & _ & _ & _ & [(_ & _ & E) | (_ & _ & E)])];
      rewrite E in Hold; [by left | |];
      simpl in Hold; apply in_app_or in Hold as [Hold | [<- | []]];
      try (by left); right; by exists 0%nat.
  - right. destruct (chemistryPair_uuids ionicRestLength covalentRestLength temp st p)
      as [m Hm].
    exists (m + n)%nat. by rewrite Hn, Hm.
Qed.

End SnapFacts.

(** In both variants an overstretched bond is absent from the list the
    tick would commit, for every outcome of the random source, as long as
    [uuidv4()] does not hand out the id of the bond again. *)
Lemma snapped_bond_not_in_newBonds (vortexPos : option Vector3) (c : Component)
    (delta : R) (w : World) (bond : BondData) (a1 a2 : AtomData) :
  let s := stateRef c in
  findAtom (atoms s) (atomA bond) = Some a1 -> findAtom (atoms s) (atomB bond) = Some a2 ->
  Vector3.distanceTo (position a1) (position a2)
  > restLength bond * (1 + temperature s * THERMAL_EXPANSION_COEFF) * BOND_BREAK_RATIO ->
  (forall n, uuids w n <> bond_id bond) ->
  ~ In bond (tick_newBonds (runTick V1.bondCallback V1.ionicRestLength
                              V1.covalentRestLength vortexPos c delta w))
  /\ ~ In bond (tick_newBonds (runTick V2.bondCallback V2.ionicRestLength
                                 V2.covalentRestLength None c delta w)).
Proof.
  intros s H1 H2 Hd Hid.
  assert (Hgen : forall cb ionicR covalentR vp,
            ~ In bond (bondPhase cb vp s w).1.1 ->
            ~ In bond (tick_newBonds (runTick cb ionicR covalentR vp c delta w))).
  { intros cb ionicR covalentR vp Hact Hin.
    assert (Hchem : In bond (chem_bonds (chemistryPhase cb ionicR covalentR vp c delta w).2)).
    { apply list_elem_of_In. eapply elem_of_sublist; [by apply list_elem_of_In |].
      apply tick_newBonds_sublist. }
    unfold chemistryPhase in Hchem. fold s in Hchem.
    destruct (leb _ 0); simpl in Hchem; [| done].
    apply fold_chemistryPair_ids in Hchem as [Hold | [n Hn]]; [done |].
    simpl in Hn. by apply (Hid n). }
  destruct (snapped_bond_filtered (temperature s) (atoms s) bond (bonds s) a1 a2
              (forcePhase vortexPos s) (randoms w) H1 H2 Hd) as [Hv1 _].
  destruct (snapped_bond_filtered (temperature s) (atoms s) bond (bonds s) a1 a2
              (forcePhase None s) (randoms w) H1 H2 Hd) as [_ Hv2].
  split; by apply Hgen.
Qed.

(** ** The valence bound along a run *)

Section RunFacts.

Variable bondCallback : BondCallback.
Variables ionicRestLength covalentRestLength : AtomData -> AtomData -> R.
Variable tool : option Vector3 -> option Vector3.

#[local] Abbreviation frame :=
  (fun vortexPos => useFrame bondCallback ionicRestLength covalentRestLength (tool vortexPos)).

Lemma runCommand_wellFormed (c : Component) (w : World) (cmd : Command) :
  ~ dropsSalt cmd -> wellFormed c w ->
  wellFormed (runCommand frame (c, w) cmd).1 (runCommand frame (c, w) cmd).2.
Proof.
  intros Hsalt (Hu & Hv & Hf). unfold wellFormed, runCommand.
  destruct cmd as [vortexPos delta | ty spawnPos | key spawnPos].
  - destruct (useFrame_valence bondCallback ionicRestLength covalentRestLength
                (tool vortexPos) c delta w Hu Hv) as [Hu' Hv'].
    split; [done |]. split; [done |]. by apply useFrame_fresh.
  - pose proof (dropAtom_valence ty spawnPos (stateRef c) w Hu Hv Hf) as [Hu' Hv'].
    pose proof (dropAtom_fresh ty spawnPos (stateRef c) w Hf) as Hf'.
    destruct (dropAtom ty spawnPos (stateRef c) w) as [s' w']. by simpl in *.
  - simpl in Hsalt.
    pose proof (dropMolecule_valence key spawnPos (stateRef c) w Hsalt Hu Hv Hf) as [Hu' Hv'].
    pose proof (dropMolecule_fresh key spawnPos (stateRef c) w Hsalt Hf) as Hf'.
    destruct (dropMolecule key spawnPos (stateRef c) w) as [s' w']. by simpl in *.
Qed.

Lemma run_wellFormed (cmds : list Command) :
  Forall (fun cmd => ~ dropsSalt cmd) cmds ->
  forall (c : Component) (w : World),
  wellFormed c w -> wellFormed (run frame cmds c w).1 (run frame cmds c w).2.
Proof.
  unfold run. induction 1 as [| cmd cmds Hcmd _ IH]; intros c w Hwf; cbn [fold_left];
    [done |].
  pose proof (runCommand_wellFormed c w cmd Hcmd Hwf) as Hwf'.
  destruct (runCommand frame (c, w) cmd) as [c' w']. by apply IH.
Qed.

End RunFacts.

(** C1 (amended).  Take a state with unique atom ids in which every atom
    has at most [maxBonds] incident bonds, and a uuid source that is
    fresh for it.  After every run of commands -- frames of either
    variant, drops of single atoms, drops of presets -- that does not
    drop the salt preset, every atom of the state still has at most
    [maxBonds] incident bonds.  (The spawn commands never test the
    bound; the presets other than salt happen to respect it.) *)
Theorem C1_valence_invariant (cmds : list Command) (c : Component) (w : World) :
  Forall (fun cmd => ~ dropsSalt cmd) cmds ->
  uniqueIds (atoms (stateRef c)) ->
  (forall a, In a (atoms (stateRef c)) ->
     (bondCount (bonds (stateRef c)) (atom_id a) <= maxBonds (ATOM_CONFIGS (atom_type a)))%nat) ->
  freshFor (stateRef c) w ->
  let s1 := stateRef (run FirstVariant.useFrame cmds c w).1 in
  let s2 := stateRef (run (fun _ => SecondVariant.useFrame) cmds c w).1 in
  (forall a, In a (atoms s1) ->
     (bondCount (bonds s1) (atom_id a) <= maxBonds (ATOM_CONFIGS (atom_type a)))%nat)
  /\ (forall a, In a (atoms s2) ->
        (bondCount (bonds s2) (atom_id a) <= maxBonds (ATOM_CONFIGS (atom_type a)))%nat).
Proof.
  intros Hcmds Hu Hv Hf s1 s2.
  assert (Hwf : wellFormed c w).
  { split; [done |]. split; [| done]. apply Forall_forall. intros a Ha.
    apply Hv. by apply list_elem_of_In. }
  split.
  - destruct (run_wellFormed V1.bondCallback V1.ionicRestLength V1.covalentRestLength
                (fun v => v) cmds Hcmds c w Hwf) as (_ & Hv1 & _).
    intros a Ha. apply (proj1 (Forall_forall _ _) Hv1 a). by apply list_elem_of_In.
  - destruct (run_wellFormed V2.bondCallback V2.ionicRestLength V2.covalentRestLength
                (fun _ => None) cmds Hcmds c w Hwf) as (_ & Hv2 & _).
    intros a Ha. apply (proj1 (Forall_forall _ _) Hv2 a). by apply list_elem_of_In.
Qed.

Lemma C1_valence_invariant_witness :
  let cmds := [DropMolecule "water" Vector3.zero; Frame None 0.016;
               DropAtom Hydrogen (Vector3.mk 1 1 1); Frame None 0.016] in
  let s1 := stateRef (run FirstVariant.useFrame cmds (mkComponent INITIAL_STATE 0)
                        calmWorld).1 in
  Forall (fun a => (bondCount (bonds s1) (atom_id a)
                    <= maxBonds (ATOM_CONFIGS (atom_type a)))%nat) (atoms s1).
Proof.
  intros cmds s1. apply Forall_forall. intros a Ha. apply list_elem_of_In in Ha.
  revert a Ha.
  apply (C1_valence_invariant cmds (mkComponent INITIAL_STATE 0) calmWorld).
  - unfold cmds. repeat constructor; simpl; try tauto. discriminate.
  - constructor.
  - intros a [].
  - apply initial_fresh.
Defined.

(** * Properties of the rest of the code *)

#[local] Set Warnings "-clear-no-such-hyp".

(** ** The force accumulator *)

Lemma vector_eq (a b : Vector3) :
  Vector3.x a = Vector3.x b -> Vector3.y a = Vector3.y b -> Vector3.z a = Vector3.z b ->
  a = b.
Proof. destruct a, b. simpl. by intros -> -> ->. Qed.

Lemma dom_forceAdd (id : string) (v : Vector3) (F : Forces) : dom (forceAdd id v F) = dom F.
Proof. unfold forceAdd. by rewrite dom_alter_L. Qed.

Lemma dom_forceSub (id : string) (v : Vector3) (F : Forces) : dom (forceSub id v F) = dom F.
Proof. unfold forceSub. by rewrite dom_alter_L. Qed.

Lemma idSet_spec (ats : list AtomData) (id : string) :
  id ∈ idSet ats <-> exists a, In a ats /\ atom_id a = id.
Proof.
  unfold idSet. rewrite elem_of_list_to_set.
  change (map atom_id ats) with (atom_id <$> ats). rewrite list_elem_of_fmap.
  split; intros (a & H1 & H2).
  - exists a. split; [by apply list_elem_of_In | done].
  - exists a. split; [done | by apply list_elem_of_In].
Qed.

Lemma initForces_spec (ats : list AtomData) :
  dom (initForces ats) = idSet ats
  /\ forall id f, initForces ats !! id = Some f -> f = Vector3.zero.
Proof.
  unfold initForces, idSet.
  assert (G : forall (l : list AtomData) (F : Forces),
            dom (fold_left (fun F a => <[atom_id a := Vector3.zero]> F) l F)
            = list_to_set (map atom_id l) ∪ dom F
            /\ ((forall id f, F !! id = Some f -> f = Vector3.zero) ->
                forall id f,
                  fold_left (fun F a => <[atom_id a := Vector3.zero]> F) l F !! id = Some f ->
                  f = Vector3.zero)).
  { induction l as [| a l IH]; intros F; simpl.
    - split; [set_solver | done].
    - destruct (IH (<[atom_id a := Vector3.zero]> F)) as [IH1 IH2]. split.
      + rewrite IH1, dom_insert_L. set_solver.
      + intros HF. apply IH2. intros id f.
        destruct (decide (atom_id a = id)) as [<- | Hne].
        * rewrite lookup_insert_eq. congruence.
        * rewrite lookup_insert_ne by done. apply HF. }
  destruct (G ats ∅) as [G1 G2]. split.
  - rewrite G1, dom_empty_L. set_solver.
  - apply G2. intros id f. by rewrite lookup_empty.
Qed.

Lemma add_comm_assoc (f1 f2 y : Vector3) :
  Vector3.add f1 (Vector3.add f2 y) = Vector3.add f2 (Vector3.add f1 y).
Proof. apply vector_eq; simpl; lra. Qed.

Lemma totalForce_insert (F : Forces) (id : string) (f : Vector3) :
  F !! id = None -> totalForce (<[id := f]> F) = Vector3.add f (totalForce F).
Proof.
  intros H. unfold totalForce.
  rewrite map_fold_insert_L; [done | | done].
  intros. apply add_comm_assoc.
Qed.

Lemma totalForce_alter (F : Forces) (id : string) (g : Vector3 -> Vector3) (f : Vector3) :
  F !! id = Some f ->
  totalForce (alter g id F)
  = Vector3.add (totalForce F) (Vector3.sub (g f) f).
Proof.
  intros H.
  rewrite <- (insert_delete_id F id f H) at 1.
  rewrite alter_insert_eq.
  rewrite <- (insert_delete_id F id f H) at 2.
  rewrite !totalForce_insert by apply lookup_delete_eq.
  apply vector_eq; simpl; lra.
Qed.

Lemma totalForce_forceAdd (F : Forces) (id : string) (v : Vector3) :
  id ∈ dom F -> totalForce (forceAdd id v F) = Vector3.add (totalForce F) v.
Proof.
  intros H. apply elem_of_dom in H as [f Hf]. unfold forceAdd.
  rewrite (totalForce_alter _ _ _ f Hf). apply vector_eq; simpl; lra.
Qed.

Lemma totalForce_forceSub (F : Forces) (id : string) (v : Vector3) :
  id ∈ dom F -> totalForce (forceSub id v F) = Vector3.sub (totalForce F) v.
Proof.
  intros H. apply elem_of_dom in H as [f Hf]. unfold forceSub.
  rewrite (totalForce_alter _ _ _ f Hf). apply vector_eq; simpl; lra.
Qed.

Lemma dom_applyPair (bs : list BondData) (temp : R) (a1 a2 : AtomData) (F : Forces) :
  dom (applyPair bs temp a1 a2 F) = dom F.
Proof.
  unfold applyPair. destruct (pairForce bs temp a1 a2); [| done].
  by rewrite dom_forceSub, dom_forceAdd.
Qed.

Lemma dom_lorentz (B_field : Vector3) (a : AtomData) (F : Forces) :
  dom (lorentz B_field a F) = dom F.
Proof. unfold lorentz. destruct (_ && _); [apply dom_forceAdd | done]. Qed.

Lemma dom_pairs (bs : list BondData) (temp : R) (a1 : AtomData) (others : list AtomData) :
  forall F : Forces,
  dom (fold_left (fun F a2 => applyPair bs temp a1 a2 F) others F) = dom F.
Proof.
  induction others as [| a2 others IH]; intros F; simpl; [done |].
  by rewrite IH, dom_applyPair.
Qed.

Lemma dom_physicsLoop (bs : list BondData) (temp : R) (B_field : Vector3)
    (ats : list AtomData) :
  forall F : Forces, dom (physicsLoop bs temp B_field ats F) = dom F.
Proof.
  induction ats as [| a1 others IH]; intros F; simpl; [done |].
  by rewrite IH, dom_pairs, dom_lorentz.
Qed.

Lemma dom_vortexForces (vortexPos : option Vector3) (ats : list AtomData) :
  forall F : Forces, dom (vortexForces vortexPos ats F) = dom F.
Proof.
  unfold vortexForces. destruct vortexPos as [vp |]; [| done].
  induction ats as [| a ats IH]; intros F; simpl; [done |].
  rewrite IH. unfold vortexAtom. destruct (gtb _ 1.0); [| done].
  by rewrite !dom_forceAdd.
Qed.

Lemma dom_applySpring (k temp : R) (a1 a2 : AtomData) (bond : BondData) (F : Forces) :
  dom (applySpring k temp a1 a2 bond F) = dom F.
Proof. unfold applySpring. by rewrite dom_forceSub, dom_forceAdd. Qed.

Lemma V1_steady : steady V1.bondCallback.
Proof.
  intros temp ats bond F rnd. unfold V1.bondCallback.
  destruct (findAtom ats (atomA bond)) as [a1 |]; [| done].
  destruct (findAtom ats (atomB bond)) as [a2 |]; [| done].
  destruct (snaps temp a1 a2 bond); [done |].
  destruct (V1.thermallyExposed temp bond); [destruct (ltb _ _) |]; simpl;
    try done; apply dom_applySpring.
Qed.

Lemma V2_steady : steady V2.bondCallback.
Proof.
  intros temp ats bond F rnd. unfold V2.bondCallback.
  destruct (findAtom ats (atomA bond)) as [a1 |]; [| done].
  destruct (findAtom ats (atomB bond)) as [a2 |]; [| done].
  destruct (snaps temp a1 a2 bond); [done |].
  destruct (_ && ltb _ 0.05); [done |].
  destruct (gtb temp 20.0); [destruct (ltb _ 0.01) |]; simpl;
    try done; apply dom_applySpring.
Qed.

Lemma filterBonds_steady (cb : BondCallback) (temp : R) (ats : list AtomData)
    (bs : list BondData) :
  steady cb ->
  forall (F : Forces) (rnd : oracle R),
  dom (filterBonds cb temp ats bs F rnd).1.2 = dom F.
Proof.
  intros Hcb. induction bs as [| bond bs IH]; intros F rnd; simpl; [done |].
  pose proof (Hcb temp ats bond F rnd) as Hd.
  destruct (cb temp ats bond F rnd) as [[keep F1] rnd1]. simpl in *.
  pose proof (IH F1 rnd1) as IHd.
  destruct (filterBonds cb temp ats bs F1 rnd1) as [[kept F2] rnd2]. simpl in *.
  congruence.
Qed.

Section AccumulatorFacts.

Variable bondCallback : BondCallback.
Variables ionicRestLength covalentRestLength : AtomData -> AtomData -> R.
Variable vortexPos : option Vector3.
Hypothesis Hsteady : steady bondCallback.

Lemma dom_forcePhase (s : SimulationState) : dom (forcePhase vortexPos s) = idSet (atoms s).
Proof.
  unfold forcePhase. rewrite dom_physicsLoop, dom_vortexForces.
  apply initForces_spec.
Qed.

Lemma dom_bondPhase (s : SimulationState) (w : World) :
  dom (bondPhase bondCallback vortexPos s w).1.2 = idSet (atoms s).
Proof.
  unfold bondPhase.
  rewrite (filterBonds_steady bondCallback (temperature s) (atoms s) (bonds s) Hsteady
             (forcePhase vortexPos s) (randoms w)).
  apply dom_forcePhase.
Qed.

Lemma dom_photonStep (dt : R) (ats : list AtomData) (st : PhotonState) (p : PhotonData) :
  dom (ph_forces (photonStep dt ats st p)) = dom (ph_forces st).
Proof.
  unfold photonStep.
  destruct (firstHit ats _ (ph_bonds st)) as [[[bond a1] a2] |]; simpl.
  - by rewrite dom_forceSub, dom_forceAdd.
  - by destruct (ltb _ 60).
Qed.

Lemma dom_photonLogic (dt : R) (ats : list AtomData) (ps : list PhotonData) :
  forall st : PhotonState,
  dom (ph_forces (photonLogic dt ats st ps)) = dom (ph_forces st).
Proof.
  unfold photonLogic. induction ps as [| p ps IH]; intros st; simpl; [done |].
  by rewrite IH, dom_photonStep.
Qed.

Lemma dom_photonPhase (c : Component) (delta : R) (w : World) :
  dom (ph_forces (photonPhase bondCallback ionicRestLength covalentRestLength vortexPos
                    c delta w))
  = idSet (atoms (stateRef c)).
Proof.
  unfold photonPhase. rewrite dom_photonLogic. unfold photonStart. simpl.
  apply dom_bondPhase.
Qed.

End AccumulatorFacts.

(** X1.  In both variants the force accumulator has exactly one entry
    per atom id of the state after the pairwise loop (with or without
    the vortex tool), after the bond filter and after the photon loop:
    no phase adds or removes a key. *)
Theorem X1_accumulator_keys (vortexPos : option Vector3) (c : Component) (delta : R)
    (w : World) :
  let s := stateRef c in
  dom (forcePhase vortexPos s) = idSet (atoms s)
  /\ dom (bondPhase V1.bondCallback vortexPos s w).1.2 = idSet (atoms s)
  /\ dom (bondPhase V2.bondCallback None s w).1.2 = idSet (atoms s)
  /\ dom (ph_forces (photonPhase V1.bondCallback V1.ionicRestLength V1.covalentRestLength
                       vortexPos c delta w)) = idSet (atoms s)
  /\ dom (ph_forces (photonPhase V2.bondCallback V2.ionicRestLength V2.covalentRestLength
                       None c delta w)) = idSet (atoms s).
Proof.
  intros s. split; [apply dom_forcePhase |].
  split; [apply dom_bondPhase, V1_steady |].
  split; [apply dom_bondPhase, V2_steady |].
  split; [apply dom_photonPhase, V1_steady | apply dom_photonPhase, V2_steady].
Qed.

(** X3.  A photon hit does not apply equal and opposite impulses:
    [splitDir.multiplyScalar(energy)] scales one vector twice in place,
    so with [e = 500 * energy] and [d] the unit vector between the two
    atoms, the first atom receives [d * e] and the second loses
    [d * e * e], and the total of the accumulator changes by
    [d * (e - e * e)]. *)
Theorem X3_photon_impulse (dt : R) (ats : list AtomData) (st : PhotonState) (p : PhotonData)
    (bond : BondData) (a1 a2 : AtomData) :
  firstHit ats (photon_position (advance dt p)) (ph_bonds st) = Some (bond, a1, a2) ->
  atom_id a1 ∈ dom (ph_forces st) -> atom_id a2 ∈ dom (ph_forces st) ->
  let e := energy p * 500 in
  let d := Vector3.normalize (Vector3.subVectors (position a1) (position a2)) in
  let F := ph_forces st in
  let F' := ph_forces (photonStep dt ats st p) in
  totalForce F' = Vector3.add (totalForce F) (Vector3.multiplyScalar d (e - e * e))
  /\ (atom_id a1 <> atom_id a2 ->
      getForce F' (atom_id a1)
      = Vector3.add (getForce F (atom_id a1)) (Vector3.multiplyScalar d e)
      /\ getForce F' (atom_id a2)
         = Vector3.sub (getForce F (atom_id a2)) (Vector3.multiplyScalar d (e * e))).
Proof.
  intros Hhit H1 H2 e d F F'.
  assert (HF' : F' = forceSub (atom_id a2)
                       (Vector3.multiplyScalar (Vector3.multiplyScalar d e) e)
                       (forceAdd (atom_id a1) (Vector3.multiplyScalar d e) F)).
  { unfold F', photonStep. rewrite Hhit. reflexivity. }
  rewrite HF'. split.
  - rewrite totalForce_forceSub by (by rewrite dom_forceAdd).
    rewrite totalForce_forceAdd by done.
    apply vector_eq; simpl; lra.
  - intros Hne. split.
    + rewrite getForce_forceSub_ne by done.
      apply getForce_forceAdd. by apply elem_of_dom.
    + rewrite getForce_forceSub.
      * rewrite getForce_forceAdd_ne by done. apply vector_eq; simpl; lra.
      * apply lookup_forceAdd_is_Some. by apply elem_of_dom.
Qed.

Lemma X3_photon_impulse_witness :
  let st := mkPhotonState [carbonBond] false (initForces [carbonA; carbonB]) [] in
  let d := Vector3.normalize (Vector3.subVectors (position carbonA) (position carbonB)) in
  totalForce (ph_forces (photonStep 0.016 [carbonA; carbonB] st photonOne))
  = Vector3.add (totalForce (ph_forces st))
      (Vector3.multiplyScalar d (energy photonOne * 500
                                 - energy photonOne * 500 * (energy photonOne * 500))).
Proof.
  intros st d.
  destruct (lit_midpoint 0.016 photonOne eq_refl eq_refl) as [Hd1 _].
  assert (Hhit : firstHit [carbonA; carbonB] (photon_position (advance 0.016 photonOne))
                   (ph_bonds st) = Some (carbonBond, carbonA, carbonB)).
  { simpl. change (findAtom [carbonA; carbonB] "a") with (Some carbonA).
    change (findAtom [carbonA; carbonB] "b") with (Some carbonB).
    simpl in Hd1. rewrite Hd1. by rewrite ltb_true by lra. }
  assert (Hdom : dom (ph_forces st) = idSet [carbonA; carbonB])
    by apply initForces_spec.
  destruct (X3_photon_impulse 0.016 [carbonA; carbonB] st photonOne carbonBond
              carbonA carbonB Hhit) as [Htotal _].
  - rewrite Hdom. apply idSet_spec. exists carbonA. split; [by left | done].
  - rewrite Hdom. apply idSet_spec. exists carbonB. split; [right; by left | done].
  - exact Htotal.
Defined.

(** X4.  The magnetic force of the pairwise loop does no work: the vector
    [lorentz] adds to the accumulator of its atom is perpendicular to the
    velocity of the atom and to the field, and no other entry changes. *)
Theorem X4_lorentz_perpendicular (B_field : Vector3) (a : AtomData) (F : Forces) :
  let dF := Vector3.sub (getForce (lorentz B_field a F) (atom_id a))
                        (getForce F (atom_id a)) in
  dot dF (velocity a) = 0 /\ dot dF B_field = 0
  /\ forall id, id <> atom_id a -> lorentz B_field a F !! id = F !! id.
Proof.
  intros dF. unfold dF, lorentz.
  destruct (gtb (Vector3.lengthSq B_field) 0 && neqb (charge a) 0).
  - unfold getForce, forceAdd. rewrite lookup_total_alter_eq, lookup_total_alt.
    destruct (F !! atom_id a) as [f |]; simpl.
    + repeat split.
      * unfold dot. simpl. lra.
      * unfold dot. simpl. lra.
      * intros id Hid. by rewrite lookup_alter_ne.
    + repeat split.
      * unfold dot. simpl. lra.
      * unfold dot. simpl. lra.
      * intros id Hid. by rewrite lookup_alter_ne.
  - repeat split; unfold dot; simpl; lra.
Qed.

(** ** What a tick does to the atoms and to the photons *)

Lemma sign_bound (p : R) : Rabs (sign p) <= 1.
Proof.
  unfold sign. repeat case_bool_decide.
  - rewrite Rabs_right; lra.
  - rewrite Rabs_left; lra.
  - rewrite Rabs_R0. lra.
Qed.

Lemma clampAxis_within (p v : R) : Rabs (clampAxis p v).1 <= CONTAINER_SIZE.
Proof.
  unfold clampAxis. destruct (gtb (Rabs p) CONTAINER_SIZE) eqn:E; simpl.
  - rewrite Rabs_mult. pose proof (sign_bound p).
    rewrite (Rabs_right CONTAINER_SIZE) by (unfold CONTAINER_SIZE; lra).
    unfold CONTAINER_SIZE. nra.
  - apply Rnot_lt_le. intros H. apply gtb_true in H. congruence.
Qed.

Lemma integrateAtom_within (temp dt : R) (atom : AtomData) (F : Forces) (rnd : oracle R) :
  withinBox CONTAINER_SIZE (position (integrateAtom temp dt atom F rnd).1.1).
Proof.
  unfold withinBox.
  pose proof (integrateAtom_component temp dt atom F rnd AxisX) as Hx.
  pose proof (integrateAtom_component temp dt atom F rnd AxisY) as Hy.
  pose proof (integrateAtom_component temp dt atom F rnd AxisZ) as Hz.
  simpl in Hx, Hy, Hz.
  repeat split.
  - replace (Vector3.x _) with (clampAxis (Vector3.x (integrated temp dt atom F rnd).1.1)
                                  (Vector3.x (integrated temp dt atom F rnd).1.2)).1
      by (by rewrite <- Hx).
    apply clampAxis_within.
  - replace (Vector3.y _) with (clampAxis (Vector3.y (integrated temp dt atom F rnd).1.1)
                                  (Vector3.y (integrated temp dt atom F rnd).1.2)).1
      by (by rewrite <- Hy).
    apply clampAxis_within.
  - replace (Vector3.z _) with (clampAxis (Vector3.z (integrated temp dt atom F rnd).1.1)
                                  (Vector3.z (integrated temp dt atom F rnd).1.2)).1
      by (by rewrite <- Hz).
    apply clampAxis_within.
Qed.

Lemma identityOf_setKinematics (p v : Vector3) (a : AtomData) :
  identityOf (setKinematics p v a) = identityOf a.
Proof. by destruct a. Qed.

Lemma identityOf_setCharge (q : R) (a : AtomData) : identityOf (setCharge q a) = identityOf a.
Proof. by destruct a. Qed.

Lemma identityOf_uncharged (a b : AtomData) :
  uncharged a = uncharged b -> identityOf a = identityOf b.
Proof.
  intros H. rewrite <- (identityOf_setCharge 0 a), <- (identityOf_setCharge 0 b).
  unfold uncharged in H. by rewrite H.
Qed.

Lemma map_identityOf_uncharged (ats ats' : list AtomData) :
  map uncharged ats = map uncharged ats' -> map identityOf ats = map identityOf ats'.
Proof.
  intros H.
  assert (E : forall l, map identityOf l = map identityOf (map uncharged l)).
  { intros l. rewrite map_map. apply map_ext. intros a. symmetry.
    apply identityOf_setCharge. }
  by rewrite (E ats), (E ats'), H.
Qed.

Lemma integrateAtom_identity (temp dt : R) (atom : AtomData) (F : Forces) (rnd : oracle R) :
  identityOf (integrateAtom temp dt atom F rnd).1.1 = identityOf atom
  /\ charge (integrateAtom temp dt atom F rnd).1.1 = charge atom.
Proof.
  unfold integrateAtom.
  destruct (integrated temp dt atom F rnd) as [[pos vel] accel].
  destruct (clampAxis (Vector3.x pos) _), (clampAxis (Vector3.y pos) _),
    (clampAxis (Vector3.z pos) _). simpl.
  split; [apply identityOf_setKinematics | done].
Qed.

Lemma integrate_identity (temp dt : R) (ats : list AtomData) :
  forall (F : Forces) (rnd : oracle R),
  map identityOf (integrate temp dt ats F rnd).1 = map identityOf ats
  /\ map charge (integrate temp dt ats F rnd).1 = map charge ats.
Proof.
  induction ats as [| a ats IH]; intros F rnd; simpl; [done |].
  destruct (integrateAtom_identity temp dt a F rnd) as [Ha Hq].
  destruct (integrateAtom temp dt a F rnd) as [[a1 F1] rnd1].
  destruct (IH F1 rnd1) as [IH1 IH2].
  destruct (integrate temp dt ats F1 rnd1) as [ats1 rnd2]. simpl in *.
  split; congruence.
Qed.

Lemma photonStep_advanced (dt : R) (ats : list AtomData) (st : PhotonState) (p : PhotonData) :
  ph_surviving (photonStep dt ats st p) = ph_surviving st
  \/ ph_surviving (photonStep dt ats st p) = ph_surviving st ++ [advance dt p].
Proof.
  unfold photonStep.
  destruct (firstHit _ _ _) as [[[b a1] a2] |]; simpl; [by left |].
  destruct (ltb _ 60); simpl; [by right | by left].
Qed.

Lemma photonLogic_advanced (dt : R) (ats : list AtomData) (ps : list PhotonData) :
  forall st : PhotonState,
  exists kept : list PhotonData,
    sublist kept ps
    /\ ph_surviving (photonLogic dt ats st ps) = ph_surviving st ++ map (advance dt) kept.
Proof.
  unfold photonLogic. induction ps as [| p ps IH]; intros st; simpl.
  - exists []. split; [done | by rewrite app_nil_r].
  - destruct (IH (photonStep dt ats st p)) as (kept & Hsub & ->).
    destruct (photonStep_advanced dt ats st p) as [-> | ->].
    + exists kept. split; [by apply sublist_cons | done].
    + exists (p :: kept). split; [by apply sublist_skip |].
      by rewrite <- app_assoc.
Qed.

Section AtomFacts.

Variable bondCallback : BondCallback.
Variables ionicRestLength covalentRestLength : AtomData -> AtomData -> R.
Variable vortexPos : option Vector3.

#[local] Abbreviation frame := (useFrame bondCallback ionicRestLength covalentRestLength vortexPos).
#[local] Abbreviation tick := (runTick bondCallback ionicRestLength covalentRestLength vortexPos).

Lemma useFrame_atoms (c : Component) (delta : R) (w : World) :
  isRunning (stateRef c) = true ->
  atoms (stateRef (frame c delta w).1)
  = (integrationPhase bondCallback ionicRestLength covalentRestLength vortexPos
       c delta w).1.
Proof.
  intros Hrun. rewrite useFrame_running by done. simpl.
  unfold commit. by destruct (commits _ _).
Qed.

Lemma useFrame_within (c : Component) (delta : R) (w : World) :
  isRunning (stateRef c) = true ->
  Forall (fun a => withinBox CONTAINER_SIZE (position a)) (atoms (stateRef (frame c delta w).1)).
Proof.
  intros Hrun. rewrite useFrame_atoms by done.
  apply Forall_forall. intros a Ha. apply list_elem_of_In in Ha.
  unfold integrationPhase in Ha.
  apply integrate_elem in Ha as (a0 & F0 & rnd0 & _ & ->).
  apply integrateAtom_within.
Qed.

Lemma useFrame_identity (c : Component) (delta : R) (w : World) :
  map identityOf (atoms (stateRef (frame c delta w).1))
  = map identityOf (atoms (stateRef c)).
Proof.
  destruct (isRunning (stateRef c)) eqn:Hrun.
  2: { by rewrite useFrame_paused. }
  rewrite useFrame_atoms by done. unfold integrationPhase.
  destruct (integrate_identity (temperature (stateRef c)) (tickDt c delta)
              (chem_atoms (chemistryPhase bondCallback ionicRestLength covalentRestLength
                             vortexPos c delta w).2)
              (ph_forces (photonPhase bondCallback ionicRestLength covalentRestLength
                            vortexPos c delta w))
              (bondPhase bondCallback vortexPos (stateRef c) w).2) as [-> _].
  apply map_identityOf_uncharged, chemistryPhase_uncharged.
Qed.

Lemma useFrame_photons (c : Component) (delta : R) (w : World) :
  isRunning (stateRef c) = true ->
  exists kept : list PhotonData,
    sublist kept (photons (stateRef c))
    /\ photons (stateRef (frame c delta w).1) = map (advance (tickDt c delta)) kept.
Proof.
  intros Hrun. destruct (useFrame_output bondCallback ionicRestLength covalentRestLength vortexPos c delta w Hrun) as [-> _].
  unfold photonPhase.
  destruct (photonLogic_advanced (tickDt c delta)
              (chem_atoms (chemistryPhase bondCallback ionicRestLength covalentRestLength
                             vortexPos c delta w).2)
              (photons (stateRef c))
              (photonStart bondCallback ionicRestLength covalentRestLength vortexPos
                 c delta w)) as (kept & Hsub & ->).
  by exists kept.
Qed.

(** A tick whose chemistry engine is cooling down creates no bond,
    writes no charge and draws no uuid. *)
Lemma useFrame_idle (c : Component) (delta : R) (w : World) :
  isRunning (stateRef c) = true ->
  0 < chemistryCooldown c - tickDt c delta ->
  sublist (bonds (stateRef (frame c delta w).1)) (bonds (stateRef c))
  /\ map charge (atoms (stateRef (frame c delta w).1)) = map charge (atoms (stateRef c))
  /\ uuids (frame c delta w).2 = uuids w
  /\ chemistryCooldown (frame c delta w).1 = chemistryCooldown c - tickDt c delta.
Proof.
  intros Hrun Hcool.
  pose proof (chemistryPhase_idle bondCallback ionicRestLength covalentRestLength vortexPos
                c delta w Hcool) as Hidle.
  split; [| split; [| split]].
  - destruct (useFrame_output bondCallback ionicRestLength covalentRestLength vortexPos c delta w Hrun) as [_ ->].
    destruct (_ || _ || _); [| done].
    etrans; [apply photonLogic_sublist |].
    unfold photonStart. rewrite Hidle. simpl. apply bondPhase_sublist.
  - rewrite useFrame_atoms by done. unfold integrationPhase.
    destruct (integrate_identity (temperature (stateRef c)) (tickDt c delta)
                (chem_atoms (chemistryPhase bondCallback ionicRestLength covalentRestLength
                               vortexPos c delta w).2)
                (ph_forces (photonPhase bondCallback ionicRestLength covalentRestLength
                              vortexPos c delta w))
                (bondPhase bondCallback vortexPos (stateRef c) w).2) as [_ ->].
    by rewrite Hidle.
  - rewrite useFrame_running by done. simpl. by rewrite Hidle.
  - rewrite useFrame_running by done. simpl. by rewrite Hidle.
Qed.

End AtomFacts.

(** X5.  After a running tick of either variant every atom of the state
    lies in the container: each coordinate of its position is at most
    [CONTAINER_SIZE] in absolute value, wherever the atom was before. *)
Theorem X5_tick_containment (vortexPos : option Vector3) (c : Component) (delta : R)
    (w : World) :
  isRunning (stateRef c) = true ->
  Forall (fun a => withinBox CONTAINER_SIZE (position a))
         (atoms (stateRef (FirstVariant.useFrame vortexPos c delta w).1))
  /\ Forall (fun a => withinBox CONTAINER_SIZE (position a))
            (atoms (stateRef (SecondVariant.useFrame c delta w).1)).
Proof. intros Hrun. split; by apply useFrame_within. Qed.

Lemma X5_tick_containment_witness :
  Forall (fun a => withinBox CONTAINER_SIZE (position a))
         (atoms (stateRef (FirstVariant.useFrame None runawayComponent 0.05 calmWorld).1))
  /\ Forall (fun a => withinBox CONTAINER_SIZE (position a))
            (atoms (stateRef (SecondVariant.useFrame runawayComponent 0.05 calmWorld).1)).
Proof. apply (X5_tick_containment None runawayComponent 0.05 calmWorld). reflexivity. Defined.

(** X6.  A tick of either variant, running or paused, neither creates,
    deletes nor reorders atoms, and it changes nothing of an atom but its
    position, its velocity and its charge. *)
Theorem X6_tick_keeps_atoms (vortexPos : option Vector3) (c : Component) (delta : R)
    (w : World) :
  map identityOf (atoms (stateRef (FirstVariant.useFrame vortexPos c delta w).1))
  = map identityOf (atoms (stateRef c))
  /\ map identityOf (atoms (stateRef (SecondVariant.useFrame c delta w).1))
     = map identityOf (atoms (stateRef c)).
Proof. split; apply useFrame_identity. Qed.

(** X7.  The photons of the state after a running tick of either variant
    are photons of the input state, in their order, each moved by its
    velocity times [15 * dt] and otherwise unchanged: a tick creates no
    photon and changes no id, velocity or energy. *)
Theorem X7_tick_photons (vortexPos : option Vector3) (c : Component) (delta : R) (w : World) :
  isRunning (stateRef c) = true ->
  (exists kept : list PhotonData,
     sublist kept (photons (stateRef c))
     /\ photons (stateRef (FirstVariant.useFrame vortexPos c delta w).1)
        = map (advance (tickDt c delta)) kept)
  /\ (exists kept : list PhotonData,
        sublist kept (photons (stateRef c))
        /\ photons (stateRef (SecondVariant.useFrame c delta w).1)
           = map (advance (tickDt c delta)) kept).
Proof. intros Hrun. split; by apply useFrame_photons. Qed.

Lemma X7_tick_photons_witness :
  (exists kept : list PhotonData,
     sublist kept (photons (stateRef litComponent))
     /\ photons (stateRef (FirstVariant.useFrame None litComponent 0.016 calmWorld).1)
        = map (advance (tickDt litComponent 0.016)) kept)
  /\ (exists kept : list PhotonData,
        sublist kept (photons (stateRef litComponent))
        /\ photons (stateRef (SecondVariant.useFrame litComponent 0.016 calmWorld).1)
           = map (advance (tickDt litComponent 0.016)) kept).
Proof. apply (X7_tick_photons None litComponent 0.016 calmWorld). reflexivity. Defined.

(** X8.  While the chemistry engine is cooling down (the cooldown exceeds
    the time step), a running tick of either variant creates no bond (the
    bond list of the state after the tick is a sublist of the one
    before), changes no charge and draws no uuid, and the cooldown
    decreases by the time step. *)
Theorem X8_idle_chemistry (vortexPos : option Vector3) (c : Component) (delta : R)
    (w : World) :
  isRunning (stateRef c) = true ->
  0 < chemistryCooldown c - tickDt c delta ->
  let r1 := FirstVariant.useFrame vortexPos c delta w in
  let r2 := SecondVariant.useFrame c delta w in
  (sublist (bonds (stateRef r1.1)) (bonds (stateRef c))
   /\ map charge (atoms (stateRef r1.1)) = map charge (atoms (stateRef c))
   /\ uuids r1.2 = uuids w
   /\ chemistryCooldown r1.1 = chemistryCooldown c - tickDt c delta)
  /\ (sublist (bonds (stateRef r2.1)) (bonds (stateRef c))
      /\ map charge (atoms (stateRef r2.1)) = map charge (atoms (stateRef c))
      /\ uuids r2.2 = uuids w
      /\ chemistryCooldown r2.1 = chemistryCooldown c - tickDt c delta).
Proof. intros Hrun Hcool. split; by apply useFrame_idle. Qed.

Lemma X8_idle_chemistry_witness :
  let r1 := FirstVariant.useFrame None tornComponent 0.016 calmWorld in
  let r2 := SecondVariant.useFrame tornComponent 0.016 calmWorld in
  (sublist (bonds (stateRef r1.1)) (bonds (stateRef tornComponent))
   /\ map charge (atoms (stateRef r1.1)) = map charge (atoms (stateRef tornComponent))
   /\ uuids r1.2 = uuids calmWorld
   /\ chemistryCooldown r1.1 = chemistryCooldown tornComponent - tickDt tornComponent 0.016)
  /\ (sublist (bonds (stateRef r2.1)) (bonds (stateRef tornComponent))
      /\ map charge (atoms (stateRef r2.1)) = map charge (atoms (stateRef tornComponent))
      /\ uuids r2.2 = uuids calmWorld
      /\ chemistryCooldown r2.1
         = chemistryCooldown tornComponent - tickDt tornComponent 0.016).
Proof.
  apply (X8_idle_chemistry None tornComponent 0.016 calmWorld).
  - reflexivity.
  - rewrite tickDt_torn. simpl. lra.
Defined.

(** ** The cooldown of the chemistry engine *)

Lemma tickDt_bound (c : Component) (delta : R) :
  0 <= timeScale (stateRef c) <= 1 -> tickDt c delta <= 0.05.
Proof.
  intros [H0 H1]. unfold tickDt.
  pose proof (Rmin_r delta 0.05) as Hm.
  destruct (Rle_or_lt 0 (Rmin delta 0.05)); nra.
Qed.

Section CooldownFacts.

Variable bondCallback : BondCallback.
Variables ionicRestLength covalentRestLength : AtomData -> AtomData -> R.
Variable vortexPos : option Vector3.

#[local] Abbreviation frame := (useFrame bondCallback ionicRestLength covalentRestLength vortexPos).

Lemma useFrame_cooldown (c : Component) (delta : R) (w : World) :
  isRunning (stateRef c) = true ->
  chemistryCooldown (frame c delta w).1
  = if engineDue c delta then 0.2 else chemistryCooldown c - tickDt c delta.
Proof.
  intros Hrun. rewrite useFrame_running by done. simpl.
  unfold chemistryPhase, engineDue. by destruct (leb _ 0).
Qed.

Lemma useFrame_clock (c : Component) (delta : R) (w : World) :
  isRunning (stateRef (frame c delta w).1) = isRunning (stateRef c)
  /\ timeScale (stateRef (frame c delta w).1) = timeScale (stateRef c).
Proof.
  destruct (useFrame_frame bondCallback ionicRestLength covalentRestLength vortexPos
              c delta w) as (_ & _ & Ht & Hr & _).
  done.
Qed.

(** A tick that finds the cooldown above [limit + 0.05] leaves it above
    [limit] and does not fire the engine. *)
Lemma cooling_step (c : Component) (delta : R) (w : World) (limit : R) :
  isRunning (stateRef c) = true -> 0 <= timeScale (stateRef c) <= 1 ->
  0 < limit -> limit + 0.05 <= chemistryCooldown c ->
  engineDue c delta = false /\ limit <= chemistryCooldown (frame c delta w).1.
Proof.
  intros Hrun Hts Hl Hc.
  pose proof (tickDt_bound c delta Hts) as Hdt.
  assert (Hdue : engineDue c delta = false).
  { unfold engineDue. apply leb_false. lra. }
  split; [done |]. rewrite useFrame_cooldown, Hdue by done. lra.
Qed.

Lemma three_idle_ticks (c : Component) (w : World) (d0 d1 d2 d3 : R) :
  isRunning (stateRef c) = true -> 0 <= timeScale (stateRef c) <= 1 ->
  engineDue c d0 = true ->
  let r1 := frame c d0 w in
  let r2 := frame r1.1 d1 r1.2 in
  let r3 := frame r2.1 d2 r2.2 in
  chemistryCooldown r1.1 = 0.2
  /\ engineDue r1.1 d1 = false /\ engineDue r2.1 d2 = false /\ engineDue r3.1 d3 = false.
Proof.
  intros Hrun Hts Hdue r1 r2 r3.
  assert (H1 : chemistryCooldown r1.1 = 0.2).
  { unfold r1. by rewrite useFrame_cooldown, Hdue. }
  destruct (useFrame_clock c d0 w) as [Hr1 Ht1]. fold r1 in Hr1, Ht1.
  destruct (useFrame_clock r1.1 d1 r1.2) as [Hr2 Ht2]. fold r2 in Hr2, Ht2.
  destruct (useFrame_clock r2.1 d2 r2.2) as [Hr3 Ht3]. fold r3 in Hr3, Ht3.
  assert (Hrun1 : isRunning (stateRef r1.1) = true) by congruence.
  assert (Hrun2 : isRunning (stateRef r2.1) = true) by congruence.
  assert (Hrun3 : isRunning (stateRef r3.1) = true) by congruence.
  assert (Hts1 : 0 <= timeScale (stateRef r1.1) <= 1) by (rewrite Ht1; done).
  assert (Hts2 : 0 <= timeScale (stateRef r2.1) <= 1) by (rewrite Ht2, Ht1; done).
  assert (Hts3 : 0 <= timeScale (stateRef r3.1) <= 1) by (rewrite Ht3, Ht2, Ht1; done).
  destruct (cooling_step r1.1 d1 r1.2 0.15 Hrun1 Hts1) as [E1 C2]; [lra | lra |].
  fold r2 in C2.
  destruct (cooling_step r2.1 d2 r2.2 0.10 Hrun2 Hts2) as [E2 C3]; [lra | lra |].
  fold r3 in C3.
  destruct (cooling_step r3.1 d3 r3.2 0.05 Hrun3 Hts3) as [E3 _]; [lra | lra |].
  done.
Qed.

End CooldownFacts.

(** X9.  With a time scale between 0 and 1, a running tick that fires the
    chemistry engine sets the cooldown to 0.2, and the engine is not due
    in any of the next three ticks, whatever their frame times: it fires
    at most every fourth tick. *)
Theorem X9_engine_rate (vortexPos : option Vector3) (c : Component) (w : World)
    (d0 d1 d2 d3 : R) :
  isRunning (stateRef c) = true -> 0 <= timeScale (stateRef c) <= 1 ->
  engineDue c d0 = true ->
  (let r1 := FirstVariant.useFrame vortexPos c d0 w in
   let r2 := FirstVariant.useFrame vortexPos r1.1 d1 r1.2 in
   let r3 := FirstVariant.useFrame vortexPos r2.1 d2 r2.2 in
   chemistryCooldown r1.1 = 0.2
   /\ engineDue r1.1 d1 = false /\ engineDue r2.1 d2 = false /\ engineDue r3.1 d3 = false)
  /\ (let r1 := SecondVariant.useFrame c d0 w in
      let r2 := SecondVariant.useFrame r1.1 d1 r1.2 in
      let r3 := SecondVariant.useFrame r2.1 d2 r2.2 in
      chemistryCooldown r1.1 = 0.2
      /\ engineDue r1.1 d1 = false /\ engineDue r2.1 d2 = false /\ engineDue r3.1 d3 = false).
Proof. intros Hrun Hts Hdue. split; by apply three_idle_ticks. Qed.

Lemma X9_engine_rate_witness :
  (let r1 := FirstVariant.useFrame None saltReady 0.05 calmWorld in
   let r2 := FirstVariant.useFrame None r1.1 0.05 r1.2 in
   let r3 := FirstVariant.useFrame None r2.1 0.05 r2.2 in
   chemistryCooldown r1.1 = 0.2
   /\ engineDue r1.1 0.05 = false /\ engineDue r2.1 0.05 = false
   /\ engineDue r3.1 0.05 = false)
  /\ (let r1 := SecondVariant.useFrame saltReady 0.05 calmWorld in
      let r2 := SecondVariant.useFrame r1.1 0.05 r1.2 in
      let r3 := SecondVariant.useFrame r2.1 0.05 r2.2 in
      chemistryCooldown r1.1 = 0.2
      /\ engineDue r1.1 0.05 = false /\ engineDue r2.1 0.05 = false
      /\ engineDue r3.1 0.05 = false).
Proof.
  apply (X9_engine_rate None saltReady calmWorld 0.05 0.05 0.05 0.05).
  - reflexivity.
  - simpl. lra.
  - unfold engineDue, tickDt. simpl. apply leb_true.
    rewrite Rmin_right by lra. lra.
Defined.

(** ** The bond filter where no random number decides *)

Lemma filterBonds_plain (cb : BondCallback) (temp : R) (ats : list AtomData)
    (bs : list BondData) :
  (forall bond F rnd, In bond bs ->
     (cb temp ats bond F rnd).1.1 = intact temp ats bond
     /\ (cb temp ats bond F rnd).2 = rnd) ->
  forall (F : Forces) (rnd : oracle R),
  (filterBonds cb temp ats bs F rnd).1.1 = List.filter (intact temp ats) bs
  /\ (filterBonds cb temp ats bs F rnd).2 = rnd.
Proof.
  induction bs as [| bond bs IH]; intros Hcb F rnd; simpl; [done |].
  destruct (Hcb bond F rnd (or_introl eq_refl)) as [Hk Hr].
  destruct (cb temp ats bond F rnd) as [[keep F1] rnd1]. simpl in Hk, Hr. subst.
  destruct (IH (fun b F rnd Hb => Hcb b F rnd (or_intror Hb)) F1 rnd) as [IHk IHr].
  destruct (filterBonds cb temp ats bs F1 rnd) as [[kept F2] rnd2]. simpl in *. subst.
  by destruct (intact temp ats bond).
Qed.

(** X10.  First variant: when the thermal energy [temp * 150] of the tick
    does not exceed 0.8 times the energy [strength * order] of any bond
    of the list, the filter draws no random number, and it keeps exactly
    the bonds whose two endpoints exist and which are not stretched
    beyond the break ratio, in their order. *)
Theorem X10_cold_filter_first (temp : R) (ats : list AtomData) (bs : list BondData)
    (F : Forces) (rnd : oracle R) :
  (forall bond, In bond bs -> temp * 150 <= bondEnergy bond * 0.8) ->
  (filterBonds V1.bondCallback temp ats bs F rnd).1.1 = List.filter (intact temp ats) bs
  /\ (filterBonds V1.bondCallback temp ats bs F rnd).2 = rnd.
Proof.
  intros Hcold. apply filterBonds_plain. intros bond F' rnd' Hb.
  unfold V1.bondCallback, intact.
  destruct (findAtom ats (atomA bond)) as [a1 |]; [| done].
  destruct (findAtom ats (atomB bond)) as [a2 |]; [| done].
  destruct (snaps temp a1 a2 bond); [done |].
  unfold V1.thermallyExposed. fold (bondEnergy bond).
  by rewrite gtb_false by (by apply Hcold).
Qed.

Lemma X10_cold_filter_first_witness :
  (filterBonds V1.bondCallback 3 [carbonA; carbonB] [carbonBond] ∅ (always 0)).1.1
  = List.filter (intact 3 [carbonA; carbonB]) [carbonBond]
  /\ (filterBonds V1.bondCallback 3 [carbonA; carbonB] [carbonBond] ∅ (always 0)).2
     = always 0.
Proof.
  apply (X10_cold_filter_first 3 [carbonA; carbonB] [carbonBond] ∅ (always 0)).
  intros bond [<- | []]. unfold bondEnergy, carbonBond, BOND_STRENGTH_COVALENT. simpl. lra.
Defined.

(** X11.  Second variant: at a temperature of at most 20, when no ionic
    bond of the list joins atoms whose mean melting point plus 0.5 is
    below the temperature, the filter draws no random number, and it
    keeps exactly the bonds whose two endpoints exist and which are not
    stretched beyond the break ratio.  In particular covalent bonds never
    break thermally at or below temperature 20. *)
Theorem X11_cold_filter_second (temp : R) (ats : list AtomData) (bs : list BondData)
    (F : Forces) (rnd : oracle R) :
  temp <= 20 ->
  (forall bond a1 a2, In bond bs -> bond_type bond = ionic ->
     findAtom ats (atomA bond) = Some a1 -> findAtom ats (atomB bond) = Some a2 ->
     temp <= meanMP a1 a2 + 0.5) ->
  (filterBonds V2.bondCallback temp ats bs F rnd).1.1 = List.filter (intact temp ats) bs
  /\ (filterBonds V2.bondCallback temp ats bs F rnd).2 = rnd.
Proof.
  intros Htemp Hionic. apply filterBonds_plain. intros bond F' rnd' Hb.
  unfold V2.bondCallback, intact.
  destruct (findAtom ats (atomA bond)) as [a1 |] eqn:E1; [| done].
  destruct (findAtom ats (atomB bond)) as [a2 |] eqn:E2; [| done].
  destruct (snaps temp a1 a2 bond); [done |].
  fold (meanMP a1 a2).
  assert (Hm : bool_decide (bond_type bond = ionic) && gtb temp (meanMP a1 a2 + 0.5) = false).
  { case_bool_decide as Ht; [| done]. simpl.
    apply gtb_false. by apply (Hionic bond). }
  rewrite Hm. simpl. by rewrite gtb_false by lra.
Qed.

Lemma X11_cold_filter_second_witness :
  (filterBonds V2.bondCallback 10 [carbonA; carbonB] [carbonBond] ∅ (always 0)).1.1
  = List.filter (intact 10 [carbonA; carbonB]) [carbonBond]
  /\ (filterBonds V2.bondCallback 10 [carbonA; carbonB] [carbonBond] ∅ (always 0)).2
     = always 0.
Proof.
  apply (X11_cold_filter_second 10 [carbonA; carbonB] [carbonBond] ∅ (always 0)).
  - lra.
  - intros bond a1 a2 [<- | []] Hty. discriminate.
Defined.

(** ** The chemistry engine *)

Section EngineFacts.

Variables ionicRestLength covalentRestLength : AtomData -> AtomData -> R.

#[local] Abbreviation pairStep := (chemistryPair ionicRestLength covalentRestLength).
#[local] Abbreviation fire := (chemistryFire ionicRestLength covalentRestLength).

Lemma chemistryPair_ids (temp : R) (st : ChemState) (ij : nat * nat) :
  map atom_id (chem_atoms (pairStep temp st ij)) = map atom_id (chem_atoms st).
Proof. apply map_id_kind, map_kind_uncharged, chemistryPair_uncharged. Qed.

(** One pair either changes nothing or appends one bond, drawn with one
    uuid. *)
Lemma chemistryPair_appends (temp : R) (st : ChemState) (ij : nat * nat) :
  (ij.1 < ij.2)%nat ->
  pairStep temp st ij = st
  \/ exists b,
       chem_bonds (pairStep temp st ij) = chem_bonds st ++ [b]
       /\ bond_id b = next (chem_uuids st)
       /\ chem_uuids (pairStep temp st ij) = rest (chem_uuids st)
       /\ chem_changed (pairStep temp st ij) = true
       /\ formedBetween (map atom_id (chem_atoms st)) b.
Proof.
  intros Hlt.
  destruct (chemistryPair_cases ionicRestLength covalentRestLength temp st ij)
    as [-> | (a1 & a2 & H1 & H2 & _ & [(_ & _ & ->) | (_ & _ & ->)])].
  - by left.
  - right.
    exists (mkBond (next (chem_uuids st)) (atom_id a1) (atom_id a2)
              BOND_STRENGTH_IONIC (ionicRestLength a1 a2) Single ionic).
    split; [done |]. split; [done |]. split; [done |]. split; [done |].
    split; [done |]. split; [by left |].
    exists ij.1, ij.2. simpl. split; [done |]. split; by apply lookup_atom_id.
  - right.
    exists (mkBond (next (chem_uuids st)) (atom_id a1) (atom_id a2)
              BOND_STRENGTH_COVALENT (covalentRestLength a1 a2) Single covalent).
    split; [done |]. split; [done |]. split; [done |]. split; [done |].
    split; [done |]. split; [by right |].
    exists ij.1, ij.2. simpl. split; [done |]. split; by apply lookup_atom_id.
Qed.

Lemma fold_chemistryPair_appends (temp : R) (ps : list (nat * nat)) :
  Forall (fun ij => (ij.1 < ij.2)%nat) ps ->
  forall st : ChemState,
  exists news : list BondData,
    chem_bonds (fold_left (pairStep temp) ps st) = chem_bonds st ++ news
    /\ map bond_id news = map (chem_uuids st) (seq 0 (List.length news))
    /\ (forall k, chem_uuids (fold_left (pairStep temp) ps st) k
                  = chem_uuids st (List.length news + k)%nat)
    /\ chem_changed (fold_left (pairStep temp) ps st)
       = match news with [] => chem_changed st | _ => true end
    /\ Forall (formedBetween (map atom_id (chem_atoms st))) news.
Proof.
  induction 1 as [| ij ps Hlt _ IH]; intros st; cbn [fold_left].
  - exists []. rewrite app_nil_r. repeat split; done.
  - destruct (IH (pairStep temp st ij)) as (news & Hb & Hids & Hu & Hc & Hf).
    rewrite chemistryPair_ids in Hf.
    destruct (chemistryPair_appends temp st ij Hlt)
      as [E | (b & Eb & Eid & Eu & Ec & Ef)].
    + rewrite E in Hb, Hids, Hu, Hc. exists news. rewrite E.
      split; [done |]. split; [done |]. split; [done |]. split; done.
    + exists (b :: news). rewrite Hb, Eb, <- app_assoc. split; [done |].
      split; [| split; [| split]].
      * cbn [map List.length seq]. f_equal; [done |].
        rewrite Hids, Eu, <- seq_shift, map_map. done.
      * intros k. rewrite Hu, Eu. done.
      * rewrite Hc. destruct news; [exact Ec | done].
      * by constructor.
Qed.

Lemma chemistryFire_appends (temp : R) (st : ChemState) :
  exists news : list BondData,
    chem_bonds (fire temp st) = chem_bonds st ++ news
    /\ map bond_id news = map (chem_uuids st) (seq 0 (List.length news))
    /\ (forall k, chem_uuids (fire temp st) k = chem_uuids st (List.length news + k)%nat)
    /\ chem_changed (fire temp st) = match news with [] => chem_changed st | _ => true end
    /\ Forall (formedBetween (map atom_id (chem_atoms st))) news.
Proof.
  apply fold_chemistryPair_appends. apply Forall_forall. intros [i j] Hij.
  apply list_elem_of_In, indexPairs_lt in Hij. simpl. lia.
Qed.

Lemma chemistryPair_hot (temp : R) (st : ChemState) (ij : nat * nat) :
  Forall (fun a => 0 <= meltingPoint a /\ meltingPoint a * 1.5 <= temp) (chem_atoms st) ->
  pairStep temp st ij = st.
Proof.
  intros Hhot.
  destruct (chemistryPair_cases ionicRestLength covalentRestLength temp st ij)
    as [-> | (a1 & a2 & H1 & H2 & _ & Hform)]; [done |].
  pose proof (proj1 (Forall_lookup _ _) Hhot _ _ H1) as [Hp1 Hm1].
  pose proof (proj1 (Forall_lookup _ _) Hhot _ _ H2) as [Hp2 Hm2].
  simpl in *. unfold meanMP in Hform.
  destruct Hform as [(_ & Ht & _) | (_ & Ht & _)]; lra.
Qed.

Lemma chemistryFire_hot (temp : R) (st : ChemState) :
  Forall (fun a => 0 <= meltingPoint a /\ meltingPoint a * 1.5 <= temp) (chem_atoms st) ->
  fire temp st = st.
Proof.
  intros Hhot. unfold chemistryFire.
  induction (indexPairs (List.length (chem_atoms st))) as [| ij ps IH]; simpl; [done |].
  by rewrite chemistryPair_hot.
Qed.

End EngineFacts.

(** X12.  In both variants a firing of the chemistry engine keeps the
    bonds it finds, in their order, and appends the bonds it forms: each
    is a single bond of strength 800 (ionic) or 1200 (covalent) from an
    atom of the list to an atom later in the list, its id is the next
    uuid, one uuid is drawn per bond, and [structureChanged] is set
    exactly when a bond was formed (or was set before). *)
Theorem X12_engine_appends (ionicRestLength covalentRestLength : AtomData -> AtomData -> R)
    (temp : R) (st : ChemState) :
  let st' := chemistryFire ionicRestLength covalentRestLength temp st in
  exists news : list BondData,
    chem_bonds st' = chem_bonds st ++ news
    /\ map bond_id news = map (chem_uuids st) (seq 0 (List.length news))
    /\ (forall k, chem_uuids st' k = chem_uuids st (List.length news + k)%nat)
    /\ chem_changed st' = match news with [] => chem_changed st | _ => true end
    /\ Forall (formedBetween (map atom_id (chem_atoms st))) news.
Proof. apply chemistryFire_appends. Qed.

(** X13.  In both variants, once the temperature is at least 1.5 times the
    melting point of every atom (melting points being non-negative), a
    firing of the chemistry engine changes nothing: no bond is formed, no
    charge is written, no uuid is drawn. *)
Theorem X13_engine_hot (ionicRestLength covalentRestLength : AtomData -> AtomData -> R)
    (temp : R) (st : ChemState) :
  Forall (fun a => 0 <= meltingPoint a /\ meltingPoint a * 1.5 <= temp) (chem_atoms st) ->
  chemistryFire ionicRestLength covalentRestLength temp st = st.
Proof. apply chemistryFire_hot. Qed.

Lemma X13_engine_hot_witness :
  chemistryFire V1.ionicRestLength V1.covalentRestLength 10 saltPair = saltPair.
Proof.
  apply (X13_engine_hot V1.ionicRestLength V1.covalentRestLength 10 saltPair).
  repeat constructor; simpl; lra.
Defined.

(** ** Molecules from templates *)

Lemma templates_sound (key : string) (t : MoleculeTemplate) :
  MOLECULE_TEMPLATES key = Some t -> templateSound t = true.
Proof.
  unfold MOLECULE_TEMPLATES. intros H.
  repeat case_bool_decide; try done; injection H as <-; reflexivity.
Qed.

Lemma templateSound_spec (t : MoleculeTemplate) (tb : TemplateBond) :
  templateSound t = true -> In tb (tmpl_bonds t) ->
  inRange (List.length (tmpl_atoms t)) tb /\ idxA tb <> idxB tb.
Proof.
  unfold templateSound. rewrite forallb_forall. intros H Htb.
  specialize (H tb Htb). apply andb_true_iff in H as [H Hne].
  apply andb_true_iff in H as [HA HB].
  apply Nat.ltb_lt in HA, HB. apply negb_true_iff, Nat.eqb_neq in Hne. by repeat split.
Qed.

Lemma createAtoms_shape (origin : Vector3) (tas : list (AtomType * Vector3)) :
  forall w : World,
  Forall2 (fun a ta => exists id vel, a = newAtom id ta.1 (Vector3.add origin ta.2) vel)
          (createAtoms origin tas w).1 tas.
Proof.
  induction tas as [| [ty offset] tas IH]; intros w; simpl; [constructor |].
  specialize (IH (mkWorld (skip (3 + 4 * orbitalCount ty) (randoms w))
                          (skip (1 + orbitalCount ty) (uuids w)))).
  destruct (createAtoms origin tas _) as [ats w']. simpl in *.
  constructor; [| done]. by eexists _, _.
Qed.

Lemma setCharge_same (a : AtomData) : setCharge (charge a) a = a.
Proof. by destruct a. Qed.

(** On atoms that carry the charges of [ATOM_CONFIGS] the charge
    overwrite of the ionic presets changes nothing. *)
Lemma createBond_configured (ats : list AtomData) (bs : list BondData) (ids : oracle string)
    (tb : TemplateBond) (a1 a2 : AtomData) :
  Forall configured ats -> ats !! idxA tb = Some a1 -> ats !! idxB tb = Some a2 ->
  createBond (ats, bs, ids) tb = (ats, bs ++ [templateBond (next ids) a1 a2 tb], rest ids).
Proof.
  intros Hc H1 H2. unfold createBond. rewrite H1, H2.
  assert (Hats : (if bool_decide (tb_type tb = ionic) && bool_decide (atom_type a1 = Sodium)
                     && bool_decide (atom_type a2 = Chlorine)
                  then <[idxB tb := setCharge (-1) a2]> (<[idxA tb := setCharge 1 a1]> ats)
                  else ats) = ats).
  { destruct (bool_decide (tb_type tb = ionic)); [| done]. simpl.
    case_bool_decide as Ht1; [| done]. case_bool_decide as Ht2; [| done]. simpl.
    pose proof (proj1 (Forall_lookup _ _) Hc _ _ H1) as Hq1.
    pose proof (proj1 (Forall_lookup _ _) Hc _ _ H2) as Hq2.
    unfold configured in Hq1, Hq2. rewrite Ht1 in Hq1. rewrite Ht2 in Hq2.
    simpl in Hq1, Hq2.
    rewrite <- Hq1, <- Hq2, !setCharge_same.
    rewrite (list_insert_id ats (idxA tb)) by done. by apply list_insert_id. }
  rewrite Hats. reflexivity.
Qed.

Lemma fold_createBond_configured (ats : list AtomData) (tbs : list TemplateBond) :
  Forall configured ats -> Forall (inRange (List.length ats)) tbs ->
  forall (bs : list BondData) (ids : oracle string),
  exists news : list BondData,
    fold_left createBond tbs (ats, bs, ids)
    = (ats, bs ++ news, skip (List.length tbs) ids)
    /\ Forall2 (fun b tb =>
                  exists a1 a2,
                    ats !! idxA tb = Some a1 /\ ats !! idxB tb = Some a2
                    /\ b = templateBond (bond_id b) a1 a2 tb)
               news tbs.
Proof.
  intros Hc. induction 1 as [| tb tbs [HA HB] _ IH]; intros bs ids; cbn [fold_left].
  - exists []. rewrite app_nil_r. split; [done | constructor].
  - destruct (lookup_lt_is_Some_2 ats (idxA tb) HA) as [a1 H1].
    destruct (lookup_lt_is_Some_2 ats (idxB tb) HB) as [a2 H2].
    rewrite (createBond_configured ats bs ids tb a1 a2 Hc H1 H2).
    destruct (IH (bs ++ [templateBond (next ids) a1 a2 tb]) (rest ids)) as (news & -> & Hf).
    exists (templateBond (next ids) a1 a2 tb :: news). split.
    + by rewrite <- app_assoc.
    + constructor; [| done]. by exists a1, a2.
Qed.

Lemma newAtom_configured (id : string) (ty : AtomType) (pos vel : Vector3) :
  configured (newAtom id ty pos vel).
Proof. reflexivity. Qed.

(** The molecule of a preset: the atoms of [createAtoms], untouched by
    the bond loop, and one bond per template bond. *)
Lemma createMolecule_result (key : string) (t : MoleculeTemplate) (origin : Vector3)
    (w : World) :
  MOLECULE_TEMPLATES key = Some t ->
  exists news : list BondData,
    createMoleculeFromTemplate key origin w
    = ((createAtoms origin (tmpl_atoms t) w).1, news,
       mkWorld (randoms (createAtoms origin (tmpl_atoms t) w).2)
               (skip (List.length (tmpl_bonds t))
                     (uuids (createAtoms origin (tmpl_atoms t) w).2)))
    /\ Forall2 (fun b tb =>
                  exists a1 a2,
                    (createAtoms origin (tmpl_atoms t) w).1 !! idxA tb = Some a1
                    /\ (createAtoms origin (tmpl_atoms t) w).1 !! idxB tb = Some a2
                    /\ b = templateBond (bond_id b) a1 a2 tb)
               news (tmpl_bonds t).
Proof.
  intros Ht. unfold createMoleculeFromTemplate. rewrite Ht.
  pose proof (createAtoms_shape origin (tmpl_atoms t) w) as Hshape.
  destruct (createAtoms origin (tmpl_atoms t) w) as [ats0 w1]. simpl in Hshape.
  assert (Hc : Forall configured ats0).
  { apply Forall_forall. intros a Ha.
    apply list_elem_of_lookup in Ha as [k Hk].
    destruct (Forall2_lookup_l _ _ _ _ _ Hshape Hk) as (ta & _ & id & vel & ->).
    apply newAtom_configured. }
  assert (Hr : Forall (inRange (List.length ats0)) (tmpl_bonds t)).
  { rewrite (Forall2_length _ _ _ Hshape). apply Forall_forall. intros tb Htb.
    apply list_elem_of_In in Htb.
    by apply (templateSound_spec t tb (templates_sound key t Ht)). }
  destruct (fold_createBond_configured ats0 (tmpl_bonds t) Hc Hr [] (uuids w1))
    as (news & -> & Hf).
  exists news. simpl. done.
Qed.

(** X14.  For each of the six presets [createMoleculeFromTemplate]
    returns one atom per template atom, in order, each with the values of
    [ATOM_CONFIGS] for its type (charge included: the charge overwrite of
    the ionic presets never changes a charge) at the given position plus
    the template offset, and one bond per template bond, in order,
    between the atoms at its two indices, with the type and order of the
    template, strength 800 (ionic) or 1200 (covalent) and rest length
    radius sum times 0.75, 0.65 or 0.60 for order 1, 2 or 3. *)
Theorem X14_template_molecule (key : string) (t : MoleculeTemplate) (origin : Vector3)
    (w : World) :
  MOLECULE_TEMPLATES key = Some t ->
  let ats := (createMoleculeFromTemplate key origin w).1.1 in
  let bs := (createMoleculeFromTemplate key origin w).1.2 in
  Forall2 (fun a ta => exists id vel, a = newAtom id ta.1 (Vector3.add origin ta.2) vel)
          ats (tmpl_atoms t)
  /\ Forall2 (fun b tb =>
                exists a1 a2,
                  ats !! idxA tb = Some a1 /\ ats !! idxB tb = Some a2
                  /\ b = templateBond (bond_id b) a1 a2 tb)
             bs (tmpl_bonds t).
Proof.
  intros Ht ats bs. unfold ats, bs.
  destruct (createMolecule_result key t origin w Ht) as (news & -> & Hf). simpl.
  split; [apply createAtoms_shape | done].
Qed.

Lemma X14_template_molecule_witness :
  exists t : MoleculeTemplate,
    MOLECULE_TEMPLATES "salt" = Some t
    /\ let ats := (createMoleculeFromTemplate "salt" Vector3.zero calmWorld).1.1 in
       let bs := (createMoleculeFromTemplate "salt" Vector3.zero calmWorld).1.2 in
       Forall2 (fun a ta =>
                  exists id vel, a = newAtom id ta.1 (Vector3.add Vector3.zero ta.2) vel)
               ats (tmpl_atoms t)
       /\ Forall2 (fun b tb =>
                     exists a1 a2,
                       ats !! idxA tb = Some a1 /\ ats !! idxB tb = Some a2
                       /\ b = templateBond (bond_id b) a1 a2 tb)
                  bs (tmpl_bonds t).
Proof.
  eexists. split; [reflexivity |].
  apply (X14_template_molecule "salt" _ Vector3.zero calmWorld). reflexivity.
Defined.

(** ** Electron shells *)

Lemma generateElectronsFrom_spec (ty : AtomType) (orbs : list (string * bool)) :
  forall (i : nat) (w : World),
  let es := (generateElectronsFrom ty i orbs w).1 in
  let w' := (generateElectronsFrom ty i orbs w).2 in
  List.length es = List.length orbs
  /\ (forall k e, es !! k = Some e ->
        exists orb, orbs !! k = Some orb
          /\ electron_id e = uuids w k
          /\ spin e = (if Nat.eqb ((i + k) mod 2) 0 then 1 else -1)%Z
          /\ orbitalType e = orb.1
          /\ el_n e = parseIntCharAt0 orb.1
          /\ electron_type e
             = if bool_decide (parseIntCharAt0 orb.1 = Some 1%nat)
                  && negb (bool_decide (ty = Hydrogen)) && negb (bool_decide (ty = Helium))
               then core else valence)
  /\ (forall k, randoms w' k = randoms w (4 * List.length orbs + k)%nat)
  /\ (forall k, uuids w' k = uuids w (List.length orbs + k)%nat).
Proof.
  induction orbs as [| orb orbs IH]; intros i w; cbn [generateElectronsFrom].
  - cbn -[Nat.modulo Nat.mul]. split; [done |]. split; [| split; intros k; f_equal; lia].
    intros k e H. by rewrite lookup_nil in H.
  - unfold generateElectron.
    set (w1 := mkWorld (rest (rest (rest (rest (randoms w))))) (rest (uuids w))).
    destruct (IH (S i) w1) as (Hlen & Hes & Hr & Hu).
    destruct (generateElectronsFrom ty (S i) orbs w1) as [es w2].
    cbn -[Nat.modulo Nat.mul] in *.
    split; [by rewrite Hlen |]. split; [| split].
    + intros [| k] e Hk; cbn -[Nat.modulo Nat.mul] in Hk.
      * injection Hk as <-. exists orb. cbn -[Nat.modulo Nat.mul].
        rewrite Nat.add_0_r. by repeat split.
      * destruct (Hes k e Hk) as (orb' & Ho & Hid & Hs & Hrest).
        exists orb'. split; [done |]. split; [by rewrite Hid |].
        split; [| done]. rewrite Hs. by replace (S (i + k))%nat with (i + S k)%nat by lia.
    + intros k. rewrite Hr. unfold rest. f_equal; lia.
    + intros k. rewrite Hu. unfold rest. f_equal; lia.
Qed.

(** The shells of every atom type: as many orbitals as the atomic number,
    with principal quantum numbers 1, 2 or 3. *)
Lemma orbitals_spec (ty : AtomType) :
  List.length (orbitals ty) = cfg_atomicNumber (ATOM_CONFIGS ty)
  /\ List.length (orbitals ty) = orbitalCount ty
  /\ forallb (fun orb => match parseIntCharAt0 orb.1 with
                         | Some n => Nat.leb 1 n && Nat.leb n 3
                         | None => false
                         end) (orbitals ty) = true.
Proof. destruct ty; vm_compute; done. Qed.

(** X15.  [generateElectrons] returns as many electrons as the atomic
    number of the type.  The electron at index [i] carries the [i]-th
    uuid drawn, spin [+1] for even and [-1] for odd [i], and a principal
    quantum number among 1, 2, 3; it is tagged [core] exactly when that
    number is 1 and the atom is neither hydrogen nor helium.  The call
    draws four random numbers and one uuid per electron. *)
Theorem X15_electron_shells (ty : AtomType) (w : World) :
  let es := (generateElectrons ty w).1 in
  let w' := (generateElectrons ty w).2 in
  List.length es = cfg_atomicNumber (ATOM_CONFIGS ty)
  /\ (forall i e, es !! i = Some e ->
        electron_id e = uuids w i
        /\ spin e = (if Nat.eqb (i mod 2) 0 then 1 else -1)%Z
        /\ (exists n, el_n e = Some n /\ (1 <= n <= 3)%nat)
        /\ (electron_type e = core
            <-> el_n e = Some 1%nat /\ ty <> Hydrogen /\ ty <> Helium))
  /\ (forall k, randoms w' k = randoms w (4 * List.length es + k)%nat)
  /\ (forall k, uuids w' k = uuids w (List.length es + k)%nat).
Proof.
  intros es w'. unfold es, w', generateElectrons.
  destruct (generateElectronsFrom_spec ty (orbitals ty) 0 w) as (Hlen & Hes & Hr & Hu).
  destruct (orbitals_spec ty) as (Hz & _ & Hn).
  split; [by rewrite Hlen |]. split; [| split].
  - intros i e Hi. destruct (Hes i e Hi) as (orb & Ho & Hid & Hs & _ & Hen & Hty).
    split; [done |]. split; [done |].
    rewrite forallb_forall in Hn.
    assert (Hin : In orb (orbitals ty)).
    { apply list_elem_of_In. by eapply list_elem_of_lookup_2. }
    specialize (Hn orb Hin). rewrite <- Hen in Hn, Hty.
    destruct (el_n e) as [n |]; [| done].
    apply andb_true_iff in Hn as [H1 H3]. apply Nat.leb_le in H1, H3. split.
    + exists n. split; [done | lia].
    + rewrite Hty. repeat case_bool_decide; simpl; naive_solver.
  - intros k. by rewrite Hr, Hlen.
  - intros k. by rewrite Hu, Hlen.
Qed.

(** ** The spawn position of a drop *)

(** The loop of [getClosestAtom], started from a candidate [c] at
    distance [m]. *)
Lemma closest_fold (point : Vector3) (others : list AtomData) :
  forall (c : AtomData) (m : R),
  let result := fold_left
                  (fun cm a =>
                     let d := Vector3.distanceTo point (position a) in
                     if ltb d cm.2 then (a, d) else cm)
                  others (c, m) in
  m = Vector3.distanceTo point (position c) ->
  result.2 = Vector3.distanceTo point (position result.1)
  /\ result.2 <= m
  /\ (forall a', In a' others -> result.2 <= Vector3.distanceTo point (position a'))
  /\ ((result.1 = c /\ result.2 = m)
      \/ exists i, others !! i = Some result.1 /\ result.2 < m
                   /\ forall j a', (j < i)%nat -> others !! j = Some a' ->
                        result.2 < Vector3.distanceTo point (position a')).
Proof.
  induction others as [| a0 others IH]; intros c m result Hm.
  - simpl in *. split; [done |]. split; [lra |]. split; [by intros a' [] |]. by left.
  - unfold result. cbn [fold_left]. cbn [snd].
    set (d0 := Vector3.distanceTo point (position a0)).
    destruct (ltb d0 m) eqn:E.
    + apply ltb_spec in E.
      destruct (IH a0 d0 eq_refl) as (H1 & H2 & H3 & H4).
      set (r := fold_left _ others (a0, d0)) in *.
      split; [done |]. split; [lra |]. split.
      * intros a' [<- | Ha']; [done | by apply H3].
      * right. destruct H4 as [[Ha Hd] | (i & Hi & Hlt & Hbefore)].
        -- exists 0%nat. rewrite Ha. split; [done |]. split; [lra |]. intros j a' Hj. lia.
        -- exists (S i). split; [done |]. split; [lra |].
           intros [| j] a' Hj Ha'; simpl in Ha'.
           ++ injection Ha' as <-. done.
           ++ apply (Hbefore j); [lia | done].
    + assert (Hge : m <= d0).
      { destruct (Rle_or_lt m d0) as [? | Hlt]; [done |].
        apply ltb_spec in Hlt. congruence. }
      destruct (IH c m Hm) as (H1 & H2 & H3 & H4).
      set (r := fold_left _ others (c, m)) in *.
      split; [done |]. split; [done |]. split.
      * intros a' [<- | Ha']; [fold d0; lra | by apply H3].
      * destruct H4 as [[Ha Hd] | (i & Hi & Hlt & Hbefore)]; [by left |].
        right. exists (S i). split; [done |]. split; [done |].
        intros [| j] a' Hj Ha'; simpl in Ha'.
        -- injection Ha' as <-. fold d0. lra.
        -- apply (Hbefore j); [lia | done].
Qed.

(** X17.  [getClosestAtom] finds nothing exactly for the empty list.
    Otherwise it returns an atom of the list with its distance to the
    point; no atom of the list is nearer, and every atom before it in
    the list is strictly farther (among equally near atoms the first
    wins). *)
Theorem X17_closest_atom (ats : list AtomData) (point : Vector3) :
  match getClosestAtom ats point with
  | None => ats = []
  | Some (a, d) =>
      d = Vector3.distanceTo point (position a)
      /\ (forall a', In a' ats -> d <= Vector3.distanceTo point (position a'))
      /\ exists i, ats !! i = Some a
                   /\ forall j a', (j < i)%nat -> ats !! j = Some a' ->
                        d < Vector3.distanceTo point (position a')
  end.
Proof.
  destruct ats as [| a0 others]; [done |]. unfold getClosestAtom.
  destruct (closest_fold point others a0 (Vector3.distanceTo point (position a0)) eq_refl)
    as (H1 & H2 & H3 & H4).
  destruct (fold_left _ others _) as [a d]. simpl in *.
  split; [done |]. split.
  - intros a' [<- | Ha']; [done | by apply H3].
  - destruct H4 as [[-> ->] | (i & Hi & Hlt & Hbefore)].
    + exists 0%nat. split; [done |]. intros j a' Hj. lia.
    + exists (S i). split; [done |].
      intros [| j] a' Hj Ha'; simpl in Ha'.
      * injection Ha' as <-. done.
      * apply (Hbefore j); [lia | done].
Qed.

Lemma clampSpawn_bound (v : R) : Rabs (clampSpawn v) <= CONTAINER_SIZE - 2.
Proof.
  unfold clampSpawn.
  pose proof (Rmin_l (CONTAINER_SIZE - 2) v) as Hmin.
  set (m := Rmin (CONTAINER_SIZE - 2) v) in *.
  pose proof (Rmax_l (- CONTAINER_SIZE + 2) m) as Hmax.
  assert (Hlub : Rmax (- CONTAINER_SIZE + 2) m <= CONTAINER_SIZE - 2).
  { apply Rmax_lub; unfold CONTAINER_SIZE in *; lra. }
  apply Rabs_le. unfold CONTAINER_SIZE in *. lra.
Qed.

Lemma calculateSpawnPos_within (unprojected cameraPosition worldDirection : Vector3)
    (ats : list AtomData) :
  withinBox (CONTAINER_SIZE - 2)
            (calculateSpawnPos unprojected cameraPosition worldDirection ats).
Proof.
  unfold calculateSpawnPos. destruct (ltb _ 0.0001).
  - unfold withinBox, CONTAINER_SIZE. simpl. rewrite Rabs_R0. lra.
  - unfold withinBox. simpl. repeat split; apply clampSpawn_bound.
Qed.

(** X18.  Whatever the camera and the atoms of the state,
    [calculateSpawnPos] returns a point at least two units inside the
    container on every axis (the origin when the ray through the pointer
    is parallel to the drop plane). *)
Theorem X18_spawn_position_in_box (unprojected cameraPosition worldDirection : Vector3)
    (ats : list AtomData) :
  withinBox (CONTAINER_SIZE - 2)
            (calculateSpawnPos unprojected cameraPosition worldDirection ats)
  /\ (Rabs (dot (Vector3.normalize (Vector3.sub unprojected cameraPosition))
               (Vector3.normalize worldDirection)) < 0.0001 ->
      calculateSpawnPos unprojected cameraPosition worldDirection ats = Vector3.mk 0 0 0).
Proof.
  split; [apply calculateSpawnPos_within |].
  intros H. unfold calculateSpawnPos. by rewrite ltb_true.
Qed.

Lemma lengthSq_nonneg (v : Vector3) : 0 <= Vector3.lengthSq v.
Proof. unfold Vector3.lengthSq. nra. Qed.

Lemma length_multiplyScalar (v : Vector3) (s : R) :
  0 <= s -> Vector3.length (Vector3.multiplyScalar v s) = Vector3.length v * s.
Proof.
  intros Hs. unfold Vector3.length.
  replace (Vector3.lengthSq (Vector3.multiplyScalar v s))
    with (Vector3.lengthSq v * (s * s))
    by (unfold Vector3.lengthSq; simpl; ring).
  rewrite sqrt_mult_alt by apply lengthSq_nonneg.
  by rewrite sqrt_square.
Qed.

(** [normalize] returns a unit vector, except for the zero vector. *)
Lemma length_normalize (v : Vector3) :
  Vector3.length v <> 0 -> Vector3.length (Vector3.normalize v) = 1.
Proof.
  intros Hne. unfold Vector3.normalize, Vector3.divideScalar.
  rewrite bool_decide_eq_false_2 by done.
  pose proof (length_nonneg v) as Hpos.
  rewrite length_multiplyScalar.
  - field. done.
  - apply Rlt_le. apply Rdiv_lt_0_compat; lra.
Qed.

Lemma distanceTo_offset (a n : Vector3) (s : R) :
  0 <= s ->
  Vector3.distanceTo (Vector3.add a (Vector3.multiplyScalar n s)) a = Vector3.length n * s.
Proof.
  intros Hs. unfold Vector3.distanceTo.
  replace (Vector3.sub (Vector3.add a (Vector3.multiplyScalar n s)) a)
    with (Vector3.multiplyScalar n s)
    by (apply vector_eq; simpl; lra).
  by apply length_multiplyScalar.
Qed.

Lemma clampSpawn_nearer (q a : R) :
  Rabs a <= CONTAINER_SIZE - 2 ->
  (clampSpawn q - a) * (clampSpawn q - a) <= (q - a) * (q - a).
Proof.
  intros Ha.
  assert (Hb : - (CONTAINER_SIZE - 2) <= a <= CONTAINER_SIZE - 2).
  { unfold Rabs in Ha. destruct (Rcase_abs a); lra. }
  clear Ha. unfold clampSpawn, Rmax, Rmin, CONTAINER_SIZE in *.
  repeat destruct (Rle_dec _ _); nra.
Qed.

(** Clamping to the inner box does not move a point away from a point
    of the inner box. *)
Lemma clamp_nearer (q a : Vector3) :
  withinBox (CONTAINER_SIZE - 2) a ->
  Vector3.distanceTo
    (Vector3.mk (clampSpawn (Vector3.x q)) (clampSpawn (Vector3.y q))
                (clampSpawn (Vector3.z q))) a
  <= Vector3.distanceTo q a.
Proof.
  intros (Hx & Hy & Hz). unfold Vector3.distanceTo, Vector3.length.
  apply sqrt_le_1_alt. unfold Vector3.lengthSq. simpl.
  pose proof (clampSpawn_nearer (Vector3.x q) (Vector3.x a) Hx).
  pose proof (clampSpawn_nearer (Vector3.y q) (Vector3.y a) Hy).
  pose proof (clampSpawn_nearer (Vector3.z q) (Vector3.z a) Hz).
  lra.
Qed.

Lemma getClosestAtom_member (ats : list AtomData) (point : Vector3) :
  ats <> [] ->
  exists a d, getClosestAtom ats point = Some (a, d) /\ In a ats
              /\ d = Vector3.distanceTo point (position a).
Proof.
  destruct ats as [| a0 others]; [done |]. intros _. unfold getClosestAtom.
  destruct (closest_fold point others a0 (Vector3.distanceTo point (position a0)) eq_refl)
    as (H1 & _ & _ & H4).
  destruct (fold_left _ others _) as [a d]. simpl in *.
  exists a, d. split; [done |]. split; [| done].
  destruct H4 as [[-> _] | (i & Hi & _)]; [by left |].
  right. apply list_elem_of_In. by eapply list_elem_of_lookup_2.
Qed.

(** X19.  When the state has atoms, all of them at least two units
    inside the container, and the ray through the pointer is not
    parallel to the drop plane, [calculateSpawnPos] returns a point no
    farther than [PROXIMITY_LIMIT] from some atom of the state. *)
Theorem X19_spawn_position_near (unprojected cameraPosition worldDirection : Vector3)
    (ats : list AtomData) :
  ats <> [] ->
  Forall (fun a => withinBox (CONTAINER_SIZE - 2) (position a)) ats ->
  0.0001 <= Rabs (dot (Vector3.normalize (Vector3.sub unprojected cameraPosition))
                      (Vector3.normalize worldDirection)) ->
  exists a, In a ats
    /\ Vector3.distanceTo (calculateSpawnPos unprojected cameraPosition worldDirection ats)
                          (position a)
       <= PROXIMITY_LIMIT.
Proof.
  intros Hne Hbox Hdenom. unfold calculateSpawnPos.
  rewrite ltb_false by done.
  set (q0 := Vector3.add cameraPosition _).
  destruct (getClosestAtom_member ats q0 Hne) as (a & d & -> & Ha & Hd).
  exists a. split; [done |].
  assert (Hin : withinBox (CONTAINER_SIZE - 2) (position a)).
  { apply (proj1 (Forall_forall _ _) Hbox). by apply list_elem_of_In. }
  destruct (gtb d PROXIMITY_LIMIT) eqn:E.
  - apply gtb_spec in E. unfold PROXIMITY_LIMIT in *.
    etrans; [by apply clamp_nearer |].
    rewrite distanceTo_offset by lra.
    rewrite length_normalize; [lra |].
    unfold Vector3.distanceTo in Hd. rewrite <- Hd. lra.
  - etrans; [by apply clamp_nearer |]. rewrite <- Hd.
    destruct (Rle_or_lt d PROXIMITY_LIMIT) as [? | Hlt]; [done |].
    apply gtb_spec in Hlt. congruence.
Qed.

Lemma X19_spawn_position_near_witness :
  exists a, In a [carbonA]
    /\ Vector3.distanceTo
         (calculateSpawnPos (Vector3.mk 1 0 0) (Vector3.mk 10 0 0) (Vector3.mk (-1) 0 0)
            [carbonA])
         (position a)
       <= PROXIMITY_LIMIT.
Proof.
  apply (X19_spawn_position_near (Vector3.mk 1 0 0) (Vector3.mk 10 0 0)
           (Vector3.mk (-1) 0 0) [carbonA]).
  - done.
  - constructor; [| constructor].
    unfold withinBox, CONTAINER_SIZE. simpl. rewrite Rabs_R0. lra.
  - assert (H1 : Vector3.length (Vector3.sub (Vector3.mk 1 0 0) (Vector3.mk 10 0 0)) = 9).
    { rewrite length_on_x by (simpl; lra). simpl. rewrite Rabs_left; lra. }
    assert (H2 : Vector3.length (Vector3.mk (-1) 0 0) = 1).
    { rewrite length_along_x. rewrite Rabs_left; lra. }
    unfold Vector3.normalize. rewrite H1, H2.
    rewrite !bool_decide_eq_false_2 by lra.
    unfold dot. simpl.
    replace ((1 - 10) * (1 / 9) * (-1 * (1 / 1)) + (0 - 0) * (1 / 9) * (0 * (1 / 1))
             + (0 - 0) * (1 / 9) * (0 * (1 / 1))) with 1 by lra.
    rewrite Rabs_right; lra.
Defined.

(** ** Drops land in the container *)

Lemma template_offsets (key : string) (t : MoleculeTemplate) :
  MOLECULE_TEMPLATES key = Some t -> Forall (fun ta => withinBox 2 ta.2) (tmpl_atoms t).
Proof.
  unfold MOLECULE_TEMPLATES. intros H.
  repeat case_bool_decide; try done; injection H as <-; simpl;
    repeat (constructor; [unfold withinBox; simpl; repeat split; apply Rabs_le; lra |]);
    constructor.
Qed.

Lemma withinBox_add (b c : R) (u v : Vector3) :
  withinBox b u -> withinBox c v -> withinBox (b + c) (Vector3.add u v).
Proof.
  intros (Hx & Hy & Hz) (Kx & Ky & Kz). unfold withinBox. simpl.
  pose proof (Rabs_triang (Vector3.x u) (Vector3.x v)).
  pose proof (Rabs_triang (Vector3.y u) (Vector3.y v)).
  pose proof (Rabs_triang (Vector3.z u) (Vector3.z v)).
  repeat split; lra.
Qed.

Lemma withinBox_weaken (b c : R) (v : Vector3) : b <= c -> withinBox b v -> withinBox c v.
Proof. intros Hbc (Hx & Hy & Hz). unfold withinBox. repeat split; lra. Qed.

Lemma dropMolecule_atoms (key : string) (spawnPos : Vector3) (s : SimulationState)
    (w : World) :
  atoms (dropMolecule key spawnPos s w).1
  = atoms s ++ (createMoleculeFromTemplate key spawnPos w).1.1
  /\ bonds (dropMolecule key spawnPos s w).1
     = bonds s ++ (createMoleculeFromTemplate key spawnPos w).1.2
  /\ (dropMolecule key spawnPos s w).2 = (createMoleculeFromTemplate key spawnPos w).2.
Proof.
  unfold dropMolecule.
  by destruct (createMoleculeFromTemplate key spawnPos w) as [[ats bs] w'].
Qed.

Lemma createMolecule_within (key : string) (origin : Vector3) (w : World) :
  withinBox (CONTAINER_SIZE - 2) origin ->
  Forall (fun a => withinBox CONTAINER_SIZE (position a))
         (createMoleculeFromTemplate key origin w).1.1.
Proof.
  intros Ho.
  destruct (MOLECULE_TEMPLATES key) as [t |] eqn:Ht.
  - destruct (createMolecule_result key t origin w Ht) as (news & -> & _). simpl.
    pose proof (createAtoms_shape origin (tmpl_atoms t) w) as Hshape.
    pose proof (template_offsets key t Ht) as Hoff.
    apply Forall_forall. intros a Ha. apply list_elem_of_lookup in Ha as [k Hk].
    destruct (Forall2_lookup_l _ _ _ _ _ Hshape Hk) as (ta & Hta & id & vel & ->).
    pose proof (proj1 (Forall_lookup _ _) Hoff _ _ Hta) as Hta2. simpl in Hta2.
    simpl. eapply withinBox_weaken; [| by apply withinBox_add].
    unfold CONTAINER_SIZE. lra.
  - unfold createMoleculeFromTemplate. rewrite Ht. simpl. constructor.
Qed.

Lemma handleDrop_within (data : DropData)
    (unprojected cameraPosition worldDirection : Vector3) (s : SimulationState) (w : World) :
  exists news : list AtomData,
    atoms (handleDrop data unprojected cameraPosition worldDirection s w).1
    = atoms s ++ news
    /\ Forall (fun a => withinBox CONTAINER_SIZE (position a)) news.
Proof.
  unfold handleDrop.
  pose proof (calculateSpawnPos_within unprojected cameraPosition worldDirection (atoms s))
    as Hs.
  set (spawnPos := calculateSpawnPos unprojected cameraPosition worldDirection (atoms s))
    in *.
  destruct data as [type | key].
  - exists [newAtom (next (uuids w)) type spawnPos (Vector3.mk 0 0 0)].
    split; [done |]. constructor; [| constructor]. simpl.
    eapply withinBox_weaken; [| exact Hs]. unfold CONTAINER_SIZE. lra.
  - exists (createMoleculeFromTemplate key spawnPos w).1.1.
    split; [apply dropMolecule_atoms | by apply createMolecule_within].
Qed.

(** X20.  Every atom a drop adds to the state lies in the container: the
    atoms of the state after [handleDrop] are the atoms before it,
    followed by atoms within [CONTAINER_SIZE] of the origin on every
    axis, for a single atom and for every preset (and for a key that
    names no preset, which adds nothing); bonds are only appended. *)
Theorem X20_drop_in_container (data : DropData)
    (unprojected cameraPosition worldDirection : Vector3) (s : SimulationState) (w : World) :
  let s' := (handleDrop data unprojected cameraPosition worldDirection s w).1 in
  (exists news : list AtomData,
     atoms s' = atoms s ++ news
     /\ Forall (fun a => withinBox CONTAINER_SIZE (position a)) news)
  /\ (exists news : list BondData, bonds s' = bonds s ++ news)
  /\ photons s' = photons s /\ temperature s' = temperature s.
Proof.
  intros s'. split; [apply handleDrop_within |]. unfold s', handleDrop.
  destruct data as [type | key].
  - split; [exists []; simpl; by rewrite app_nil_r | done].
  - set (spawnPos := calculateSpawnPos _ _ _ _).
    destruct (dropMolecule_atoms key spawnPos s w) as (_ & Hb & _).
    split; [by eexists |]. unfold dropMolecule.
    by destruct (createMoleculeFromTemplate key spawnPos w) as [[ats bs] w'].
Qed.

(** ** The lightning and blast tools *)

Lemma normalize_length_bound (v : Vector3) : Vector3.length (Vector3.normalize v) <= 1.
Proof.
  destruct (Req_dec (Vector3.length v) 0) as [E | E].
  - unfold Vector3.normalize, Vector3.divideScalar.
    rewrite bool_decide_eq_true_2 by done.
    rewrite length_multiplyScalar by lra. rewrite E. lra.
  - rewrite length_normalize by done. lra.
Qed.

Lemma lightningAtoms_spec (point : Vector3) (ats : list AtomData) :
  forall rnd : oracle R,
  Forall2 (lightningEffect point) ats (lightningAtoms point ats rnd).1.1
  /\ forall id, id ∈ (lightningAtoms point ats rnd).1.2
       <-> exists a, In a ats /\ struck point a /\ atom_id a = id.
Proof.
  induction ats as [| a ats IH]; intros rnd; cbn [lightningAtoms].
  - simpl. split; [constructor |]. intros id. split; [set_solver |]. by intros (a & [] & _).
  - destruct (ltb (Vector3.distanceTo (position a) point) 8.0) eqn:E.
    + apply ltb_spec in E.
      set (rnd' := rest (rest (rest (rest rnd)))).
      destruct (IH rnd') as [IH1 IH2].
      destruct (lightningAtoms point ats rnd') as [[ats' affected] rnd''] eqn:El.
      cbn [fst snd] in *. split.
      * constructor; [| done]. unfold lightningEffect. simpl.
        split; [done |]. split; [by destruct a |]. split; [by intros H |].
        intros _. split.
        -- destruct (gtb _ 0.5); [by right | by left].
        -- set (n := Vector3.normalize _).
           replace (Vector3.sub (Vector3.add (velocity a) (Vector3.multiplyScalar n 10))
                      (velocity a))
             with (Vector3.multiplyScalar n 10) by (apply vector_eq; simpl; lra).
           rewrite length_multiplyScalar by lra.
           pose proof (normalize_length_bound
                         (Vector3.mk (next rnd - 0.5) (next (rest rnd) - 0.5)
                                     (next (rest (rest rnd)) - 0.5))) as Hn.
           fold n in Hn. lra.
      * intros id. simpl. rewrite elem_of_union, elem_of_singleton, IH2. split.
        -- intros [-> | (a' & Ha' & Hs & Hid)].
           ++ exists a. split; [by left | done].
           ++ exists a'. split; [by right | done].
        -- intros (a' & [<- | Ha'] & Hs & Hid); [by left |].
           right. by exists a'.
    + assert (Hn : ~ struck point a).
      { unfold struck. intros H. apply ltb_spec in H. congruence. }
      destruct (IH rnd) as [IH1 IH2].
      destruct (lightningAtoms point ats rnd) as [[ats' affected] rnd''] eqn:El.
      cbn [fst snd] in *. split.
      * constructor; [| done]. unfold lightningEffect.
        split; [done |]. split; [done |]. split; [done |]. by intros H.
      * intros id. rewrite IH2. split.
        -- intros (a' & Ha' & Hs & Hid). exists a'. split; [by right | done].
        -- intros (a' & [<- | Ha'] & Hs & Hid); [done |]. by exists a'.
Qed.

(** X21.  The lightning tool raises the temperature by 0.5 and keeps the
    photons.  It keeps every atom in place and unchanged outside a
    radius of 8 around the point; an atom inside receives a kick of
    length at most 10 and keeps or raises its charge by one.  It removes
    exactly the bonds that have an endpoint at an atom inside the radius
    and keeps the others in their order. *)
Theorem X21_lightning_strike (point : Vector3) (s : SimulationState) (w : World) :
  let s' := (lightningStrike point s w).1 in
  temperature s' = temperature s + 0.5 /\ photons s' = photons s
  /\ Forall2 (lightningEffect point) (atoms s) (atoms s')
  /\ sublist (bonds s') (bonds s)
  /\ forall b, In b (bonds s')
       <-> In b (bonds s)
           /\ ~ exists a, In a (atoms s) /\ struck point a
                          /\ (atom_id a = atomA b \/ atom_id a = atomB b).
Proof.
  intros s'. unfold s', lightningStrike.
  destruct (lightningAtoms_spec point (atoms s) (randoms w)) as [Heff Haff].
  destruct (lightningAtoms point (atoms s) (randoms w)) as [[ats affected] rnd].
  cbn [fst snd] in *. simpl.
  split; [done |]. split; [done |]. split; [done |]. split; [apply filter_sublist |].
  intros b. rewrite filter_In, andb_true_iff, !negb_true_iff, !bool_decide_eq_false.
  rewrite !Haff. split.
  - intros (Hb & HA & HB). split; [done |].
    intros (a & Ha & Hs & [E | E]); [apply HA | apply HB]; by exists a.
  - intros (Hb & Hno). split; [done |]. split.
    + intros (a & Ha & Hs & E). apply Hno. exists a. by repeat split; [| | left].
    + intros (a & Ha & Hs & E). apply Hno. exists a. by repeat split; [| | right].
Qed.

Lemma blastAtom_spec (point : Vector3) (a : AtomData) : blastEffect point a (blastAtom point a).
Proof.
  unfold blastEffect, blastAtom. cbv zeta.
  set (dist := Vector3.distanceTo (position a) point).
  assert (Hd0 : 0 <= dist) by apply length_nonneg.
  destruct (ltb dist 15.0) eqn:E.
  - apply ltb_spec in E. simpl.
    split; [done |]. split; [done |]. split; [by destruct a |]. split.
    + intros [H | H]; [lra |].
      assert (Hn : Vector3.normalize (Vector3.subVectors (position a) point)
                   = Vector3.multiplyScalar (Vector3.subVectors (position a) point) (1 / 1)).
      { unfold Vector3.normalize, Vector3.divideScalar.
        by rewrite bool_decide_eq_true_2 by exact H. }
      assert (Hz : Vector3.subVectors (position a) point = Vector3.zero).
      { unfold dist, Vector3.distanceTo, Vector3.length in H.
        apply sqrt_eq_0 in H; [| apply lengthSq_nonneg].
        unfold Vector3.lengthSq in H. unfold Vector3.subVectors. simpl in H.
        set (dx := Vector3.x (position a) - Vector3.x point) in *.
        set (dy := Vector3.y (position a) - Vector3.y point) in *.
        set (dz := Vector3.z (position a) - Vector3.z point) in *.
        assert (dx = 0 /\ dy = 0 /\ dz = 0) as (Hx & Hy & Hz) by (repeat split; nra).
        apply vector_eq; simpl; assumption. }
      rewrite Hn, Hz. clear. destruct a as [id ty p v m q z vc en r mp bp].
      unfold setKinematics. simpl. f_equal. apply vector_eq; simpl; lra.
    + intros [Hpos _].
      set (n := Vector3.normalize (Vector3.subVectors (position a) point)).
      set (force := (1.0 - dist / 15.0) * 40.0).
      assert (Hf : 0 <= force) by (unfold force; nra).
      replace (Vector3.sub (Vector3.add (velocity a) (Vector3.multiplyScalar n force))
                 (velocity a))
        with (Vector3.multiplyScalar n force) by (apply vector_eq; simpl; lra).
      split.
      * rewrite length_multiplyScalar by done.
        unfold n. rewrite length_normalize.
        -- unfold force. lra.
        -- change (Vector3.length (Vector3.subVectors (position a) point)) with dist.
           intros Hc. lra.
      * unfold n, Vector3.normalize, Vector3.divideScalar.
        change (Vector3.length (Vector3.subVectors (position a) point)) with dist.
        rewrite bool_decide_eq_false_2 by (intros Hc; lra).
        unfold force, Vector3.subVectors.
        assert (Hinv : forall x u : R, x * (1 / dist) * u = x * (u / dist))
          by (intros x u; field; lra).
        assert (Hu : (1.0 - dist / 15.0) * 40.0 = (1 - dist / 15) * 40) by lra.
        apply vector_eq; simpl; by rewrite Hinv, Hu.
  - split; [done |]. split; [done |]. split; [done |]. split; [done |].
    intros [_ H].
    assert (Hlt : dist < 15.0) by lra. apply ltb_spec in Hlt. congruence.
Qed.

(** X22.  The blast tool changes nothing but velocities: bonds, photons
    and temperature stay, and so do the position and the charge of every
    atom.  An atom at distance 15 or more from the point, or exactly at
    the point, is unchanged; an atom at a distance [dist] in between
    gains the velocity [(position - point) / dist * (1 - dist / 15) * 40],
    of length [(1 - dist / 15) * 40], directed away from the point. *)
Theorem X22_blast_wave (point : Vector3) (s : SimulationState) (w : World) :
  let s' := (blastWave point s w).1 in
  bonds s' = bonds s /\ photons s' = photons s /\ temperature s' = temperature s
  /\ Forall2 (blastEffect point) (atoms s) (atoms s').
Proof.
  intros s'. unfold s', blastWave. simpl.
  split; [done |]. split; [done |]. split; [done |].
  induction (atoms s) as [| a ats IH]; simpl; constructor; [apply blastAtom_spec | done].
Qed.

(** ** The selection *)

Lemma find_selected (id : string) (prev : list SelectionItem) :
  (exists item, List.find (fun item => bool_decide (sel_id item = id)) prev = Some item)
  <-> id ∈ map sel_id prev.
Proof.
  change (map sel_id prev) with (sel_id <$> prev). rewrite list_elem_of_fmap. split.
  - intros (item & H). apply find_some in H as [H1 H2].
    exists item. split; [by apply bool_decide_eq_true in H2 | by apply list_elem_of_In].
  - intros (item & -> & Hin). apply list_elem_of_In in Hin.
    destruct (List.find _ prev) as [found |] eqn:E; [by exists found |].
    exfalso. pose proof (find_none _ _ E item Hin) as Hn. simpl in Hn.
    by rewrite bool_decide_eq_true_2 in Hn.
Qed.

Lemma List_filter_sublist {A} (f : A -> bool) (l : list A) : sublist (List.filter f l) l.
Proof.
  induction l as [| x l IH]; simpl; [done |].
  destruct (f x); [by apply sublist_skip | by apply sublist_cons].
Qed.

Lemma filter_other_ids (id : string) (prev : list SelectionItem) :
  let next := List.filter (fun item => negb (bool_decide (sel_id item = id))) prev in
  (id ∉ map sel_id next)
  /\ (NoDup (map sel_id prev) -> NoDup (map sel_id next))
  /\ (List.length next <= List.length prev)%nat
  /\ (NoDup (map sel_id prev) -> id ∈ map sel_id prev ->
      S (List.length next) = List.length prev).
Proof.
  induction prev as [| p prev IH]; simpl.
  - split; [by intros H%elem_of_nil |]. split; [done |]. split; [done |].
    by intros _ H%elem_of_nil.
  - destruct IH as (IH1 & IH2 & IH3 & IH4).
    case_bool_decide as E; simpl.
    + split; [done |]. split.
      * intros Hnd. apply NoDup_cons in Hnd as [_ Hnd]. by apply IH2.
      * split; [lia |]. intros Hnd _. apply NoDup_cons in Hnd as [Hp Hnd].
        f_equal. rewrite E in Hp.
        assert (Hsame : List.filter (fun item => negb (bool_decide (sel_id item = id))) prev
                        = prev).
        { clear -Hp. induction prev as [| q prev IH]; simpl; [done |].
          simpl in Hp. apply not_elem_of_cons in Hp as [Hq Hp].
          rewrite bool_decide_eq_false_2 by done. simpl. f_equal. by apply IH. }
        by rewrite Hsame.
    + split.
      * intros H. apply elem_of_cons in H as [H | H]; [by symmetry in H | done].
      * split; [| split; [lia |]].
        -- intros Hnd. apply NoDup_cons in Hnd as [Hp Hnd]. apply NoDup_cons. split.
           ++ intros Hin. apply Hp.
              change (map sel_id ?l) with (sel_id <$> l) in *.
              apply list_elem_of_fmap in Hin as (q & Hq & Hin).
              apply list_elem_of_fmap. exists q. split; [done |].
              apply list_elem_of_In. apply list_elem_of_In in Hin.
              by apply filter_In in Hin as [Hin _].
           ++ by apply IH2.
        -- intros Hnd Hin. apply NoDup_cons in Hnd as [Hp Hnd].
           apply elem_of_cons in Hin as [Hin | Hin]; [by symmetry in Hin |].
           f_equal. by apply IH4.
Qed.

(** X23.  The selection updater keeps a list of at most two items with
    pairwise different ids.  Clicking a selected item removes it (and
    nothing else); clicking another item appends it, evicting the older
    one when two items were selected. *)
Theorem X23_toggle_selection (newItem : SelectionItem) (prev : list SelectionItem) :
  NoDup (map sel_id prev) -> (List.length prev <= 2)%nat ->
  let next := toggleSelection newItem prev in
  NoDup (map sel_id next) /\ (List.length next <= 2)%nat
  /\ (sel_id newItem ∈ map sel_id prev ->
      (sel_id newItem ∉ map sel_id next) /\ S (List.length next) = List.length prev
      /\ sublist next prev)
  /\ (sel_id newItem ∉ map sel_id prev ->
      match prev with
      | [older; newer] => next = [newer; newItem]
      | _ => next = prev ++ [newItem]
      end).
Proof.
  intros Hnd Hlen next. unfold next, toggleSelection.
  destruct (filter_other_ids (sel_id newItem) prev) as (F1 & F2 & F3 & F4).
  destruct (List.find _ prev) as [found |] eqn:E.
  - assert (Hin : sel_id newItem ∈ map sel_id prev).
    { apply find_selected. by exists found. }
    split; [by apply F2 |]. split; [simpl in F3; lia |]. split; [| done].
    intros _. split; [done |]. split; [by apply F4 | apply List_filter_sublist].
  - assert (Hout : sel_id newItem ∉ map sel_id prev).
    { intros Hin. apply find_selected in Hin as [item Hitem]. congruence. }
    destruct prev as [| p0 [| p1 [| p2 rest']]]; simpl in *; try lia.
    + split; [apply NoDup_singleton |]. split; [lia |]. done.
    + split.
      * apply NoDup_cons. split; [| apply NoDup_singleton].
        intros H. apply list_elem_of_singleton in H. apply Hout. rewrite H. by left.
      * split; [lia |]. done.
    + split.
      * apply NoDup_cons. split; [| apply NoDup_singleton].
        intros H. apply list_elem_of_singleton in H. apply Hout. rewrite H.
        right. by left.
      * split; [lia |]. done.
Qed.

Lemma X23_toggle_selection_witness :
  let item := mkSelection "a" selected_atom (Some Carbon) Vector3.zero 0 (Some 2.55) None in
  NoDup (map sel_id (toggleSelection item []))
  /\ (List.length (toggleSelection item []) <= 2)%nat.
Proof.
  intros item.
  destruct (X23_toggle_selection item []) as (H1 & H2 & _).
  - constructor.
  - simpl. lia.
  - split; [exact H1 | exact H2].
Defined.

(** ** Invariants of the application *)

Lemma resetSimulation_water (w : World) :
  let m1 := createMoleculeFromTemplate "water" (Vector3.mk 0 0 0) w in
  let m2 := createMoleculeFromTemplate "water" (Vector3.mk 2.5 1 1) m1.2 in
  let m3 := createMoleculeFromTemplate "water" (Vector3.mk (-2) (-1) 0.5) m2.2 in
  resetSimulation reset_water w
  = (mkState (m1.1.1 ++ m2.1.1 ++ m3.1.1) (m1.1.2 ++ m2.1.2 ++ m3.1.2) [] 3.0 true 1.0
             (Vector3.mk 0 0 0) false, m3.2).
Proof.
  intros m1 m2 m3. unfold resetSimulation, m3, m2, m1.
  destruct (createMoleculeFromTemplate "water" (Vector3.mk 0 0 0) w) as [[a1 b1] w1].
  cbn [fst snd].
  destruct (createMoleculeFromTemplate "water" (Vector3.mk 2.5 1 1) w1) as [[a2 b2] w2].
  cbn [fst snd].
  by destruct (createMoleculeFromTemplate "water" (Vector3.mk (-2) (-1) 0.5) w2)
    as [[a3 b3] w3].
Qed.

Lemma resetSimulation_salt (w : World) :
  let m := createMoleculeFromTemplate "salt" (Vector3.mk 0 0 0) w in
  resetSimulation reset_salt w
  = (mkState m.1.1 m.1.2 [] 3.0 true 1.0 (Vector3.mk 0 0 0) false, m.2).
Proof.
  intros m. unfold resetSimulation, m.
  by destruct (createMoleculeFromTemplate "salt" (Vector3.mk 0 0 0) w) as [[a b] w1].
Qed.

Lemma resetSimulation_frame (type : ResetType) (w : World) :
  let s := (resetSimulation type w).1 in
  photons s = [] /\ temperature s = 3.0 /\ isRunning s = true /\ timeScale s = 1.0
  /\ magneticField s = Vector3.mk 0 0 0 /\ showFieldVectors s = false.
Proof.
  destruct type.
  - by rewrite resetSimulation_water.
  - by rewrite resetSimulation_salt.
  - done.
Qed.

Lemma resetSimulation_contained (type : ResetType) (w : World) :
  contained (resetSimulation type w).1.
Proof.
  unfold contained. destruct type.
  - rewrite resetSimulation_water. cbn [fst atoms].
    rewrite !Forall_app. repeat split; apply createMolecule_within;
      unfold withinBox, CONTAINER_SIZE; simpl; repeat split; apply Rabs_le; lra.
  - rewrite resetSimulation_salt. cbn [fst atoms]. apply createMolecule_within.
    unfold withinBox, CONTAINER_SIZE; simpl; repeat split; apply Rabs_le; lra.
  - simpl. constructor; [| constructor; [| constructor]];
      unfold withinBox, CONTAINER_SIZE; simpl; repeat split; apply Rabs_le; lra.
Qed.

Lemma Forall2_positions (P : Vector3 -> Prop) (R : AtomData -> AtomData -> Prop)
    (l l' : list AtomData) :
  (forall a a', R a a' -> position a' = position a) ->
  Forall2 R l l' -> Forall (fun a => P (position a)) l -> Forall (fun a => P (position a)) l'.
Proof.
  intros HR. induction 1 as [| a a' l l' Ha _ IH]; intros Hl; [constructor |].
  apply Forall_cons in Hl as [Hp Hl]. constructor; [| by apply IH].
  by rewrite (HR a a' Ha).
Qed.

Lemma lightningStrike_atoms (point : Vector3) (s : SimulationState) (w : World) :
  Forall2 (lightningEffect point) (atoms s) (atoms (lightningStrike point s w).1)
  /\ sublist (bonds (lightningStrike point s w).1) (bonds s)
  /\ uuids (lightningStrike point s w).2 = rest (uuids w)
  /\ isRunning (lightningStrike point s w).1 = isRunning s.
Proof.
  unfold lightningStrike.
  destruct (lightningAtoms_spec point (atoms s) (randoms w)) as [Heff _].
  destruct (lightningAtoms point (atoms s) (randoms w)) as [[ats affected] rnd].
  simpl in *. split; [done |]. split; [apply List_filter_sublist | done].
Qed.

Lemma blastWave_atoms (point : Vector3) (s : SimulationState) :
  Forall2 (blastEffect point) (atoms s) (map (blastAtom point) (atoms s)).
Proof.
  induction (atoms s) as [| a ats IH]; simpl; constructor; [apply blastAtom_spec | done].
Qed.

Section AppFacts.

Variable bondCallback : BondCallback.
Variables ionicRestLength covalentRestLength : AtomData -> AtomData -> R.
Variable tool : option Vector3 -> option Vector3.

#[local] Abbreviation frame :=
  (fun vortexPos => useFrame bondCallback ionicRestLength covalentRestLength (tool vortexPos)).

Lemma handleEvent_contained (a : AppState) (w : World) (ev : Event) :
  contained (stateRef (app_component a)) ->
  contained (stateRef (app_component (handleEvent frame (a, w) ev).1)).
Proof.
  intros Hc. unfold handleEvent.
  destruct ev as [delta | data u cp wd | activeTool point | activeTool | activeTool point
                  | usesCursor atom | usesCursor el worldPos | type | | | | value | value].
  - pose proof (useFrame_within bondCallback ionicRestLength covalentRestLength
                  (tool (app_vortexPos a)) (app_component a) delta w) as Hrun.
    pose proof (useFrame_paused bondCallback ionicRestLength covalentRestLength
                  (tool (app_vortexPos a)) (app_component a) delta w) as Hpause.
    destruct (useFrame _ _ _ _ (app_component a) delta w) as [c' w'] eqn:E. simpl in *.
    destruct (isRunning (stateRef (app_component a))).
    + by apply Hrun.
    + specialize (Hpause eq_refl). by injection Hpause as -> ->.
  - unfold withState, contained. simpl.
    destruct (handleDrop_within data u cp wd (stateRef (app_component a)) w)
      as (news & -> & Hn).
    apply Forall_app. by split.
  - destruct activeTool; unfold withState; simpl; try done.
    + destruct (lightningStrike_atoms point (stateRef (app_component a)) w) as [Heff _].
      apply (Forall2_positions _ (lightningEffect point) (atoms (stateRef (app_component a))));
        [by intros x y (H & _) | done | done].
    + apply (Forall2_positions _ (blastEffect point) (atoms (stateRef (app_component a))));
        [by intros x y (H & _) | apply blastWave_atoms | done].
  - by destruct (bool_decide _).
  - by destruct (_ && _).
  - done.
  - done.
  - pose proof (resetSimulation_contained type w) as Hr.
    by destruct (resetSimulation type w) as [s' w'].
  - done.
  - done.
  - done.
  - done.
  - done.
Qed.

Lemma handleEvents_contained (evs : list Event) :
  forall (a : AppState) (w : World),
  contained (stateRef (app_component a)) ->
  contained (stateRef (app_component (handleEvents frame evs a w).1)).
Proof.
  unfold handleEvents. induction evs as [| ev evs IH]; intros a w Hc; cbn [fold_left];
    [done |].
  pose proof (handleEvent_contained a w ev Hc) as Hc'.
  destruct (handleEvent frame (a, w) ev) as [a' w']. by apply IH.
Qed.

Lemma useFrame_running_flag (c : Component) (delta : R) (w : World) (vp : option Vector3) :
  isRunning (stateRef (frame vp c delta w).1) = isRunning (stateRef c).
Proof.
  by destruct (useFrame_frame bondCallback ionicRestLength covalentRestLength (tool vp)
                 c delta w) as (_ & _ & _ & H & _).
Qed.

Lemma toggleSelection_ok (newItem : SelectionItem) (prev : list SelectionItem) :
  NoDup (map sel_id prev) -> (List.length prev <= 2)%nat ->
  NoDup (map sel_id (toggleSelection newItem prev))
  /\ (List.length (toggleSelection newItem prev) <= 2)%nat.
Proof.
  intros Hnd Hlen. unfold toggleSelection.
  destruct (filter_other_ids (sel_id newItem) prev) as (F1 & F2 & F3 & F4).
  destruct (List.find _ prev) as [found |] eqn:E.
  - split; [by apply F2 | simpl in F3; lia].
  - assert (Hout : sel_id newItem ∉ map sel_id prev).
    { intros Hin. apply find_selected in Hin as [item Hitem]. congruence. }
    destruct prev as [| p0 [| p1 [| p2 rest']]]; simpl in *; try lia.
    + split; [apply NoDup_singleton | lia].
    + split; [| lia]. apply NoDup_cons. split; [| apply NoDup_singleton].
      intros H. apply list_elem_of_singleton in H. apply Hout. rewrite H. by left.
    + split; [| lia]. apply NoDup_cons. split; [| apply NoDup_singleton].
      intros H. apply list_elem_of_singleton in H. apply Hout. rewrite H.
      right. by left.
Qed.

Lemma handleEvent_selection (a : AppState) (w : World) (ev : Event) :
  selectionOk a -> selectionOk (handleEvent frame (a, w) ev).1.
Proof.
  intros (Hrun & Hlen & Hnd). unfold handleEvent, selectionOk.
  destruct ev as [delta | data u cp wd | activeTool point | activeTool | activeTool point
                  | usesCursor atom | usesCursor el worldPos | type | | | | value | value].
  - pose proof (useFrame_running_flag (app_component a) delta w (app_vortexPos a)) as Hflag.
    cbv beta in Hflag.
    destruct (useFrame _ _ _ _ (app_component a) delta w) as [c' w'] eqn:E. simpl in *.
    rewrite Hflag. done.
  - unfold withState, handleDrop. simpl.
    destruct data as [type | key]; simpl; [done |].
    unfold dropMolecule. by destruct (createMoleculeFromTemplate _ _ _) as [[ats bs] w'].
  - destruct activeTool; unfold withState; simpl; try done.
    destruct (lightningStrike_atoms point (stateRef (app_component a)) w)
      as (_ & _ & _ & ->). done.
  - by destruct (bool_decide _).
  - by destruct (_ && _).
  - simpl. unfold handleNucleusSelect.
    destruct usesCursor; simpl; [| done].
    destruct (isRunning (stateRef (app_component a))) eqn:Er; [done |].
    split; [done |].
    by destruct (toggleSelection_ok (nucleusItem atom) (app_selection a) Hnd Hlen).
  - simpl. unfold handleElectronSelect.
    destruct usesCursor; simpl; [| done].
    destruct (isRunning (stateRef (app_component a))) eqn:Er; [done |].
    split; [done |].
    by destruct (toggleSelection_ok (electronItem el worldPos) (app_selection a) Hnd Hlen).
  - destruct (resetSimulation type w) as [s' w']. simpl.
    split; [done |]. split; [lia | constructor].
  - done.
  - simpl. destruct (isRunning (stateRef (app_component a))); simpl.
    + split; [done |]. done.
    + split; [done |]. split; [lia | constructor].
  - done.
  - done.
  - done.
Qed.

Lemma handleEvents_selection (evs : list Event) :
  forall (a : AppState) (w : World),
  selectionOk a -> selectionOk (handleEvents frame evs a w).1.
Proof.
  unfold handleEvents. induction evs as [| ev evs IH]; intros a w Hc; cbn [fold_left];
    [done |].
  pose proof (handleEvent_selection a w ev Hc) as Hc'.
  destruct (handleEvent frame (a, w) ev) as [a' w']. by apply IH.
Qed.

End AppFacts.

(** X24.  Once every atom lies in the container, every atom lies in the
    container after any sequence of events -- animation frames of either
    variant, drops, the pointer tools, selection clicks, resets, photons,
    play and pause, the field toggle and the two sliders. *)
Theorem X24_atoms_stay_in_container (evs : list Event) (a : AppState) (w : World) :
  contained (stateRef (app_component a)) ->
  contained (stateRef (app_component (handleEvents FirstVariant.useFrame evs a w).1))
  /\ contained (stateRef (app_component
                            (handleEvents (fun _ => SecondVariant.useFrame) evs a w).1)).
Proof.
  intros Hc. split.
  - by apply (handleEvents_contained V1.bondCallback V1.ionicRestLength
                V1.covalentRestLength (fun v => v)).
  - by apply (handleEvents_contained V2.bondCallback V2.ionicRestLength
                V2.covalentRestLength (fun _ => None)).
Qed.

Lemma X24_atoms_stay_in_container_witness :
  let evs := [ResetClick reset_water; AnimationFrame 0.016;
              PointerDown blast (Vector3.mk 1 0 0); AnimationFrame 0.016] in
  contained (stateRef (app_component
                         (handleEvents FirstVariant.useFrame evs initialApp calmWorld).1))
  /\ contained (stateRef (app_component
                            (handleEvents (fun _ => SecondVariant.useFrame) evs initialApp
                               calmWorld).1)).
Proof.
  intros evs. apply (X24_atoms_stay_in_container evs initialApp calmWorld). constructor.
Defined.

(** X25.  From the state in which the application is mounted, after any
    sequence of events and in either variant: nothing is selected while
    the simulation is running, and at most two items are selected, with
    different ids. *)
Theorem X25_selection_invariant (evs : list Event) (w : World) :
  selectionOk (handleEvents FirstVariant.useFrame evs initialApp w).1
  /\ selectionOk (handleEvents (fun _ => SecondVariant.useFrame) evs initialApp w).1.
Proof.
  assert (H0 : selectionOk initialApp).
  { split; [done |]. split; [simpl; lia | constructor]. }
  split.
  - by apply (handleEvents_selection V1.bondCallback V1.ionicRestLength
                V1.covalentRestLength (fun v => v)).
  - by apply (handleEvents_selection V2.bondCallback V2.ionicRestLength
                V2.covalentRestLength (fun _ => None)).
Qed.

(** ** Unique ids and bonds between atoms of the state *)

Lemma joinsAtoms_ids (ats ats' : list AtomData) (b : BondData) :
  map atom_id ats' = map atom_id ats -> joinsAtoms ats b -> joinsAtoms ats' b.
Proof. unfold joinsAtoms. by intros ->. Qed.

Lemma joinsAtoms_app_l (ats news : list AtomData) (b : BondData) :
  joinsAtoms ats b -> joinsAtoms (ats ++ news) b.
Proof.
  unfold joinsAtoms. rewrite map_app. intros (HA & HB & Hne).
  repeat split; [apply elem_of_app | apply elem_of_app | done]; by left.
Qed.

Lemma joinsAtoms_app_r (ats news : list AtomData) (b : BondData) :
  joinsAtoms news b -> joinsAtoms (ats ++ news) b.
Proof.
  unfold joinsAtoms. rewrite map_app. intros (HA & HB & Hne).
  repeat split; [apply elem_of_app | apply elem_of_app | done]; by right.
Qed.

Lemma intactLists_later (ats ats' : list AtomData) (bs bs' : list BondData)
    (ids ids' : oracle string) :
  intactLists ats bs ids ->
  map atom_id ats' = map atom_id ats ->
  (forall b, In b bs' -> In b bs \/ joinsAtoms ats b) ->
  laterOf ids' ids ->
  intactLists ats' bs' ids'.
Proof.
  intros (Hnd & Hbs & Hinj & Hfresh) Hids Hb [m Hm]. unfold intactLists.
  rewrite Hids. split; [done |]. split; [| split].
  - apply Forall_forall. intros b Hin. apply list_elem_of_In in Hin.
    apply (joinsAtoms_ids ats); [done |].
    destruct (Hb b Hin) as [Hold | Hnew]; [| done].
    apply (proj1 (Forall_forall _ _) Hbs). by apply list_elem_of_In.
  - intros i j. rewrite !Hm. intros H. apply Hinj in H. lia.
  - intros n. rewrite Hm. apply Hfresh.
Qed.

Lemma intactLists_extend (ats news : list AtomData) (bs nbs : list BondData)
    (ids ids' : oracle string) (M : nat) (idxs : list nat) :
  intactLists ats bs ids ->
  (forall k, ids' k = ids (M + k)%nat) ->
  map atom_id news = map ids idxs -> NoDup idxs -> Forall (fun i => (i < M)%nat) idxs ->
  Forall (joinsAtoms news) nbs ->
  intactLists (ats ++ news) (bs ++ nbs) ids'.
Proof.
  intros (Hnd & Hbs & Hinj & Hfresh) Hshift Hnews Hidx HM Hnbs. unfold intactLists.
  rewrite map_app. split; [| split; [| split]].
  - apply NoDup_app. split; [done |]. split.
    + intros id Hold Hnew. rewrite Hnews in Hnew.
      change (map ids idxs) with (ids <$> idxs) in Hnew.
      apply list_elem_of_fmap in Hnew as (i & -> & _). by apply (Hfresh i).
    + rewrite Hnews. change (map ids idxs) with (ids <$> idxs).
      apply NoDup_fmap_2; [| done]. intros i j. apply Hinj.
  - apply Forall_app. split.
    + eapply Forall_impl; [exact Hbs |]. intros b. apply joinsAtoms_app_l.
    + eapply Forall_impl; [exact Hnbs |]. intros b. apply joinsAtoms_app_r.
  - intros i j. rewrite !Hshift. intros H. apply Hinj in H. lia.
  - intros n. rewrite Hshift. intros Hin. apply elem_of_app in Hin as [Hin | Hin].
    + by apply (Hfresh (M + n)%nat).
    + rewrite Hnews in Hin. change (map ids idxs) with (ids <$> idxs) in Hin.
      apply list_elem_of_fmap in Hin as (i & E & Hi). apply Hinj in E.
      pose proof (proj1 (Forall_forall _ _) HM i Hi) as Hlt. simpl in Hlt. lia.
Qed.

Lemma formedBetween_joins (ats : list AtomData) (b : BondData) :
  NoDup (map atom_id ats) -> formedBetween (map atom_id ats) b -> joinsAtoms ats b.
Proof.
  intros Hnd (_ & _ & i & j & Hij & Hi & Hj). unfold joinsAtoms.
  split; [by eapply list_elem_of_lookup_2 |]. split; [by eapply list_elem_of_lookup_2 |].
  intros E. rewrite E in Hi.
  pose proof (NoDup_lookup _ _ _ _ Hnd Hi Hj). lia.
Qed.

(** The molecule of a template, seen from the uuid oracle. *)
Lemma createMolecule_intact (key : string) (origin : Vector3) (w : World) :
  (forall m n : nat, uuids w m = uuids w n -> m = n) ->
  let m := createMoleculeFromTemplate key origin w in
  exists (M : nat) (idxs : list nat),
    (forall k, uuids m.2 k = uuids w (M + k)%nat)
    /\ map atom_id m.1.1 = map (uuids w) idxs /\ NoDup idxs
    /\ Forall (fun i => (i < M)%nat) idxs
    /\ Forall (joinsAtoms m.1.1) m.1.2.
Proof.
  intros Hinj m. unfold m.
  destruct (MOLECULE_TEMPLATES key) as [t |] eqn:Ht.
  - destruct (createMolecule_result key t origin w Ht) as (news & -> & Hf).
    cbn [fst snd uuids].
    destruct (createAtoms_world origin (tmpl_atoms t) w) as (M & HM & Hlt).
    pose proof (createAtoms_fresh origin (tmpl_atoms t) w Hinj) as [Hnd _].
    pose proof (createAtoms_shape origin (tmpl_atoms t) w) as Hshape.
    exists (M + List.length (tmpl_bonds t))%nat, (idIndices (tmpl_atoms t)).
    split; [| split; [| split; [| split]]].
    + intros k. unfold skip. rewrite HM. f_equal. lia.
    + apply createAtoms_ids.
    + apply idIndices_NoDup.
    + eapply Forall_impl; [exact Hlt |]. intros i Hi. simpl in *. lia.
    + apply Forall_forall. intros b Hb. apply list_elem_of_lookup in Hb as [k Hk].
      destruct (Forall2_lookup_l _ _ _ _ _ Hf Hk) as (tb & Htb & a1 & a2 & H1 & H2 & Eb).
      assert (Hin : In tb (tmpl_bonds t)).
      { apply list_elem_of_In. by eapply list_elem_of_lookup_2. }
      destruct (templateSound_spec t tb (templates_sound key t Ht) Hin) as [_ Hne].
      rewrite Eb. unfold joinsAtoms, templateBond. simpl.
      split; [| split].
      * eapply list_elem_of_lookup_2. by apply lookup_atom_id.
      * eapply list_elem_of_lookup_2. by apply lookup_atom_id.
      * intros E. apply Hne.
        apply (NoDup_lookup _ _ _ _ Hnd (lookup_atom_id _ _ _ H1)).
        rewrite E. by apply lookup_atom_id.
  - unfold createMoleculeFromTemplate. rewrite Ht. simpl.
    exists 0%nat, []. repeat split; try done; constructor.
Qed.

Lemma intactLists_molecule (key : string) (origin : Vector3) (w : World)
    (ats : list AtomData) (bs : list BondData) :
  intactLists ats bs (uuids w) ->
  let m := createMoleculeFromTemplate key origin w in
  intactLists (ats ++ m.1.1) (bs ++ m.1.2) (uuids m.2).
Proof.
  intros Hi m.
  destruct (createMolecule_intact key origin w) as (M & idxs & H1 & H2 & H3 & H4 & H5).
  { apply Hi. }
  by apply (intactLists_extend ats _ bs _ (uuids w) _ M idxs).
Qed.

Lemma intactLists_empty (ids : oracle string) :
  (forall m n : nat, ids m = ids n -> m = n) -> intactLists [] [] ids.
Proof.
  intros Hinj. unfold intactLists. split; [constructor |]. split; [constructor |].
  split; [done |]. intros n H. by apply elem_of_nil in H.
Qed.

Lemma resetSimulation_intact (type : ResetType) (w : World) :
  (forall m n : nat, uuids w m = uuids w n -> m = n) ->
  intactState (resetSimulation type w).1 (resetSimulation type w).2.
Proof.
  intros Hinj. unfold intactState. pose proof (intactLists_empty (uuids w) Hinj) as H0.
  destruct type.
  - rewrite resetSimulation_water. cbn [fst snd atoms bonds].
    pose proof (intactLists_molecule "water" (Vector3.mk 0 0 0) w [] [] H0) as H1.
    cbv zeta in H1.
    pose proof (intactLists_molecule "water" (Vector3.mk 2.5 1 1) _ _ _ H1) as H2.
    cbv zeta in H2.
    pose proof (intactLists_molecule "water" (Vector3.mk (-2) (-1) 0.5) _ _ _ H2) as H3.
    cbv zeta in H3.
    rewrite !app_nil_l, <- !app_assoc in H3. exact H3.
  - rewrite resetSimulation_salt. cbn [fst snd atoms bonds].
    pose proof (intactLists_molecule "salt" (Vector3.mk 0 0 0) w [] [] H0) as H1.
    cbv zeta in H1. by rewrite !app_nil_l in H1.
  - unfold resetSimulation. cbn [fst snd atoms bonds uuids].
    change [setCharge 1 (newAtom (next (uuids w)) Sodium (Vector3.mk (-3) 0 0)
                           (Vector3.mk 0 0 0));
            setCharge (-1) (newAtom (next (rest (uuids w))) Chlorine (Vector3.mk 3 0 0)
                              (Vector3.mk 0 0 0))]
      with ([] ++ [setCharge 1 (newAtom (next (uuids w)) Sodium (Vector3.mk (-3) 0 0)
                                  (Vector3.mk 0 0 0));
                   setCharge (-1) (newAtom (next (rest (uuids w))) Chlorine
                                     (Vector3.mk 3 0 0) (Vector3.mk 0 0 0))]).
    change (@nil BondData) with (@nil BondData ++ []).
    apply (intactLists_extend [] _ [] _ (uuids w) _ 2 [0; 1]%nat); try done.
    + apply NoDup_cons. split; [| apply NoDup_singleton].
      intros H. apply list_elem_of_singleton in H. lia.
    + constructor; [lia | constructor; [lia | constructor]].
Qed.

Lemma lightningEffect_ids (point : Vector3) (l l' : list AtomData) :
  Forall2 (lightningEffect point) l l' -> map atom_id l' = map atom_id l.
Proof.
  induction 1 as [| a a' l l' (_ & Hid & _) _ IH]; simpl; [done |].
  f_equal; [| done]. by apply (f_equal atom_id) in Hid.
Qed.

Lemma blastAtom_ids (point : Vector3) (l : list AtomData) :
  map atom_id (map (blastAtom point) l) = map atom_id l.
Proof.
  rewrite map_map. apply map_ext. intros a. unfold blastAtom. cbv zeta.
  by destruct (ltb _ _).
Qed.

Section IntactFacts.

Variable bondCallback : BondCallback.
Variables ionicRestLength covalentRestLength : AtomData -> AtomData -> R.
Variable tool : option Vector3 -> option Vector3.

#[local] Abbreviation frame :=
  (fun vortexPos => useFrame bondCallback ionicRestLength covalentRestLength (tool vortexPos)).

Lemma useFrame_intact (vp : option Vector3) (c : Component) (delta : R) (w : World) :
  intactState (stateRef c) w ->
  intactState (stateRef (frame vp c delta w).1) (frame vp c delta w).2.
Proof.
  intros Hi. cbv beta.
  destruct (isRunning (stateRef c)) eqn:Hrun.
  2: { by rewrite useFrame_paused. }
  pose proof Hi as (Hnd & _).
  set (chem := chemistryPhase bondCallback ionicRestLength covalentRestLength (tool vp)
                 c delta w).
  assert (Hchem : laterOf (chem_uuids chem.2) (uuids w)
                  /\ forall b, In b (chem_bonds chem.2) ->
                       In b (bonds (stateRef c)) \/ joinsAtoms (atoms (stateRef c)) b).
  { unfold chem, chemistryPhase. destruct (leb _ 0).
    - cbn [snd].
      destruct (chemistryFire_appends ionicRestLength covalentRestLength
                  (temperature (stateRef c))
                  (mkChem (atoms (stateRef c))
                     (bondPhase bondCallback (tool vp) (stateRef c) w).1.1 false (uuids w)))
        as (news & Hb & _ & Hu & _ & Hf).
      cbn [chem_bonds chem_uuids chem_atoms] in *. split.
      + exists (List.length news). exact Hu.
      + intros b Hin. rewrite Hb in Hin. apply in_app_or in Hin as [Hold | Hnew].
        * left. apply list_elem_of_In.
          eapply elem_of_sublist; [by apply list_elem_of_In | apply filterBonds_sublist].
        * right. apply formedBetween_joins; [done |].
          apply (proj1 (Forall_forall _ _) Hf). by apply list_elem_of_In.
    - cbn [snd chem_uuids chem_bonds]. split; [apply laterOf_refl |].
      intros b Hin. left. apply list_elem_of_In.
      eapply elem_of_sublist; [by apply list_elem_of_In | apply filterBonds_sublist]. }
  destruct Hchem as [Hlater Hbonds].
  apply (intactLists_later (atoms (stateRef c)) _ (bonds (stateRef c)) _ (uuids w)).
  - done.
  - rewrite (useFrame_atoms bondCallback ionicRestLength covalentRestLength (tool vp)
               c delta w Hrun).
    apply map_id_kind.
    apply (tick_atoms_kind bondCallback ionicRestLength covalentRestLength (tool vp)
             c delta w).
  - intros b Hin.
    destruct (useFrame_output bondCallback ionicRestLength covalentRestLength (tool vp)
                c delta w Hrun) as [_ Hb].
    cbv zeta in Hb. rewrite Hb in Hin.
    destruct (_ || _ || _); [| by left].
    apply Hbonds. apply list_elem_of_In.
    eapply elem_of_sublist; [by apply list_elem_of_In |].
    apply (tick_newBonds_sublist bondCallback ionicRestLength covalentRestLength (tool vp)
             c delta w).
  - rewrite useFrame_running by done. exact Hlater.
Qed.

Lemma handleEvent_intact (a : AppState) (w : World) (ev : Event) :
  intactState (stateRef (app_component a)) w ->
  intactState (stateRef (app_component (handleEvent frame (a, w) ev).1))
              (handleEvent frame (a, w) ev).2.
Proof.
  intros Hi. unfold handleEvent.
  destruct ev as [delta | data u cp wd | activeTool point | activeTool | activeTool point
                  | usesCursor atom | usesCursor el worldPos | type | | | | value | value].
  - pose proof (useFrame_intact (app_vortexPos a) (app_component a) delta w Hi) as H.
    cbv beta in H.
    by destruct (useFrame _ _ _ _ (app_component a) delta w) as [c' w'].
  - unfold withState, handleDrop. cbn [fst snd app_component stateRef].
    set (spawnPos := calculateSpawnPos u cp wd (atoms (stateRef (app_component a)))).
    destruct data as [type | key].
    + unfold dropAtom, intactState. cbn [fst snd atoms bonds uuids].
      rewrite <- (app_nil_r (bonds (stateRef (app_component a)))).
      apply (intactLists_extend _ _ _ _ (uuids w) _ (1 + orbitalCount type) [0%nat]);
        try done.
      * apply NoDup_singleton.
      * constructor; [simpl; lia | constructor].
    + destruct (dropMolecule_atoms key spawnPos (stateRef (app_component a)) w)
        as (Ha & Hb & Hw).
      unfold intactState. rewrite Ha, Hb, Hw. by apply intactLists_molecule.
  - destruct activeTool; unfold withState; cbn [fst snd app_component stateRef]; try done.
    + destruct (lightningStrike_atoms point (stateRef (app_component a)) w)
        as (Heff & Hsub & Hu & _).
      unfold intactState. rewrite Hu.
      apply (intactLists_later (atoms (stateRef (app_component a))) _
               (bonds (stateRef (app_component a))) _ (uuids w)); [done | | |].
      * by apply (lightningEffect_ids point).
      * intros b Hin. left. apply list_elem_of_In.
        eapply elem_of_sublist; [by apply list_elem_of_In | done].
      * apply laterOf_rest, laterOf_refl.
    + unfold blastWave, intactState. cbn [fst snd atoms bonds uuids].
      apply (intactLists_later (atoms (stateRef (app_component a))) _
               (bonds (stateRef (app_component a))) _ (uuids w)); [done | | |].
      * apply blastAtom_ids.
      * intros b Hin. by left.
      * apply laterOf_rest, laterOf_refl.
  - by destruct (bool_decide _).
  - by destruct (_ && _).
  - done.
  - done.
  - pose proof (resetSimulation_intact type w) as Hr.
    destruct (resetSimulation type w) as [s' w']. apply Hr. apply Hi.
  - unfold withState, handleFirePhoton, intactState. cbn [fst snd atoms bonds uuids
      app_component stateRef].
    apply (intactLists_later (atoms (stateRef (app_component a))) _
             (bonds (stateRef (app_component a))) _ (uuids w)); [done | done | |].
    + intros b Hin. by left.
    + apply laterOf_rest, laterOf_refl.
  - done.
  - done.
  - done.
  - done.
Qed.

Lemma handleEvents_intact (evs : list Event) :
  forall (a : AppState) (w : World),
  intactState (stateRef (app_component a)) w ->
  intactState (stateRef (app_component (handleEvents frame evs a w).1))
              (handleEvents frame evs a w).2.
Proof.
  unfold handleEvents. induction evs as [| ev evs IH]; intros a w Hc; cbn [fold_left];
    [done |].
  pose proof (handleEvent_intact a w ev Hc) as Hc'.
  destruct (handleEvent frame (a, w) ev) as [a' w']. by apply IH.
Qed.

End IntactFacts.

(** X26.  With a source of pairwise different uuids that name no atom of
    the state, unique atom ids and bonds that join two different atoms of
    the state are kept by every sequence of events, in either variant:
    no event -- frame, drop (the salt preset included), lightning,
    blast, reset, photon -- creates a duplicate atom id, a bond to a
    missing atom or a bond from an atom to itself. *)
Theorem X26_state_stays_intact (evs : list Event) (a : AppState) (w : World) :
  intactState (stateRef (app_component a)) w ->
  (let r := handleEvents FirstVariant.useFrame evs a w in
   intactState (stateRef (app_component r.1)) r.2)
  /\ (let r := handleEvents (fun _ => SecondVariant.useFrame) evs a w in
      intactState (stateRef (app_component r.1)) r.2).
Proof.
  intros Hi. split.
  - by apply (handleEvents_intact V1.bondCallback V1.ionicRestLength
                V1.covalentRestLength (fun v => v)).
  - by apply (handleEvents_intact V2.bondCallback V2.ionicRestLength
                V2.covalentRestLength (fun _ => None)).
Qed.

Lemma X26_state_stays_intact_witness :
  let evs := [DropEvent (dropped_molecule "salt") (Vector3.mk 1 0 0) (Vector3.mk 10 0 0)
                (Vector3.mk (-1) 0 0);
              AnimationFrame 0.016; PointerDown lightning (Vector3.mk 0 0 0);
              AnimationFrame 0.016] in
  (let r := handleEvents FirstVariant.useFrame evs initialApp calmWorld in
   intactState (stateRef (app_component r.1)) r.2)
  /\ (let r := handleEvents (fun _ => SecondVariant.useFrame) evs initialApp calmWorld in
      intactState (stateRef (app_component r.1)) r.2).
Proof.
  intros evs. apply (X26_state_stays_intact evs initialApp calmWorld).
  apply intactLists_empty. apply serial_inj.
Defined.

(** ** The pair force does not depend on the order of the two atoms *)

Lemma connects_sym (b : BondData) (x y : string) : connects b x y = connects b y x.
Proof. unfold connects. apply orb_comm. Qed.

Lemma isBonded_sym (bs : list BondData) (a1 a2 : AtomData) :
  isBonded bs a2 a1 = isBonded bs a1 a2.
Proof.
  unfold isBonded. induction bs as [| b bs IH]; simpl; [done |].
  by rewrite IH, connects_sym.
Qed.

Lemma pairForceMag_sym (bs : list BondData) (temp : R) (a1 a2 : AtomData) (r : R) :
  pairForceMag bs temp a2 a1 r = pairForceMag bs temp a1 a2 r.
Proof.
  unfold pairForceMag. rewrite isBonded_sym.
  assert (Hlj : ljTerm a2 a1 r = ljTerm a1 a2 r).
  { unfold ljTerm. by rewrite (Rplus_comm (radius a2)). }
  assert (Hc : coulombTerm a2 a1 r = coulombTerm a1 a2 r).
  { unfold coulombTerm. f_equal. lra. }
  rewrite Hlj, Hc, (andb_comm (neqb (charge a2) 0)),
    (Rplus_comm (boilingPoint a2)). done.
Qed.

Lemma lengthSq_negate (v : Vector3) : Vector3.lengthSq (Vector3.negate v) = Vector3.lengthSq v.
Proof. unfold Vector3.lengthSq. simpl. lra. Qed.

Lemma normalize_negate (v : Vector3) :
  Vector3.normalize (Vector3.negate v) = Vector3.negate (Vector3.normalize v).
Proof.
  unfold Vector3.normalize, Vector3.divideScalar, Vector3.length.
  rewrite lengthSq_negate. apply vector_eq; simpl; lra.
Qed.

Lemma pairForce_sym (bs : list BondData) (temp : R) (a1 a2 : AtomData) :
  pairForce bs temp a2 a1 = Vector3.negate <$> pairForce bs temp a1 a2.
Proof.
  unfold pairForce.
  assert (Hd : Vector3.subVectors (position a2) (position a1)
               = Vector3.negate (Vector3.subVectors (position a1) (position a2))).
  { apply vector_eq; simpl; lra. }
  rewrite Hd, normalize_negate. unfold Vector3.length. rewrite lengthSq_negate.
  destruct (ltb _ 0.1); simpl; [done |].
  rewrite pairForceMag_sym. f_equal. apply vector_eq; simpl; lra.
Qed.

(** X27.  The pair interaction of the physics loop does not depend on
    which of the two atoms comes first: computed for [(a2, a1)] the pair
    force is the negation of the one computed for [(a1, a2)] (and skipped
    in the same cases), and the accumulator after the loop body is the
    same. *)
Theorem X27_pair_order (bs : list BondData) (temp : R) (a1 a2 : AtomData) (F : Forces) :
  pairForce bs temp a2 a1 = Vector3.negate <$> pairForce bs temp a1 a2
  /\ applyPair bs temp a2 a1 F = applyPair bs temp a1 a2 F.
Proof.
  split; [apply pairForce_sym |].
  unfold applyPair. rewrite pairForce_sym.
  destruct (pairForce bs temp a1 a2) as [f |]; simpl; [| done].
  apply map_eq. intros id. unfold forceSub, forceAdd.
  destruct (decide (atom_id a1 = id)) as [E1 | E1],
    (decide (atom_id a2 = id)) as [E2 | E2];
    repeat first [ rewrite E1 | rewrite E2
                 | rewrite lookup_alter_eq
                 | rewrite lookup_alter_ne by congruence ];
    try done;
    destruct (F !! id) as [v |]; simpl; try done;
    f_equal; apply vector_eq; simpl; lra.
Qed.

(** ** The labels of the nucleus and of the analysis panel *)

(** X28.  The phase label of [Nucleus] never moves backwards as the
    temperature rises (Solid, Liquid, Gas, Plasma in this order), whatever
    the melting and boiling points of the atom, and it is Plasma exactly
    above temperature 20. *)
Theorem X28_phase_label (atom : AtomData) (t1 t2 : R) :
  t1 <= t2 ->
  (phaseRank (phaseOf t1 atom) <= phaseRank (phaseOf t2 atom))%nat
  /\ (phaseOf t1 atom = Plasma <-> t1 > 20).
Proof.
  intros Ht. unfold phaseOf.
  destruct (ltb t1 (meltingPoint atom)) eqn:E1, (gtb t1 (boilingPoint atom)) eqn:E2,
    (gtb t1 20.0) eqn:E3, (ltb t2 (meltingPoint atom)) eqn:E4,
    (gtb t2 (boilingPoint atom)) eqn:E5, (gtb t2 20.0) eqn:E6;
    try apply ltb_spec in E1; try apply gtb_spec in E2; try apply gtb_spec in E3;
    try apply ltb_spec in E4; try apply gtb_spec in E5; try apply gtb_spec in E6;
    simpl; (split; [try lia | split; intros; try done; try lra]);
    try lra;
    repeat match goal with
           | H : ltb ?a ?b = false |- _ =>
               assert (b <= a)
                 by (destruct (Rle_or_lt b a) as [? | Hc]; [done |];
                     apply ltb_spec in Hc; congruence);
               clear H
           | H : gtb ?a ?b = false |- _ =>
               assert (a <= b)
                 by (destruct (Rle_or_lt a b) as [? | Hc]; [done |];
                     apply gtb_spec in Hc; congruence);
               clear H
           end;
    lra.
Qed.

Lemma X28_phase_label_witness :
  (phaseRank (phaseOf 1 carbonA) <= phaseRank (phaseOf 40 carbonA))%nat
  /\ (phaseOf 1 carbonA = Plasma <-> 1 > 20).
Proof. apply (X28_phase_label carbonA 1 40); lra. Defined.

(** X29.  The analysis panel predicts the bond the chemistry engine
    forms.  When the engine forms a bond between two atoms that carry the
    electronegativity of their type (as every atom the application creates
    does), the bond is ionic if the panel labels the two atoms as ionic,
    and covalent if the panel labels them as polar or nonpolar covalent;
    the panel always has a label for two atoms. *)
Theorem X29_panel_predicts_bond (ionicRestLength covalentRestLength : AtomData -> AtomData -> R)
    (temp : R) (st : ChemState) (i j : nat) (a1 a2 : AtomData) (b : BondData) :
  chem_atoms st !! i = Some a1 -> chem_atoms st !! j = Some a2 ->
  electronegativity a1 = cfg_electronegativity (ATOM_CONFIGS (atom_type a1)) ->
  electronegativity a2 = cfg_electronegativity (ATOM_CONFIGS (atom_type a2)) ->
  chem_bonds (chemistryPair ionicRestLength covalentRestLength temp st (i, j))
  = chem_bonds st ++ [b] ->
  match interactionLabel (nucleusItem a1) (nucleusItem a2) with
  | Some label_ionic => bond_type b = ionic
  | Some _ => bond_type b = covalent
  | None => False
  end.
Proof.
  intros H1 H2 He1 He2 Hb.
  unfold interactionLabel, nucleusItem. simpl. rewrite He1, He2. fold (deltaEN a1 a2).
  destruct (chemistryPair_cases ionicRestLength covalentRestLength temp st (i, j))
    as [Hsame | (a1' & a2' & H1' & H2' & _ & Hcase)].
  - rewrite Hsame in Hb. apply (f_equal (@List.length BondData)) in Hb.
    rewrite length_app in Hb. simpl in Hb. lia.
  - simpl in H1', H2'. rewrite H1 in H1'. rewrite H2 in H2'.
    injection H1' as <-. injection H2' as <-.
    destruct Hcase as [(Hen & _ & Hres) | (Hen & _ & Hres)];
      rewrite Hres in Hb; simpl in Hb; apply app_inv_head in Hb;
      injection Hb as <-; simpl.
    + by rewrite gtb_true by done.
    + rewrite gtb_false by done. by destruct (gtb _ 0.4).
Qed.

Lemma X29_panel_predicts_bond_witness :
  match interactionLabel (nucleusItem sodium) (nucleusItem chlorineL) with
  | Some label_ionic =>
      bond_type (mkBond (serial 0%nat) "na" "cl1" BOND_STRENGTH_IONIC
                        (V1.ionicRestLength sodium chlorineL) Single ionic) = ionic
  | Some _ =>
      bond_type (mkBond (serial 0%nat) "na" "cl1" BOND_STRENGTH_IONIC
                        (V1.ionicRestLength sodium chlorineL) Single ionic) = covalent
  | None => False
  end.
Proof.
  apply (X29_panel_predicts_bond V1.ionicRestLength V1.covalentRestLength 1 saltPair
           0 1 sodium chlorineL).
  - reflexivity.
  - reflexivity.
  - reflexivity.
  - reflexivity.
  - change (chemistryPair V1.ionicRestLength V1.covalentRestLength 1 saltPair (0, 1)%nat)
      with (chemistryFire V1.ionicRestLength V1.covalentRestLength 1 saltPair).
    by rewrite salt_fire.
Defined.
